(* ===== verification/_CoqProject ===== *)
-Q . S2P
Prelude.v
GoStrings.v
Kube.v
VpcTypes.v
VpcConfig.v
VpcUpdates.v
UpdateSpec.v
UpdatePlan.v
VpcSdk.v
StaticVpc.v
Logging.v
VpcLbaas.v
LbaasProps.v
VpcProvider.v
ProviderProps.v
Observation.v
VpcSdkFake.v
VpcSdkGen2.v
Gen2Props.v
LbEffects.v
FakeProps.v
Gen2Effects.v
Serving.v
StoreVpc.v
Convergence.v
Progress.v
Resume.v
Footprint.v
EnsureProps.v
CreateOnce.v
Services.v
Gen2Services.v
TwoStores.v
Creation.v
Provision.v
VpcCloud.v
CloudConfig.v
NodeMetadata.v
NodeCache.v
WakeUp.v
Cloud.v
CredentialWatch.v
CloudProps.v
CloudConvergence.v
CloudStart.v
CloudTasks.v
MonitorRace.v
CloudInterface.v
Command.v
