(* ===== verification/Prelude.v ===== *)
(** * A verification of the IBM Cloud provider for Kubernetes

    The program is the cloud controller of IBM Cloud clusters.  Kubernetes asks
    it for load balancers; on VPC infrastructure it creates, updates and deletes
    load balancers of the VPC service, watches over them, and describes the
    nodes.  This library models the Go code under src/pkg/vpcctl, src/ibm and
    src/pkg/classic as functions in a state-and-error monad and proves what the
    code promises.

    ** The parts of the program and the files that model them

    - Prelude (this file): outcomes of Go calls (value, error, panic), the monad
      [M], loops, weakest preconditions, shared lemmas and tactics.
    - GoStrings: strings, strconv, sort and fmt, as far as they are used.
    - Kube: the fields of the Kubernetes objects the program reads, events, and
      the client as classes.
    - VpcTypes: vpc_sdk_base.go - the VPC data, pool names, service options.
    - VpcConfig: vpc_config.go - configuration, node and subnet selection,
      validation of services.
    - VpcUpdates: vpc_lbaas.go, the check functions - the updates of a load
      balancer as lines of text, computed in eight steps.  UpdateSpec gives the
      updates as data and the reference for step 8; UpdatePlan gives the
      reference plan and proves that the source computes it.
    - VpcSdk: the interface [CloudVpcSdk], the environment [Env] of the cloud
      logic, the laws [SdkIdentity] and [SdkWords] it relies on, SDK calls as
      data ([Call]), and the logic [emits] about what a program calls and which
      events it records.  StaticVpc is a concrete SDK for examples.
    - VpcLbaas, LbaasProps: vpc_lbaas.go - find, create, update, await, delete.
    - VpcProvider, ProviderProps: vpc_provider.go - what the service controller
      calls, gathering, monitoring.
    - Observation: that observing an SDK does not change what a program does.
    - VpcSdkFake, FakeProps: the mock SDK, whose objects live in a heap and are
      shared with its callers.  VpcSdkGen2, Gen2Props: the SDK over the IBM
      client, its requests, conversions and pagination.
    - LbEffects: what a request changes of the stored load balancer
      ([SdkEffects]); Gen2Effects derives it for the Gen2 SDK from the client's
      documented behaviour ([VpcV1Effects]).  Serving: that the service answers
      what its rules admit ([SdkServes], [VpcV1Serves]).  StoreVpc is a concrete
      client that does both.
    - Convergence, Progress, Resume, EnsureProps, Creation, Provision: an update that
      succeeds reaches its goal, a served update succeeds, a failed one can be
      taken up again, repeated calls settle, and a missing load balancer is
      created and needs no update.  CloudConvergence lifts this to sequences of
      calls of the cloud provider.
    - Footprint: which requests an operation can make at all ([uses]).  From it
      Services (with Gen2Services and the example TwoStores) shows that calls
      for several services do not disturb each other, and CreateOnce that there
      is never a second load balancer with a name.
    - VpcCloud: NewCloudVpc, the choice and construction of the SDK, the
      process-wide cloud object ([Process]).
    - CloudConfig, Cloud, CloudProps: ibm.go, ibm_loadbalancer.go,
      ibm_vpc_cloud.go, ibm_eventrecorder.go, pkg/classic - the entry points.
      CloudStart: when NewCloud builds the provider.  CloudInterface: the
      accessors of the provider interface, the methods that are not
      implemented, and the construction of the event recorder.
    - MonitorRace: the monitor task while the cluster changes under it.
    - Logging: pkg/klog/logger.go.
    - CredentialWatch: the goroutine of ibm_vpc_cloud.go that watches the
      credential file, among the calls and lookups it races with.
    - WakeUp: the channel and mutex of ibm_vpc_cloud.go that release the calls
      waiting for nodes.
    - NodeMetadata, NodeCache: ibm_metadata_service.go, ibm_vpc_client.go,
      ibm_instances.go, ibm_zones.go, ibm_node_watch.go.
    - CloudTasks: ibm_task.go.
    - Command: main.go, ibm_version.go and the registration in ibm.go, over an
      unspecified command line and controller framework.

    Control flows from Cloud (and the monitor task) through VpcCloud, which
    builds a cloud object once, to VpcProvider, VpcLbaas, VpcUpdates and the SDK.
    A definition has the name of the function it models; where two Go functions
    share a name, a prefix tells them apart ([Cloud_], [Classic_], [Gen2_],
    [Fake_]).  A receiver's fields become a record; what Go changes through a
    pointer is returned or is part of the state.

    ** How behaviour is modelled

    A call that can fail or act is an [outcome] or an [M S A].  The SDK acts on a
    world [W] about which nothing is assumed: theorems hold for every SDK, in
    every world, and the ones that need a promise name it as a class of laws
    that VpcSdkGen2 is proved to keep, over a client with the documented
    behaviour.  To speak of the calls a program makes, it is run over the same
    SDK, observed ([traced], [trace_cloud]).  Pointers are values, except where
    the code writes through one that others hold: the pools an SDK hands out
    ([sdk_written]), the mocks ([mock_heap]), the tasks.  The order in which Go ranges over a
    map is an arbitrary permutation, drawn anew for each loop ([MapIteration]).
    Concurrent code is a step relation: one step per atomic action.

    ** What the theorems show

    - The update of a load balancer: the eight passes over pools and text lines
      compute the reference plan; the plan is empty exactly when listeners,
      pools, members, health monitors and proxy protocol fit the service; it
      obeys the ordering rules the source states; step 8 merges member updates;
      every run performs an initial part of the plan, one request each, each but
      the first on a load balancer seen ready, within 17 calls per update.
    - Convergence: over an SDK whose requests have their effects, a successful
      update leaves the load balancer in sync ([up_to_date]) and the next plan is
      empty, with one exception that [caught_up] states: the Gen2 SDK creates the
      pool of a port that had none without the proxy protocol, so a service that
      asks for it is in sync after the next update only.  Over an SDK that also
      answers what its rules admit, the update succeeds, even after calls that
      failed half-way, as long as a request that was not answered has changed
      nothing ([SdkAtomic]); so a call of EnsureLoadBalancer reaches the goal,
      whether it finds the load balancer or creates it (then without the
      exception), and once it is in sync the calls after it change nothing.
      With several services, each with its load balancer, each of them reaches
      its goal whatever happens to the others; and no name gets two load
      balancers, also when answers are lost.
    - The operations: for every branch, which calls are made, which events are
      recorded, and how the operation ends; writes happen only where they should.
    - The monitor: statuses and events for every map order; only ready load
      balancers of the cluster that no listed service claims are deleted; while
      services and load balancers change and listings and deletions fail, none
      that a supported LoadBalancer service without a class claims, if load
      balancers take longer to get ready than passes between the two listings of
      the run and no service returns to a name it had given up since the services
      were listed.
    - The entry points: what is refused without a call; the monitor task works on
      exactly the supported load balancer services without a class; the provider
      starts exactly on a usable configuration, with or without the VPC; a call
      runs the VPC logic exactly if there is a VPC object for it or one can be
      built.
    - The SDK: templates agree with what the plan checks, all pages are read, the
      laws and effects hold.
    - Codecs and parsers: pool names, names of load balancers, annotations.
    - Concurrency: the wake-up channel is closed once and no call waits for ever;
      cache hits are fresh under every interleaving; one live goroutine per task,
      and a stopped one starts the task function at most once more; without a
      reset between a call's read and store and without a failed read of the
      watching goroutine, the VPC object has the credential of the file, if it is
      valid, once all events have been dealt with.
    - The process: exactly when it ends with code 0, for every kind of command
      line.
    - A few theorems exhibit behaviour that departs from a comment or from what
      is meant: filterSubnetsByName_substring, monitor_misses_named_load_balancer,
      monitor_deletes_node_port_load_balancer, monitor_race, monitor_return,
      Gen2_CreateLoadBalancerPool_no_proxy, planUpdates_create_not_last,
      credential_missed, credential_watch_race, stopped_task_starts,
      mock_update_last and others of this kind.

    ** Bounds and fuel

    The wait loop runs at most maxWait/minSleep rounds, as the source does (15
    with the constants of UpdateLoadBalancer, of which the last does not look at
    what it reads: a service is waited for if it is busy for fourteen waits at
    most, [GetsReady]).  The pagination loops of the
    source have no bound; [listPages] takes the number of pages it may read, and
    the theorem about it holds for every number that is at least the number of
    pages there are.  Port numbers are integers without width, since the API
    server keeps them within 16 bits ([valid_port]); the product of durations
    wraps at 64 bits ([wrap64]).  [strconv.Atoi] has the range check of 64-bit
    integers.

    ** What is not modelled

    The log calls inside the other operations: nothing reads what they write.
    What the framework does between its calls of the provider, the controllers
    it runs, and the recovery from panics that client-go does for a task.  The
    libraries the code calls - the VPC, resource manager and Kubernetes clients,
    gcfg, cobra, klog, fmt, the watcher of files - are parameters; where a
    theorem needs something they document, it is a named hypothesis. *)
From stdpp Require Export base gmap strings list sorting.

#[export] Set Warnings "-clear-no-such-hyp".

(** * Prelude: outcomes, the state-and-error monad, shared lemmas *)

Declare Scope go_scope.
Delimit Scope go_scope with go.

(** ** Errors and outcomes *)

(** A Go [error] value.  [ErrorString] is what [errors.New] and [fmt.Errorf]
    build; [NumError] is the structured error of package [strconv]. *)
Inductive NumErrorKind := ErrSyntax | ErrRange.
Inductive error :=
  | ErrorString (s : string)
  | NumError (fn num : string) (kind : NumErrorKind).

#[export] Instance NumErrorKind_eq_dec : EqDecision NumErrorKind.
Proof. solve_decision. Defined.
#[export] Instance error_eq_dec : EqDecision error.
Proof. solve_decision. Defined.

(** How a Go call ends: with a value and a nil error, with a non-nil error,
    or with a run-time panic. *)
Inductive outcome (A : Type) :=
  | Ok (a : A)
  | Err (e : error)
  | Panic (why : string).
Arguments Ok {A} a.
Arguments Err {A} e.
Arguments Panic {A} why.

#[export] Instance outcome_eq_dec {A} `{EqDecision A} : EqDecision (outcome A).
Proof. solve_decision. Defined.

#[export] Instance outcome_ret : MRet outcome := @Ok.
#[export] Instance outcome_bind : MBind outcome := λ A B f r,
  match r with
  | Ok a => f a
  | Err e => Err e
  | Panic w => Panic w
  end.
#[export] Instance outcome_fmap : FMap outcome := λ A B f r,
  match r with
  | Ok a => Ok (f a)
  | Err e => Err e
  | Panic w => Panic w
  end.

Definition is_Ok {A} (r : outcome A) : Prop := ∃ a, r = Ok a.
Definition is_Err {A} (r : outcome A) : Prop := ∃ e, r = Err e.
Definition no_panic {A} (r : outcome A) : Prop :=
  match r with Panic _ => False | _ => True end.

#[export] Instance is_Ok_dec {A} (r : outcome A) : Decision (is_Ok r).
Proof. destruct r; [left; by eexists|right; by intros []..]. Defined.

(** Indexing a Go slice panics out of range. *)
Definition index {A} (l : list A) (i : nat) : outcome A :=
  match l !! i with
  | Some x => Ok x
  | None => Panic "index out of range"
  end.

(** [for _, x := range l { acc = f(acc, x) }] where the body may leave the
    function with an error. *)
Fixpoint foldM {A B} (f : A → B → outcome A) (acc : A) (l : list B) : outcome A :=
  match l with
  | [] => Ok acc
  | x :: l' => f acc x ≫= λ acc', foldM f acc' l'
  end.

(** A loop whose body replaces the visited element (a pointer the loop body
    writes through) and threads an accumulator. *)
Fixpoint foldM_update {A B} (f : A → B → outcome (A * B)) (acc : A) (l : list B)
    : outcome (A * list B) :=
  match l with
  | [] => Ok (acc, [])
  | x :: l' =>
      f acc x ≫= λ '(acc', x'),
      foldM_update f acc' l' ≫= λ '(acc'', l''), Ok (acc'', x' :: l'')
  end.

(** ** The state-and-error monad *)

(** A stateful Go function: it ends with an outcome, and the state it reached
    survives an error. *)
Definition M (S A : Type) : Type := S → outcome A * S.

#[export] Instance M_ret {S} : MRet (M S) := λ A a s, (Ok a, s).
#[export] Instance M_bind {S} : MBind (M S) := λ A B f m s,
  match m s with
  | (Ok a, s') => f a s'
  | (Err e, s') => (Err e, s')
  | (Panic w, s') => (Panic w, s')
  end.

Definition fail {S A} (e : error) : M S A := λ s, (Err e, s).
Definition lift {S A} (r : outcome A) : M S A := λ s, (r, s).
Definition gets {S A} (f : S → A) : M S A := λ s, (Ok (f s), s).
Definition modify {S} (f : S → S) : M S unit := λ s, (Ok tt, f s).

(** [v, err := m()]: the caller looks at the error; a panic still unwinds. *)
Definition attempt {S A} (m : M S A) : M S (A + error) := λ s,
  match m s with
  | (Ok a, s') => (Ok (inl a), s')
  | (Err e, s') => (Ok (inr e), s')
  | (Panic w, s') => (Panic w, s')
  end.

Lemma run_Ok {S A B} (m : M S A) (f : A → M S B) s a s' :
  m s = (Ok a, s') → (m ≫= f) s = f a s'.
Proof. intros Hm. unfold mbind, M_bind. by rewrite Hm. Qed.

(** A loop with an effectful body. *)
Fixpoint forM {S A B} (f : A → B → M S A) (acc : A) (l : list B) : M S A :=
  match l with
  | [] => mret acc
  | x :: l' => f acc x ≫= λ acc', forM f acc' l'
  end.

Lemma bind_Ok {S A B} (m : M S A) (f : A → M S B) s b s2 :
  (m ≫= f) s = (Ok b, s2) → ∃ a s1, m s = (Ok a, s1) ∧ f a s1 = (Ok b, s2).
Proof.
  unfold mbind, M_bind. destruct (m s) as [[a| |] s1]; [|done..]. eauto.
Qed.

(** ** What a program leaves alone *)

Lemma bind_cases {S A B} (m : M S A) (f : A → M S B) s r s2 :
  (m ≫= f) s = (r, s2) →
  (∃ a s1, m s = (Ok a, s1) ∧ f a s1 = (r, s2)) ∨ (∃ o, m s = (o, s2) ∧ ¬ is_Ok o).
Proof.
  unfold mbind, M_bind. destruct (m s) as [[a|err|why] s1].
  - intros Hf. left. by exists a, s1.
  - intros [= _ <-]. right. exists (Err err). split; [done|by intros [? ?]].
  - intros [= _ <-]. right. exists (Panic why). split; [done|by intros [? ?]].
Qed.

(** However [m] ends, [view] of the state is as before. *)
Definition keeps {S T A} (view : S → T) (m : M S A) : Prop := ∀ s r s',
  m s = (r, s') → view s' = view s.

Section keeps.
Context {S T : Type} (view : S → T).

Lemma bind_keeps {A B} (m : M S A) (f : A → M S B) s r s' :
  keeps view m → (m ≫= f) s = (r, s') →
  view s' = view s ∨ ∃ a s1, m s = (Ok a, s1) ∧ view s1 = view s ∧ f a s1 = (r, s').
Proof.
  intros Hm [(a & s1 & Ha & Hr)|(o & Ho & _)]%bind_cases.
  - right. exists a, s1. split_and!; [done|by eapply Hm|done].
  - left. by eapply Hm.
Qed.
Lemma keeps_bind {A B} (m : M S A) (f : A → M S B) :
  keeps view m → (∀ a, keeps view (f a)) → keeps view (m ≫= f).
Proof.
  intros Hm Hf s r s' [?|(a & s1 & _ & Hs & Hr)]%bind_keeps; [done| |done].
  rewrite <- Hs. by eapply Hf.
Qed.
Lemma keeps_lift {A} (o : outcome A) : keeps view (lift o).
Proof. by intros s r s' [= _ <-]. Qed.
Lemma keeps_ret {A} (a : A) : keeps view (mret a).
Proof. by intros s r s' [= _ <-]. Qed.
Lemma keeps_fail {A} err : keeps view (fail (A := A) err).
Proof. by intros s r s' [= _ <-]. Qed.
Lemma keeps_forM {A B} (f : A → B → M S A) acc l :
  (∀ acc x, keeps view (f acc x)) → keeps view (forM f acc l).
Proof.
  intros Hf. revert acc. induction l as [|x l IH]; intros acc; [apply keeps_ret|].
  cbn [forM]. by apply keeps_bind.
Qed.
End keeps.

(** ** Weakest preconditions *)

(** [wp m Q s]: run from [s], [m] ends in an outcome and a state that
    satisfy [Q]. *)
Definition wp {S A} (m : M S A) (Q : outcome A → S → Prop) (s : S) : Prop :=
  Q (m s).1 (m s).2.

Notation "⦃ P ⦄ m ⦃ Q ⦄" := (∀ s, P s → wp m Q s)
  (at level 0, P at level 200, m at level 200, Q at level 200) : go_scope.

Section wp.
Context {S A B : Type}.
Implicit Types (s : S).

Lemma wp_bind (m : M S A) (f : A → M S B) Q s :
  wp (m ≫= f) Q s ↔
  wp m (λ r s', match r with
                | Ok a => wp (f a) Q s'
                | Err e => Q (Err e) s'
                | Panic w => Q (Panic w) s'
                end) s.
Proof. unfold wp, mbind, M_bind. by destruct (m s) as [[] ?]. Qed.

Lemma wp_ret (a : A) Q s : wp (mret a) Q s ↔ Q (Ok a) s.
Proof. done. Qed.
Lemma wp_fail e (Q : outcome A → S → Prop) s : wp (fail e) Q s ↔ Q (Err e) s.
Proof. done. Qed.
Lemma wp_lift (r : outcome A) Q s : wp (lift r) Q s ↔ Q r s.
Proof. done. Qed.
Lemma wp_gets (f : S → A) Q s : wp (gets f) Q s ↔ Q (Ok (f s)) s.
Proof. done. Qed.
Lemma wp_modify (f : S → S) Q s : wp (modify f) Q s ↔ Q (Ok tt) (f s).
Proof. done. Qed.

Lemma wp_attempt (m : M S A) Q s :
  wp (attempt m) Q s ↔
  wp m (λ r s', match r with
                | Ok a => Q (Ok (inl a)) s'
                | Err e => Q (Ok (inr e)) s'
                | Panic w => Q (Panic w) s'
                end) s.
Proof. unfold wp, attempt. by destruct (m s) as [[] ?]. Qed.

Lemma wp_mono (m : M S A) (Q Q' : outcome A → S → Prop) s :
  wp m Q s → (∀ r s', Q r s' → Q' r s') → wp m Q' s.
Proof. unfold wp. auto. Qed.

Lemma wp_and (m : M S A) (Q Q' : outcome A → S → Prop) s :
  wp m Q s → wp m Q' s → wp m (λ r s', Q r s' ∧ Q' r s') s.
Proof. done. Qed.
End wp.

(** [Proper] instances: weakest preconditions respect pointwise equivalence
    of their postconditions, so equivalences can be rewritten under [wp]. *)
#[export] Instance wp_proper {S A} (m : M S A) :
  Proper (pointwise_relation (outcome A) (pointwise_relation S iff) ==>
          pointwise_relation S iff) (wp m).
Proof. intros Q Q' HQ s. unfold wp. apply HQ. Qed.

(** The invariant rule for effectful loops. *)
Lemma wp_forM {S A B} (f : A → B → M S A) (I : A → S → Prop) (E : outcome A → S → Prop) :
  ∀ (l : list B) (acc : A) (s : S),
  I acc s →
  (∀ x acc s, x ∈ l → I acc s →
     wp (f acc x) (λ r s', match r with Ok a => I a s' | r => E r s' end) s) →
  wp (forM f acc l) (λ r s', match r with Ok a => I a s' | r => E r s' end) s.
Proof.
  induction l as [|x l IH]; intros acc s HI Hf; [done|].
  cbn [forM]. apply wp_bind. eapply wp_mono.
  { apply Hf; [left|done]. }
  intros [a|e|w] s' HQ; try done.
  apply IH; [done|]. intros; apply Hf; [by right|done].
Qed.

(** ** Generic lemmas *)

Lemma foldM_invariant {A B} (P : A → Prop) (f : A → B → outcome A) l :
  (∀ acc x acc', x ∈ l → P acc → f acc x = Ok acc' → P acc') →
  ∀ acc r, P acc → foldM f acc l = Ok r → P r.
Proof.
  induction l as [|x l IH]; intros Hf acc r HP Hr; simplify_eq/=; [done|].
  destruct (f acc x) as [acc'|e|w] eqn:Hx; simplify_eq/=.
  eapply IH; [|by eapply Hf; [left|..]|done].
  intros; eapply Hf; [by right|done..].
Qed.

Lemma foldM_no_panic {A B} (f : A → B → outcome A) l acc :
  (∀ acc x, x ∈ l → no_panic (f acc x)) → no_panic (foldM f acc l).
Proof.
  revert acc. induction l as [|x l IH]; intros acc Hf; [done|]; cbn.
  specialize (Hf acc x ltac:(left)) as Hx.
  destruct (f acc x); cbn; try done. apply IH. intros; apply Hf. by right.
Qed.

(** A fold whose every step appends a chunk that does not depend on the
    accumulator appends the concatenation of the chunks. *)
Lemma foldM_append {A B} (f : list A → B → outcome (list A)) (g : B → list A) l acc :
  (∀ acc x, x ∈ l → f acc x = Ok (acc ++ g x)) →
  foldM f acc l = Ok (acc ++ (l ≫= g)).
Proof.
  revert acc. induction l as [|x l IH]; intros acc Hf; cbn.
  { by rewrite app_nil_r. }
  rewrite Hf by left. cbn. rewrite IH; [by rewrite (assoc_L (++))|].
  intros; apply Hf. by right.
Qed.

Lemma foldM_fmap {A B C} (f : A → C → outcome A) (h : B → C) l acc :
  foldM f acc (h <$> l) = foldM (λ acc x, f acc (h x)) acc l.
Proof.
  revert acc. induction l as [|x l IH]; intros acc; [done|]; cbn.
  destruct (f acc (h x)); cbn; [apply IH|done..].
Qed.

Lemma fold_left_append {A B} (f : list A → B → list A) (g : B → list A) l acc :
  (∀ acc x, x ∈ l → f acc x = acc ++ g x) → fold_left f l acc = acc ++ (l ≫= g).
Proof.
  revert acc. induction l as [|x l IH]; intros acc Hf; cbn.
  { by rewrite app_nil_r. }
  rewrite Hf by left. rewrite IH; [by rewrite (assoc_L (++))|].
  intros; apply Hf. by right.
Qed.

Lemma bind_filter {A B} (P : A → Prop) `{∀ x, Decision (P x)} (g : A → list B) l :
  filter P l ≫= g = l ≫= λ x, if decide (P x) then g x else [].
Proof.
  induction l as [|x l IH]; [done|]. rewrite filter_cons. cbn. rewrite <- IH.
  by case_decide.
Qed.

Lemma fmap_filter_bind {A B} (P : A → Prop) `{∀ x, Decision (P x)} (f : A → B) l :
  f <$> filter P l = l ≫= λ x, if decide (P x) then [f x] else [].
Proof.
  induction l as [|x l IH]; [done|]. rewrite filter_cons. cbn. rewrite <- IH.
  by case_decide.
Qed.

Lemma fmap_list_bind {A B C} (f : B → C) (g : A → list B) l :
  f <$> (l ≫= g) = l ≫= λ x, f <$> g x.
Proof.
  induction l as [|x l IH]; [done|]. cbn. rewrite <- IH. apply fmap_app.
Qed.

Lemma bind_cong {A B} (f g : A → list B) l :
  (∀ x, x ∈ l → f x = g x) → l ≫= f = l ≫= g.
Proof.
  induction l as [|x l IH]; intros Hfg; [done|]. cbn. rewrite (Hfg x) by left. f_equal.
  apply IH. intros; apply Hfg. by right.
Qed.

Lemma bind_nil {A B} (g : A → list B) l : l ≫= g = [] ↔ ∀ x, x ∈ l → g x = [].
Proof.
  induction l as [|x l IH]; cbn.
  - split; [|done]. intros _ x ?%not_elem_of_nil. done.
  - rewrite app_nil, IH. setoid_rewrite elem_of_cons. naive_solver.
Qed.
Lemma fmap_filter_nil {A B} (P : A → Prop) `{∀ x, Decision (P x)} (f : A → B) l :
  f <$> filter (λ x, ¬ P x) l = [] ↔ ∀ x, x ∈ l → P x.
Proof.
  rewrite fmap_filter_bind, bind_nil. split; intros Hl x Hx; specialize (Hl x Hx).
  - destruct (decide (P x)) as [|Hn]; [done|]. by rewrite (decide_True _ _ Hn) in Hl.
  - by rewrite decide_False by tauto.
Qed.

Section filter_facts.
Context {A : Type} (P : A → Prop) `{∀ x, Decision (P x)}.

Lemma filter_ext_in (Q : A → Prop) `{∀ x, Decision (Q x)} (l : list A) :
  (∀ x, x ∈ l → P x ↔ Q x) → filter P l = filter Q l.
Proof.
  induction l as [|x l IH]; intros Hl; [done|]. rewrite !filter_cons.
  rewrite IH by (intros y Hy; apply Hl; by right). apply decide_ext, Hl. left.
Qed.
Lemma filter_none (l : list A) : (∀ x, x ∈ l → ¬ P x) → filter P l = [].
Proof.
  induction l as [|x l IH]; intros Hl; [done|]. rewrite filter_cons, decide_False.
  - apply IH. intros y Hy. apply Hl. by right.
  - apply Hl. left.
Qed.
Lemma filter_all (l : list A) : (∀ x, x ∈ l → P x) → filter P l = l.
Proof.
  induction l as [|x l IH]; intros Hl; [done|]. rewrite filter_cons, decide_True.
  - rewrite IH; [done|]. intros y Hy. apply Hl. by right.
  - apply Hl. left.
Qed.

(** Only one of the parts of a list holds elements that are kept. *)
Lemma filter_bind_one {B} (g : B → list A) (l : list B) v :
  NoDup l → (∀ u x, u ∈ l → x ∈ g u → P x ↔ u = v) →
  (v ∈ l → filter P (l ≫= g) = g v) ∧ (v ∉ l → filter P (l ≫= g) = []).
Proof.
  induction 1 as [|u l Hu Hl IH]; intros Hg; [by split; [intros ?%not_elem_of_nil|]|].
  cbn. rewrite filter_app. destruct IH as [IH1 IH2]; [intros w x Hw; apply Hg; by right|].
  assert (∀ x, x ∈ g u → P x ↔ u = v) as Hgu by (intros x; apply Hg; left).
  split.
  - intros [<-|Hv]%elem_of_cons.
    + rewrite IH2, app_nil_r by done. apply filter_all. intros x Hx. by apply Hgu.
    + rewrite IH1, filter_none; [done| |done]. intros x Hx Heq%Hgu; [|done]. by subst.
  - intros Hv. rewrite not_elem_of_cons in Hv. destruct Hv as [Hne Hv].
    rewrite IH2, filter_none; [done| |done]. intros x Hx Heq%Hgu; [|done]. by subst.
Qed.
End filter_facts.

(** Where an element of a list extended at its end lies. *)
Lemma snoc_middle {A} (l l1 l2 : list A) (x y : A) :
  l ++ [y] = l1 ++ x :: l2 →
  (l2 = [] ∧ y = x ∧ l = l1) ∨ (∃ l2', l2 = l2' ++ [y] ∧ l = l1 ++ x :: l2').
Proof.
  destruct l2 as [|z l2 _] using rev_ind; intros H.
  - apply app_inj_tail in H as [-> ->]. by left.
  - right. exists l2. rewrite app_comm_cons, (assoc_L (++)) in H.
    apply app_inj_tail in H as [-> ->]. done.
Qed.

(** A key that does not repeat determines its element. *)
Lemma NoDup_key {A B} (f : A → B) l x y :
  NoDup (f <$> l) → x ∈ l → y ∈ l → f x = f y → x = y.
Proof.
  intros Hn [i Hi]%list_elem_of_lookup [j Hj]%list_elem_of_lookup Hxy.
  assert (i = j) as ->; [|congruence].
  eapply (NoDup_lookup _ _ _ (f x) Hn); rewrite list_lookup_fmap, ?Hi, ?Hj; cbn; congruence.
Qed.

Lemma StronglySorted_weaken {A} (R R' : A → A → Prop) l :
  (∀ x y, R x y → R' x y) → StronglySorted R l → StronglySorted R' l.
Proof.
  intros HR. induction 1 as [|x l Hl IH Hx]; constructor; [done|].
  eapply Forall_impl; [exact Hx|]. auto.
Qed.

(** What comes after an element of a sorted list. *)
Lemma sorted_after {A} (R : A → A → Prop) l1 x l2 y :
  StronglySorted R (l1 ++ x :: l2) → y ∈ l2 → R x y.
Proof.
  intros Hs Hy. apply StronglySorted_app in Hs as (_ & _ & Hs).
  apply StronglySorted_cons in Hs as [Hs _]. by eapply (proj1 (Forall_forall _ _) Hs).
Qed.

Lemma existsb_false {A} (f : A → bool) l :
  existsb f l = false ↔ Forall (λ x, f x = false) l.
Proof.
  induction l as [|x l IH]; cbn; [by split|]. by rewrite orb_false_iff, IH, Forall_cons.
Qed.
Lemma existsb_true {A} (f : A → bool) l : existsb f l = true ↔ ∃ x, x ∈ l ∧ f x = true.
Proof. rewrite existsb_exists. by setoid_rewrite list_elem_of_In. Qed.

Lemma find_some_first {A} (P : A → bool) (l : list A) x :
  List.find P l = Some x ↔
  ∃ l1 l2, l = l1 ++ x :: l2 ∧ P x = true ∧ Forall (λ y, P y = false) l1.
Proof.
  induction l as [|y l IH]; cbn.
  - split; [done|]. intros (l1 & l2 & ? & _). by destruct l1.
  - destruct (P y) eqn:Hy.
    + split; [intros [= ->]; by exists [], l|].
      intros ([|z l1] & l2 & Heq & Hx & Hl1); simplify_eq/=; [done|].
      inversion Hl1; congruence.
    + rewrite IH. split.
      * intros (l1 & l2 & -> & ? & ?). exists (y :: l1), l2. auto.
      * intros ([|z l1] & l2 & Heq & Hx & Hl1); simplify_eq/=; [congruence|].
        inversion Hl1; subst. by exists l1, l2.
Qed.

(** ** Tactics and hints *)

(** Case analysis on every test of a handler, keeping the equations. *)
Ltac case_guards := repeat (case_match; simplify_eq/=).

(** Push a [wp] goal through the monadic operations. *)
Ltac wp_step :=
  first
    [ apply wp_bind | apply wp_ret | apply wp_fail | apply wp_lift
    | apply wp_gets | apply wp_modify | apply wp_attempt ].

(** Run a monadic program whose sub-calls have known results. *)
Ltac run_bind H := unfold mbind, M_bind; rewrite H; cbn.

(** Decide a concrete proposition by evaluating its decision procedure. *)
Ltac by_decision := refine (bool_decide_eq_true_1 _ _); vm_compute; reflexivity.

Create HintDb outcomes.
#[export] Hint Extern 1 (is_Ok (Ok _)) => eexists; reflexivity : outcomes.
#[export] Hint Extern 1 (is_Err (Err _)) => eexists; reflexivity : outcomes.
#[export] Hint Extern 1 (no_panic (Ok _)) => exact I : outcomes.
#[export] Hint Extern 1 (no_panic (Err _)) => exact I : outcomes.
