(* ===== verification/GoStrings.v ===== *)
(** * GoStrings: the parts of packages strings, strconv, sort and fmt the
    program uses

    Go strings are byte strings; they are [string] here, one [ascii] per byte.
    [strings.Fields] and [strings.TrimSpace] split at Unicode white space: a
    white-space rune is recognised by its UTF-8 bytes ([space_len]), so both
    functions are exact on every byte string.  [strings.ToLower] and
    [strings.EqualFold] fold the ASCII letters and the two non-ASCII runes whose
    simple folding is an ASCII letter; [equalFold] is exact as soon as one of
    its arguments is ASCII, which every call site guarantees. *)
From S2P Require Import Prelude.
From Stdlib Require Export Ascii.
From Stdlib Require Import DecimalString DecimalZ DecimalPos.

#[local] Arguments String.append : simpl nomatch.

Definition byte (c : ascii) : N := N_of_ascii c.
Definition is_byte (n : N) (c : ascii) : bool := (byte c =? n)%N.

(** ** Substrings *)

(** [strings.HasPrefix] *)
Fixpoint hasPrefix (s p : string) {struct p} : bool :=
  match p, s with
  | EmptyString, _ => true
  | String a p', String b s' => if decide (a = b) then hasPrefix s' p' else false
  | String _ _, EmptyString => false
  end.

Fixpoint drop_bytes (n : nat) (s : string) : string :=
  match n, s with
  | S n', String _ s' => drop_bytes n' s'
  | _, _ => s
  end.
(** [s[:n]] for [n] at most the length. *)
Fixpoint take_bytes (n : nat) (s : string) : string :=
  match n, s with
  | S n', String c s' => String c (take_bytes n' s')
  | _, _ => EmptyString
  end.

(** [strings.TrimPrefix] *)
Definition trimPrefix (s p : string) : string :=
  if hasPrefix s p then drop_bytes (String.length p) s else s.

(** [strings.HasSuffix] *)
Definition hasSuffix (s p : string) : bool :=
  (String.length p <=? String.length s)%nat &&
  bool_decide (drop_bytes (String.length s - String.length p) s = p).

(** [strings.Contains] *)
Fixpoint contains (s sub : string) : bool :=
  hasPrefix s sub ||
  match s with
  | EmptyString => false
  | String _ s' => contains s' sub
  end.

(** [strings.Split] with a one-byte separator *)
Fixpoint split (sep : ascii) (s : string) : list string :=
  match s with
  | EmptyString => [""]
  | String c s' =>
      if decide (c = sep) then "" :: split sep s'
      else match split sep s' with
           | [] => [String c ""]
           | w :: ws => String c w :: ws
           end
  end.

Arguments split sep%_char_scope s.

(** [strings.Join] *)
Definition join (sep : string) (l : list string) : string := String.concat sep l.

(** [strings.ReplaceAll(s, c, "")] for a one-byte [c] *)
Fixpoint removeAll (c : ascii) (s : string) : string :=
  match s with
  | EmptyString => EmptyString
  | String b s' => if decide (b = c) then removeAll c s' else String b (removeAll c s')
  end.

Arguments removeAll c%_char_scope s.

(** Whether a byte occurs in a string. *)
Fixpoint has_byte (c : ascii) (s : string) : bool :=
  match s with
  | EmptyString => false
  | String b s' => bool_decide (b = c) || has_byte c s'
  end.

Arguments has_byte c%_char_scope s.

(** ** White space *)

(** The number of bytes of the white-space rune at the head of [s], 0 when
    there is none: the ASCII spaces, U+0085, U+00A0, U+1680, U+2000..U+200A,
    U+2028, U+2029, U+202F, U+205F and U+3000. *)
Definition space_len (s : string) : nat :=
  match s with
  | EmptyString => 0
  | String c s1 =>
      if is_byte 32 c || ((9 <=? byte c) && (byte c <=? 13))%N then 1
      else match s1 with
      | EmptyString => 0
      | String c1 s2 =>
          if is_byte 194 c && (is_byte 133 c1 || is_byte 160 c1) then 2
          else match s2 with
          | EmptyString => 0
          | String c2 _ =>
              if (is_byte 225 c && is_byte 154 c1 && is_byte 128 c2)
                 || (is_byte 226 c && is_byte 128 c1 &&
                     (((128 <=? byte c2) && (byte c2 <=? 138))%N
                      || is_byte 168 c2 || is_byte 169 c2 || is_byte 175 c2))
                 || (is_byte 226 c && is_byte 129 c1 && is_byte 159 c2)
                 || (is_byte 227 c && is_byte 128 c1 && is_byte 128 c2)
              then 3 else 0
          end
      end
  end.

Definition flush (cur : string) : list string :=
  match cur with EmptyString => [] | _ => [cur] end.

(** [skip] counts the remaining bytes of the rune being skipped. *)
Fixpoint fields_go (skip : nat) (cur s : string) : list string :=
  match s with
  | EmptyString => flush cur
  | String c s' =>
      match skip with
      | S k => fields_go k cur s'
      | O => match space_len s with
             | O => fields_go 0 (cur +:+ String c "") s'
             | S k => flush cur ++ fields_go k "" s'
             end
      end
  end.

(** [strings.Fields] *)
Definition fields (s : string) : list string := fields_go 0 "" s.

Fixpoint trim_left_go (skip : nat) (s : string) : string :=
  match s with
  | EmptyString => EmptyString
  | String c s' =>
      match skip with
      | S k => trim_left_go k s'
      | O => match space_len s with O => s | S k => trim_left_go k s' end
      end
  end.
Definition trim_left (s : string) : string := trim_left_go 0 s.
Fixpoint trim_right (s : string) : string :=
  match s with
  | EmptyString => EmptyString
  | String c s' => if decide (trim_left s = "") then "" else String c (trim_right s')
  end.
(** [strings.TrimSpace] *)
Definition trimSpace (s : string) : string := trim_right (trim_left s).

(** ** Case *)

Definition lower_byte (c : ascii) : ascii :=
  if ((65 <=? byte c) && (byte c <=? 90))%N then ascii_of_N (byte c + 32) else c.

(** [strings.ToLower] on ASCII letters; other bytes are kept. *)
Fixpoint toLower (s : string) : string :=
  match s with
  | EmptyString => EmptyString
  | String c s' => String (lower_byte c) (toLower s')
  end.

(** Simple case folding: ASCII letters, the Kelvin sign (E2 84 AA) to k and the
    long s (C5 BF) to s. *)
Fixpoint fold_case (s : string) : string :=
  match s with
  | EmptyString => EmptyString
  | String c s1 =>
      match s1 with
      | String c1 s2 =>
          if is_byte 197 c && is_byte 191 c1 then String "s" (fold_case s2)
          else match s2 with
          | String c2 s3 =>
              if is_byte 226 c && is_byte 132 c1 && is_byte 170 c2
              then String "k" (fold_case s3)
              else String (lower_byte c) (fold_case s1)
          | EmptyString => String (lower_byte c) (fold_case s1)
          end
      | EmptyString => String (lower_byte c) ""
      end
  end.

(** [strings.EqualFold] *)
Definition equalFold (s t : string) : bool := bool_decide (fold_case s = fold_case t).

(** ** Numbers *)

(** The [%d] verb on an integer. *)
Definition itoa (z : Z) : string := NilZero.string_of_int (Z.to_int z).

Definition digit (c : ascii) : option Z :=
  if ((48 <=? byte c) && (byte c <=? 57))%N then Some (Z.of_N (byte c) - 48)%Z else None.

Definition maxUint64 : Z := 2 ^ 64 - 1.

(** The loop of [strconv.ParseUint] in base 10: a syntax error at the first
    byte that is not a digit, a range error as soon as 64 bits overflow. *)
Fixpoint parseUint_go (n : Z) (s : string) : Z + NumErrorKind :=
  match s with
  | EmptyString => inl n
  | String c s' =>
      match digit c with
      | None => inr ErrSyntax
      | Some d =>
          if (maxUint64 / 10 + 1 <=? n)%Z then inr ErrRange
          else let n1 := (n * 10 + d)%Z in
               if (maxUint64 <? n1)%Z then inr ErrRange else parseUint_go n1 s'
      end
  end.

(** [strconv.Atoi]: an optional sign, decimal digits, the int64 range. *)
Definition atoi_kind (s : string) : Z + NumErrorKind :=
  let '(neg, digits) :=
    match s with
    | String "-" s' => (true, s')
    | String "+" s' => (false, s')
    | _ => (false, s)
    end in
  match digits with
  | EmptyString => inr ErrSyntax
  | _ =>
      match parseUint_go 0 digits with
      | inr k => inr k
      | inl un =>
          if neg then (if (2 ^ 63 <? un)%Z then inr ErrRange else inl (- un)%Z)
          else (if (2 ^ 63 <=? un)%Z then inr ErrRange else inl un)
      end
  end.
Definition atoi (s : string) : outcome Z :=
  match atoi_kind s with
  | inl z => Ok z
  | inr k => Err (NumError "Atoi" s k)
  end.

(** ** Sorting *)

(** [sort.Strings]: byte-wise order. *)
Definition sortStrings (l : list string) : list string := merge_sort String.le l.

(** ** Errors as text *)

Definition dquote : string := String "034" "".

Definition hex_digit (n : N) : ascii :=
  ascii_of_N (if (n <? 10)%N then 48 + n else 87 + n)%N.

(** One byte of [strconv.Quote]; bytes of non-ASCII runes are kept. *)
Definition quote_byte (c : ascii) : string :=
  let n := byte c in
  if (n =? 34)%N then String "\" dquote
  else if (n =? 92)%N then "\\"
  else if (n =? 7)%N then "\a" else if (n =? 8)%N then "\b"
  else if (n =? 12)%N then "\f" else if (n =? 10)%N then "\n"
  else if (n =? 13)%N then "\r" else if (n =? 9)%N then "\t"
  else if (n =? 11)%N then "\v"
  else if ((n <? 32) || (n =? 127))%N
  then "\x" +:+ String (hex_digit (n / 16)) (String (hex_digit (n mod 16)) "")
  else String c "".
Fixpoint quote_bytes (s : string) : string :=
  match s with
  | EmptyString => ""
  | String c s' => quote_byte c +:+ quote_bytes s'
  end.
Definition quote (s : string) : string := dquote +:+ quote_bytes s +:+ dquote.

(** [err.Error()] *)
Definition error_string (e : error) : string :=
  match e with
  | ErrorString s => s
  | NumError fn num k =>
      "strconv." +:+ fn +:+ ": parsing " +:+ quote num +:+ ": " +:+
      match k with ErrSyntax => "invalid syntax" | ErrRange => "value out of range" end
  end.

(** ** Lemmas: append, prefixes, substrings *)

Lemma app_nil_r_str (s : string) : s +:+ "" = s.
Proof. induction s; cbn; [done|by f_equal]. Qed.
Lemma app_assoc_str (a b c : string) : (a +:+ b) +:+ c = a +:+ b +:+ c.
Proof. induction a; cbn; [done|by f_equal]. Qed.
Lemma length_app_str (a b : string) :
  String.length (a +:+ b) = String.length a + String.length b.
Proof. induction a; cbn; [done|by f_equal]. Qed.
Lemma cons_app_str c (s : string) : String c s = String c "" +:+ s.
Proof. done. Qed.

Lemma hasPrefix_spec s p : hasPrefix s p = true ↔ ∃ t, s = p +:+ t.
Proof.
  revert s. induction p as [|a p IH]; intros s; cbn.
  { split; [intros _; by exists s|done]. }
  destruct s as [|b s]; [split; [done|intros [t Ht]; discriminate]|].
  case_decide as Hab; [subst b; rewrite IH|].
  - split; intros [t Ht]; exists t; [by rewrite Ht|by injection Ht].
  - split; [done|]. intros [t Ht]. injection Ht. congruence.
Qed.
Lemma hasPrefix_app s t : hasPrefix (s +:+ t) s = true.
Proof. apply hasPrefix_spec. by exists t. Qed.

Lemma drop_bytes_app s t : drop_bytes (String.length s) (s +:+ t) = t.
Proof. by induction s. Qed.
Lemma trimPrefix_app s t : trimPrefix (s +:+ t) s = t.
Proof. unfold trimPrefix. by rewrite hasPrefix_app, drop_bytes_app. Qed.

Lemma take_bytes_length n s : String.length (take_bytes n s) = Nat.min n (String.length s).
Proof. revert s. induction n; intros [|c s]; cbn; auto. Qed.
Lemma take_bytes_prefix n s : hasPrefix s (take_bytes n s) = true.
Proof.
  revert s. induction n; intros [|c s]; cbn; [done..|]. by rewrite decide_True.
Qed.

Lemma contains_spec s sub : contains s sub = true ↔ ∃ a b, s = a +:+ sub +:+ b.
Proof.
  induction s as [|c s IH]; cbn.
  - rewrite orb_false_r, hasPrefix_spec. split.
    + intros [t Ht]. by exists "", t.
    + intros (a & b & H). destruct a; [by exists b|discriminate].
  - rewrite orb_true_iff, hasPrefix_spec, IH. split.
    + intros [[t Ht]|(a & b & ->)]; [by exists "", t|by exists (String c a), b].
    + intros ([|c' a] & b & H); [left; by exists b|].
      injection H as -> ->. right. by exists a, b.
Qed.

(** ** Lemmas: bytes, split and join *)

Lemma has_byte_app c a b : has_byte c (a +:+ b) = has_byte c a || has_byte c b.
Proof. induction a; cbn; [done|]. by rewrite IHa, orb_assoc. Qed.

Lemma split_nonempty c s : split c s ≠ [].
Proof. destruct s; cbn; [done|]. by repeat case_match. Qed.

Lemma split_no_sep c s : has_byte c s = false → split c s = [s].
Proof.
  induction s as [|b s IH]; cbn; [done|].
  intros [Hb Hs]%orb_false_iff. apply bool_decide_eq_false in Hb.
  rewrite decide_False by done. by rewrite IH.
Qed.

Lemma split_app c s t :
  has_byte c s = false → split c (s +:+ String c t) = s :: split c t.
Proof.
  induction s as [|b s IH]; cbn; intros H.
  { by rewrite decide_True. }
  apply orb_false_iff in H as [Hb Hs]. apply bool_decide_eq_false in Hb.
  rewrite decide_False by done. by rewrite IH.
Qed.

(** Splitting what was joined gives the parts back. *)
Lemma split_join c l :
  l ≠ [] → Forall (λ s, has_byte c s = false) l → split c (join (String c "") l) = l.
Proof.
  intros Hl HF. induction HF as [|x l Hx HF IH]; [done|].
  destruct l as [|y l]; [by apply split_no_sep|].
  change (join (String c "") (x :: y :: l))
    with (x +:+ String c (join (String c "") (y :: l))).
  by rewrite split_app, IH.
Qed.

(** Joining what was split gives the string back. *)
Lemma join_split c s : join (String c "") (split c s) = s.
Proof.
  induction s as [|b s IH]; cbn; [done|].
  pose proof (split_nonempty c s) as Hne.
  case_decide as Hb; [subst b|]; destruct (split c s) as [|w ws] eqn:Hs; try done.
  - change (String c (join (String c "") (w :: ws)) = String c s). by rewrite IH.
  - change (join (String c "") (String b w :: ws))
      with (match ws with
            | [] => String b w
            | _ => String b w +:+ String c "" +:+ join (String c "") ws end).
    change (join (String c "") (w :: ws))
      with (match ws with
            | [] => w
            | _ => w +:+ String c "" +:+ join (String c "") ws end) in IH.
    destruct ws; by rewrite <- IH.
Qed.

Lemma split_part_no_sep c s w : w ∈ split c s → has_byte c w = false.
Proof.
  revert w. induction s as [|b s IH]; cbn; intros w.
  { rewrite list_elem_of_singleton. by intros ->. }
  case_decide as Hb.
  { rewrite elem_of_cons. intros [->|?]; [done|auto]. }
  destruct (split c s) as [|v vs] eqn:Hs; rewrite elem_of_cons.
  { by apply split_nonempty in Hs. }
  intros [->|Hw]; [cbn|apply IH; by right].
  rewrite bool_decide_eq_false_2 by done. apply IH. by left.
Qed.

Lemma join_inj c l1 l2 :
  l1 ≠ [] → l2 ≠ [] →
  Forall (λ s, has_byte c s = false) l1 → Forall (λ s, has_byte c s = false) l2 →
  join (String c "") l1 = join (String c "") l2 → l1 = l2.
Proof.
  intros ???? H. rewrite <- (split_join c l1), <- (split_join c l2) by done. by rewrite H.
Qed.

Lemma removeAll_no_byte c s : has_byte c (removeAll c s) = false.
Proof.
  induction s as [|b s IH]; cbn; [done|]. case_decide; [done|]. cbn.
  by rewrite bool_decide_eq_false_2, IH.
Qed.
Lemma removeAll_id c s : has_byte c s = false → removeAll c s = s.
Proof.
  induction s as [|b s IH]; cbn; [done|].
  intros [Hb Hs]%orb_false_iff. apply bool_decide_eq_false in Hb.
  rewrite decide_False by done. by rewrite IH.
Qed.

(** ** Lemmas: tokens and strings.Fields *)

(** No white-space rune starts at any byte. *)
Fixpoint no_space (s : string) : bool :=
  match s with
  | EmptyString => true
  | String _ s' => (space_len s =? 0)%nat && no_space s'
  end.

(** A word: what [strings.Fields] can return. *)
Definition token (s : string) : Prop := s ≠ "" ∧ no_space s = true.
#[export] Instance token_dec s : Decision (token s).
Proof. unfold token. apply _. Defined.

Lemma space_len_blank t : space_len (String " " t) = 1.
Proof. done. Qed.

(** White-space bytes after the first are not ASCII, so a blank after a word
    cannot complete a rune of the word. *)
Lemma space_len_app_blank c u t :
  space_len (String c (u +:+ String " " t)) = space_len (String c u).
Proof.
  destruct u as [|c1 [|c2 u]]; cbn -[N.eqb N.leb byte is_byte]; [|..|done].
  - destruct (is_byte 32 c || _); [done|].
    replace (is_byte 133 " ") with false by done.
    replace (is_byte 160 " ") with false by done.
    rewrite andb_false_r. destruct t as [|d t]; [done|].
    replace (is_byte 154 " ") with false by done.
    replace (is_byte 128 " ") with false by done.
    replace (is_byte 129 " ") with false by done.
    by rewrite !andb_false_r.
  - destruct (is_byte 32 c || _); [done|]. destruct (is_byte 194 c && _); [done|].
    replace (is_byte 128 " ") with false by done.
    replace (is_byte 159 " ") with false by done.
    replace ((128 <=? byte " ")%N) with false by done.
    replace (is_byte 168 " ") with false by done.
    replace (is_byte 169 " ") with false by done.
    replace (is_byte 175 " ") with false by done.
    by rewrite !andb_false_r.
Qed.

Lemma fields_go_word cur w t :
  no_space w = true →
  fields_go 0 cur (w +:+ String " " t) = flush (cur +:+ w) ++ fields t.
Proof.
  revert cur. induction w as [|c w IH]; intros cur Hw.
  - cbn [String.append fields_go]. rewrite space_len_blank. by rewrite app_nil_r_str.
  - cbn [no_space] in Hw. apply andb_true_iff in Hw as [Hc Hw]. apply Nat.eqb_eq in Hc.
    cbn [String.append fields_go]. rewrite space_len_app_blank, Hc, IH by done.
    by rewrite app_assoc_str.
Qed.

Lemma fields_go_last cur w :
  no_space w = true → fields_go 0 cur w = flush (cur +:+ w).
Proof.
  revert cur. induction w as [|c w IH]; intros cur Hw.
  - cbn. by rewrite app_nil_r_str.
  - cbn [no_space] in Hw. apply andb_true_iff in Hw as [Hc Hw]. apply Nat.eqb_eq in Hc.
    cbn [fields_go]. rewrite Hc, IH by done. by rewrite app_assoc_str.
Qed.

Lemma flush_token w : token w → flush w = [w].
Proof. intros [? _]. by destruct w. Qed.

Lemma fields_cons w t : token w → fields (w +:+ String " " t) = w :: fields t.
Proof.
  intros Hw. unfold fields at 1. rewrite fields_go_word by apply Hw.
  change ("" +:+ w) with w. by rewrite flush_token.
Qed.
Lemma fields_token w : token w → fields w = [w].
Proof.
  intros Hw. unfold fields. rewrite fields_go_last by apply Hw.
  change ("" +:+ w) with w. by apply flush_token.
Qed.

(** [strings.Fields] undoes a blank-separated [Sprintf]. *)
Lemma fields_join l : Forall token l → fields (join " " l) = l.
Proof.
  induction 1 as [|w l Hw HF IH]; [done|].
  destruct l as [|v l]; [by apply fields_token|].
  change (join " " (w :: v :: l)) with (w +:+ String " " (join " " (v :: l))).
  by rewrite fields_cons, IH.
Qed.

Lemma fields_flush_nonempty cur s : cur ≠ "" → fields_go 0 cur s ≠ [].
Proof.
  revert cur. induction s as [|c s IH]; intros cur Hcur; cbn [fields_go].
  { by destruct cur. }
  destruct (space_len _); [|by destruct cur].
  apply IH. by destruct cur.
Qed.

(** ** Lemmas: strings.TrimSpace *)

Lemma trim_left_word c s : space_len (String c s) = 0 → trim_left (String c s) = String c s.
Proof. unfold trim_left. cbn [trim_left_go]. by intros ->. Qed.

Lemma trim_left_go_skip_blank s : trim_left (String " " s) = trim_left s.
Proof. done. Qed.

Lemma no_space_head c s : no_space (String c s) = true → space_len (String c s) = 0.
Proof. cbn [no_space]. by intros [?%Nat.eqb_eq _]%andb_true_iff. Qed.

Lemma trim_right_no_space w : no_space w = true → trim_right w = w.
Proof.
  induction w as [|c w IH]; [done|]. intros Hw. pose proof (no_space_head _ _ Hw) as Hc.
  cbn [trim_right]. rewrite trim_left_word by done. rewrite decide_False by done.
  f_equal. apply IH. cbn [no_space] in Hw. by apply andb_true_iff in Hw as [_ ?].
Qed.

Lemma trim_right_word_app w s :
  no_space w = true → s ≠ "" → trim_left s ≠ "" → trim_right s = s →
  trim_right (w +:+ String " " s) = w +:+ String " " s.
Proof.
  intros Hw Hs Hl Hr. induction w as [|c w IH].
  - cbn [String.append trim_right]. rewrite trim_left_go_skip_blank.
    by rewrite decide_False, Hr.
  - pose proof (no_space_head _ _ Hw) as Hc.
    cbn [String.append trim_right].
    rewrite trim_left_word by (by rewrite space_len_app_blank).
    rewrite decide_False by done. f_equal. apply IH.
    cbn [no_space] in Hw. by apply andb_true_iff in Hw as [_ ?].
Qed.

(** Blank-separated words carry no outer white space. *)
Lemma join_tokens_trimmed l :
  Forall token l → l ≠ [] →
  trim_left (join " " l) = join " " l ∧ trim_right (join " " l) = join " " l ∧
  join " " l ≠ "".
Proof.
  induction 1 as [|w l [Hw0 Hw] HF IH]; intros Hl; [done|].
  destruct w as [|c w]; [done|].
  pose proof (no_space_head _ _ Hw) as Hc.
  destruct l as [|v l].
  - cbn [join String.concat]. split_and!; [by apply trim_left_word| |done].
    by apply trim_right_no_space.
  - change (join " " (String c w :: v :: l))
      with (String c w +:+ String " " (join " " (v :: l))).
    destruct IH as (H1 & H2 & H3); [done|].
    split_and!; [|by apply trim_right_word_app; rewrite ?H1|done].
    cbn [String.append]. apply trim_left_word. by rewrite space_len_app_blank.
Qed.

(** The argument text of an update line: the words after the first. *)
Lemma trimSpace_args w l :
  Forall token (w :: l) →
  trimSpace (trimPrefix (join " " (w :: l)) w) = join " " l.
Proof.
  intros [Hw HF]%Forall_cons. destruct l as [|v l].
  - change (join " " [w]) with w. rewrite <- (app_nil_r_str w) at 1.
    by rewrite trimPrefix_app.
  - change (join " " (w :: v :: l)) with (w +:+ String " " (join " " (v :: l))).
    rewrite trimPrefix_app. unfold trimSpace. rewrite trim_left_go_skip_blank.
    destruct (join_tokens_trimmed (v :: l)) as (-> & -> & _); done.
Qed.

(** ** Lemmas: strconv.Atoi and %d *)

Definition is_digit (c : ascii) : bool := ((48 <=? byte c) && (byte c <=? 57))%N.
Fixpoint all_digits (s : string) : bool :=
  match s with EmptyString => true | String c s' => is_digit c && all_digits s' end.

Lemma is_digit_range c : is_digit c = true → (48 ≤ byte c ≤ 57)%N.
Proof. unfold is_digit. intros [?%N.leb_le ?%N.leb_le]%andb_true_iff. done. Qed.

(** The value of a digit string, most significant digit first. *)
Fixpoint digits_value (n : Z) (s : string) : Z :=
  match s with
  | EmptyString => n
  | String c s' => digits_value (n * 10 + (Z.of_N (byte c) - 48)) s'
  end.

Lemma digits_value_ge s n : all_digits s = true → (0 ≤ n → n ≤ digits_value n s)%Z.
Proof.
  revert n. induction s as [|c s IH]; intros n; cbn [all_digits digits_value]; [lia|].
  intros [Hc%is_digit_range Hs]%andb_true_iff Hn.
  etrans; [|apply IH; [done|lia]]. lia.
Qed.

Lemma parseUint_digits s n :
  all_digits s = true → (0 ≤ n)%Z → (digits_value n s ≤ maxUint64)%Z →
  parseUint_go n s = inl (digits_value n s).
Proof.
  revert n. induction s as [|c s IH]; intros n; [done|].
  cbn [all_digits digits_value parseUint_go]. intros [Hc Hs]%andb_true_iff Hn Hmax.
  unfold digit. fold (is_digit c). rewrite Hc. apply is_digit_range in Hc.
  pose proof (digits_value_ge s (n * 10 + (Z.of_N (byte c) - 48)) Hs ltac:(lia)) as Hge.
  assert (n * 10 ≤ maxUint64)%Z as Hn10 by lia.
  destruct (Z.leb_spec (maxUint64 / 10 + 1) n) as [Hcut|_].
  { change (maxUint64 / 10 + 1)%Z with 1844674407370955162%Z in Hcut.
    change maxUint64 with 18446744073709551615%Z in Hn10. lia. }
  destruct (Z.ltb_spec maxUint64 (n * 10 + (Z.of_N (byte c) - 48))); [lia|].
  apply IH; [done|lia|done].
Qed.

Lemma all_digits_uint d : all_digits (NilEmpty.string_of_uint d) = true.
Proof. by induction d. Qed.

Lemma digits_value_acc d acc :
  digits_value (Z.pos acc) (NilEmpty.string_of_uint d) = Z.pos (Pos.of_uint_acc d acc).
Proof.
  revert acc. induction d as [|d IH|d IH|d IH|d IH|d IH|d IH|d IH|d IH|d IH|d IH];
    intros acc; cbn [NilEmpty.string_of_uint digits_value Pos.of_uint_acc]; [done|..];
    rewrite <- IH; f_equal; unfold byte; vm_compute (N_of_ascii _); lia.
Qed.
Lemma digits_value_uint d :
  digits_value 0 (NilEmpty.string_of_uint d) = Z.of_N (Pos.of_uint d).
Proof.
  induction d; cbn [NilEmpty.string_of_uint digits_value Pos.of_uint]; [done|done|..];
    apply digits_value_acc.
Qed.

Lemma string_of_uint_nonempty d :
  d ≠ Decimal.Nil → NilZero.string_of_uint d = NilEmpty.string_of_uint d.
Proof. by destruct d. Qed.

(** Decimal digits of a non-negative number. *)
Lemma itoa_nonneg z :
  (0 ≤ z)%Z →
  itoa z ≠ "" ∧ all_digits (itoa z) = true ∧ digits_value 0 (itoa z) = z.
Proof.
  intros Hz. destruct z as [|p|p]; [done| |lia].
  unfold itoa, Z.to_int, NilZero.string_of_int.
  rewrite string_of_uint_nonempty by apply Unsigned.to_uint_nonnil.
  split_and!.
  - intros H. apply (Unsigned.to_uint_nonnil p). by destruct (Pos.to_uint p).
  - apply all_digits_uint.
  - rewrite digits_value_uint, Unsigned.of_to. done.
Qed.

Lemma atoi_digits s :
  s ≠ "" → all_digits s = true → (digits_value 0 s < 2 ^ 63)%Z →
  atoi s = Ok (digits_value 0 s).
Proof.
  intros Hne Hd Hlt. destruct s as [|c s]; [done|].
  assert (is_digit c = true) as Hc by (cbn in Hd; by apply andb_true_iff in Hd as [? _]).
  pose proof (parseUint_digits (String c s) 0 Hd ltac:(lia)
    ltac:(change maxUint64 with 18446744073709551615%Z; lia)) as Hp.
  unfold atoi, atoi_kind.
  assert (∀ A (x y z : A), match c with "-"%char => x | "+"%char => y | _ => z end = z) as Hm.
  { intros A x y z. clear - Hc. unfold is_digit, byte in Hc.
    by destruct c as [[] [] [] [] [] [] [] []]. }
  rewrite !Hm. rewrite Hp. destruct (Z.leb_spec (2 ^ 63) (digits_value 0 (String c s))); [lia|done].
Qed.

(** Printing then parsing a non-negative int64 gives it back. *)
Lemma atoi_itoa z : (0 ≤ z < 2 ^ 63)%Z → atoi (itoa z) = Ok z.
Proof.
  intros Hz. destruct (itoa_nonneg z) as (H1 & H2 & H3); [lia|].
  rewrite atoi_digits by (rewrite ?H3; lia || done). by rewrite H3.
Qed.

Lemma itoa_inj x y : itoa x = itoa y → x = y.
Proof.
  unfold itoa. intros H. apply (f_equal NilZero.int_of_string) in H.
  rewrite !NilZero.isi in H by
    (destruct x, y; try done; cbn; intros E; injection E; apply Unsigned.to_uint_nonnil).
  injection H as H. rewrite <- (DecimalZ.of_to x), <- (DecimalZ.of_to y). by rewrite H.
Qed.

(** ** Lemmas: words between separators *)

Lemma split_app_sep c a s : split c (a +:+ String c s) = split c a ++ split c s.
Proof.
  induction a as [|b a IH]; cbn; [by rewrite decide_True|].
  case_decide; [by rewrite IH|]. rewrite IH.
  pose proof (split_nonempty c a). by destruct (split c a).
Qed.

(** Looking for [sep ++ t ++ sep] in the separator-padded join of [l] decides
    membership of [t] in [l], when the separator occurs in no word. *)
Lemma contains_join_elem c l t :
  l ≠ [] → Forall (λ s, has_byte c s = false) l → has_byte c t = false →
  contains (String c "" +:+ join (String c "") l +:+ String c "")
           (String c "" +:+ t +:+ String c "") = true ↔ t ∈ l.
Proof.
  intros Hl HF Ht. rewrite contains_spec.
  assert (split c (String c "" +:+ join (String c "") l +:+ String c "") = "" :: l ++ [""])
    as Hfull.
  { cbn [String.append split]. rewrite decide_True by done.
    rewrite split_app_sep, split_join by done. done. }
  split.
  - intros (a & b & Hab).
    assert (split c (a +:+ (String c "" +:+ t +:+ String c "") +:+ b)
            = split c a ++ t :: split c b) as Hsp.
    { cbn [String.append]. rewrite split_app_sep.
      rewrite app_assoc_str. cbn [String.append]. by rewrite split_app. }
    rewrite <- Hab, Hfull in Hsp.
    pose proof (split_nonempty c a) as Ha. pose proof (split_nonempty c b) as Hb.
    destruct (split c a) as [|w ws]; [done|]. injection Hsp as _ Hsp.
    destruct (exists_last Hb) as (vs & v & Hv). rewrite Hv in Hsp.
    change (l ++ [""] = ws ++ (t :: vs) ++ [v]) in Hsp.
    rewrite (assoc_L (++)) in Hsp. apply app_inj_tail in Hsp as [-> _]. set_solver.
  - intros (l1 & l2 & ->)%list_elem_of_split.
    exists (match l1 with [] => "" | _ => String c "" +:+ join (String c "") l1 end),
           (match l2 with [] => "" | _ => join (String c "") l2 +:+ String c "" end).
    rewrite <- (join_split c (String c "" +:+ join (String c "") (l1 ++ t :: l2) +:+ String c "")).
    rewrite Hfull.
    rewrite <- (join_split c (_ +:+ (String c "" +:+ t +:+ String c "") +:+ _)).
    f_equal. cbn [String.append]. apply Forall_app in HF as [HF1 HF2].
    apply Forall_cons in HF2 as [_ HF2].
    rewrite split_app_sep, app_assoc_str. cbn [String.append]. rewrite split_app by done.
    destruct l1 as [|x1 l1], l2 as [|x2 l2]; cbn [String.append split];
      rewrite ?decide_True, ?split_app_sep, ?split_join by done; cbn;
      by rewrite <- ?(assoc_L (++)).
Qed.

(** ** Lemmas: sorting *)

Lemma sortStrings_perm l : sortStrings l ≡ₚ l.
Proof. apply merge_sort_Permutation. Qed.
Lemma sortStrings_sorted l : StronglySorted String.le (sortStrings l).
Proof. apply (StronglySorted_merge_sort _). Qed.
(** Sorting is canonical: it identifies exactly the permutations. *)
Lemma sortStrings_eq_iff l1 l2 : sortStrings l1 = sortStrings l2 ↔ l1 ≡ₚ l2.
Proof.
  split.
  - intros H. rewrite <- (sortStrings_perm l1), <- (sortStrings_perm l2). by rewrite H.
  - intros H. apply (StronglySorted_unique String.le); try apply sortStrings_sorted.
    by rewrite !sortStrings_perm.
Qed.
#[export] Instance sortStrings_proper : Proper ((≡ₚ) ==> (=)) sortStrings.
Proof. intros l1 l2 H. by apply sortStrings_eq_iff. Qed.

(** ** Lemmas: digits and words contain no separators *)

Lemma all_digits_no_byte c s : is_digit c = false → all_digits s = true → has_byte c s = false.
Proof.
  intros Hc. induction s as [|b s IH]; cbn; [done|].
  intros [Hb Hs]%andb_true_iff. apply orb_false_iff. split; [|auto].
  apply bool_decide_eq_false. intros ->. congruence.
Qed.
Lemma space_len_digit c s : is_digit c = true → space_len (String c s) = 0.
Proof.
  unfold is_digit, byte. destruct c as [[] [] [] [] [] [] [] []]; cbn; try done;
    intros _; by destruct s as [|? [|? ?]].
Qed.
Lemma all_digits_no_space s : all_digits s = true → no_space s = true.
Proof.
  induction s as [|c s IH]; [done|]. cbn [all_digits no_space].
  intros [Hc Hs]%andb_true_iff. by rewrite space_len_digit, IH.
Qed.

(** Concatenating ASCII words gives a word: no rune straddles the boundary. *)
Definition ascii_byte (c : ascii) : bool := (byte c <? 128)%N.
Fixpoint all_ascii (s : string) : bool :=
  match s with EmptyString => true | String c s' => ascii_byte c && all_ascii s' end.
Lemma space_len_ascii c s :
  ascii_byte c = true → space_len (String c s) = space_len (String c "").
Proof.
  unfold ascii_byte, byte. destruct c as [[] [] [] [] [] [] [] []]; cbn; try done;
    intros _; by destruct s as [|? [|? ?]].
Qed.
Lemma no_space_ascii_app s t :
  all_ascii s = true → no_space s = true → no_space t = true → no_space (s +:+ t) = true.
Proof.
  induction s as [|c s IH]; [done|]. cbn [all_ascii no_space String.append].
  intros [Hc Hs]%andb_true_iff [Hsp Hns]%andb_true_iff Ht.
  rewrite IH by done. rewrite (space_len_ascii _ _ Hc).
  rewrite (space_len_ascii _ _ Hc) in Hsp. by rewrite Hsp.
Qed.
Lemma all_digits_ascii s : all_digits s = true → all_ascii s = true.
Proof.
  induction s as [|c s IH]; [done|]. cbn [all_digits all_ascii].
  intros [Hc%is_digit_range Hs]%andb_true_iff. rewrite IH by done.
  unfold ascii_byte. rewrite andb_true_r. apply N.ltb_lt. lia.
Qed.

(** A word holds no blank. *)
Lemma no_space_no_blank s : no_space s = true → has_byte " " s = false.
Proof.
  induction s as [|c s IH]; [done|]. cbn [no_space has_byte].
  intros [Hc%Nat.eqb_eq Hs]%andb_true_iff. rewrite IH, orb_false_r by done.
  apply bool_decide_eq_false. by intros ->.
Qed.

(** ** Rewriting and automation *)

Create Rewrite HintDb gostrings.
#[export] Hint Rewrite app_nil_r_str app_assoc_str : gostrings.
#[export] Hint Resolve no_space_no_blank all_digits_no_space : outcomes.
