(* ===== verification/Kube.v ===== *)
(** * Kube: the Kubernetes objects the program reads

    The types of [k8s.io/api/core/v1] are not part of the repository; each
    record holds the fields the source reads, with the API's types: strings,
    int32 ports as [Z], a map as [gmap], a pointer or nil-able slice as
    [option].  A missing key of a Go string map reads as the empty string
    ([map_get]). *)
From S2P Require Import Prelude.

(** v1.Protocol, v1.ServiceType, v1.ServiceExternalTrafficPolicy,
    v1.NodeAddressType and event types are string types. *)
Definition ProtocolTCP := "TCP".
Definition ProtocolUDP := "UDP".
Definition ServiceTypeLoadBalancer := "LoadBalancer".
Definition ServiceTypeNodePort := "NodePort".
Definition ServiceExternalTrafficPolicyTypeLocal := "Local".
Definition ServiceExternalTrafficPolicyTypeCluster := "Cluster".
Definition NodeInternalIP := "InternalIP".
Definition NodeExternalIP := "ExternalIP".
Definition EventTypeNormal := "Normal".
Definition EventTypeWarning := "Warning".

Record ServicePort := {
  sp_Protocol : string;
  sp_Port : Z;
  sp_NodePort : Z;
}.

(** The ranges Kubernetes validates for a load balancer service port. *)
Definition valid_port (p : ServicePort) : Prop :=
  (0 ≤ sp_Port p ≤ 65535)%Z ∧ (0 ≤ sp_NodePort p ≤ 65535)%Z.
#[export] Instance valid_port_dec p : Decision (valid_port p).
Proof. unfold valid_port. apply _. Defined.

Record LoadBalancerIngress := {
  ing_IP : string;
  ing_Hostname : string;
}.
Record LoadBalancerStatus := {
  lbs_Ingress : option (list LoadBalancerIngress);
}.

Record ServiceSpec := {
  spec_Ports : list ServicePort;
  spec_Type : string;
  spec_ExternalTrafficPolicy : string;
  spec_HealthCheckNodePort : Z;
  spec_AllocateLoadBalancerNodePorts : option bool;
  spec_LoadBalancerClass : option string;
}.

Record Service := {
  svc_Name : string;
  svc_Namespace : string;
  svc_UID : string;
  svc_Annotations : gmap string string;
  svc_Spec : ServiceSpec;
  svc_LoadBalancer : LoadBalancerStatus;
}.

Record NodeAddress := {
  addr_Type : string;
  addr_Address : string;
}.

(** [node_Taints] holds the keys of [Spec.Taints], [node_Conditions] the types
    of [Status.Conditions]. *)
Record Node := {
  node_Name : string;
  node_Labels : gmap string string;
  node_ProviderID : string;
  node_Taints : list string;
  node_Addresses : list NodeAddress;
  node_Conditions : list string;
}.

(** [LastTransitionTime] in nanoseconds. *)
Record NodeCondition := {
  nc_Type : string;
  nc_Status : string;
  nc_Reason : string;
  nc_Message : string;
  nc_LastTransitionTime : Z;
}.

#[export] Instance ServicePort_eq_dec : EqDecision ServicePort.
Proof. solve_decision. Defined.
#[export] Instance LoadBalancerIngress_eq_dec : EqDecision LoadBalancerIngress.
Proof. solve_decision. Defined.
#[export] Instance LoadBalancerStatus_eq_dec : EqDecision LoadBalancerStatus.
Proof. solve_decision. Defined.
#[export] Instance ServiceSpec_eq_dec : EqDecision ServiceSpec.
Proof. solve_decision. Defined.
#[export] Instance Service_eq_dec : EqDecision Service.
Proof. solve_decision. Defined.
#[export] Instance NodeAddress_eq_dec : EqDecision NodeAddress.
Proof. solve_decision. Defined.
#[export] Instance Node_eq_dec : EqDecision Node.
Proof. solve_decision. Defined.

#[export] Instance NodeCondition_eq_dec : EqDecision NodeCondition.
Proof. solve_decision. Defined.

(** The calls of the Kubernetes client the program makes, on a world [W].
    [kube_RetryOnConflict] is the retry loop of client-go, [steps] attempts at
    most. *)
Class KubeServices (W : Type) := kube_ListServices : M W (list Service).
Class KubeNodes (W : Type) := {
  kube_GetNode : string → M W Node;
  kube_SetNodeCondition : string → NodeCondition → M W unit;
  kube_RetryOnConflict (steps : nat) : M W unit → M W unit;
}.

(** [m[k]] on a Go map of strings. *)
Definition map_get (m : gmap string string) (k : string) : string :=
  default "" (m !! k).

(** [types.NamespacedName.String]. *)
Definition namespacedName (s : Service) : string :=
  svc_Namespace s +:+ "/" +:+ svc_Name s.

(** The event recorder of client-go: an event is recorded against an object
    with a type, a reason and a message. *)
Record Event := {
  ev_Service : Service;
  ev_Type : string;
  ev_Reason : string;
  ev_Message : string;
}.
#[export] Instance Event_eq_dec : EqDecision Event.
Proof. solve_decision. Defined.
