(* ===== verification/VpcTypes.v ===== *)
(** * VpcTypes: the provider-neutral VPC data model (pkg/vpcctl/vpc_sdk_base.go)

    The structs the cloud logic works on, the pool-name codec
    [<protocol>-<port>-<nodePort>], the options read off a service, and the
    queries on a load balancer.  [SdkObject], the saved copy of the SDK's own
    object, is not kept: nothing in the source reads it. *)
From S2P Require Import Prelude GoStrings Kube.

(** ** Constants *)

Definition LoadBalancerOperatingStatusOffline := "offline".
Definition LoadBalancerOperatingStatusOnline := "online".
Definition LoadBalancerProvisioningStatusActive := "active".
Definition LoadBalancerProvisioningStatusCreatePending := "create_pending".
Definition LoadBalancerProvisioningStatusDeletePending := "delete_pending".
Definition LoadBalancerProvisioningStatusFailed := "failed".
Definition LoadBalancerProvisioningStatusMaintenancePending := "maintenance_pending".
Definition LoadBalancerProvisioningStatusUpdatePending := "update_pending".
Definition LoadBalancerProtocolHTTP := "http".
Definition LoadBalancerProtocolHTTPS := "https".
Definition LoadBalancerProtocolTCP := "tcp".
Definition LoadBalancerAlgorithmLeastConnections := "least_connections".
Definition LoadBalancerAlgorithmRoundRobin := "round_robin".
Definition LoadBalancerAlgorithmWeightedRoundRobin := "weighted_round_robin".
Definition LoadBalancerProxyProtocolDisabled := "disabled".
Definition LoadBalancerProxyProtocolV1 := "v1".
Definition LoadBalancerProxyProtocolV2 := "v2".
Definition LoadBalancerSessionPersistenceSourceIP := "source_ip".
Definition LoadBalancerOptionProxyProtocol := "proxy-protocol".

Definition serviceAnnotationEnableFeatures :=
  "service.kubernetes.io/ibm-load-balancer-cloud-provider-enable-features".
Definition serviceAnnotationIPType :=
  "service.kubernetes.io/ibm-load-balancer-cloud-provider-ip-type".
Definition serviceAnnotationLbName :=
  "service.kubernetes.io/ibm-load-balancer-cloud-provider-vpc-lb-name".
Definition serviceAnnotationNodeSelector :=
  "service.kubernetes.io/ibm-load-balancer-cloud-provider-vpc-node-selector".
Definition serviceAnnotationSubnets :=
  "service.kubernetes.io/ibm-load-balancer-cloud-provider-vpc-subnets".
Definition serviceAnnotationZone :=
  "service.kubernetes.io/ibm-load-balancer-cloud-provider-zone".
Definition servicePrivateLB := "private".
Definition servicePublicLB := "public".

(** ** Data *)

Record VpcObjectReference := {
  ref_ID : string;
  ref_Name : string;
}.

Record VpcLoadBalancer := {
  lb_CreatedAt : string;
  lb_Hostname : string;
  lb_ID : string;
  lb_IsPublic : bool;
  lb_ListenerIDs : list string;
  lb_Name : string;
  lb_OperatingStatus : string;
  lb_Pools : list VpcObjectReference;
  lb_PrivateIps : list string;
  lb_ProfileFamily : string;
  lb_ProvisioningStatus : string;
  lb_PublicIps : list string;
  lb_ResourceGroup : VpcObjectReference;
  lb_Subnets : list VpcObjectReference;
  lb_VpcID : string;
}.

Record VpcLoadBalancerListener := {
  lst_ConnectionLimit : Z;
  lst_DefaultPool : VpcObjectReference;
  lst_ID : string;
  lst_Port : Z;
  lst_Protocol : string;
  lst_ProvisioningStatus : string;
}.

Record VpcLoadBalancerPoolHealthMonitor := {
  hm_Delay : Z;
  hm_MaxRetries : Z;
  hm_Port : Z;
  hm_Timeout : Z;
  hm_Type : string;
  hm_URLPath : string;
}.

Record VpcLoadBalancerPoolMember := {
  mem_Health : string;
  mem_ID : string;
  mem_Port : Z;
  mem_ProvisioningStatus : string;
  mem_TargetIPAddress : string;
  mem_TargetInstanceID : string;
  mem_Weight : Z;
}.

Record VpcLoadBalancerPool := {
  pool_Algorithm : string;
  pool_HealthMonitor : VpcLoadBalancerPoolHealthMonitor;
  pool_ID : string;
  pool_Members : list VpcLoadBalancerPoolMember;
  pool_Name : string;
  pool_Protocol : string;
  pool_ProvisioningStatus : string;
  pool_ProxyProtocol : string;
  pool_SessionPersistence : string;
}.

Record VpcSubnet := {
  sub_AvailableIpv4AddressCount : Z;
  sub_CreatedAt : string;
  sub_ID : string;
  sub_IPVersion : string;
  sub_Ipv4CidrBlock : string;
  sub_Name : string;
  sub_NetworkACL : VpcObjectReference;
  sub_PublicGateway : VpcObjectReference;
  sub_ResourceGroup : VpcObjectReference;
  sub_Status : string;
  sub_TotalIpv4AddressCount : Z;
  sub_Vpc : VpcObjectReference;
  sub_Zone : string;
}.

(** The zero values Go gives to fields left out of a composite literal. *)
Definition ref0 : VpcObjectReference := {| ref_ID := ""; ref_Name := "" |}.
Definition hm0 : VpcLoadBalancerPoolHealthMonitor :=
  {| hm_Delay := 0; hm_MaxRetries := 0; hm_Port := 0; hm_Timeout := 0;
     hm_Type := ""; hm_URLPath := "" |}.

#[export] Instance VpcObjectReference_eq_dec : EqDecision VpcObjectReference.
Proof. solve_decision. Defined.
#[export] Instance VpcLoadBalancer_eq_dec : EqDecision VpcLoadBalancer.
Proof. solve_decision. Defined.
#[export] Instance VpcLoadBalancerListener_eq_dec : EqDecision VpcLoadBalancerListener.
Proof. solve_decision. Defined.
#[export] Instance HealthMonitor_eq_dec : EqDecision VpcLoadBalancerPoolHealthMonitor.
Proof. solve_decision. Defined.
#[export] Instance VpcLoadBalancerPoolMember_eq_dec : EqDecision VpcLoadBalancerPoolMember.
Proof. solve_decision. Defined.
#[export] Instance VpcLoadBalancerPool_eq_dec : EqDecision VpcLoadBalancerPool.
Proof. solve_decision. Defined.
#[export] Instance VpcSubnet_eq_dec : EqDecision VpcSubnet.
Proof. solve_decision. Defined.

(** ** Identifiers are words *)

(** Every identifier that ends up in an update line is one word. *)
Definition wf_member (m : VpcLoadBalancerPoolMember) : Prop :=
  token (mem_ID m) ∧ token (mem_TargetIPAddress m).
Definition wf_pool (pool : VpcLoadBalancerPool) : Prop :=
  token (pool_ID pool) ∧ Forall wf_member (pool_Members pool).
Definition wf_listener (l : VpcLoadBalancerListener) : Prop :=
  token (lst_ID l) ∧ no_space (ref_Name (lst_DefaultPool l)) = true.

(** ** Pool names *)

Record VpcPoolNameFields := {
  pn_Protocol : string;
  pn_Port : Z;
  pn_NodePort : Z;
}.

Definition extractProtocolPortsFromPoolName (poolName : string)
    : outcome (string * Z * Z) :=
  match split "-" poolName with
  | [protocol; portString; nodePortString] =>
      if bool_decide (protocol ≠ "tcp" ∧ protocol ≠ "udp") then
        Err (ErrorString ("Invalid protocol in pool name [" +:+ poolName +:+
                          "], only tcp and udp supported"))
      else
        port ← atoi portString;
        nodePort ← atoi nodePortString;
        Ok (protocol, port, nodePort)
  | _ =>
      Err (ErrorString ("Invalid pool name, format not <protocol>-<port>-<nodePort>: [" +:+
                        poolName +:+ "]"))
  end.

Definition extractFieldsFromPoolName (poolName : string) : outcome VpcPoolNameFields :=
  '(protocol, port, nodePort) ← extractProtocolPortsFromPoolName poolName;
  Ok {| pn_Protocol := protocol; pn_Port := port; pn_NodePort := nodePort |}.

Definition genLoadBalancerPoolName (kubePort : ServicePort) : string :=
  toLower (sp_Protocol kubePort) +:+ "-" +:+ itoa (sp_Port kubePort) +:+ "-" +:+
  itoa (sp_NodePort kubePort).

(** ** Service options *)

Record ServiceOptions := {
  so_annotations : gmap string string;
  so_enabledFeatures : string;
  so_healthCheckNodePort : Z;
}.

Definition newServiceOptions : ServiceOptions :=
  {| so_annotations := ∅; so_enabledFeatures := ""; so_healthCheckNodePort := 0 |}.

(** vpc_config.go: the features annotation, blanks removed, in lower case. *)
Definition getServiceEnabledFeatures (service : Service) : string :=
  toLower (removeAll " " (map_get (svc_Annotations service) serviceAnnotationEnableFeatures)).

Definition getServiceHealthCheckNodePort (service : Service) : Z :=
  if bool_decide (spec_ExternalTrafficPolicy (svc_Spec service)
                  = ServiceExternalTrafficPolicyTypeLocal)
  then spec_HealthCheckNodePort (svc_Spec service) else 0.

Definition getServiceOptions (service : option Service) : ServiceOptions :=
  match service with
  | None => newServiceOptions
  | Some service =>
      {| so_annotations := svc_Annotations service;
         so_enabledFeatures := getServiceEnabledFeatures service;
         so_healthCheckNodePort := getServiceHealthCheckNodePort service |}
  end.

Definition getHealthCheckNodePort (options : ServiceOptions) : Z :=
  so_healthCheckNodePort options.

(** Method [getServiceSubnets] of ServiceOptions. *)
Definition options_getServiceSubnets (options : ServiceOptions) : string :=
  removeAll " " (map_get (so_annotations options) serviceAnnotationSubnets).

Definition getServiceZone (options : ServiceOptions) : string :=
  removeAll " " (map_get (so_annotations options) serviceAnnotationZone).

Definition isVpcOptionEnabled (list item : string) : bool :=
  if bool_decide (list = "") then false
  else existsb (λ option, bool_decide (option = item)) (split "," list).

Definition isProxyProtocol (options : ServiceOptions) : bool :=
  isVpcOptionEnabled (so_enabledFeatures options) LoadBalancerOptionProxyProtocol.

Definition isPublic (options : ServiceOptions) : bool :=
  let value := map_get (so_annotations options) serviceAnnotationIPType in
  bool_decide (value = "") || bool_decide (value = servicePublicLB).

(** ** Safe dereference *)

Definition SafePointerBool (ptr : option bool) : bool := default false ptr.
Definition SafePointerDate (ptr : option string) : string := default "nil" ptr.
Definition SafePointerInt64 (ptr : option Z) : Z := default 0%Z ptr.
Definition SafePointerString (ptr : option string) : string := default "nil" ptr.

(** ** Queries on a load balancer *)

Definition GetStatus (lb : VpcLoadBalancer) : string :=
  lb_OperatingStatus lb +:+ "/" +:+ lb_ProvisioningStatus lb.

(** Method [getSubnetIDs] of VpcLoadBalancer. *)
Definition lb_getSubnetIDs (lb : VpcLoadBalancer) : list string :=
  ref_ID <$> lb_Subnets lb.

Definition GetSuccessString (lb : VpcLoadBalancer) : string :=
  if bool_decide (lb_Hostname lb ≠ "") then lb_Hostname lb
  else join "," (lb_PrivateIps lb).

Definition GetSummary (lb : VpcLoadBalancer) : string :=
  let poolNames := join "," (sortStrings (ref_Name <$> lb_Pools lb)) in
  let privateIPs := join "," (lb_PrivateIps lb) in
  let publicIPs := join "," (lb_PublicIps lb) in
  let field (label v : string) :=
    if bool_decide (v ≠ "") then " " +:+ label +:+ ":" +:+ v else "" in
  "Name:" +:+ lb_Name lb +:+ " ID:" +:+ lb_ID lb +:+ " Status:" +:+ GetStatus lb +:+
  field "Hostname" (lb_Hostname lb) +:+ field "Pools" poolNames +:+
  field "Private" privateIPs +:+ field "Public" publicIPs.

Fixpoint getVpcID_go (lbSubnets : list VpcObjectReference) (vpcSubnets : list VpcSubnet)
    : string :=
  match lbSubnets with
  | [] => ""
  | lbSubnet :: rest =>
      match List.find (λ v, bool_decide (ref_ID lbSubnet = sub_ID v)) vpcSubnets with
      | Some vpcSubnet => ref_ID (sub_Vpc vpcSubnet)
      | None => getVpcID_go rest vpcSubnets
      end
  end.
Definition getVpcID (lb : VpcLoadBalancer) (vpcSubnets : list VpcSubnet) : string :=
  getVpcID_go (lb_Subnets lb) vpcSubnets.

(** The keys of a map, sorted, do not depend on the iteration order. *)
Definition getZones (lb : VpcLoadBalancer) (vpcSubnets : list VpcSubnet) : list string :=
  let zoneMap : gset string :=
    list_to_set (lbSubnet ← lb_Subnets lb;
                 vpcSubnet ← vpcSubnets;
                 if bool_decide (ref_ID lbSubnet = sub_ID vpcSubnet)
                 then [sub_Zone vpcSubnet] else []) in
  sortStrings (elements zoneMap).

Definition IsNLB (lb : VpcLoadBalancer) : bool :=
  equalFold (lb_ProfileFamily lb) "network".

Definition IsReady (lb : VpcLoadBalancer) : bool :=
  bool_decide (lb_OperatingStatus lb = LoadBalancerOperatingStatusOnline) &&
  bool_decide (lb_ProvisioningStatus lb = LoadBalancerProvisioningStatusActive).

(** ** Pool names: the codec *)

(** What the generated name of a service port parses to. *)
Definition port_fields (p : ServicePort) : VpcPoolNameFields :=
  {| pn_Protocol := toLower (sp_Protocol p); pn_Port := sp_Port p;
     pn_NodePort := sp_NodePort p |}.

(** A service port as validated: TCP, ports in range. *)
Definition tcp_port (p : ServicePort) : Prop := sp_Protocol p = ProtocolTCP ∧ valid_port p.
#[export] Instance tcp_port_dec p : Decision (tcp_port p).
Proof. unfold tcp_port. apply _. Defined.

Lemma itoa_no_dash z : (0 ≤ z)%Z → has_byte "-" (itoa z) = false.
Proof. intros Hz. apply all_digits_no_byte; [done|]. by apply itoa_nonneg. Qed.

Lemma gen_pool_name_join p :
  genLoadBalancerPoolName p
  = join "-" [toLower (sp_Protocol p); itoa (sp_Port p); itoa (sp_NodePort p)].
Proof. done. Qed.

Lemma split_gen_pool_name p :
  has_byte "-" (toLower (sp_Protocol p)) = false → valid_port p →
  split "-" (genLoadBalancerPoolName p)
  = [toLower (sp_Protocol p); itoa (sp_Port p); itoa (sp_NodePort p)].
Proof.
  intros Hproto [[? _] [? _]]. rewrite gen_pool_name_join.
  apply (split_join "-"); [done|].
  by rewrite !Forall_cons, Forall_nil, Hproto, !itoa_no_dash by done.
Qed.

Lemma extract_gen_pool_name p :
  toLower (sp_Protocol p) = "tcp" ∨ toLower (sp_Protocol p) = "udp" → valid_port p →
  extractFieldsFromPoolName (genLoadBalancerPoolName p) = Ok (port_fields p).
Proof.
  intros Hproto Hp. unfold extractFieldsFromPoolName, extractProtocolPortsFromPoolName.
  rewrite split_gen_pool_name by (done || by destruct Hproto as [-> | ->]).
  rewrite bool_decide_eq_false_2 by tauto.
  destruct Hp as [Hp1 Hp2]. cbn. rewrite !atoi_itoa by lia. done.
Qed.

Lemma extract_inv name f :
  extractFieldsFromPoolName name = Ok f →
  (pn_Protocol f = "tcp" ∨ pn_Protocol f = "udp") ∧
  ∃ port nodePort, split "-" name = [pn_Protocol f; port; nodePort] ∧
    atoi port = Ok (pn_Port f) ∧ atoi nodePort = Ok (pn_NodePort f).
Proof.
  unfold extractFieldsFromPoolName, extractProtocolPortsFromPoolName.
  destruct (split "-" name) as [|pr [|po [|np [|]]]] eqn:Hs; try done.
  case_bool_decide as Hpr; [done|]. cbn.
  destruct (atoi po) as [x| |] eqn:Hpo; try done. cbn.
  destruct (atoi np) as [y| |] eqn:Hnp; try done. cbn. intros [= <-]. cbn.
  split; [|by exists po, np]. destruct (decide (pr = "tcp")); [by left|].
  destruct (decide (pr = "udp")); [by right|]. naive_solver.
Qed.

Lemma extract_not_to_be_deleted name f :
  extractFieldsFromPoolName name = Ok f → name ≠ "POOL-TO-BE-DELETED".
Proof.
  intros Hx%extract_inv ->. destruct Hx as (_ & po & np & Hs & _). vm_compute in Hs. done.
Qed.

Lemma extract_no_panic name : no_panic (extractFieldsFromPoolName name).
Proof.
  unfold extractFieldsFromPoolName, extractProtocolPortsFromPoolName, atoi.
  repeat case_match; simplify_eq/=; try done; case_bool_decide; try done; cbn in *;
    repeat case_match; simplify_eq/=; done.
Qed.

(** The words of a parsed name: digits with an optional sign, no white space. *)
Lemma atoi_ascii s z : atoi s = Ok z → s ≠ "" ∧ all_ascii s = true ∧ no_space s = true.
Proof.
  assert (∀ s n v, parseUint_go n s = inl v → all_digits s = true) as Hgo.
  { clear. induction s as [|c s IH]; [done|]. intros n v. cbn [parseUint_go all_digits].
    unfold digit. fold (is_digit c). destruct (is_digit c); [|done].
    repeat case_match; try done. intros Hv. cbn. by eapply IH. }
  unfold atoi. destruct (atoi_kind s) as [v|k] eqn:Hk; [|done]. intros _.
  destruct s as [|c s]; [done|]. split; [done|].
  assert (all_digits (String c s) = true ∨
          ((c = "-"%char ∨ c = "+"%char) ∧ all_digits s = true)) as [Hd|[Hc Hd]].
  { unfold atoi_kind in Hk.
    destruct (decide (c = "-"%char)) as [->|Hm]; [|destruct (decide (c = "+"%char)) as [->|Hpl]].
    - right. split; [by left|]. destruct s; [done|].
      destruct (parseUint_go 0 (String a s)) eqn:Hp; [|done]. by eapply Hgo.
    - right. split; [by right|]. destruct s; [done|].
      destruct (parseUint_go 0 (String a s)) eqn:Hp; [|done]. by eapply Hgo.
    - left. assert (∀ A (x y w : A), match c with "-"%char => x | "+"%char => y | _ => w end = w)
        as Hmatch.
      { clear - Hm Hpl. intros A x y w. by destruct c as [[] [] [] [] [] [] [] []]. }
      rewrite !Hmatch in Hk.
      destruct (parseUint_go 0 (String c s)) eqn:Hp; [|done]. by eapply Hgo. }
  - split; [by apply all_digits_ascii|by apply all_digits_no_space].
  - cbn [all_ascii no_space]. rewrite all_digits_ascii, all_digits_no_space by done.
    rewrite (space_len_ascii c s) by (by destruct Hc as [-> | ->]).
    by destruct Hc as [-> | ->].
Qed.

Lemma token_join_dash a b c :
  token a → all_ascii a = true → all_ascii b = true → no_space b = true →
  no_space c = true → token (a +:+ "-" +:+ b +:+ "-" +:+ c).
Proof.
  intros [Ha0 Ha] Haa Hba Hb Hc. split; [by destruct a|].
  apply no_space_ascii_app; [done..|]. apply (no_space_ascii_app "-"); [done..|].
  apply no_space_ascii_app; [done..|]. by apply (no_space_ascii_app "-").
Qed.

(** A pool name that parses is one word. *)
Lemma extract_token name f : extractFieldsFromPoolName name = Ok f → token name.
Proof.
  intros Hx%extract_inv. destruct Hx as (Hpr & po & np & Hs & Hpo & Hnp).
  assert (name = pn_Protocol f +:+ "-" +:+ po +:+ "-" +:+ np) as ->.
  { rewrite <- (join_split "-" name), Hs. done. }
  destruct (atoi_ascii _ _ Hpo) as (_ & ? & ?), (atoi_ascii _ _ Hnp) as (_ & ? & ?).
  apply token_join_dash; try done; by destruct Hpr as [-> | ->].
Qed.

Lemma gen_pool_name_token p : tcp_port p → token (genLoadBalancerPoolName p).
Proof.
  intros [Hp Hv]. eapply extract_token, extract_gen_pool_name; [|done].
  left. by rewrite Hp.
Qed.

Lemma gen_pool_name_inj p1 p2 :
  has_byte "-" (toLower (sp_Protocol p1)) = false →
  has_byte "-" (toLower (sp_Protocol p2)) = false →
  valid_port p1 → valid_port p2 →
  genLoadBalancerPoolName p1 = genLoadBalancerPoolName p2 → port_fields p1 = port_fields p2.
Proof.
  intros H1 H2 Hp1 Hp2 Heq.
  pose proof (split_gen_pool_name p1 H1 Hp1) as Hs.
  rewrite Heq, split_gen_pool_name in Hs by done.
  injection Hs as Hs1 Hs2%itoa_inj Hs3%itoa_inj. unfold port_fields. congruence.
Qed.

(** ** Queries: lemmas *)

Lemma lower_byte_eq c d :
  lower_byte d = d → (byte d < 97 ∨ 122 < byte d)%N → lower_byte c = d ↔ c = d.
Proof.
  intros Hd Hr. split; [|by intros ->]. unfold lower_byte, byte in *.
  destruct ((65 <=? N_of_ascii c) && (N_of_ascii c <=? 90))%N eqn:Hc; [|done].
  apply andb_true_iff in Hc as [H1%N.leb_le H2%N.leb_le]. intros <-. exfalso.
  rewrite N_ascii_embedding in Hr by lia. lia.
Qed.

Lemma split_toLower c s :
  lower_byte c = c → (byte c < 97 ∨ 122 < byte c)%N →
  split c (toLower s) = toLower <$> split c s.
Proof.
  intros Hc Hr. induction s as [|b s IH]; [done|]. cbn [toLower split].
  destruct (decide (b = c)) as [->|Hb].
  - rewrite Hc, decide_True by done. cbn. by rewrite IH.
  - rewrite decide_False by by rewrite lower_byte_eq. rewrite IH.
    pose proof (split_nonempty c s). by destruct (split c s).
Qed.

Lemma split_removeAll c d s :
  c ≠ d → split c (removeAll d s) = removeAll d <$> split c s.
Proof.
  intros Hcd. induction s as [|b s IH]; [done|]. cbn [removeAll split].
  destruct (decide (b = d)) as [->|Hb].
  - rewrite decide_False by done. rewrite IH.
    pose proof (split_nonempty c s). destruct (split c s); [done|]. cbn.
    by rewrite decide_True.
  - cbn [split]. destruct (decide (b = c)) as [->|Hbc]; [by rewrite IH|].
    rewrite IH. pose proof (split_nonempty c s). destruct (split c s); [done|]. cbn.
    by rewrite decide_False.
Qed.

(** ** Properties *)

(** C39: the pool name of a TCP or UDP service port with valid port numbers
    parses back to its protocol and ports; ports with the same pool name are
    the same protocol and ports. *)
Theorem genLoadBalancerPoolName_roundtrip p :
  (toLower (sp_Protocol p) = "tcp" ∨ toLower (sp_Protocol p) = "udp") → valid_port p →
  extractFieldsFromPoolName (genLoadBalancerPoolName p) = Ok (port_fields p) ∧
  ∀ q, toLower (sp_Protocol q) = "tcp" ∨ toLower (sp_Protocol q) = "udp" → valid_port q →
    genLoadBalancerPoolName q = genLoadBalancerPoolName p → port_fields q = port_fields p.
Proof.
  intros Hp Hvp. split; [by apply extract_gen_pool_name|].
  intros q Hq Hvq Heq. apply gen_pool_name_inj; try done.
  - by destruct Hq as [-> | ->].
  - by destruct Hp as [-> | ->].
Qed.

Lemma genLoadBalancerPoolName_roundtrip_witness :
  extractFieldsFromPoolName "tcp-443-30443"
  = Ok {| pn_Protocol := "tcp"; pn_Port := 443; pn_NodePort := 30443 |}.
Proof.
  refine (proj1 (genLoadBalancerPoolName_roundtrip
    {| sp_Protocol := "TCP"; sp_Port := 443; sp_NodePort := 30443 |} _ _)).
  - left. by vm_compute.
  - by_decision.
Defined.

(** Which pool names parse: those of three parts separated by dashes, the
    first tcp or udp and the others integers that [strconv.Atoi] accepts.
    Every other name is an error; no name makes the parser panic. *)
Theorem extractFieldsFromPoolName_spec name :
  match extractFieldsFromPoolName name with
  | Ok f =>
      (pn_Protocol f = "tcp" ∨ pn_Protocol f = "udp") ∧
      ∃ port nodePort, name = pn_Protocol f +:+ "-" +:+ port +:+ "-" +:+ nodePort ∧
        atoi port = Ok (pn_Port f) ∧ atoi nodePort = Ok (pn_NodePort f)
  | Err _ =>
      ∀ protocol port nodePort x y, (protocol = "tcp" ∨ protocol = "udp") →
        name = protocol +:+ "-" +:+ port +:+ "-" +:+ nodePort →
        has_byte "-" port = false → has_byte "-" nodePort = false →
        atoi port = Ok x → atoi nodePort ≠ Ok y
  | Panic _ => False
  end.
Proof.
  pose proof (extract_no_panic name) as Hnp.
  destruct (extractFieldsFromPoolName name) as [f|e|w] eqn:Hx; [| |done].
  - apply extract_inv in Hx as (Hpr & po & np & Hs & ? & ?). split; [done|]. exists po, np.
    split_and!; [|done..]. by rewrite <- (join_split "-" name), Hs.
  - intros pr po np x y Hpr -> Hpo Hnp' Hx1 Hx2.
    unfold extractFieldsFromPoolName, extractProtocolPortsFromPoolName in Hx.
    assert (split "-" (pr +:+ "-" +:+ po +:+ "-" +:+ np) = [pr; po; np]) as Hs.
    { apply (split_join "-" [pr; po; np]); [done|].
      rewrite !Forall_cons, Forall_nil. split_and!; [|done..]. by destruct Hpr as [-> | ->]. }
    rewrite Hs, bool_decide_eq_false_2 in Hx by tauto. cbn in Hx. by rewrite Hx1, Hx2 in Hx.
Qed.

(** Proxy protocol is requested exactly when one of the comma-separated
    values of the enable-features annotation reads proxy-protocol, blanks and
    upper case ignored. *)
Theorem isProxyProtocol_iff service :
  isProxyProtocol (getServiceOptions (Some service)) = true ↔
  ∃ v, v ∈ split "," (map_get (svc_Annotations service) serviceAnnotationEnableFeatures) ∧
       toLower (removeAll " " v) = "proxy-protocol".
Proof.
  unfold isProxyProtocol, isVpcOptionEnabled. cbn [getServiceOptions so_enabledFeatures].
  unfold getServiceEnabledFeatures.
  generalize (map_get (svc_Annotations service) serviceAnnotationEnableFeatures). intros s.
  assert (split "," (toLower (removeAll " " s)) = (λ v, toLower (removeAll " " v)) <$> split "," s)
    as Hs.
  { rewrite split_toLower, split_removeAll
      by first [done | (left; done)].
    by rewrite <- list_fmap_compose. }
  case_bool_decide as Hnil.
  - split; [done|]. intros (v & Hv & Hval). rewrite Hnil in Hs. exfalso.
    assert (toLower (removeAll " " v) ∈ split "," "") as Hin.
    { rewrite Hs. apply list_elem_of_fmap. by exists v. }
    rewrite Hval in Hin. by apply list_elem_of_singleton in Hin.
  - rewrite existsb_true, Hs. setoid_rewrite bool_decide_eq_true.
    setoid_rewrite list_elem_of_fmap. unfold LoadBalancerOptionProxyProtocol. naive_solver.
Qed.

(** A load balancer is ready exactly when its status reads online/active,
    the string the monitor compares with. *)
Theorem IsReady_iff lb : IsReady lb = true ↔ GetStatus lb = "online/active".
Proof.
  unfold IsReady, GetStatus. rewrite andb_true_iff, !bool_decide_eq_true.
  split; [by intros [-> ->]|]. intros Heq.
  apply (f_equal (split "/")) in Heq.
  change (lb_OperatingStatus lb +:+ "/" +:+ lb_ProvisioningStatus lb)
    with (lb_OperatingStatus lb +:+ String "/" (lb_ProvisioningStatus lb)) in Heq.
  rewrite split_app_sep in Heq.
  pose proof (split_nonempty "/" (lb_OperatingStatus lb)).
  pose proof (split_nonempty "/" (lb_ProvisioningStatus lb)).
  pose proof (join_split "/" (lb_OperatingStatus lb)) as Ho.
  pose proof (join_split "/" (lb_ProvisioningStatus lb)) as Hp.
  destruct (split "/" (lb_OperatingStatus lb)) as [|a l1]; [done|].
  destruct (split "/" (lb_ProvisioningStatus lb)) as [|b l2]; [done|].
  change (split "/" "online/active") with ["online"; "active"] in Heq.
  destruct l1 as [|? [|]]; cbn in Heq; [|by simplify_eq..].
  simplify_eq. by rewrite <- Ho, <- Hp.
Qed.

(** The zones of a load balancer: the zones of the VPC subnets it is
    attached to, each once, in increasing order. *)
Theorem getZones_spec lb vpcSubnets :
  StronglySorted String.le (getZones lb vpcSubnets) ∧ NoDup (getZones lb vpcSubnets) ∧
  ∀ zone, zone ∈ getZones lb vpcSubnets ↔
    ∃ subnet, subnet ∈ vpcSubnets ∧ sub_ID subnet ∈ lb_getSubnetIDs lb ∧ sub_Zone subnet = zone.
Proof.
  unfold getZones. split_and!.
  - apply sortStrings_sorted.
  - rewrite sortStrings_perm. apply NoDup_elements.
  - intros zone. rewrite sortStrings_perm, elem_of_elements, elem_of_list_to_set.
    unfold lb_getSubnetIDs. rewrite list_elem_of_bind. setoid_rewrite list_elem_of_bind.
    setoid_rewrite list_elem_of_fmap. split.
    + intros (r & (s & Hz & Hs) & Hr). exists s. case_bool_decide as Hid; [|by apply not_elem_of_nil in Hz].
      apply list_elem_of_singleton in Hz as ->. split_and!; [done| |done]. by exists r.
    + intros (s & Hs & (r & Hid & Hr) & <-). exists r. split; [|done]. exists s. split; [|done].
      rewrite bool_decide_eq_true_2 by done. left.
Qed.
