(* ===== verification/VpcConfig.v ===== *)
(** * VpcConfig: configuration, node and subnet selection
    (pkg/vpcctl/vpc_config.go)

    Methods that do not use their receiver take no receiver.  [MapIteration]
    stands for the unspecified order in which Go ranges over a map. *)
From S2P Require Import Prelude GoStrings Kube VpcTypes.

(** The order of [for k := range m] is unspecified and may differ between two
    loops: it is some permutation of the keys, drawn anew (the first argument)
    for every loop. *)
Class MapIteration := {
  range_order : nat → list string → list string;
  range_order_perm n l : range_order n l ≡ₚ l;
}.

Definition range_keys `{MapIteration} {A} (draw : nat) (m : gmap string A) : list string :=
  range_order draw ((map_to_list m).*1).
(** [for k, v := range m]. *)
Definition range_map `{MapIteration} {A} (draw : nat) (m : gmap string A)
    : list (string * A) :=
  omap (λ k, pair k <$> m !! k) (range_keys draw m).

(** ** Constants *)

Definition iamPrivateTokenExchangeURL := "https://private.iam.cloud.ibm.com".
Definition iamPublicTokenExchangeURL := "https://iam.cloud.ibm.com".
Definition iamStagePrivateTokenExchangeURL := "https://private.iam.test.cloud.ibm.com".
Definition iamStageTestPublicTokenExchangeURL := "https://iam.stage1.bluemix.net".
Definition nodeLabelDedicated := "dedicated".
Definition nodeLabelInternalIP := "ibm-cloud.kubernetes.io/internal-ip".
Definition nodeLabelValueEdge := "edge".
Definition nodeLabelZone := "ibm-cloud.kubernetes.io/zone".
Definition vpcEndpointIaaSProdURL := "iaas.cloud.ibm.com".
Definition vpcEndpointIaaSStageURL := "iaasdev.cloud.ibm.com".
Definition VpcProviderTypeFake := "fake".
Definition VpcProviderTypeGen2 := "g2".

Definition memberNodeLabelsAllowed : list string :=
  ["ibm-cloud.kubernetes.io/internal-ip";
   "ibm-cloud.kubernetes.io/machine-type";
   "ibm-cloud.kubernetes.io/os";
   "ibm-cloud.kubernetes.io/region";
   "ibm-cloud.kubernetes.io/subnet-id";
   "ibm-cloud.kubernetes.io/worker-id";
   "ibm-cloud.kubernetes.io/worker-pool-id";
   "ibm-cloud.kubernetes.io/worker-pool-name";
   "ibm-cloud.kubernetes.io/worker-version";
   "ibm-cloud.kubernetes.io/zone";
   "kubernetes.io/arch";
   "kubernetes.io/hostname";
   "kubernetes.io/os";
   "node.kubernetes.io/instance-type";
   "topology.kubernetes.io/region";
   "topology.kubernetes.io/zone"].

(** ** ConfigVpc *)

Record ConfigVpc := {
  cfg_AccountID : string;
  cfg_APIKeySecret : string;
  cfg_ClusterID : string;
  cfg_EnablePrivate : bool;
  cfg_IamEndpointOverride : string;
  cfg_IKSPrivateEndpointHostname : string;
  cfg_ProviderType : string;
  cfg_Region : string;
  cfg_ResourceGroupName : string;
  cfg_RmEndpointOverride : string;
  cfg_SubnetNames : string;
  cfg_WorkerAccountID : string;
  cfg_VpcName : string;
  cfg_VpcEndpointOverride : string;
  cfg_endpointURL : string;
  cfg_resourceGroupID : string;
  cfg_tokenExchangeURL : string;
}.

Definition set_urls (c : ConfigVpc) (endpointURL tokenExchangeURL : string) : ConfigVpc :=
  {| cfg_AccountID := cfg_AccountID c;
     cfg_APIKeySecret := cfg_APIKeySecret c;
     cfg_ClusterID := cfg_ClusterID c;
     cfg_EnablePrivate := cfg_EnablePrivate c;
     cfg_IamEndpointOverride := cfg_IamEndpointOverride c;
     cfg_IKSPrivateEndpointHostname := cfg_IKSPrivateEndpointHostname c;
     cfg_ProviderType := cfg_ProviderType c;
     cfg_Region := cfg_Region c;
     cfg_ResourceGroupName := cfg_ResourceGroupName c;
     cfg_RmEndpointOverride := cfg_RmEndpointOverride c;
     cfg_SubnetNames := cfg_SubnetNames c;
     cfg_WorkerAccountID := cfg_WorkerAccountID c;
     cfg_VpcName := cfg_VpcName c;
     cfg_VpcEndpointOverride := cfg_VpcEndpointOverride c;
     cfg_endpointURL := endpointURL;
     cfg_resourceGroupID := cfg_resourceGroupID c;
     cfg_tokenExchangeURL := tokenExchangeURL |}.

Definition getIamEndpoint (c : ConfigVpc) : string :=
  if bool_decide (cfg_IamEndpointOverride c ≠ "") then cfg_IamEndpointOverride c
  else if contains (cfg_Region c) "stage" then
    if cfg_EnablePrivate c then iamStagePrivateTokenExchangeURL
    else iamStageTestPublicTokenExchangeURL
  else if cfg_EnablePrivate c then iamPrivateTokenExchangeURL
  else iamPublicTokenExchangeURL.

Definition getVpcEndpoint (c : ConfigVpc) : string :=
  if bool_decide (cfg_VpcEndpointOverride c ≠ "") then cfg_VpcEndpointOverride c
  else
    let endpoint := if contains (cfg_Region c) "stage" then vpcEndpointIaaSStageURL
                    else vpcEndpointIaaSProdURL in
    if cfg_EnablePrivate c
    then "https://" +:+ cfg_Region c +:+ ".private." +:+ endpoint
    else "https://" +:+ cfg_Region c +:+ "." +:+ endpoint.

Definition missing_setting (name : string) : error :=
  ErrorString ("Missing required cloud configuration setting: " +:+ name).

(** [nil] is [None]. *)
Definition validate (c : ConfigVpc) : option error :=
  if bool_decide (cfg_ClusterID c = "") then Some (missing_setting "clusterID")
  else if bool_decide (cfg_ProviderType c = VpcProviderTypeFake) then None
  else if bool_decide (cfg_ProviderType c ≠ VpcProviderTypeGen2) then
    Some (ErrorString ("Invalid cloud configuration setting for cluster-default-provider: "
                       +:+ cfg_ProviderType c))
  else if bool_decide (cfg_AccountID c = "") then Some (missing_setting "accountID")
  else if bool_decide (cfg_APIKeySecret c = "") then Some (missing_setting "g2Credentials")
  else if bool_decide (cfg_Region c = "") then Some (missing_setting "region")
  else if bool_decide (cfg_ResourceGroupName c = "")
  then Some (missing_setting "g2ResourceGroupName")
  else if bool_decide (cfg_SubnetNames c = "") then Some (missing_setting "g2VpcSubnetNames")
  else if bool_decide (cfg_VpcName c = "") then Some (missing_setting "g2VpcName")
  else None.

(** The initialized config; the receiver is only written on success. *)
Definition config_initialize (c : ConfigVpc) : outcome ConfigVpc :=
  match validate c with
  | Some err => Err err
  | None =>
      if bool_decide (cfg_ProviderType c = VpcProviderTypeFake) then Ok c
      else Ok (set_urls c (getVpcEndpoint c +:+ "/v1")
                          (getIamEndpoint c +:+ "/identity/token"))
  end.

(** ** Nodes *)

Definition findNodesMatchingLabelValue (nodes : list Node) (filterLabel filterValue : string)
    : list Node :=
  filter (λ node, node_Labels node !! filterLabel = Some filterValue) nodes.

Definition filterNodesByEdgeLabel (nodes : list Node) : list Node :=
  let edgeNodes := findNodesMatchingLabelValue nodes nodeLabelDedicated nodeLabelValueEdge in
  if bool_decide (length edgeNodes = 0) then nodes else edgeNodes.

Definition filterNodesByZone (nodes : list Node) (zone : string) : list Node :=
  if bool_decide (zone ≠ "") then findNodesMatchingLabelValue nodes nodeLabelZone zone
  else nodes.

Definition getNodeInternalIP (node : Node) : string :=
  let nodeInternalAddress := map_get (node_Labels node) nodeLabelInternalIP in
  if bool_decide (nodeInternalAddress = "") then
    match List.find (λ a, bool_decide (addr_Type a = NodeInternalIP)) (node_Addresses node) with
    | Some address => addr_Address address
    | None => nodeInternalAddress
    end
  else nodeInternalAddress.

Definition getNodeIDs (nodeList : list Node) : list string :=
  filter (λ nodeInternalAddress, nodeInternalAddress ≠ "") (getNodeInternalIP <$> nodeList).

(** ** Pools, ports and listeners *)

Definition getPoolMemberTargets (members : list VpcLoadBalancerPoolMember) : list string :=
  mem_TargetIPAddress <$> members.

Definition getServiceNodeSelectorFilter (service : Service) : string * string :=
  let filter := removeAll " " (map_get (svc_Annotations service) serviceAnnotationNodeSelector) in
  if bool_decide (filter = "") then ("", "")
  else
    match split "=" filter with
    | [filterLabel; filterValue] =>
        if bool_decide (filterLabel ∈ memberNodeLabelsAllowed)
        then (filterLabel, filterValue) else ("", "")
    | _ => ("", "")
    end.

Definition getServicePoolNames (service : option Service) : outcome (list string) :=
  match service with
  | None => Err (ErrorString "Service not specified")
  | Some service => Ok (genLoadBalancerPoolName <$> spec_Ports (svc_Spec service))
  end.

(** Method [getServiceSubnets] of CloudVpc. *)
Definition getServiceSubnets (service : Service) : string :=
  removeAll " " (map_get (svc_Annotations service) serviceAnnotationSubnets).

Definition isServicePortEqualListener (kubePort : ServicePort)
    (listener : VpcLoadBalancerListener) : bool :=
  bool_decide (lst_Port listener = sp_Port kubePort) &&
  equalFold (lst_Protocol listener) (sp_Protocol kubePort).

Definition isServicePortEqualPoolName (kubePort : ServicePort)
    (poolName : VpcPoolNameFields) : bool :=
  bool_decide (pn_Port poolName = sp_Port kubePort) &&
  equalFold (pn_Protocol poolName) (sp_Protocol kubePort).

(** ** Subnets *)

Definition filterSubnetsByName (subnets : list VpcSubnet) (subnetList : string)
    : list VpcSubnet :=
  let desiredSubnets := "," +:+ subnetList +:+ "," in
  filter (λ subnet, contains desiredSubnets (sub_Name subnet) = true) subnets.

Definition filterSubnetsByVpcName (subnets : list VpcSubnet) (vpcName : string)
    : list VpcSubnet :=
  filter (λ subnet, ref_Name (sub_Vpc subnet) = vpcName) subnets.

Definition getSubnetIDs (subnets : list VpcSubnet) : list string := sub_ID <$> subnets.

(** ** Validation of a service *)

Definition validateService (service : Service) : outcome ServiceOptions :=
  let options := getServiceOptions (Some service) in
  match List.find (λ kubePort, bool_decide (sp_Protocol kubePort ≠ ProtocolTCP))
                  (spec_Ports (svc_Spec service)) with
  | Some kubePort =>
      Err (ErrorString ("Service " +:+ namespacedName service +:+ " is a " +:+
                        sp_Protocol kubePort +:+ " load balancer. Only TCP is supported"))
  | None => Ok options
  end.

(** The inner loop of [validateServiceSubnets] over the VPC subnets: the subnet
    ID one requested value stands for, [None] when it is not found. *)
Fixpoint matchServiceSubnet (different_vpc : error) (subnetID vpcID : string)
    (vpcSubnets : list VpcSubnet) : outcome (option string) :=
  match vpcSubnets with
  | [] => Ok None
  | subnet :: rest =>
      if bool_decide (subnetID = sub_ID subnet) then
        if bool_decide (vpcID ≠ ref_ID (sub_Vpc subnet)) then Err different_vpc
        else Ok (Some subnetID)
      else if bool_decide (vpcID ≠ ref_ID (sub_Vpc subnet)) then
        matchServiceSubnet different_vpc subnetID vpcID rest
      else if bool_decide (subnetID = sub_Name subnet)
              || bool_decide (subnetID = sub_Ipv4CidrBlock subnet) then
        Ok (Some (sub_ID subnet))
      else matchServiceSubnet different_vpc subnetID vpcID rest
  end.

Definition annotation_error (annotation : string) (service : Service) (text : string) : error :=
  ErrorString ("The annotation " +:+ annotation +:+ " on service " +:+
               namespacedName service +:+ " contains " +:+ text).

Definition different_vpc_error (service : Service) (subnetID : string) : error :=
  annotation_error serviceAnnotationSubnets service
    ("VPC subnet " +:+ subnetID +:+ " that is located in a different VPC").
Definition invalid_subnet_error (service : Service) (subnetID : string) : error :=
  annotation_error serviceAnnotationSubnets service ("invalid VPC subnet " +:+ subnetID).

(** [desiredSubnetMap]: the keys of a map to [true]. *)
Definition desiredSubnetMap (service : Service) (serviceSubnets vpcID : string)
    (vpcSubnets : list VpcSubnet) : outcome (gmap string bool) :=
  foldM (λ m subnetID,
    found ← matchServiceSubnet (different_vpc_error service subnetID) subnetID vpcID vpcSubnets;
    match found with
    | Some id => Ok (<[id := true]> m)
    | None => Err (invalid_subnet_error service subnetID)
    end) ∅ (split "," serviceSubnets).

Definition validateServiceSubnets `{MapIteration} (draw : nat) (service : Service)
    (serviceSubnets vpcID : string) (vpcSubnets : list VpcSubnet) : outcome (list string) :=
  m ← desiredSubnetMap service serviceSubnets vpcID vpcSubnets;
  Ok (range_keys draw m).

Definition validateServiceSubnetsNotUpdated `{MapIteration} (draw : nat) (service : Service)
    (lb : VpcLoadBalancer) (vpcSubnets : list VpcSubnet) : outcome unit :=
  let serviceSubnets := getServiceSubnets service in
  if bool_decide (serviceSubnets = "") then Ok tt
  else
    let vpcID := getVpcID lb vpcSubnets in
    requested ← validateServiceSubnets draw service serviceSubnets vpcID vpcSubnets;
    let requested := sortStrings requested in
    let actual := sortStrings (ref_ID <$> lb_Subnets lb) in
    if bool_decide (join "," requested ≠ join "," actual) then
      Err (ErrorString ("The load balancer was created with subnets " +:+ join "," actual +:+
                        ". This setting can not be changed"))
    else Ok tt.

Definition validateServiceTypeNotUpdated (options : ServiceOptions) (lb : VpcLoadBalancer)
    : outcome unit :=
  if bool_decide (isPublic options ≠ lb_IsPublic lb) then
    let lbType := if lb_IsPublic lb then servicePublicLB else servicePrivateLB in
    Err (ErrorString ("The load balancer was created as a " +:+ lbType +:+
                      " load balancer. This setting can not be changed"))
  else Ok tt.

Definition validateServiceZone (service : Service) (serviceZone : string)
    (vpcSubnets : list VpcSubnet) : outcome (list string) :=
  let clusterSubnets :=
    sub_ID <$> filter (λ subnet, serviceZone = sub_Zone subnet) vpcSubnets in
  if bool_decide (length clusterSubnets = 0) then
    Err (annotation_error serviceAnnotationZone service
           ("invalid zone " +:+ serviceZone +:+
            ". There are no cluster subnets in that zone"))
  else Ok clusterSubnets.

(** ** Map iteration *)

Section range.
Context `{MapIteration} {A : Type}.
Implicit Types m : gmap string A.

Lemma range_keys_perm d m : range_keys d m ≡ₚ (map_to_list m).*1.
Proof. apply range_order_perm. Qed.
Lemma elem_of_range_keys d m k : k ∈ range_keys d m ↔ is_Some (m !! k).
Proof.
  rewrite range_keys_perm, list_elem_of_fmap. split.
  - intros ([k' x] & -> & Hx%elem_of_map_to_list). by exists x.
  - intros [x Hx]. exists (k, x). by rewrite elem_of_map_to_list.
Qed.
Lemma NoDup_range_keys d m : NoDup (range_keys d m).
Proof. rewrite range_keys_perm. apply NoDup_fst_map_to_list. Qed.

Lemma range_map_perm d m : range_map d m ≡ₚ map_to_list m.
Proof.
  unfold range_map. rewrite range_keys_perm.
  assert (∀ l, (∀ k x, (k, x) ∈ l → m !! k = Some x) →
    omap (λ k, pair k <$> m !! k) l.*1 = l) as Hl.
  { induction l as [|[k x] l IH]; intros Hm; [done|].
    cbn. rewrite (Hm k x) by left. cbn. f_equal. apply IH. intros; apply Hm. by right. }
  rewrite Hl; [done|]. intros k x. by rewrite elem_of_map_to_list.
Qed.
Lemma elem_of_range_map d m k x : (k, x) ∈ range_map d m ↔ m !! k = Some x.
Proof. by rewrite range_map_perm, elem_of_map_to_list. Qed.
Lemma NoDup_range_map_fst d m : NoDup (range_map d m).*1.
Proof. rewrite range_map_perm. apply NoDup_fst_map_to_list. Qed.
End range.

(** ** Ports, pools and listeners *)

Lemma equalFold_sym s t : equalFold s t = equalFold t s.
Proof. unfold equalFold. apply bool_decide_ext. naive_solver. Qed.

(** On a TCP port, a parsed pool name matches iff it says tcp and that port. *)
Lemma isServicePortEqualPoolName_spec p name f :
  sp_Protocol p = ProtocolTCP → extractFieldsFromPoolName name = Ok f →
  isServicePortEqualPoolName p f = true ↔
  pn_Protocol f = "tcp" ∧ pn_Port f = sp_Port p.
Proof.
  intros Hp [Hf _]%extract_inv. unfold isServicePortEqualPoolName. rewrite Hp.
  rewrite andb_true_iff, bool_decide_eq_true.
  destruct Hf as [-> | ->]; vm_compute (equalFold _ _); intuition discriminate.
Qed.

Lemma isServicePortEqualPoolName_self p :
  tcp_port p → isServicePortEqualPoolName p (port_fields p) = true.
Proof.
  intros [Hp _]. unfold isServicePortEqualPoolName, port_fields. cbn.
  by rewrite Hp, bool_decide_eq_true_2.
Qed.

(** ** The subnets annotation *)

(** The requested value [v] stands for the subnet ID [id] in VPC [vpcID]: the
    first subnet it names, and it names a subnet by ID anywhere, by name or
    CIDR block in that VPC only. *)
Definition names_subnet (vpcID v : string) (subnet : VpcSubnet) : Prop :=
  v = sub_ID subnet ∨
  (ref_ID (sub_Vpc subnet) = vpcID ∧ (v = sub_Name subnet ∨ v = sub_Ipv4CidrBlock subnet)).
#[export] Instance names_subnet_dec vpcID v subnet : Decision (names_subnet vpcID v subnet).
Proof. unfold names_subnet. apply _. Defined.

Lemma matchServiceSubnet_find err v vpcID subnets :
  matchServiceSubnet err v vpcID subnets =
  match List.find (λ s, bool_decide (names_subnet vpcID v s)) subnets with
  | None => Ok None
  | Some s => if bool_decide (ref_ID (sub_Vpc s) = vpcID) then Ok (Some (sub_ID s)) else Err err
  end.
Proof.
  induction subnets as [|s rest IH]; [done|]. cbn [matchServiceSubnet List.find]. rewrite IH.
  destruct (decide (v = sub_ID s)) as [Hid|Hid].
  { rewrite (bool_decide_eq_true_2 (v = sub_ID s)) by done.
    rewrite (bool_decide_eq_true_2 (names_subnet _ _ _)) by (by left).
    destruct (decide (ref_ID (sub_Vpc s) = vpcID)) as [<-|Hne].
    - rewrite bool_decide_eq_false_2 by (by intros []).
      by rewrite bool_decide_eq_true_2, Hid.
    - by rewrite bool_decide_eq_true_2, bool_decide_eq_false_2. }
  rewrite (bool_decide_eq_false_2 (v = sub_ID s)) by done.
  destruct (decide (ref_ID (sub_Vpc s) = vpcID)) as [Hv|Hne].
  - rewrite (bool_decide_eq_false_2 (vpcID ≠ _)) by (by intros []).
    destruct (decide (v = sub_Name s ∨ v = sub_Ipv4CidrBlock s)) as [Hn|Hn].
    + rewrite (bool_decide_eq_true_2 (names_subnet _ _ _)) by (right; done).
      rewrite (bool_decide_eq_true_2 (_ = vpcID)) by done.
      destruct Hn as [Hn|Hn].
      * by rewrite (bool_decide_eq_true_2 (v = sub_Name s)).
      * by rewrite (bool_decide_eq_true_2 (v = sub_Ipv4CidrBlock s)), orb_true_r.
    + rewrite (bool_decide_eq_false_2 (names_subnet _ _ _)) by (unfold names_subnet; tauto).
      by rewrite !bool_decide_eq_false_2 by tauto.
  - rewrite (bool_decide_eq_true_2 (vpcID ≠ _)) by done.
    by rewrite (bool_decide_eq_false_2 (names_subnet _ _ _)) by (unfold names_subnet; tauto).
Qed.

Lemma matchServiceSubnet_sound err v vpcID subnets id :
  matchServiceSubnet err v vpcID subnets = Ok (Some id) →
  ∃ s, s ∈ subnets ∧ sub_ID s = id ∧ ref_ID (sub_Vpc s) = vpcID ∧ names_subnet vpcID v s.
Proof.
  rewrite matchServiceSubnet_find. destruct (List.find _ _) as [s|] eqn:Hs; [|done].
  apply List.find_some in Hs as [Hin Hn]. apply bool_decide_eq_true in Hn.
  case_bool_decide; [|done]. intros [= <-]. exists s. by rewrite list_elem_of_In.
Qed.

(** Which IDs the map loop collects. *)
Definition denotes (service : Service) (vpcID : string) (subnets : list VpcSubnet)
    (v id : string) : Prop :=
  matchServiceSubnet (different_vpc_error service v) v vpcID subnets = Ok (Some id).

Lemma desiredSubnetMap_loop service vpcID subnets l m r :
  foldM (λ m subnetID,
    found ← matchServiceSubnet (different_vpc_error service subnetID) subnetID vpcID subnets;
    match found with
    | Some id => Ok (<[id := true]> m)
    | None => Err (invalid_subnet_error service subnetID)
    end) m l = Ok r →
  (∀ v, v ∈ l → ∃ id, denotes service vpcID subnets v id) ∧
  ∀ id, is_Some ((r : gmap string bool) !! id) ↔
        is_Some (m !! id) ∨ ∃ v, v ∈ l ∧ denotes service vpcID subnets v id.
Proof.
  revert m. induction l as [|v l IH]; intros m Hr; cbn in Hr.
  { simplify_eq. split; [by intros v ?%not_elem_of_nil|].
    intros id. split; [by left|]. intros [?|(v & Hv & _)]; [done|].
    by apply not_elem_of_nil in Hv. }
  destruct (matchServiceSubnet _ v vpcID subnets) as [[id|]| |] eqn:Hv; cbn in Hr; try done.
  apply IH in Hr as [IH1 IH2]. split.
  - intros u [->|Hu]%elem_of_cons; [by exists id|by apply IH1].
  - intros i. rewrite IH2, lookup_insert_is_Some.
    unfold denotes. split.
    + intros [[->|[_ ?]]|(u & ? & ?)]; [right; exists v; split; [left|done]|by left|].
      right. exists u. split; [by right|done].
    + intros [?|(u & [->|Hu]%elem_of_cons & Hd)].
      * left. destruct (decide (id = i)); [by left|by right].
      * left. left. congruence.
      * right. by exists u.
Qed.

Lemma desiredSubnetMap_elem service s vpcID subnets m :
  desiredSubnetMap service s vpcID subnets = Ok m →
  (∀ v, v ∈ split "," s → ∃ id, denotes service vpcID subnets v id) ∧
  ∀ id, is_Some (m !! id) ↔ ∃ v, v ∈ split "," s ∧ denotes service vpcID subnets v id.
Proof.
  intros [H1 H2]%desiredSubnetMap_loop. split; [done|]. intros id. rewrite H2.
  split; [|by right]. intros [Hn|?]; [|done]. rewrite lookup_empty in Hn. by destruct Hn.
Qed.

Lemma desiredSubnetMap_total service s vpcID subnets :
  (∀ v, v ∈ split "," s → ∃ id, denotes service vpcID subnets v id) →
  ∃ m, desiredSubnetMap service s vpcID subnets = Ok m.
Proof.
  unfold desiredSubnetMap. generalize (∅ : gmap string bool).
  induction (split "," s) as [|v l IH]; intros m Hd; [by exists m|]. cbn.
  destruct (Hd v) as [id Hid]; [left|]. unfold denotes in Hid. rewrite Hid. cbn.
  apply IH. intros; apply Hd. by right.
Qed.

Lemma foldM_Err_elem {A B} (f : A → B → outcome A) l acc e :
  foldM f acc l = Err e → ∃ acc' x, x ∈ l ∧ f acc' x = Err e.
Proof.
  revert acc. induction l as [|x l IH]; intros acc Hf; [done|]. cbn in Hf.
  destruct (f acc x) as [a'| |] eqn:Hx; cbn in Hf; simplify_eq.
  - apply IH in Hf as (a & y & Hy & Hf). exists a, y. split; [by right|done].
  - exists acc, x. split; [left|done].
Qed.

Lemma matchServiceSubnet_no_panic err v vpcID subnets :
  no_panic (matchServiceSubnet err v vpcID subnets).
Proof. rewrite matchServiceSubnet_find. by repeat case_match. Qed.

Lemma desiredSubnetMap_no_panic service s vpcID subnets :
  no_panic (desiredSubnetMap service s vpcID subnets).
Proof.
  apply foldM_no_panic. intros m v _.
  pose proof (matchServiceSubnet_no_panic (different_vpc_error service v) v vpcID subnets).
  by destruct (matchServiceSubnet _ _ _ _) as [[]| |].
Qed.

Lemma desiredSubnetMap_Err service s vpcID subnets e :
  desiredSubnetMap service s vpcID subnets = Err e →
  ∃ v, v ∈ split "," s ∧ ∀ id, ¬ denotes service vpcID subnets v id.
Proof.
  intros (m & v & Hv & Hf)%foldM_Err_elem. exists v. split; [done|].
  intros id Hid. unfold denotes in Hid. rewrite Hid in Hf. done.
Qed.

(** The subnet IDs of [validateServiceSubnetsNotUpdated] are compared as
    comma-joined sorted lists; without commas inside, that is equality of
    multisets. *)
Lemma join_sorted_eq l1 l2 :
  l1 ≠ [] → l2 ≠ [] →
  Forall (λ s, has_byte "," s = false) l1 → Forall (λ s, has_byte "," s = false) l2 →
  join "," (sortStrings l1) = join "," (sortStrings l2) ↔ l1 ≡ₚ l2.
Proof.
  intros Hn1 Hn2 H1 H2. rewrite <- sortStrings_eq_iff. split; [|by intros ->].
  apply (join_inj ",").
  - intros Hs. apply Hn1, Permutation_nil_r. by rewrite <- Hs, sortStrings_perm.
  - intros Hs. apply Hn2, Permutation_nil_r. by rewrite <- Hs, sortStrings_perm.
  - by rewrite sortStrings_perm.
  - by rewrite sortStrings_perm.
Qed.

Lemma validateServiceSubnets_no_panic `{MapIteration} d service s vpcID subnets :
  no_panic (validateServiceSubnets d service s vpcID subnets).
Proof.
  unfold validateServiceSubnets. pose proof (desiredSubnetMap_no_panic service s vpcID subnets).
  by destruct (desiredSubnetMap _ _ _ _).
Qed.

Lemma validateServiceSubnetsNotUpdated_no_panic `{MapIteration} d service lb subnets w :
  validateServiceSubnetsNotUpdated d service lb subnets ≠ Panic w.
Proof.
  unfold validateServiceSubnetsNotUpdated, validateServiceSubnets. case_bool_decide; [done|].
  pose proof (desiredSubnetMap_no_panic service (getServiceSubnets service)
                (getVpcID lb subnets) subnets).
  destruct (desiredSubnetMap _ _ _ _); cbn; [by case_bool_decide|done|done].
Qed.

(** Iteration in key order, for examples. *)
Definition key_order : MapIteration.
Proof. by refine {| range_order := λ _ l, l |}. Defined.
(** Iteration in the reverse order. *)
Definition reverse_order : MapIteration.
Proof. refine {| range_order := λ _ l, reverse l |}. intros _ l. apply reverse_Permutation. Defined.

(** ** Properties *)

Section properties.
Context `{MapIteration}.

(** C37: validating the subnets annotation.  On success the returned IDs have
    no repeats; every requested value is represented; and every returned ID
    is the ID of a listed subnet of the requested VPC that some requested
    value names.  It fails exactly when some requested value names no subnet,
    or first names by ID a subnet of another VPC; it never panics.  All of
    it for every map iteration order. *)
Theorem validateServiceSubnets_spec d service s vpcID subnets :
  match validateServiceSubnets d service s vpcID subnets with
  | Ok l =>
      NoDup l ∧
      (∀ v, v ∈ split "," s → ∃ id, id ∈ l ∧ denotes service vpcID subnets v id) ∧
      (∀ id, id ∈ l → ∃ v subnet, v ∈ split "," s ∧ subnet ∈ subnets ∧
         sub_ID subnet = id ∧ ref_ID (sub_Vpc subnet) = vpcID ∧ names_subnet vpcID v subnet)
  | Err _ => ∃ v, v ∈ split "," s ∧ ∀ id, ¬ denotes service vpcID subnets v id
  | Panic _ => False
  end.
Proof.
  unfold validateServiceSubnets.
  pose proof (desiredSubnetMap_no_panic service s vpcID subnets) as Hnp.
  destruct (desiredSubnetMap service s vpcID subnets) as [m|e|w] eqn:Hm; cbn; [|by eapply desiredSubnetMap_Err|done].
  apply desiredSubnetMap_elem in Hm as [H1 H2].
  split_and!; [apply NoDup_range_keys|..].
  - intros v Hv. destruct (H1 v Hv) as [id Hid]. exists id.
    rewrite elem_of_range_keys, H2. split; [by exists v|done].
  - intros id (v & Hv & Hid)%elem_of_range_keys%H2.
    apply matchServiceSubnet_sound in Hid as (sb & ? & ? & ? & ?). by exists v, sb.
Qed.

(** C38: the subnets of an existing load balancer may not change.  When no
    subnet ID holds a comma, the check passes exactly if the annotation is
    empty, or it validates and denotes the same multiset of subnet IDs as the
    load balancer has - whatever order the map iteration yields. *)
Theorem validateServiceSubnetsNotUpdated_iff d service lb subnets :
  lb_Subnets lb ≠ [] →
  Forall (λ r, has_byte "," (ref_ID r) = false) (lb_Subnets lb) →
  Forall (λ s, has_byte "," (sub_ID s) = false) subnets →
  validateServiceSubnetsNotUpdated d service lb subnets = Ok tt ↔
  getServiceSubnets service = "" ∨
  ∃ requested,
    validateServiceSubnets d service (getServiceSubnets service)
      (getVpcID lb subnets) subnets = Ok requested ∧
    requested ≡ₚ lb_getSubnetIDs lb.
Proof.
  intros Hne Hlb Hsubs. unfold validateServiceSubnetsNotUpdated.
  case_bool_decide as Hs; [split; [by left|done]|]. cbn zeta.
  pose proof (validateServiceSubnets_spec d service (getServiceSubnets service)
                (getVpcID lb subnets) subnets) as Hspec.
  destruct (validateServiceSubnets _ _ _ _ _) as [req|e|w]; cbn;
    [|by split; [done|intros [?|(? & ? & _)]]..].
  destruct Hspec as (_ & Hall & Hsound).
  assert (req ≠ []) as Hreq.
  { pose proof (split_nonempty "," (getServiceSubnets service)).
    destruct (split "," _) as [|v vs]; [done|].
    destruct (Hall v) as (id & Hid & _); [left|]. by intros ->; apply not_elem_of_nil in Hid. }
  assert (join "," (sortStrings req) = join "," (sortStrings (ref_ID <$> lb_Subnets lb)) ↔
          req ≡ₚ lb_getSubnetIDs lb) as Hjoin.
  { unfold lb_getSubnetIDs. apply join_sorted_eq; [done| | |by rewrite Forall_fmap].
    - intros Hnil%fmap_nil_inv. done.
    - apply Forall_forall. intros id (v & sb & _ & Hsb & <- & _)%Hsound.
      by rewrite Forall_forall in Hsubs; apply Hsubs. }
  case_bool_decide as Hb.
  - split; [done|]. intros [?|(r & [= <-] & Hr)]; [done|]. by apply Hjoin in Hr.
  - split; [|done]. intros _. right. exists req. split; [done|].
    apply Hjoin. by destruct (decide (join "," (sortStrings req) =
      join "," (sortStrings (ref_ID <$> lb_Subnets lb)))).
Qed.

(** Every subnet whose name is listed in the configuration is selected
    for the cluster, in the order of the VPC's list. *)
Theorem filterSubnetsByName_complete subnets subnetList subnet :
  subnet ∈ subnets → sub_Name subnet ∈ split "," subnetList →
  subnet ∈ filterSubnetsByName subnets subnetList ∧
  sublist (filterSubnetsByName subnets subnetList) subnets.
Proof.
  intros Hin Hname. unfold filterSubnetsByName. split; [|apply sublist_filter].
  apply list_elem_of_filter. split; [|done]. apply contains_spec.
  apply list_elem_of_split in Hname as (l1 & l2 & Hl).
  assert (has_byte "," (sub_Name subnet) = false) as Hc.
  { apply (split_part_no_sep "," subnetList). rewrite Hl. set_solver. }
  assert (contains ("," +:+ subnetList +:+ ",") ("," +:+ sub_Name subnet +:+ ",") = true) as Hct.
  { rewrite <- (join_split "," subnetList) at 1.
    apply (contains_join_elem ","); [apply split_nonempty| |done|rewrite Hl; set_solver].
    apply Forall_forall. intros w. apply split_part_no_sep. }
  apply contains_spec in Hct as (a & b & ->).
  exists (a +:+ ","), ("," +:+ b). by rewrite !app_assoc_str.
Qed.
End properties.

(** A subnet with the given ID, name and VPC, for examples. *)
Definition example_subnet (id name vpc zone : string) : VpcSubnet :=
  {| sub_AvailableIpv4AddressCount := 0; sub_CreatedAt := ""; sub_ID := id;
     sub_IPVersion := "ipv4"; sub_Ipv4CidrBlock := "10.240.0.0/24"; sub_Name := name;
     sub_NetworkACL := ref0; sub_PublicGateway := ref0; sub_ResourceGroup := ref0;
     sub_Status := ""; sub_TotalIpv4AddressCount := 256;
     sub_Vpc := {| ref_ID := vpc; ref_Name := vpc |}; sub_Zone := zone |}.

Lemma filterSubnetsByName_complete_witness :
  example_subnet "1" "net-b" "v" "z" ∈
    filterSubnetsByName [example_subnet "0" "net-a" "v" "z"; example_subnet "1" "net-b" "v" "z"]
      "net-b,net-c".
Proof.
  refine (proj1 (filterSubnetsByName_complete _ _ _ _ _)); [right; left|].
  vm_compute. left.
Defined.

(** The names of the configuration are looked up as substrings, without
    the separating commas: a subnet whose name is a proper part of a configured
    name is selected as well. *)
Theorem filterSubnetsByName_substring :
  let net1 := example_subnet "1" "net-1" "v" "z" in
  let net10 := example_subnet "10" "net-10" "v" "z" in
  filterSubnetsByName [net1; net10] "net-10" = [net1; net10] ∧
  sub_Name net1 ∉ split "," "net-10".
Proof. split; [by vm_compute|]. by_decision. Qed.

(** A service for examples: one namespace, a list of TCP ports, annotations. *)
Definition example_service (uid : string) (ports : list (Z * Z)) (annotations : gmap string string)
    : Service :=
  {| svc_Name := "echo"; svc_Namespace := "default"; svc_UID := uid;
     svc_Annotations := annotations;
     svc_Spec := {| spec_Ports := (λ '(p, np), {| sp_Protocol := ProtocolTCP; sp_Port := p;
                                                   sp_NodePort := np |}) <$> ports;
                    spec_Type := ServiceTypeLoadBalancer;
                    spec_ExternalTrafficPolicy := ServiceExternalTrafficPolicyTypeCluster;
                    spec_HealthCheckNodePort := 0;
                    spec_AllocateLoadBalancerNodePorts := None;
                    spec_LoadBalancerClass := None |};
     svc_LoadBalancer := {| lbs_Ingress := None |} |}.

Definition example_lb (id name : string) (operating provisioning : string)
    (subnets : list string) (pools : list VpcObjectReference) : VpcLoadBalancer :=
  {| lb_CreatedAt := ""; lb_Hostname := name +:+ ".lb.ibm.com"; lb_ID := id;
     lb_IsPublic := true; lb_ListenerIDs := []; lb_Name := name;
     lb_OperatingStatus := operating; lb_Pools := pools; lb_PrivateIps := [];
     lb_ProfileFamily := ""; lb_ProvisioningStatus := provisioning; lb_PublicIps := [];
     lb_ResourceGroup := ref0;
     lb_Subnets := (λ s, {| ref_ID := s; ref_Name := s |}) <$> subnets; lb_VpcID := "" |}.

Lemma validateServiceSubnetsNotUpdated_iff_witness :
  let service := example_service "u" [] {[serviceAnnotationSubnets := "net-b, net-a"]} in
  let lb := example_lb "lb" "kube-c-u" "online" "active" ["0"; "1"] [] in
  let subnets := [example_subnet "0" "net-a" "v" "z"; example_subnet "1" "net-b" "v" "z"] in
  @validateServiceSubnetsNotUpdated reverse_order 0 service lb subnets = Ok tt.
Proof.
  intros service lb subnets.
  refine (proj2 (@validateServiceSubnetsNotUpdated_iff reverse_order 0 service lb subnets _ _ _) _).
  - done.
  - by_decision.
  - by_decision.
  - right. eexists. split; [by vm_compute|]. by_decision.
Defined.

(** Which configurations are accepted: a cluster ID is always required;
    the mock provider needs nothing else; the Gen2 provider needs the account,
    the API key, the region, the resource group, the subnets and the VPC; no
    other provider is accepted.  An accepted Gen2 configuration gets its VPC and
    IAM endpoints, overrides first, with the API paths appended; a rejected or
    mock configuration is left alone. *)
Theorem config_initialize_spec c :
  match config_initialize c with
  | Ok c' =>
      cfg_ClusterID c ≠ "" ∧
      ((cfg_ProviderType c = VpcProviderTypeFake ∧ c' = c) ∨
       (cfg_ProviderType c = VpcProviderTypeGen2 ∧
        cfg_AccountID c ≠ "" ∧ cfg_APIKeySecret c ≠ "" ∧ cfg_Region c ≠ "" ∧
        cfg_ResourceGroupName c ≠ "" ∧ cfg_SubnetNames c ≠ "" ∧ cfg_VpcName c ≠ "" ∧
        c' = set_urls c (getVpcEndpoint c +:+ "/v1") (getIamEndpoint c +:+ "/identity/token")))
  | Err _ =>
      cfg_ClusterID c = "" ∨
      cfg_ProviderType c ≠ VpcProviderTypeFake ∧
      (cfg_ProviderType c ≠ VpcProviderTypeGen2 ∨
       cfg_AccountID c = "" ∨ cfg_APIKeySecret c = "" ∨ cfg_Region c = "" ∨
       cfg_ResourceGroupName c = "" ∨ cfg_SubnetNames c = "" ∨ cfg_VpcName c = "")
  | Panic _ => False
  end.
Proof.
  unfold config_initialize, validate.
  repeat (case_bool_decide; cbn; [tauto|]);
    repeat (case_bool_decide; cbn; try tauto).
  all: split; [done|]. all: first [left; by split|right; split_and!; try done].
  all: by destruct (decide (cfg_ProviderType c = VpcProviderTypeGen2)).
Qed.

(** The endpoints: an override is used as it is; otherwise the region
    decides between production and stage hosts and the private flag between
    private and public ones. *)
Theorem endpoints_spec c :
  (cfg_VpcEndpointOverride c ≠ "" → getVpcEndpoint c = cfg_VpcEndpointOverride c) ∧
  (cfg_IamEndpointOverride c ≠ "" → getIamEndpoint c = cfg_IamEndpointOverride c) ∧
  (cfg_VpcEndpointOverride c = "" →
   getVpcEndpoint c = "https://" +:+ cfg_Region c +:+
     (if cfg_EnablePrivate c then ".private." else ".") +:+
     (if contains (cfg_Region c) "stage" then "iaasdev.cloud.ibm.com"
      else "iaas.cloud.ibm.com")) ∧
  (cfg_IamEndpointOverride c = "" →
   (contains (getIamEndpoint c) "private." = cfg_EnablePrivate c) ∧
   (getIamEndpoint c = iamPublicTokenExchangeURL ↔
    cfg_EnablePrivate c = false ∧ contains (cfg_Region c) "stage" = false)).
Proof.
  unfold getVpcEndpoint, getIamEndpoint. split_and!; intros Ho.
  - by rewrite bool_decide_eq_true_2.
  - by rewrite bool_decide_eq_true_2.
  - rewrite bool_decide_eq_false_2 by (by intros []).
    by destruct (cfg_EnablePrivate c), (contains _ "stage").
  - rewrite bool_decide_eq_false_2 by (by intros []).
    destruct (contains (cfg_Region c) "stage"), (cfg_EnablePrivate c); split;
      (by vm_compute) || (split; [|intros []]; by vm_compute).
Qed.

(** The node selector annotation selects a label exactly when, blanks
    removed, it reads label=value with a single equals sign and the label is on
    the list of allowed node labels. *)
Theorem getServiceNodeSelectorFilter_iff service l v :
  (getServiceNodeSelectorFilter service = (l, v) ∧ l ≠ "") ↔
  removeAll " " (map_get (svc_Annotations service) serviceAnnotationNodeSelector)
    = l +:+ "=" +:+ v ∧
  has_byte "=" v = false ∧ l ∈ memberNodeLabelsAllowed.
Proof.
  unfold getServiceNodeSelectorFilter.
  generalize (removeAll " " (map_get (svc_Annotations service) serviceAnnotationNodeSelector)).
  intros s. assert (∀ x, x ∈ memberNodeLabelsAllowed → has_byte "=" x = false ∧ x ≠ "") as Hall.
  { apply Forall_forall. by_decision. }
  split.
  - case_bool_decide as Hs; [by intros [[= <- <-] ?]|].
    destruct (split "=" s) as [|x [|y [|]]] eqn:Hsp; try by intros [[= <- <-] ?].
    case_bool_decide as Hin; [|by intros [[= <- <-] ?]].
    intros [[= <- <-] _]. split_and!; [|apply (split_part_no_sep "=" s); rewrite Hsp; set_solver|done].
    by rewrite <- (join_split "=" s), Hsp.
  - intros (-> & Hv & Hl). destruct (Hall l Hl) as [Hl1 Hl2]. split; [|done].
    rewrite bool_decide_eq_false_2 by (by destruct l).
    change ("=" +:+ v) with (String "=" v). rewrite (split_app "=") by done. rewrite split_no_sep by done.
    by rewrite bool_decide_eq_true_2.
Qed.
