(* ===== verification/VpcUpdates.v ===== *)
(** * VpcUpdates: computing the updates of a load balancer
    (pkg/vpcctl/vpc_lbaas.go, the check functions and steps 1 to 8 of
    UpdateLoadBalancer)

    An update is one line of text: an action word and blank-separated
    arguments.  The functions below are the source's, on lines.  A pool is
    visited through a pointer; [checkPoolForExtPortDeletedFromService] renames
    the pool it visits, so it returns the pool, and the later steps see the
    renamed list.  The pools come fresh from [ListLoadBalancerPools], so no two
    pointers of the list are the same. *)
From S2P Require Import Prelude GoStrings Kube VpcTypes VpcConfig.

Definition actionCreateListener := "CREATE-LISTENER".
Definition actionCreatePool := "CREATE-POOL".
Definition actionCreatePoolMember := "CREATE-POOL-MEMBER".
Definition actionDeleteListener := "DELETE-LISTENER".
Definition actionDeletePool := "DELETE-POOL".
Definition actionDeletePoolMember := "DELETE-POOL-MEMBER".
Definition actionReplacePoolMembers := "REPLACE-POOL-MEMBERS".
Definition actionUpdatePool := "UPDATE-POOL".
Definition poolToBeDeleted := "POOL-TO-BE-DELETED".

(** [fmt.Sprintf("%s %s ... %s", ...)]. *)
Definition sprint_words (words : list string) : string := join " " words.

Definition is_member_cmd (cmd : string) : bool :=
  bool_decide (cmd = actionCreatePoolMember) || bool_decide (cmd = actionDeletePoolMember).

(** ** Step 8: coalescing member updates *)

(** One round of the first loop: count a member update for its pool. *)
Definition countUpdate (poolUpdates : gmap string nat) (update : string)
    : outcome (gmap string nat) :=
  let updateArgs := fields update in
  cmd ← index updateArgs 0;
  poolName ← index updateArgs 1;
  Ok (if is_member_cmd cmd
      then <[poolName := S (default 0 (poolUpdates !! poolName))]> poolUpdates
      else poolUpdates).
Definition countPoolUpdates (updatesRequired : list string) : outcome (gmap string nat) :=
  foldM countUpdate ∅ updatesRequired.

(** One round of the second loop. *)
Definition filterUpdate (st : list string * gmap string nat) (update : string)
    : outcome (list string * gmap string nat) :=
  let '(filteredUpdates, poolUpdates) := st in
  let updateArgs := fields update in
  cmd ← index updateArgs 0;
  if negb (is_member_cmd cmd) then Ok (filteredUpdates ++ [update], poolUpdates)
  else
    poolName ← index updateArgs 1;
    poolID ← index updateArgs 2;
    let count := default 0 (poolUpdates !! poolName) in
    if (count =? 1)%nat then Ok (filteredUpdates ++ [update], poolUpdates)
    else if (1 <? count)%nat then
      Ok (filteredUpdates ++ [sprint_words [actionReplacePoolMembers; poolName; poolID]],
          <[poolName := 0]> poolUpdates)
    else Ok (filteredUpdates, poolUpdates).

Definition checkForMultiplePoolMemberUpdates (updatesRequired : list string)
    : outcome (list string) :=
  poolUpdates ← countPoolUpdates updatesRequired;
  let filterNeeded := existsb (λ '(_, count), (1 <? count)%nat) (map_to_list poolUpdates) in
  if negb filterNeeded then Ok updatesRequired
  else
    '(filteredUpdates, _) ← foldM filterUpdate ([], poolUpdates) updatesRequired;
    Ok filteredUpdates.

(** ** The checks *)

Definition checkListenersForExtPortAddedToService (updatesRequired : list string)
    (listeners : list VpcLoadBalancerListener) (servicePort : ServicePort) : list string :=
  if existsb (isServicePortEqualListener servicePort) listeners then updatesRequired
  else updatesRequired ++
         [sprint_words [actionCreateListener; genLoadBalancerPoolName servicePort]].

Definition checkListenerForExtPortDeletedFromService (updatesRequired : list string)
    (listener : VpcLoadBalancerListener) (ports : list ServicePort) : list string :=
  if existsb (λ kubePort, isServicePortEqualListener kubePort listener) ports
  then updatesRequired
  else
    let poolName := ref_Name (lst_DefaultPool listener) in
    let poolName := if bool_decide (poolName = "") then "unknown" else poolName in
    updatesRequired ++ [sprint_words [actionDeleteListener; poolName; lst_ID listener]].

Fixpoint checkPoolsForExtPortAddedToService (updatesRequired : list string)
    (pools : list VpcLoadBalancerPool) (servicePort : ServicePort) : outcome (list string) :=
  let poolName := genLoadBalancerPoolName servicePort in
  match pools with
  | [] => Ok (updatesRequired ++ [sprint_words [actionCreatePool; poolName]])
  | pool :: rest =>
      if bool_decide (pool_Name pool = poolName) then Ok updatesRequired
      else if bool_decide (pool_Name pool = poolToBeDeleted) then
        checkPoolsForExtPortAddedToService updatesRequired rest servicePort
      else
        poolNameFields ← extractFieldsFromPoolName (pool_Name pool);
        if isServicePortEqualPoolName servicePort poolNameFields then Ok updatesRequired
        else checkPoolsForExtPortAddedToService updatesRequired rest servicePort
  end.

Definition set_pool_Name (name : string) (pool : VpcLoadBalancerPool) : VpcLoadBalancerPool :=
  {| pool_Algorithm := pool_Algorithm pool;
     pool_HealthMonitor := pool_HealthMonitor pool;
     pool_ID := pool_ID pool;
     pool_Members := pool_Members pool;
     pool_Name := name;
     pool_Protocol := pool_Protocol pool;
     pool_ProvisioningStatus := pool_ProvisioningStatus pool;
     pool_ProxyProtocol := pool_ProxyProtocol pool;
     pool_SessionPersistence := pool_SessionPersistence pool |}.

Definition checkPoolForExtPortDeletedFromService (updatesRequired : list string)
    (pool : VpcLoadBalancerPool) (ports : list ServicePort)
    : outcome (list string * VpcLoadBalancerPool) :=
  poolNameFields ← extractFieldsFromPoolName (pool_Name pool);
  if existsb (λ kubePort, isServicePortEqualPoolName kubePort poolNameFields) ports
  then Ok (updatesRequired, pool)
  else
    Ok (updatesRequired ++ [sprint_words [actionDeletePool; pool_Name pool; pool_ID pool]],
        set_pool_Name poolToBeDeleted pool).

(** The pools as step 2 leaves them, also when it fails at a name that does not
    parse: the pools before it are renamed already. *)
Fixpoint renamedPools (ports : list ServicePort) (pools : list VpcLoadBalancerPool)
    : list VpcLoadBalancerPool :=
  match pools with
  | [] => []
  | pool :: rest =>
      match checkPoolForExtPortDeletedFromService [] pool ports with
      | Ok (_, pool) => pool :: renamedPools ports rest
      | _ => pools
      end
  end.

(** The loop over the ports that the two member checks share: the node port of
    a matching service port differs from the one in the pool name. *)
Definition nodePortChanged (poolNameFields : VpcPoolNameFields) (ports : list ServicePort)
    : bool :=
  existsb (λ kubePort, isServicePortEqualPoolName kubePort poolNameFields &&
                       bool_decide (pn_NodePort poolNameFields ≠ sp_NodePort kubePort)) ports.

Definition checkPoolForNodesToAdd (updatesRequired : list string)
    (pool : VpcLoadBalancerPool) (ports : list ServicePort) (nodeList : list string)
    : outcome (list string) :=
  if bool_decide (pool_Name pool = poolToBeDeleted) then Ok updatesRequired
  else
    poolNameFields ← extractFieldsFromPoolName (pool_Name pool);
    if nodePortChanged poolNameFields ports then Ok updatesRequired
    else
      let foundMember nodeID :=
        existsb (λ member, bool_decide (nodeID = mem_TargetIPAddress member) &&
                           bool_decide (pn_NodePort poolNameFields = mem_Port member))
                (pool_Members pool) in
      foldM (λ updatesRequired nodeID,
        Ok (if foundMember nodeID then updatesRequired
            else updatesRequired ++
                   [sprint_words [actionCreatePoolMember; pool_Name pool; pool_ID pool; nodeID]]))
        updatesRequired nodeList.

Definition checkPoolForNodesToDelete (updatesRequired : list string)
    (pool : VpcLoadBalancerPool) (ports : list ServicePort) (nodeList : list string)
    : outcome (list string) :=
  if bool_decide (pool_Name pool = poolToBeDeleted) then Ok updatesRequired
  else
    poolNameFields ← extractFieldsFromPoolName (pool_Name pool);
    if nodePortChanged poolNameFields ports then Ok updatesRequired
    else
      let nodeString := " " +:+ join " " nodeList +:+ " " in
      foldM (λ updatesRequired member,
        let memberTarget := mem_TargetIPAddress member in
        Ok (if negb (contains nodeString (" " +:+ memberTarget +:+ " "))
               || bool_decide (pn_NodePort poolNameFields ≠ mem_Port member)
            then updatesRequired ++
                   [sprint_words [actionDeletePoolMember; pool_Name pool; pool_ID pool;
                                  mem_ID member; memberTarget]]
            else updatesRequired))
        updatesRequired (pool_Members pool).

(** The switch of [checkPoolForServiceChanges]: (updatePool, replacePoolMembers). *)
Definition poolChanges (pool : VpcLoadBalancerPool) (service : Service)
    (kubePort : ServicePort) : bool * bool :=
  let spec := svc_Spec service in
  let poolName := genLoadBalancerPoolName kubePort in
  let proxyProtocolRequested := isProxyProtocol (getServiceOptions (Some service)) in
  let hm := pool_HealthMonitor pool in
  if bool_decide (poolName ≠ pool_Name pool) then (true, true)
  else if bool_decide (spec_ExternalTrafficPolicy spec = ServiceExternalTrafficPolicyTypeLocal)
          && (0 <? spec_HealthCheckNodePort spec)%Z
          && (bool_decide (hm_Type hm ≠ LoadBalancerProtocolHTTP)
              || bool_decide (hm_Port hm ≠ spec_HealthCheckNodePort spec))
  then (true, false)
  else if bool_decide (spec_ExternalTrafficPolicy spec = ServiceExternalTrafficPolicyTypeCluster)
          && (bool_decide (hm_Type hm ≠ LoadBalancerProtocolTCP)
              || bool_decide (hm_Port hm ≠ sp_NodePort kubePort))
  then (true, false)
  else if proxyProtocolRequested
          && bool_decide (pool_ProxyProtocol pool ≠ LoadBalancerProxyProtocolV1)
  then (true, false)
  else if negb proxyProtocolRequested
          && bool_decide (pool_ProxyProtocol pool ≠ LoadBalancerProxyProtocolDisabled)
  then (true, false)
  else (false, false).

Definition checkPoolForServiceChanges (updatesRequired : list string)
    (pool : VpcLoadBalancerPool) (service : Service) : outcome (list string) :=
  if bool_decide (pool_Name pool = poolToBeDeleted) then Ok updatesRequired
  else
    poolNameFields ← extractFieldsFromPoolName (pool_Name pool);
    match List.find (λ kubePort, isServicePortEqualPoolName kubePort poolNameFields)
                    (spec_Ports (svc_Spec service)) with
    | None => Ok updatesRequired
    | Some kubePort =>
        let poolName := genLoadBalancerPoolName kubePort in
        let '(updatePool, replacePoolMembers) := poolChanges pool service kubePort in
        let updatesRequired :=
          if updatePool
          then updatesRequired ++ [sprint_words [actionUpdatePool; poolName; pool_ID pool]]
          else updatesRequired in
        let updatesRequired :=
          if replacePoolMembers
          then updatesRequired ++ [sprint_words [actionReplacePoolMembers; poolName; pool_ID pool]]
          else updatesRequired in
        Ok updatesRequired
    end.

(** ** The plan: steps 1 to 8 of UpdateLoadBalancer *)

(** Steps 1 to 7, and the pools as step 2 leaves them. *)
Definition collectUpdates (listeners : list VpcLoadBalancerListener)
    (pools : list VpcLoadBalancerPool) (service : Service) (nodeList : list string)
    : outcome (list string * list VpcLoadBalancerPool) :=
  let ports := spec_Ports (svc_Spec service) in
  (* Step 1 *)
  let updatesRequired :=
    fold_left (λ u listener, checkListenerForExtPortDeletedFromService u listener ports)
              listeners [] in
  (* Step 2 *)
  '(updatesRequired, pools) ←
    foldM_update (λ u pool, checkPoolForExtPortDeletedFromService u pool ports)
                 updatesRequired pools;
  (* Step 3 *)
  updatesRequired ←
    foldM (λ u pool, checkPoolForNodesToDelete u pool ports nodeList) updatesRequired pools;
  (* Step 4 *)
  updatesRequired ←
    foldM (λ u pool, checkPoolForServiceChanges u pool service) updatesRequired pools;
  (* Step 5 *)
  updatesRequired ←
    foldM (λ u pool, checkPoolForNodesToAdd u pool ports nodeList) updatesRequired pools;
  (* Steps 6 and 7 *)
  updatesRequired ←
    foldM (λ u servicePort,
      u ← checkPoolsForExtPortAddedToService u pools servicePort;
      Ok (checkListenersForExtPortAddedToService u listeners servicePort))
      updatesRequired ports;
  Ok (updatesRequired, pools).

Definition planUpdates (listeners : list VpcLoadBalancerListener)
    (pools : list VpcLoadBalancerPool) (service : Service) (nodeList : list string)
    : outcome (list string * list VpcLoadBalancerPool) :=
  '(updatesRequired, pools) ← collectUpdates listeners pools service nodeList;
  (* Step 8 *)
  updatesRequired ← checkForMultiplePoolMemberUpdates updatesRequired;
  Ok (updatesRequired, pools).
