(* ===== verification/UpdateSpec.v ===== *)
(** * UpdateSpec: the updates of a load balancer as data

    [Action] is what an update line means; [render] writes the line, [decode]
    reads it.  [coalesce] is the reference for merging member updates, and step 8
    of the source computes it; the reference for steps 1 to 7 is in UpdatePlan. *)
From S2P Require Import Prelude GoStrings Kube VpcTypes VpcConfig VpcUpdates.

(** ** Actions *)

Inductive Action :=
  | CreateListener (poolName : string)
  | CreatePool (poolName : string)
  | CreatePoolMember (poolName poolID nodeID : string)
  | DeleteListener (poolName listenerID : string)
  | DeletePool (poolName poolID : string)
  | DeletePoolMember (poolName poolID memberID target : string)
  | ReplacePoolMembers (poolName poolID : string)
  | UpdatePool (poolName poolID : string).

#[export] Instance Action_eq_dec : EqDecision Action.
Proof. solve_decision. Defined.

Definition words (a : Action) : list string :=
  match a with
  | CreateListener p => [actionCreateListener; p]
  | CreatePool p => [actionCreatePool; p]
  | CreatePoolMember p i n => [actionCreatePoolMember; p; i; n]
  | DeleteListener p l => [actionDeleteListener; p; l]
  | DeletePool p i => [actionDeletePool; p; i]
  | DeletePoolMember p i m t => [actionDeletePoolMember; p; i; m; t]
  | ReplacePoolMembers p i => [actionReplacePoolMembers; p; i]
  | UpdatePool p i => [actionUpdatePool; p; i]
  end.
Definition args (a : Action) : list string := tail (words a).

Definition render (a : Action) : string := sprint_words (words a).

Definition decode (update : string) : option Action :=
  match fields update with
  | [c; p] => if decide (c = actionCreateListener) then Some (CreateListener p)
              else if decide (c = actionCreatePool) then Some (CreatePool p) else None
  | [c; p; x] => if decide (c = actionDeleteListener) then Some (DeleteListener p x)
                 else if decide (c = actionDeletePool) then Some (DeletePool p x)
                 else if decide (c = actionReplacePoolMembers) then Some (ReplacePoolMembers p x)
                 else if decide (c = actionUpdatePool) then Some (UpdatePool p x) else None
  | [c; p; i; n] => if decide (c = actionCreatePoolMember) then Some (CreatePoolMember p i n)
                    else None
  | [c; p; i; m; t] => if decide (c = actionDeletePoolMember)
                       then Some (DeletePoolMember p i m t) else None
  | _ => None
  end.

(** The arguments are words, so that the line can be taken apart again. *)
Definition wf_action (a : Action) : Prop := Forall token (args a).
#[export] Instance wf_action_dec a : Decision (wf_action a).
Proof. unfold wf_action. apply _. Defined.

Lemma action_word_token a : token (default "" (head (words a))).
Proof. destruct a; by_decision. Qed.

Lemma wf_words a : wf_action a → Forall token (words a).
Proof.
  intros Ha. pose proof (action_word_token a).
  unfold wf_action in Ha. by destruct a; constructor.
Qed.

Lemma fields_render a : wf_action a → fields (render a) = words a.
Proof. intros Ha%wf_words. by apply fields_join. Qed.

Lemma decode_render_aux a : wf_action a → decode (render a) = Some a.
Proof. intros Ha. unfold decode. rewrite fields_render by done. by destruct a. Qed.

Lemma render_inj l1 l2 :
  Forall wf_action l1 → Forall wf_action l2 → render <$> l1 = render <$> l2 → l1 = l2.
Proof.
  intros H1. revert l2. induction H1 as [|a l1 Ha H1 IH]; intros [|b l2] H2 Heq; try done.
  inversion H2; subst. injection Heq as Hab Heq. f_equal; [|by apply IH].
  apply (f_equal decode) in Hab. rewrite !decode_render_aux in Hab by done. by injection Hab.
Qed.

(** ** Step 8 on actions *)

Definition is_member_action (a : Action) : bool :=
  match a with CreatePoolMember _ _ _ | DeletePoolMember _ _ _ _ => true | _ => false end.
Definition action_pool (a : Action) : string :=
  match a with
  | CreateListener p | CreatePool p | CreatePoolMember p _ _ | DeleteListener p _
  | DeletePool p _ | DeletePoolMember p _ _ _ | ReplacePoolMembers p _ | UpdatePool p _ => p
  end.
Definition action_pool_id (a : Action) : string :=
  match a with
  | CreatePoolMember _ i _ | DeletePoolMember _ i _ _ => i
  | DeletePool _ i | ReplacePoolMembers _ i | UpdatePool _ i => i
  | _ => ""
  end.

(** The member updates of pool [p]. *)
Definition member_updates (p : string) (l : list Action) : list Action :=
  filter (λ a, is_member_action a = true ∧ action_pool a = p) l.

(** Keep everything but the member updates of the pools in [busy] and, once a
    pool is in [seen], drop its member updates; the first one becomes a
    replacement of all members. *)
Fixpoint coalesce_go (busy seen : list string) (l : list Action) : list Action :=
  match l with
  | [] => []
  | a :: l =>
      if is_member_action a && bool_decide (action_pool a ∈ busy) then
        if decide (action_pool a ∈ seen) then coalesce_go busy seen l
        else ReplacePoolMembers (action_pool a) (action_pool_id a)
             :: coalesce_go busy (action_pool a :: seen) l
      else a :: coalesce_go busy seen l
  end.

(** The pools with more than one member update. *)
Definition busy_pools (l : list Action) : list string :=
  filter (λ p, 1 < length (member_updates p l))
         (action_pool <$> filter (λ a, is_member_action a = true) l).

Definition coalesce (l : list Action) : list Action := coalesce_go (busy_pools l) [] l.

Lemma coalesce_go_ext busy busy' seen l :
  (∀ p, p ∈ busy ↔ p ∈ busy') → coalesce_go busy seen l = coalesce_go busy' seen l.
Proof.
  intros Hb. revert seen. induction l as [|a l IH]; intros seen; cbn; [done|].
  rewrite (bool_decide_ext _ _ (Hb (action_pool a))). by rewrite !IH.
Qed.

Lemma coalesce_go_nil seen l : coalesce_go [] seen l = l.
Proof.
  revert seen. induction l as [|a l IH]; intros seen; cbn; [done|].
  rewrite bool_decide_eq_false_2 by apply not_elem_of_nil. by rewrite andb_false_r, IH.
Qed.

Lemma elem_of_busy p l : p ∈ busy_pools l ↔ 1 < length (member_updates p l).
Proof.
  unfold busy_pools. rewrite list_elem_of_filter. split; [by intros []|].
  intros Hp. split; [done|]. unfold member_updates in Hp.
  destruct (filter _ l) as [|a r] eqn:Hf; cbn in Hp; [lia|].
  assert (a ∈ filter (λ a, is_member_action a = true ∧ action_pool a = p) l) as Ha.
  { rewrite Hf. left. }
  apply list_elem_of_filter in Ha as [[Hm <-] Ha].
  apply list_elem_of_fmap. exists a. split; [done|]. by apply list_elem_of_filter.
Qed.

(** ** Step 8 refines [coalesce] *)

Definition count_of (m : gmap string nat) (p : string) : nat := default 0 (m !! p).

Lemma index_words_cmd a :
  ∃ cmd, index (words a) 0 = Ok cmd ∧ is_member_cmd cmd = is_member_action a.
Proof. destruct a; eexists; split; reflexivity. Qed.
Lemma index_words_pool a : index (words a) 1 = Ok (action_pool a).
Proof. by destruct a. Qed.
Lemma index_words_id a :
  is_member_action a = true → index (words a) 2 = Ok (action_pool_id a).
Proof. by destruct a. Qed.

Lemma member_updates_cons p a l :
  length (member_updates p (a :: l)) =
  (if is_member_action a && bool_decide (action_pool a = p) then 1 else 0)
  + length (member_updates p l).
Proof.
  unfold member_updates. rewrite filter_cons.
  destruct (is_member_action a); cbn.
  - case_decide as Hd; case_bool_decide; cbn; tauto || lia.
  - by rewrite decide_False by (by intros []).
Qed.

Lemma countPoolUpdates_loop l m :
  Forall wf_action l →
  ∃ r, foldM countUpdate m (render <$> l) = Ok r ∧
    ∀ p, count_of r p = count_of m p + length (member_updates p l).
Proof.
  intros Hl. revert m. induction Hl as [|a l Ha Hl IH]; intros m.
  { exists m. split; [done|]. intros p. unfold member_updates. cbn. lia. }
  cbn [fmap list_fmap foldM].
  assert (countUpdate m (render a) = Ok (if is_member_action a
    then <[action_pool a := S (count_of m (action_pool a))]> m else m)) as ->.
  { unfold countUpdate. rewrite fields_render by done.
    destruct (index_words_cmd a) as (cmd & Hcmd & Hm). cbn zeta.
    rewrite Hcmd. cbn [mbind outcome_bind]. rewrite index_words_pool.
    cbn [mbind outcome_bind]. by rewrite Hm. }
  cbn [mbind outcome_bind]. edestruct IH as (r & -> & Hr). exists r. split; [done|].
  intros p. rewrite Hr, member_updates_cons.
  destruct (is_member_action a); cbn; [|lia]. unfold count_of.
  case_bool_decide as Hp.
  - subst p. rewrite lookup_insert_eq. cbn. lia.
  - rewrite lookup_insert_ne by done. lia.
Qed.

Lemma filterUpdate_loop (n : string → nat) busy l :
  Forall wf_action l →
  (∀ p, p ∈ busy ↔ 1 < n p) →
  (∀ a, a ∈ l → is_member_action a = true → 1 ≤ n (action_pool a)) →
  ∀ acc m seen,
  (∀ p, count_of m p = if decide (p ∈ seen) then 0 else n p) →
  (∀ p, p ∈ seen → p ∈ busy) →
  ∃ m', foldM filterUpdate (acc, m) (render <$> l)
        = Ok (acc ++ (render <$> coalesce_go busy seen l), m').
Proof.
  intros Hl Hbusy. induction Hl as [|a l Ha Hl IH]; intros Hn acc m seen Hm Hseen.
  { exists m. cbn. by rewrite app_nil_r. }
  assert (∀ x, x ∈ l → is_member_action x = true → 1 ≤ n (action_pool x)) as Hn'.
  { intros; apply Hn; [by right|done]. }
  cbn [fmap list_fmap foldM coalesce_go].
  destruct (index_words_cmd a) as (cmd & Hcmd & Hmem).
  assert (filterUpdate (acc, m) (render a) =
    if negb (is_member_action a) then Ok (acc ++ [render a], m)
    else if (count_of m (action_pool a) =? 1)%nat then Ok (acc ++ [render a], m)
    else if (1 <? count_of m (action_pool a))%nat then
      Ok (acc ++ [render (ReplacePoolMembers (action_pool a) (action_pool_id a))],
          <[action_pool a := 0]> m)
    else Ok (acc, m)) as ->.
  { unfold filterUpdate. rewrite fields_render by done. cbn zeta. rewrite Hcmd.
    cbn [mbind outcome_bind]. rewrite Hmem.
    destruct (is_member_action a) eqn:Hma; cbn [negb]; [|done].
    rewrite index_words_pool. cbn [mbind outcome_bind].
    rewrite index_words_id by done. done. }
  destruct (is_member_action a) eqn:Hma; cbn [negb andb].
  2: { cbn [mbind outcome_bind]. edestruct IH as (m' & ->); [done..|]. exists m'.
       by rewrite fmap_cons, <- (assoc_L (++)). }
  specialize (Hn a ltac:(left) Hma). specialize (Hbusy (action_pool a)) as Hb.
  rewrite Hm. case_decide as Hs.
  - rewrite bool_decide_eq_true_2 by auto. cbn.
    edestruct IH as (m' & ->); [done..|]. by exists m'.
  - destruct (Nat.eqb_spec (n (action_pool a)) 1) as [H1|H1].
    + rewrite bool_decide_eq_false_2 by (rewrite Hb; lia). cbn [mbind outcome_bind].
      edestruct IH as (m' & ->); [done..|]. exists m'. by rewrite fmap_cons, <- (assoc_L (++)).
    + rewrite bool_decide_eq_true_2 by (apply Hb; lia).
      destruct (Nat.ltb_spec 1 (n (action_pool a))); [|lia].
      cbn [mbind outcome_bind].
      edestruct (IH Hn' (acc ++ [render (ReplacePoolMembers (action_pool a) (action_pool_id a))])
        (<[action_pool a := 0]> m) (action_pool a :: seen)) as (m' & ->).
      * intros p. unfold count_of. destruct (decide (p = action_pool a)) as [->|Hp].
        -- rewrite lookup_insert_eq. by rewrite decide_True by left.
        -- rewrite lookup_insert_ne by done. fold (count_of m p). rewrite Hm.
           by apply decide_ext; rewrite elem_of_cons; tauto.
      * intros p [->|Hp]%elem_of_cons; [apply Hb; lia|auto].
      * exists m'. by rewrite fmap_cons, <- (assoc_L (++)).
Qed.

Lemma check_refines_aux l :
  Forall wf_action l →
  checkForMultiplePoolMemberUpdates (render <$> l) = Ok (render <$> coalesce l).
Proof.
  intros Hl. unfold checkForMultiplePoolMemberUpdates, countPoolUpdates.
  destruct (countPoolUpdates_loop l ∅ Hl) as (m & -> & Hm). cbn [mbind outcome_bind].
  assert (∀ p, count_of m p = length (member_updates p l)) as Hc.
  { intros p. rewrite Hm. unfold count_of. by rewrite lookup_empty. }
  destruct (existsb _ _) eqn:Hex; cbn zeta; cbn [negb].
  - destruct (filterUpdate_loop (λ p, length (member_updates p l)) (busy_pools l) l Hl
      (λ p, elem_of_busy p l)) with (acc := @nil string) (m := m) (seen := @nil string)
      as (m' & ->); [| | |done].
    + intros a Ha Hma. destruct (member_updates (action_pool a) l) as [|] eqn:Hmu; cbn; [|lia].
      exfalso. apply (not_elem_of_nil a). rewrite <- Hmu. apply list_elem_of_filter. done.
    + intros p. by rewrite decide_False by apply not_elem_of_nil.
    + intros p Hp. by apply not_elem_of_nil in Hp.
  - unfold coalesce. rewrite (coalesce_go_ext _ []); [by rewrite coalesce_go_nil|].
    intros p. split; [|intros Hp; by apply not_elem_of_nil in Hp].
    rewrite elem_of_busy, <- Hc. unfold count_of. intros Hp.
    destruct (m !! p) as [k|] eqn:Hk; cbn in Hp; [|lia]. exfalso.
    apply not_true_iff_false in Hex. apply Hex. apply existsb_exists.
    exists (p, k). rewrite <- list_elem_of_In, elem_of_map_to_list. split; [done|].
    by apply Nat.ltb_lt.
Qed.

(** ** What coalescing does *)

Definition is_replacement (p : string) (a : Action) : bool :=
  match a with ReplacePoolMembers q _ => bool_decide (q = p) | _ => false end.

Lemma member_updates_app p l1 l2 :
  member_updates p (l1 ++ l2) = member_updates p l1 ++ member_updates p l2.
Proof. apply filter_app. Qed.

Lemma coalesce_go_members busy seen l p :
  member_updates p (coalesce_go busy seen l)
  = if decide (p ∈ busy) then [] else member_updates p l.
Proof.
  revert seen. induction l as [|a l IH]; intros seen; [by case_decide|].
  cbn [coalesce_go]. unfold member_updates in *. rewrite filter_cons.
  destruct (is_member_action a) eqn:Ha; cbn [andb].
  - case_bool_decide as Hb.
    + assert (filter (λ a, is_member_action a = true ∧ action_pool a = p)
        (if decide (action_pool a ∈ seen) then coalesce_go busy seen l
         else ReplacePoolMembers (action_pool a) (action_pool_id a)
              :: coalesce_go busy (action_pool a :: seen) l)
        = if decide (p ∈ busy) then [] else
          filter (λ a, is_member_action a = true ∧ action_pool a = p) l) as ->.
      { destruct (decide (action_pool a ∈ seen)); [apply IH|].
        rewrite filter_cons, decide_False by (by intros []). apply IH. }
      case_decide; [done|]. by rewrite decide_False by naive_solver.
    + rewrite filter_cons, IH. repeat case_decide; naive_solver.
  - rewrite filter_cons, !decide_False by (rewrite Ha; by intros []). apply IH.
Qed.

Lemma coalesce_go_others busy seen l :
  sublist (filter (λ a, is_member_action a = false) l) (coalesce_go busy seen l).
Proof.
  revert seen. induction l as [|a l IH]; intros seen; [done|].
  cbn [coalesce_go]. rewrite filter_cons. destruct (is_member_action a) eqn:Ha; cbn [andb].
  - rewrite decide_False by done. case_bool_decide; [case_decide|].
    + apply IH.
    + constructor. apply IH.
    + constructor. apply IH.
  - rewrite decide_True by done. constructor. apply IH.
Qed.

(** Every line of the result is an old line, or the replacement of a busy pool. *)
Lemma elem_of_coalesce_go busy seen l a :
  a ∈ coalesce_go busy seen l →
  (a ∈ l ∧ (is_member_action a = true → action_pool a ∉ busy)) ∨
  ∃ b, b ∈ l ∧ is_member_action b = true ∧ action_pool b ∈ busy ∧
       a = ReplacePoolMembers (action_pool b) (action_pool_id b).
Proof.
  revert seen. induction l as [|b l IH]; intros seen; [by intros ?%not_elem_of_nil|].
  assert (∀ seen, a ∈ coalesce_go busy seen l →
    (a ∈ b :: l ∧ (is_member_action a = true → action_pool a ∉ busy)) ∨
    ∃ c, c ∈ b :: l ∧ is_member_action c = true ∧ action_pool c ∈ busy ∧
       a = ReplacePoolMembers (action_pool c) (action_pool_id c)) as IH'.
  { intros s [[? ?]|(c & ? & ? & ? & ->)]%IH; [left; split; [by right|done]|].
    right. exists c. split_and!; try done. by right. }
  cbn [coalesce_go]. destruct (is_member_action b) eqn:Hb; cbn [andb].
  - case_bool_decide as Hin; [case_decide; [apply IH'|]|].
    + intros [->|?]%elem_of_cons; [|by eapply IH'].
      right. exists b. split_and!; try done. left.
    + intros [->|?]%elem_of_cons; [|by eapply IH']. left. split; [left|done].
  - intros [->|?]%elem_of_cons; [|by eapply IH']. left. split; [left|congruence].
Qed.

Lemma member_updates_nil_cons p a l :
  member_updates p (a :: l) ≠ [] ↔
  (is_member_action a = true ∧ action_pool a = p) ∨ member_updates p l ≠ [].
Proof. unfold member_updates. rewrite filter_cons. case_decide; naive_solver. Qed.

(** How often the members of pool [p] are replaced as a whole. *)
Definition replacements (p : string) (l : list Action) : nat :=
  length (filter (λ a, is_replacement p a = true) l).

Lemma replacements_cons p a l :
  replacements p (a :: l) = (if is_replacement p a then 1 else 0) + replacements p l.
Proof. unfold replacements. rewrite filter_cons. by destruct (is_replacement p a). Qed.
Lemma member_not_replacement p a : is_member_action a = true → is_replacement p a = false.
Proof. by destruct a. Qed.

Lemma coalesce_go_replacements busy seen l p :
  replacements p (coalesce_go busy seen l)
  = replacements p l
    + (if decide (p ∈ busy ∧ ¬ (p ∈ seen) ∧ member_updates p l ≠ []) then 1 else 0).
Proof.
  revert seen. induction l as [|a l IH]; intros seen.
  { rewrite decide_False by (by intros (_ & _ & [])). done. }
  assert (∀ seen', (is_member_action a = true → p ∈ busy → ¬ (p ∈ seen) → action_pool a ≠ p) →
     (p ∈ seen ↔ p ∈ seen') → replacements p (coalesce_go busy seen' l) = replacements p l +
    (if decide (p ∈ busy ∧ ¬ (p ∈ seen) ∧ member_updates p (a :: l) ≠ []) then 1 else 0)) as Hsame.
  { intros seen' Ha Hs. rewrite IH. f_equal. apply decide_ext.
    rewrite member_updates_nil_cons. naive_solver. }
  cbn [coalesce_go]. rewrite (replacements_cons p a l).
  destruct (is_member_action a) eqn:Ha; cbn [andb].
  2: { rewrite replacements_cons, (Hsame seen) by done. lia. }
  rewrite (member_not_replacement p a) by done. cbn [Nat.add].
  case_bool_decide as Hb.
  2: { rewrite replacements_cons, (member_not_replacement p a), (Hsame seen) by (congruence || done).
       done. }
  destruct (decide (action_pool a ∈ seen)) as [Hs|Hs].
  { apply Hsame; [|done]. intros _ _ ? ?. by subst p. }
  rewrite replacements_cons. cbn [is_replacement]. case_bool_decide as Hp.
  - rewrite IH, decide_False by (subst; intros (_ & [] & _); left).
    rewrite decide_True by (rewrite member_updates_nil_cons; subst; tauto). lia.
  - cbn [Nat.add]. apply Hsame; [done|]. rewrite elem_of_cons. naive_solver.
Qed.

Lemma coalesce_members p l :
  member_updates p (coalesce l)
  = if decide (1 < length (member_updates p l)) then [] else member_updates p l.
Proof. unfold coalesce. rewrite coalesce_go_members. apply decide_ext, elem_of_busy. Qed.

Lemma coalesce_nil_iff l : coalesce l = [] ↔ l = [].
Proof.
  split; [|by intros ->]. unfold coalesce. destruct l as [|a l]; [done|].
  cbn [coalesce_go]. case_match; [|done]. by rewrite decide_False by apply not_elem_of_nil.
Qed.

Lemma coalesce_idempotent l : coalesce (coalesce l) = coalesce l.
Proof.
  unfold coalesce at 1. rewrite (coalesce_go_ext _ []); [apply coalesce_go_nil|].
  intros p. rewrite elem_of_busy, coalesce_members. split; [|by intros ?%not_elem_of_nil].
  case_decide; cbn; lia.
Qed.

Lemma elem_of_coalesce_other l a :
  is_member_action a = false → a ∈ l → a ∈ coalesce l.
Proof.
  intros Hm Ha. eapply elem_of_sublist; [|apply coalesce_go_others]. by apply list_elem_of_filter.
Qed.

(** A list without member updates can be split off. *)
Lemma coalesce_go_others_id busy seen l :
  (∀ a, a ∈ l → is_member_action a = true → action_pool a ∉ busy) → coalesce_go busy seen l = l.
Proof.
  revert seen. induction l as [|a l IH]; intros seen Hl; [done|]. cbn [coalesce_go].
  rewrite IH by (intros b Hb; apply Hl; by right).
  destruct (is_member_action a) eqn:Hm; [|done]. cbn [andb].
  rewrite bool_decide_eq_false_2; [done|]. apply Hl; [left|done].
Qed.

Lemma coalesce_go_app busy seen l1 l2 :
  (∀ a, a ∈ l2 → is_member_action a = false) →
  coalesce_go busy seen (l1 ++ l2) = coalesce_go busy seen l1 ++ l2.
Proof.
  intros Hl2. revert seen. induction l1 as [|a l1 IH]; intros seen; cbn [app coalesce_go].
  - apply coalesce_go_others_id. intros a Ha. by rewrite Hl2.
  - by repeat (case_match; try done); rewrite IH.
Qed.

Lemma coalesce_app l1 l2 :
  (∀ a, a ∈ l2 → is_member_action a = false) → coalesce (l1 ++ l2) = coalesce l1 ++ l2.
Proof.
  intros Hl2. unfold coalesce. rewrite coalesce_go_app by done. f_equal.
  apply coalesce_go_ext. intros p. rewrite !elem_of_busy, member_updates_app.
  replace (member_updates p l2) with (@nil Action); [by rewrite app_nil_r|].
  symmetry. unfold member_updates. destruct (filter _ l2) as [|a l] eqn:Hf; [done|].
  assert (a ∈ filter (λ a, is_member_action a = true ∧ action_pool a = p) l2)
    as [[Hm _] Ha]%list_elem_of_filter by (rewrite Hf; left).
  by rewrite Hl2 in Hm.
Qed.

Lemma coalesce_go_seen busy seen seen' l :
  (∀ a, a ∈ l → is_member_action a = true → action_pool a ∈ seen ↔ action_pool a ∈ seen') →
  coalesce_go busy seen l = coalesce_go busy seen' l.
Proof.
  revert seen seen'. induction l as [|a l IH]; intros seen seen' Hl; [done|]. cbn [coalesce_go].
  assert (∀ b, b ∈ l → is_member_action b = true →
    action_pool b ∈ seen ↔ action_pool b ∈ seen') as Hl' by (intros; apply Hl; [by right|done]).
  destruct (is_member_action a) eqn:Hm; cbn [andb]; [|by erewrite IH].
  assert (action_pool a ∈ seen ↔ action_pool a ∈ seen') as Ha by (apply Hl; [left|done]).
  case_bool_decide; [|by erewrite IH]. repeat case_decide; try tauto; [by apply IH|].
  f_equal. apply IH. intros b Hb Hmb. rewrite !elem_of_cons. by rewrite Hl'.
Qed.

(** Merging acts on each pool by itself: the updates of the pool with ID [i],
    which alone has the name [n], are merged as if there were no others. *)
Lemma coalesce_go_pool i n busy seen l :
  (∀ a, a ∈ l → is_member_action a = true → action_pool a = n ↔ action_pool_id a = i) →
  filter (λ a, action_pool_id a = i) (coalesce_go busy seen l)
  = coalesce_go busy seen (filter (λ a, action_pool_id a = i) l).
Proof.
  revert seen. induction l as [|a l IH]; intros seen Hl; [done|]. cbn [coalesce_go].
  assert (∀ b, b ∈ l → is_member_action b = true →
    action_pool b = n ↔ action_pool_id b = i) as Hl' by (intros; apply Hl; [by right|done]).
  rewrite (filter_cons _ a l). destruct (is_member_action a && bool_decide (action_pool a ∈ busy)) eqn:Hm.
  - pose proof Hm as [Hma _]%andb_true_iff. assert (action_pool a = n ↔ action_pool_id a = i) as Ha
      by (apply Hl; [left|done]).
    destruct (decide (action_pool a ∈ seen)) as [Hs|Hs].
    + rewrite IH by done. destruct (decide (action_pool_id a = i)); [|done]. cbn [coalesce_go].
      by rewrite Hm, (decide_True _ _ Hs).
    + rewrite filter_cons. cbn [action_pool_id].
      destruct (decide (action_pool_id a = i)) as [Hi|Hi].
      * cbn [coalesce_go]. by rewrite Hm, (decide_False _ _ Hs), IH.
      * rewrite IH by done. apply coalesce_go_seen.
        intros b [Hib Hb]%list_elem_of_filter Hmb. rewrite elem_of_cons.
        assert (action_pool b = n) by by apply Hl'.
        split; [intros [?|?]|by right]; [|done]. exfalso. apply Hi, Ha. congruence.
  - rewrite filter_cons, IH by done. destruct (decide (action_pool_id a = i)); [|done]. cbn [coalesce_go]. by rewrite Hm.
Qed.

(** Once a pool is seen, its member updates are dropped. *)
Lemma coalesce_go_drop n busy seen l :
  n ∈ busy → n ∈ seen → (∀ a, a ∈ l → is_member_action a = true → action_pool a = n) →
  coalesce_go busy seen l = filter (λ a, is_member_action a = false) l.
Proof.
  intros Hb Hs. induction l as [|a l IH]; intros Hl; [done|]. cbn [coalesce_go].
  rewrite filter_cons, IH by (intros b ?; apply Hl; by right).
  destruct (is_member_action a) eqn:Hm; [|done].
  assert (action_pool a = n) as -> by (apply Hl; [left|done]).
  by rewrite bool_decide_eq_true_2, (decide_True _ _ Hs).
Qed.

(** The updates of one busy pool: a replacement takes the place of the first
    member update. *)
Lemma coalesce_go_one n i busy l1 l l2 :
  n ∈ busy → 1 ≤ length (l1 ++ l2) →
  (∀ a, a ∈ l1 ++ l2 → is_member_action a = true ∧ action_pool a = n ∧ action_pool_id a = i) →
  (∀ a, a ∈ l → is_member_action a = false) →
  coalesce_go busy [] (l1 ++ l ++ l2) = ReplacePoolMembers n i :: l ∨
  coalesce_go busy [] (l1 ++ l ++ l2) = l ++ [ReplacePoolMembers n i].
Proof.
  intros Hb Hlen Hm Hl.
  assert (∀ k, (∀ a, a ∈ k → a ∈ l1 ++ l2) → filter (λ a, is_member_action a = false) k = []) as Hnone.
  { intros k Hk. apply filter_none. intros a Ha%Hk%Hm. destruct Ha as [? _]. congruence. }
  assert (∀ a k, a ∈ l1 ++ l2 → (∀ b, b ∈ k → is_member_action b = true → action_pool b = n) →
    coalesce_go busy [] (a :: k)
    = ReplacePoolMembers n i :: filter (λ b, is_member_action b = false) k) as Hfirst.
  { intros a k (Hma & Hna & Hia)%Hm Hk. cbn [coalesce_go].
    rewrite Hma, Hna, Hia, bool_decide_eq_true_2 by done. cbn [andb].
    rewrite decide_False by apply not_elem_of_nil. f_equal.
    apply (coalesce_go_drop n); [done|left|done]. }
  assert (∀ b, b ∈ l1 ++ l ++ l2 → is_member_action b = true → action_pool b = n) as Hn.
  { intros b Hin Hmb. rewrite !elem_of_app in Hin. destruct Hin as [?|[Hin%Hl|?]]; [|congruence|];
      apply Hm, elem_of_app; auto. }
  destruct l1 as [|a l1]; cbn [app] in *.
  - right. clear Hn. induction l as [|b l IH]; cbn [app].
    + destruct l2 as [|a l2]; [cbn in Hlen; lia|]. rewrite Hfirst; [|left|].
      * rewrite Hnone; [done|]. intros b Hin. by right.
      * intros b Hin _. apply Hm. by right.
    + cbn [coalesce_go]. rewrite (Hl b) by left. cbn [andb]. f_equal.
      apply IH. intros c Hc. apply Hl. by right.
  - left. rewrite Hfirst; [|left|intros b Hin; apply Hn; by right]. f_equal.
    rewrite !filter_app, (Hnone l1), (Hnone l2), app_nil_r
      by (intros b Hin; rewrite ?elem_of_cons, ?elem_of_app; auto).
    by apply filter_all.
Qed.

Lemma wf_coalesce l : Forall wf_action l → Forall wf_action (coalesce l).
Proof.
  rewrite !Forall_forall. intros Hl a Ha.
  apply elem_of_coalesce_go in Ha as [[? _]|(b & Hb & Hm & _ & ->)]; [by apply Hl|].
  specialize (Hl b Hb). unfold wf_action in *.
  destruct b; try done; cbn in *; rewrite !Forall_cons in *; tauto.
Qed.

(** ** Properties *)

(** C13: step 8 of UpdateLoadBalancer, on the lines of any well-formed updates.
    It never fails and yields the lines of [coalesce]: every pool keeps its
    member updates when it has at most one, and trades two or more for exactly
    one replacement of all members; all other updates stay, in order; every new
    line replaces the members of a pool that had member updates, under the same
    name and ID; and a second pass changes nothing. *)
Theorem checkForMultiplePoolMemberUpdates_spec l :
  Forall wf_action l →
  checkForMultiplePoolMemberUpdates (render <$> l) = Ok (render <$> coalesce l) ∧
  (∀ p, member_updates p (coalesce l)
        = if decide (1 < length (member_updates p l)) then [] else member_updates p l) ∧
  (∀ p, replacements p (coalesce l)
        = replacements p l + (if decide (1 < length (member_updates p l)) then 1 else 0)) ∧
  sublist (filter (λ a, is_member_action a = false) l) (coalesce l) ∧
  (∀ a, a ∈ coalesce l → a ∈ l ∨
     ∃ b, b ∈ l ∧ is_member_action b = true ∧
          a = ReplacePoolMembers (action_pool b) (action_pool_id b)) ∧
  checkForMultiplePoolMemberUpdates (render <$> coalesce l) = Ok (render <$> coalesce l).
Proof.
  intros Hl. split_and!.
  - by apply check_refines_aux.
  - intros p. apply coalesce_members.
  - intros p. unfold coalesce. rewrite coalesce_go_replacements. f_equal.
    apply decide_ext. rewrite elem_of_busy. split; [tauto|]. intros Hp. split_and!; [done| |].
    + apply not_elem_of_nil.
    + by intros Hnil; rewrite Hnil in Hp; cbn in Hp; lia.
  - apply coalesce_go_others.
  - intros a [[? _]|(b & ? & ? & _ & ->)]%elem_of_coalesce_go; [by left|].
    right. by exists b.
  - rewrite check_refines_aux by by apply wf_coalesce. by rewrite coalesce_idempotent.
Qed.

Lemma checkForMultiplePoolMemberUpdates_spec_witness :
  checkForMultiplePoolMemberUpdates
    (render <$> [CreatePoolMember "tcp-80-30303" "1" "10.0.0.1";
                 CreateListener "tcp-80-30303";
                 CreatePoolMember "tcp-80-30303" "1" "10.0.0.2"])
  = Ok (render <$> [ReplacePoolMembers "tcp-80-30303" "1"; CreateListener "tcp-80-30303"]).
Proof.
  refine (eq_trans (proj1 (checkForMultiplePoolMemberUpdates_spec _ _)) _); [by_decision|].
  by vm_compute.
Defined.
