(* ===== verification/UpdatePlan.v ===== *)
(** * UpdatePlan: the reference plan of a load balancer update, and what the
    source computes

    [spec_updates] says by list comprehension which updates bring the listeners
    and pools of a load balancer in line with a service and its nodes.  The
    source builds the same list in eight passes over mutable pools and text
    lines; the first theorem is the refinement, and the rest of the file proves
    what the plan is good for. *)
From S2P Require Import Prelude GoStrings Kube VpcTypes VpcConfig VpcUpdates UpdateSpec.

(** ** The reference plan *)

(** A pool with its name taken apart. *)
Definition View : Type := VpcLoadBalancerPool * VpcPoolNameFields.

Definition parse_pool (pool : VpcLoadBalancerPool) : outcome View :=
  pair pool <$> extractFieldsFromPoolName (pool_Name pool).
Definition parse_pools (pools : list VpcLoadBalancerPool) : outcome (list View) :=
  mapM parse_pool pools.

Section spec.
Context (service : Service) (nodeList : list string).
Let ports := spec_Ports (svc_Spec service).

(** The pool serves a port of the service. *)
Definition live (v : View) : Prop := ∃ p, p ∈ ports ∧ isServicePortEqualPoolName p v.2 = true.
Definition listener_live (l : VpcLoadBalancerListener) : Prop :=
  ∃ p, p ∈ ports ∧ isServicePortEqualListener p l = true.

#[export] Instance live_dec v : Decision (live v).
Proof.
  refine (cast_if (decide (existsb (λ p, isServicePortEqualPoolName p v.2) ports = true)));
    unfold live; by rewrite <- existsb_true.
Defined.
#[export] Instance listener_live_dec l : Decision (listener_live l).
Proof.
  refine (cast_if (decide (existsb (λ p, isServicePortEqualListener p l) ports = true)));
    unfold listener_live; by rewrite <- existsb_true.
Defined.

(** The members listen where the service expects them. *)
Definition stable (v : View) : Prop := live v ∧ nodePortChanged v.2 ports = false.
#[export] Instance stable_dec v : Decision (stable v).
Proof. unfold stable. apply _. Defined.

(** The member points at a current node, on the pool's node port. *)
Definition member_good (v : View) (m : VpcLoadBalancerPoolMember) : Prop :=
  mem_TargetIPAddress m ∈ nodeList ∧ mem_Port m = pn_NodePort v.2.
Definition node_served (v : View) (node : string) : Prop :=
  Exists (λ m, mem_TargetIPAddress m = node ∧ mem_Port m = pn_NodePort v.2)
         (pool_Members v.1).

(** The health monitor the traffic policy asks for; no policy, no demand. *)
Definition monitor_good (p : ServicePort) (hm : VpcLoadBalancerPoolHealthMonitor) : Prop :=
  let spec := svc_Spec service in
  (spec_ExternalTrafficPolicy spec = ServiceExternalTrafficPolicyTypeLocal →
   (0 < spec_HealthCheckNodePort spec)%Z →
   hm_Type hm = "http" ∧ hm_Port hm = spec_HealthCheckNodePort spec) ∧
  (spec_ExternalTrafficPolicy spec = ServiceExternalTrafficPolicyTypeCluster →
   hm_Type hm = "tcp" ∧ hm_Port hm = sp_NodePort p).
Definition proxy_good (proxy : string) : Prop :=
  proxy = if isProxyProtocol (getServiceOptions (Some service)) then "v1" else "disabled".
Definition pool_good (p : ServicePort) (pool : VpcLoadBalancerPool) : Prop :=
  pool_Name pool = genLoadBalancerPoolName p ∧
  monitor_good p (pool_HealthMonitor pool) ∧ proxy_good (pool_ProxyProtocol pool).

#[export] Instance member_good_dec v m : Decision (member_good v m).
Proof. unfold member_good. apply _. Defined.
#[export] Instance node_served_dec v node : Decision (node_served v node).
Proof. unfold node_served. apply _. Defined.
#[export] Instance monitor_good_dec p hm : Decision (monitor_good p hm).
Proof. unfold monitor_good. apply _. Defined.
#[export] Instance proxy_good_dec proxy : Decision (proxy_good proxy).
Proof. unfold proxy_good. apply _. Defined.
#[export] Instance pool_good_dec p pool : Decision (pool_good p pool).
Proof. unfold pool_good. apply _. Defined.

Definition listener_label (l : VpcLoadBalancerListener) : string :=
  if decide (ref_Name (lst_DefaultPool l) = "") then "unknown"
  else ref_Name (lst_DefaultPool l).

Definition delete_listeners (listeners : list VpcLoadBalancerListener) : list Action :=
  (λ l, DeleteListener (listener_label l) (lst_ID l))
    <$> filter (λ l, ¬ listener_live l) listeners.
Definition delete_pools (views : list View) : list Action :=
  (λ v, DeletePool (pool_Name v.1) (pool_ID v.1)) <$> filter (λ v, ¬ live v) views.
Definition delete_members (v : View) : list Action :=
  (λ m, DeletePoolMember (pool_Name v.1) (pool_ID v.1) (mem_ID m) (mem_TargetIPAddress m))
    <$> filter (λ m, ¬ member_good v m) (pool_Members v.1).
Definition create_members (v : View) : list Action :=
  CreatePoolMember (pool_Name v.1) (pool_ID v.1)
    <$> filter (λ node, ¬ node_served v node) nodeList.
Definition update_pool (v : View) : list Action :=
  match List.find (λ p, isServicePortEqualPoolName p v.2) ports with
  | None => []
  | Some p =>
      let name := genLoadBalancerPoolName p in
      (if decide (pool_good p v.1) then [] else [UpdatePool name (pool_ID v.1)]) ++
      (if decide (pool_Name v.1 = name) then [] else [ReplacePoolMembers name (pool_ID v.1)])
  end.
Definition create_pool (views : list View) (p : ServicePort) : list Action :=
  if decide (Exists (λ v, isServicePortEqualPoolName p v.2 = true) views) then []
  else [CreatePool (genLoadBalancerPoolName p)].
Definition create_listener (listeners : list VpcLoadBalancerListener) (p : ServicePort)
    : list Action :=
  if decide (Exists (λ l, isServicePortEqualListener p l = true) listeners) then []
  else [CreateListener (genLoadBalancerPoolName p)].

(** Steps 1 to 7. *)
Definition spec_updates (listeners : list VpcLoadBalancerListener) (views : list View)
    : list Action :=
  delete_listeners listeners ++
  delete_pools views ++
  (filter stable views ≫= delete_members) ++
  (filter live views ≫= update_pool) ++
  (filter stable views ≫= create_members) ++
  (ports ≫= λ p, create_pool views p ++ create_listener listeners p).

(** What step 2 leaves of the pools. *)
Definition mark_pool (v : View) : VpcLoadBalancerPool :=
  if decide (live v) then v.1 else set_pool_Name poolToBeDeleted v.1.
End spec.

(** ** The inputs the text lines can carry *)

Class WfInput (listeners : list VpcLoadBalancerListener) (pools : list VpcLoadBalancerPool)
    (service : Service) (nodeList : list string) : Prop := {
  wf_listeners : Forall wf_listener listeners;
  wf_pools : Forall wf_pool pools;
  wf_ports : Forall tcp_port (spec_Ports (svc_Spec service));
  wf_nodes : Forall token nodeList;
}.

#[export] Instance WfInput_dec listeners pools service nodeList :
  Decision (WfInput listeners pools service nodeList).
Proof.
  refine (cast_if (decide (Forall wf_listener listeners ∧ Forall wf_pool pools ∧
    Forall tcp_port (spec_Ports (svc_Spec service)) ∧ Forall token nodeList))).
  - by split; destruct_and!.
  - intros []. tauto.
Defined.

(** ** Each step computes its part of the reference plan *)

Lemma parse_pool_Ok pool v : parse_pool pool = Ok v →
  v.1 = pool ∧ extractFieldsFromPoolName (pool_Name pool) = Ok v.2.
Proof.
  unfold parse_pool. destruct (extractFieldsFromPoolName _); [|done..]. by intros [= <-].
Qed.

Definition parsed (v : View) : Prop := extractFieldsFromPoolName (pool_Name v.1) = Ok v.2.

Lemma parse_pools_unfold pool pools :
  parse_pools (pool :: pools)
  = (f ← extractFieldsFromPoolName (pool_Name pool);
     views ← parse_pools pools; Ok ((pool, f) :: views)).
Proof.
  unfold parse_pools. cbn [mapM]. fold (parse_pools pools). unfold parse_pool.
  by destruct (extractFieldsFromPoolName _).
Qed.

Lemma parse_pools_cons pool pools views :
  parse_pools (pool :: pools) = Ok views →
  ∃ v views', views = v :: views' ∧ parse_pool pool = Ok v ∧ parse_pools pools = Ok views'.
Proof.
  unfold parse_pools. cbn. destruct (parse_pool pool) as [v| |]; [|done..]. cbn.
  destruct (mapM parse_pool pools) as [vs| |]; [|done..]. cbn. intros [= <-]. eauto.
Qed.

Lemma parse_pools_Ok pools views :
  parse_pools pools = Ok views → views.*1 = pools ∧ Forall parsed views.
Proof.
  revert views. induction pools as [|pool pools IH]; intros views Hv.
  { injection Hv as <-. by split; [|constructor]. }
  apply parse_pools_cons in Hv as (v & vs & -> & Hv%parse_pool_Ok & Hvs%IH).
  destruct Hv as [Hv1 Hv2], Hvs as [<- ?]. cbn. split; [by rewrite Hv1|].
  constructor; [|done]. unfold parsed. by rewrite Hv1.
Qed.

Section steps.
Context (service : Service) (nodeList : list string).
Let ports := spec_Ports (svc_Spec service).
Context (Hports : Forall tcp_port ports).

Lemma live_existsb v :
  existsb (λ p, isServicePortEqualPoolName p v.2) ports = bool_decide (live service v).
Proof.
  apply eq_true_iff_eq. by rewrite existsb_true, bool_decide_eq_true.
Qed.
Lemma listener_live_existsb l :
  existsb (λ p, isServicePortEqualListener p l) ports = bool_decide (listener_live service l).
Proof.
  apply eq_true_iff_eq. by rewrite existsb_true, bool_decide_eq_true.
Qed.

(** Step 1. *)
Lemma step1_refines listeners acc :
  fold_left (λ u l, checkListenerForExtPortDeletedFromService u l ports) listeners acc
  = acc ++ (render <$> delete_listeners service listeners).
Proof.
  rewrite (fold_left_append _ (λ l, if decide (listener_live service l) then []
    else [render (DeleteListener (listener_label l) (lst_ID l))])).
  - f_equal. unfold delete_listeners. rewrite <- list_fmap_compose, fmap_filter_bind.
    apply bind_cong. intros l _. by repeat case_decide.
  - intros u l _. unfold checkListenerForExtPortDeletedFromService.
    rewrite listener_live_existsb, !bool_decide_decide. unfold listener_label.
    destruct (decide (listener_live service l)); [by rewrite app_nil_r|].
    by destruct (decide (ref_Name (lst_DefaultPool l) = "")).
Qed.

(** Step 2. *)
Lemma step2_refines pools views acc :
  parse_pools pools = Ok views →
  foldM_update (λ u pool, checkPoolForExtPortDeletedFromService u pool ports) acc pools
  = Ok (acc ++ (render <$> delete_pools service views), mark_pool service <$> views).
Proof.
  revert views acc. induction pools as [|pool pools IH]; intros views acc Hv.
  { injection Hv as <-. cbn. by rewrite app_nil_r. }
  apply parse_pools_cons in Hv as (v & vs & -> & Hv%parse_pool_Ok & Hvs).
  destruct Hv as [<- Hv]. cbn [foldM_update].
  assert (checkPoolForExtPortDeletedFromService acc v.1 ports = Ok
    (acc ++ (if decide (live service v) then []
             else [render (DeletePool (pool_Name v.1) (pool_ID v.1))]),
     mark_pool service v)) as ->.
  { unfold checkPoolForExtPortDeletedFromService, mark_pool. rewrite Hv. cbn [mbind outcome_bind].
    rewrite live_existsb, bool_decide_decide. case_decide; [by rewrite app_nil_r|done]. }
  cbn [mbind outcome_bind]. rewrite (IH vs) by done. cbn [mbind outcome_bind].
  rewrite <- (assoc_L (++)). do 3 f_equal.
  unfold delete_pools. rewrite filter_cons. by repeat case_decide.
Qed.

(** The member checks and step 4 on the marked pools. *)
Lemma marked_steps (f : list string → VpcLoadBalancerPool → outcome (list string))
    (P : View → Prop) `{∀ v, Decision (P v)} (g : View → list Action) views acc :
  (∀ u v, v ∈ views → f u (set_pool_Name poolToBeDeleted v.1) = Ok u) →
  (∀ v, P v → live service v) →
  (∀ u v, v ∈ views → live service v →
     f u v.1 = Ok (u ++ if decide (P v) then render <$> g v else [])) →
  foldM f acc (mark_pool service <$> views)
  = Ok (acc ++ (render <$> (filter P views ≫= g))).
Proof.
  intros Hdead HP Hlive. rewrite foldM_fmap.
  rewrite (foldM_append _ (λ v, if decide (P v) then render <$> g v else [])).
  - rewrite fmap_list_bind, bind_filter. done.
  - intros u v Hv. unfold mark_pool. destruct (decide (live service v)) as [Hl|Hl].
    + by apply Hlive.
    + rewrite Hdead by done. rewrite decide_False by (by intros ?%HP). by rewrite app_nil_r.
Qed.

Lemma parsed_name v : parsed v → bool_decide (pool_Name v.1 = poolToBeDeleted) = false.
Proof. intros Hv. by apply bool_decide_eq_false_2, (extract_not_to_be_deleted _ _ Hv). Qed.

(** Padding with blanks makes the substring test a membership test. *)
Lemma target_known t :
  token t → Forall token nodeList →
  contains (" " +:+ join " " nodeList +:+ " ") (" " +:+ t +:+ " ") = bool_decide (t ∈ nodeList).
Proof.
  intros Ht Hn. apply eq_true_iff_eq. rewrite bool_decide_eq_true.
  destruct nodeList as [|n ns] eqn:Hl.
  - split; [|by intros ?%not_elem_of_nil].
    intros (a & b & Hab)%contains_spec. apply (f_equal String.length) in Hab.
    rewrite !length_app_str in Hab. cbn in Hab. destruct Ht as [Ht _].
    destruct t; cbn in Hab; [done|lia].
  - rewrite <- Hl in *. apply (contains_join_elem " ").
    + by rewrite Hl.
    + eapply Forall_impl; [exact Hn|]. intros s [_ Hs]. by apply no_space_no_blank.
    + by apply no_space_no_blank, Ht.
Qed.

(** Step 3. *)
Lemma step3_refines views acc :
  Forall parsed views → Forall (λ v, wf_pool v.1) views → Forall token nodeList →
  foldM (λ u pool, checkPoolForNodesToDelete u pool ports nodeList) acc
    (mark_pool service <$> views)
  = Ok (acc ++ (render <$> (filter (stable service) views ≫= delete_members nodeList))).
Proof.
  intros Hp Hwf Hn. apply marked_steps; [by intros|by intros v []|].
  intros u v Hv Hl. rewrite Forall_forall in Hp, Hwf. specialize (Hp v Hv).
  destruct (Hwf v Hv) as [_ Hm]. unfold checkPoolForNodesToDelete.
  rewrite parsed_name, Hp by done. cbn [mbind outcome_bind].
  destruct (nodePortChanged v.2 ports) eqn:Hc.
  { rewrite decide_False by (intros [_ ?]; subst ports; congruence). by rewrite app_nil_r. }
  rewrite decide_True by done.
  rewrite (foldM_append _ (λ m, if decide (member_good nodeList v m) then [] else
    [render (DeletePoolMember (pool_Name v.1) (pool_ID v.1) (mem_ID m)
               (mem_TargetIPAddress m))])).
  - do 2 f_equal. unfold delete_members. rewrite <- list_fmap_compose, fmap_filter_bind.
    apply bind_cong. intros m _. by repeat case_decide.
  - intros u' m Hin. rewrite Forall_forall in Hm. destruct (Hm m Hin) as [_ Ht].
    f_equal. rewrite target_known by done.
    rewrite <- bool_decide_not, <- bool_decide_or, bool_decide_decide. unfold member_good.
    case_decide as H1; case_decide as H2; rewrite ?app_nil_r; try done; exfalso.
    + destruct H1 as [H1|H1]; [tauto|apply H1; by rewrite (proj2 H2)].
    + apply H2. split; [|symmetry]; apply dec_stable; tauto.
Qed.

(** Step 5. *)
Lemma step5_refines views acc :
  Forall parsed views →
  foldM (λ u pool, checkPoolForNodesToAdd u pool ports nodeList) acc
    (mark_pool service <$> views)
  = Ok (acc ++ (render <$> (filter (stable service) views ≫= create_members nodeList))).
Proof.
  intros Hp. apply marked_steps; [by intros|by intros v []|].
  intros u v Hv Hl. rewrite Forall_forall in Hp. specialize (Hp v Hv).
  unfold checkPoolForNodesToAdd. rewrite parsed_name, Hp by done. cbn [mbind outcome_bind].
  destruct (nodePortChanged v.2 ports) eqn:Hc.
  { rewrite decide_False by (intros [_ ?]; subst ports; congruence). by rewrite app_nil_r. }
  rewrite decide_True by done.
  rewrite (foldM_append _ (λ node, if decide (node_served v node) then [] else
    [render (CreatePoolMember (pool_Name v.1) (pool_ID v.1) node)])).
  - do 2 f_equal. unfold create_members. rewrite <- list_fmap_compose, fmap_filter_bind.
    apply bind_cong. intros m _. by repeat case_decide.
  - intros u' node _. f_equal.
    assert (existsb (λ member, bool_decide (node = mem_TargetIPAddress member) &&
      bool_decide (pn_NodePort v.2 = mem_Port member)) (pool_Members v.1)
      = bool_decide (node_served v node)) as ->.
    { apply eq_true_iff_eq. rewrite existsb_true, bool_decide_eq_true.
      unfold node_served. rewrite Exists_exists.
      setoid_rewrite andb_true_iff. setoid_rewrite bool_decide_eq_true.
      split; intros (m & ? & ? & ?); by exists m. }
    rewrite bool_decide_decide. case_decide; [by rewrite app_nil_r|done].
Qed.

(** Step 4. *)
Lemma monitor_good_bool p hm :
  bool_decide (monitor_good service p hm) = negb
   (bool_decide (spec_ExternalTrafficPolicy (svc_Spec service)
                 = ServiceExternalTrafficPolicyTypeLocal)
    && (0 <? spec_HealthCheckNodePort (svc_Spec service))%Z
    && (bool_decide (hm_Type hm ≠ LoadBalancerProtocolHTTP)
        || bool_decide (hm_Port hm ≠ spec_HealthCheckNodePort (svc_Spec service)))
    || bool_decide (spec_ExternalTrafficPolicy (svc_Spec service)
                    = ServiceExternalTrafficPolicyTypeCluster)
       && (bool_decide (hm_Type hm ≠ LoadBalancerProtocolTCP)
           || bool_decide (hm_Port hm ≠ sp_NodePort p))).
Proof.
  apply eq_true_iff_eq. rewrite bool_decide_eq_true, negb_true_iff, orb_false_iff.
  rewrite !bool_decide_not. unfold monitor_good. f_equiv.
  - destruct (Z.ltb_spec 0 (spec_HealthCheckNodePort (svc_Spec service)));
      repeat case_bool_decide; cbn; intuition (discriminate || lia).
  - repeat case_bool_decide; cbn; intuition discriminate.
Qed.

Lemma pool_good_bool p pool :
  bool_decide (pool_good service p pool)
  = bool_decide (pool_Name pool = genLoadBalancerPoolName p) &&
    (bool_decide (monitor_good service p (pool_HealthMonitor pool)) &&
     bool_decide (proxy_good service (pool_ProxyProtocol pool))).
Proof. apply eq_true_iff_eq. by rewrite !andb_true_iff, !bool_decide_eq_true. Qed.

Lemma proxy_good_bool proxy :
  let requested := isProxyProtocol (getServiceOptions (Some service)) in
  bool_decide (proxy_good service proxy) = negb
   (requested && bool_decide (proxy ≠ LoadBalancerProxyProtocolV1)
    || negb requested && bool_decide (proxy ≠ LoadBalancerProxyProtocolDisabled)).
Proof.
  intros requested. apply eq_true_iff_eq. rewrite bool_decide_eq_true, !bool_decide_not.
  unfold proxy_good. fold requested.
  destruct requested; cbn; rewrite orb_false_r || idtac; by case_bool_decide.
Qed.

Lemma poolChanges_good pool p :
  poolChanges pool service p
  = (negb (bool_decide (pool_good service p pool)),
     negb (bool_decide (pool_Name pool = genLoadBalancerPoolName p))).
Proof.
  unfold poolChanges. rewrite pool_good_bool.
  destruct (decide (pool_Name pool = genLoadBalancerPoolName p)) as [Hn|Hn].
  2: { rewrite (bool_decide_eq_true_2 (genLoadBalancerPoolName p ≠ pool_Name pool)) by congruence.
       by rewrite !(bool_decide_eq_false_2 (pool_Name pool = _)). }
  rewrite (bool_decide_eq_false_2 (genLoadBalancerPoolName p ≠ pool_Name pool)) by congruence.
  rewrite (bool_decide_eq_true_2 (pool_Name pool = genLoadBalancerPoolName p)) by done.
  rewrite monitor_good_bool, proxy_good_bool. cbn [negb andb].
  rewrite negb_andb, !negb_involutive, orb_assoc.
  generalize (isProxyProtocol (getServiceOptions (Some service))). intros r.
  assert (∀ b1 b2 b3 b4 : bool,
    (if b1 then (true, false) else if b2 then (true, false) else
     if b3 then (true, false) else if b4 then (true, false) else (false, false))
    = (b1 || b2 || b3 || b4, false)) as -> by (by intros [] [] [] []).
  done.
Qed.

Lemma find_live v :
  live service v → ∃ p, List.find (λ p, isServicePortEqualPoolName p v.2) ports = Some p.
Proof.
  intros (p & Hp & Heq). destruct (List.find _ ports) as [q|] eqn:Hf; [by exists q|].
  eapply find_none in Hf; [|by apply list_elem_of_In]. cbn in Hf. congruence.
Qed.

Lemma step4_refines views acc :
  Forall parsed views →
  foldM (λ u pool, checkPoolForServiceChanges u pool service) acc
    (mark_pool service <$> views)
  = Ok (acc ++ (render <$> (filter (live service) views ≫= update_pool service))).
Proof.
  intros Hp. apply marked_steps; [by intros|by intros|].
  intros u v Hv Hl. rewrite Forall_forall in Hp. specialize (Hp v Hv).
  unfold checkPoolForServiceChanges. rewrite parsed_name, Hp by done.
  cbn [mbind outcome_bind]. rewrite decide_True by done. unfold update_pool.
  fold ports. destruct (find_live v Hl) as (p & ->). rewrite poolChanges_good.
  rewrite !bool_decide_decide. repeat case_decide; cbn; by rewrite <- ?(assoc_L (++)), ?app_nil_r.
Qed.

Lemma mark_live v : live service v → mark_pool service v = v.1.
Proof. intros. unfold mark_pool. by rewrite decide_True. Qed.
Lemma mark_dead v : ¬ live service v →
  mark_pool service v = set_pool_Name poolToBeDeleted v.1.
Proof. intros. unfold mark_pool. by rewrite decide_False. Qed.

(** Steps 6 and 7. *)
Lemma step6_refines views p acc :
  Forall parsed views → p ∈ ports →
  checkPoolsForExtPortAddedToService acc (mark_pool service <$> views) p
  = Ok (acc ++ (render <$> create_pool views p)).
Proof.
  intros Hp Hin. pose proof (proj1 (Forall_forall _ _) Hports p Hin) as Htcp.
  assert (extractFieldsFromPoolName (genLoadBalancerPoolName p) = Ok (port_fields p)) as Hgen.
  { destruct Htcp as [Hproto ?]. apply extract_gen_pool_name; [|done]. left. by rewrite Hproto. }
  unfold create_pool. induction Hp as [|v views Hv Hp IH].
  { rewrite decide_False by (by intros ?%Exists_nil). done. }
  cbn [fmap list_fmap checkPoolsForExtPortAddedToService].
  destruct (decide (isServicePortEqualPoolName p v.2 = true)) as [Hm|Hm].
  - rewrite mark_live by (by exists p).
    rewrite decide_True by (by left). rewrite app_nil_r.
    case_bool_decide; [done|]. rewrite parsed_name, Hv by done. cbn [mbind outcome_bind].
    by rewrite Hm.
  - assert ((if decide (Exists (λ v, isServicePortEqualPoolName p v.2 = true) (v :: views))
             then [] else [CreatePool (genLoadBalancerPoolName p)])
            = (if decide (Exists (λ v, isServicePortEqualPoolName p v.2 = true) views)
             then [] else [CreatePool (genLoadBalancerPoolName p)])) as ->.
    { apply decide_ext. rewrite Exists_cons. tauto. }
    rewrite <- IH. destruct (decide (live service v)) as [Hl|Hl].
    + rewrite mark_live, bool_decide_eq_false_2; [| |done].
      2: { intros Heq. unfold parsed in Hv. rewrite Heq, Hgen in Hv. injection Hv as Hv.
           apply Hm. rewrite <- Hv. by apply isServicePortEqualPoolName_self. }
      rewrite parsed_name, Hv by done. cbn [mbind outcome_bind].
      by destruct (isServicePortEqualPoolName p v.2).
    + rewrite mark_dead, bool_decide_eq_false_2; [| |done].
      2: { intros Heq. by eapply extract_not_to_be_deleted; [exact Hgen|]. }
      done.
Qed.

Lemma step7_refines listeners p acc :
  checkListenersForExtPortAddedToService acc listeners p
  = acc ++ (render <$> create_listener listeners p).
Proof.
  unfold checkListenersForExtPortAddedToService, create_listener.
  assert (existsb (isServicePortEqualListener p) listeners
    = bool_decide (Exists (λ l, isServicePortEqualListener p l = true) listeners)) as ->.
  { apply eq_true_iff_eq. by rewrite existsb_true, bool_decide_eq_true, Exists_exists. }
  rewrite bool_decide_decide. case_decide; [by rewrite app_nil_r|done].
Qed.

Lemma collect_refines listeners pools views :
  Forall wf_pool pools → Forall token nodeList → parse_pools pools = Ok views →
  collectUpdates listeners pools service nodeList
  = Ok (render <$> spec_updates service nodeList listeners views, mark_pool service <$> views).
Proof.
  intros Hwf Hn Hviews. pose proof (parse_pools_Ok _ _ Hviews) as [<- Hp].
  rewrite Forall_fmap in Hwf. unfold collectUpdates. fold ports.
  rewrite step1_refines, (step2_refines _ views) by done. cbn [mbind outcome_bind].
  rewrite step3_refines by done. cbn [mbind outcome_bind].
  rewrite step4_refines by done. cbn [mbind outcome_bind].
  rewrite step5_refines by done. cbn [mbind outcome_bind].
  rewrite (foldM_append _ (λ p, render <$> (create_pool views p ++ create_listener listeners p))).
  - cbn [mbind outcome_bind]. unfold spec_updates. fold ports.
    rewrite !fmap_app, !fmap_list_bind, <- !(assoc_L (++)). done.
  - intros u p Hin. rewrite step6_refines by done. cbn [mbind outcome_bind].
    by rewrite step7_refines, fmap_app, <- (assoc_L (++)).
Qed.

(** A pool whose name does not parse stops step 2. *)
Lemma step2_fails pools acc e :
  parse_pools pools = Err e →
  foldM_update (λ u pool, checkPoolForExtPortDeletedFromService u pool ports) acc pools = Err e.
Proof.
  unfold checkPoolForExtPortDeletedFromService.
  revert acc. induction pools as [|pool pools IH]; intros acc; [done|].
  rewrite parse_pools_unfold. cbn [foldM_update].
  destruct (extractFieldsFromPoolName (pool_Name pool)) as [f|e'|]; cbn [mbind outcome_bind];
    [|congruence|done].
  destruct (parse_pools pools) as [vs|e'|]; cbn [mbind outcome_bind]; [done| |done].
  intros [= ->]. case_match; cbn [mbind outcome_bind]; by rewrite IH.
Qed.

Lemma parse_pools_no_panic pools : no_panic (parse_pools pools).
Proof.
  induction pools as [|pool pools IH]; [done|]. rewrite parse_pools_unfold.
  pose proof (extract_no_panic (pool_Name pool)).
  destruct (extractFieldsFromPoolName _); cbn; try done. by destruct (parse_pools pools).
Qed.

Lemma collect_fails listeners pools e :
  parse_pools pools = Err e → collectUpdates listeners pools service nodeList = Err e.
Proof.
  intros He. unfold collectUpdates. fold ports. by rewrite (step2_fails _ _ e).
Qed.
End steps.

(** ** The actions of the plan can be written and read *)

Ltac wf_args := unfold wf_action; cbn; repeat (apply Forall_cons_2 || apply Forall_nil_2).

Lemma wf_spec_updates service nodeList listeners pools views :
  WfInput listeners pools service nodeList → parse_pools pools = Ok views →
  Forall wf_action (spec_updates service nodeList listeners views).
Proof.
  intros [Hl Hp Hports Hn] Hviews.
  pose proof (parse_pools_Ok _ _ Hviews) as [<- Hv]. rewrite Forall_fmap in Hp.
  change (Forall (λ v : View, wf_pool v.1) views) in Hp.
  rewrite Forall_forall in Hl. rewrite Forall_forall in Hp. rewrite Forall_forall in Hports.
  rewrite Forall_forall in Hn. rewrite Forall_forall in Hv.
  assert (∀ p, p ∈ spec_Ports (svc_Spec service) → token (genLoadBalancerPoolName p)) as Hgen.
  { intros p ?. by apply gen_pool_name_token, Hports. }
  assert (∀ v, v ∈ views → token (pool_Name v.1)) as Hname.
  { intros v ?. by eapply extract_token, Hv. }
  unfold spec_updates. rewrite !Forall_app. split_and!; apply Forall_forall; intros a Ha.
  - apply list_elem_of_fmap in Ha as (l & -> & [_ Hin]%list_elem_of_filter).
    destruct (Hl l Hin) as [? Hns]. wf_args; [|done].
    unfold listener_label. case_decide; [by_decision|done].
  - apply list_elem_of_fmap in Ha as (v & -> & [_ Hin]%list_elem_of_filter).
    wf_args; [by apply Hname|apply Hp, Hin].
  - apply list_elem_of_bind in Ha as (v & Ha & [_ Hin]%list_elem_of_filter).
    apply list_elem_of_fmap in Ha as (m & -> & [_ Hm]%list_elem_of_filter).
    destruct (Hp v Hin) as [? Hms]. rewrite Forall_forall in Hms. destruct (Hms m Hm).
    wf_args; auto.
  - apply list_elem_of_bind in Ha as (v & Ha & [_ Hin]%list_elem_of_filter).
    destruct (Hp v Hin) as [? _]. unfold update_pool in Ha.
    destruct (List.find _ _) as [p|] eqn:Hf; [|by apply not_elem_of_nil in Ha].
    apply find_some in Hf as [Hf%list_elem_of_In _].
    apply elem_of_app in Ha as [Ha|Ha]; case_decide; set_unfold in Ha;
      destruct_or?; subst; done || (wf_args; auto).
  - apply list_elem_of_bind in Ha as (v & Ha & [_ Hin]%list_elem_of_filter).
    apply list_elem_of_fmap in Ha as (n & -> & [_ Hm]%list_elem_of_filter).
    destruct (Hp v Hin) as [? _]. wf_args; auto.
  - apply list_elem_of_bind in Ha as (p & Ha & Hin).
    apply elem_of_app in Ha as [Ha|Ha]; unfold create_pool, create_listener in Ha;
      case_decide; set_unfold in Ha; destruct_or?; subst; done || (wf_args; auto).
Qed.

(** Steps 1 to 8, on actions. *)
Definition spec_plan (service : Service) (nodeList : list string)
    (listeners : list VpcLoadBalancerListener) (views : list View) : list Action :=
  coalesce (spec_updates service nodeList listeners views).

Lemma plan_refines service nodeList listeners pools views :
  WfInput listeners pools service nodeList → parse_pools pools = Ok views →
  planUpdates listeners pools service nodeList
  = Ok (render <$> spec_plan service nodeList listeners views, mark_pool service <$> views).
Proof.
  intros Hwf Hviews. unfold planUpdates.
  rewrite (collect_refines _ _ wf_ports _ _ views) by (done || apply Hwf).
  cbn [mbind outcome_bind].
  rewrite check_refines_aux by by eapply wf_spec_updates. done.
Qed.

(** ** What the plan is good for *)

(** No two ports of a service share a number (all are TCP). *)
Definition unique_ports (service : Service) : Prop :=
  NoDup (sp_Port <$> spec_Ports (svc_Spec service)).

Lemma unique_port service p q :
  unique_ports service → p ∈ spec_Ports (svc_Spec service) → q ∈ spec_Ports (svc_Spec service) →
  sp_Port p = sp_Port q → p = q.
Proof.
  apply NoDup_key.
Qed.

Section plan.
Context (service : Service) (nodeList : list string)
  (listeners : list VpcLoadBalancerListener) (views : list View).
Let ports := spec_Ports (svc_Spec service).
Context (Hports : Forall tcp_port ports) (Hunique : unique_ports service)
  (Hparsed : Forall parsed views).

Lemma port_tcp p : p ∈ ports → tcp_port p.
Proof. by apply Forall_forall. Qed.

Lemma match_port p v :
  p ∈ ports → v ∈ views → isServicePortEqualPoolName p v.2 = true ↔
  pn_Protocol v.2 = "tcp" ∧ pn_Port v.2 = sp_Port p.
Proof.
  intros Hp Hv. eapply isServicePortEqualPoolName_spec.
  - by apply port_tcp.
  - by eapply (proj1 (Forall_forall _ _) Hparsed).
Qed.

Lemma match_unique p q v :
  v ∈ views → p ∈ ports → q ∈ ports → isServicePortEqualPoolName p v.2 = true →
  isServicePortEqualPoolName q v.2 = true → p = q.
Proof.
  intros Hv Hp Hq [_ H1]%match_port [_ H2]%match_port; try done.
  apply (unique_port service); congruence || done.
Qed.

Lemma find_match p v :
  v ∈ views → p ∈ ports → isServicePortEqualPoolName p v.2 = true →
  List.find (λ p, isServicePortEqualPoolName p v.2) ports = Some p.
Proof.
  intros Hv Hp Hm. destruct (find_live service v) as (q & Hq); [by exists p|].
  fold ports in Hq. rewrite Hq. apply find_some in Hq as [Hin%list_elem_of_In Hq].
  f_equal. symmetry. by eapply match_unique.
Qed.

Lemma good_name_fields p v :
  p ∈ ports → v ∈ views → pool_Name v.1 = genLoadBalancerPoolName p → v.2 = port_fields p.
Proof.
  intros Hp Hv Hn. destruct (port_tcp p Hp) as [Hproto Hvalid].
  assert (parsed v) as Hx by by eapply (proj1 (Forall_forall _ _) Hparsed).
  unfold parsed in Hx. rewrite Hn, extract_gen_pool_name in Hx; [congruence| |done].
  left. by rewrite Hproto.
Qed.

(** [v] serves [p] as the service and its nodes want it. *)
Definition pool_in_sync (p : ServicePort) (v : View) : Prop :=
  pool_good service p v.1 ∧
  (∀ m, m ∈ pool_Members v.1 →
     mem_TargetIPAddress m ∈ nodeList ∧ mem_Port m = sp_NodePort p) ∧
  (∀ node, node ∈ nodeList → ∃ m, m ∈ pool_Members v.1 ∧
     mem_TargetIPAddress m = node ∧ mem_Port m = sp_NodePort p).

Definition in_sync : Prop :=
  (∀ l, l ∈ listeners → listener_live service l) ∧
  (∀ v, v ∈ views → ∃ p, p ∈ ports ∧ pool_in_sync p v) ∧
  (∀ p, p ∈ ports →
     (∃ v, v ∈ views ∧ isServicePortEqualPoolName p v.2 = true) ∧
     (∃ l, l ∈ listeners ∧ isServicePortEqualListener p l = true)).

Lemma in_sync_stable p v :
  p ∈ ports → v ∈ views → v.2 = port_fields p → stable service v.
Proof.
  intros Hp Hv Hf.
  assert (isServicePortEqualPoolName p v.2 = true) as Hm.
  { rewrite Hf. by apply isServicePortEqualPoolName_self, port_tcp. }
  split; [by exists p|]. apply existsb_false, Forall_forall. intros q Hq.
  destruct (isServicePortEqualPoolName q v.2) eqn:Hmq; [|done]. cbn.
  assert (p = q) as <- by by eapply match_unique. rewrite Hf.
  by apply bool_decide_eq_false_2; intros [].
Qed.


Lemma spec_updates_nil :
  spec_updates service nodeList listeners views = [] ↔ in_sync.
Proof.
  unfold spec_updates. fold ports. rewrite !app_nil, !bind_nil.
  unfold delete_listeners, delete_pools. rewrite !fmap_filter_nil.
  split.
  - intros (Hl & Hv & Hdel & Hupd & Hadd & Hcreate). split_and!; [done| |].
    + intros v Hin. specialize (Hv v Hin). destruct (find_live service v Hv) as (p & Hf).
      fold ports in Hf. pose proof Hf as [Hp%list_elem_of_In Hm]%find_some. exists p. split; [done|].
      assert (update_pool service v = []) as Hg
        by by (apply Hupd; apply list_elem_of_filter).
      unfold update_pool in Hg. fold ports in Hg. rewrite Hf in Hg.
      apply app_nil in Hg as [Hg _]. destruct (decide (pool_good service p v.1)) as [Hg'|]; [|done].
      assert (v.2 = port_fields p) as Hfields by (by apply good_name_fields, Hg').
      assert (v ∈ filter (stable service) views) as Hst.
      { apply list_elem_of_filter. split; [by eapply in_sync_stable|done]. }
      specialize (Hdel v Hst). specialize (Hadd v Hst).
      unfold delete_members in Hdel. unfold create_members in Hadd.
      rewrite fmap_filter_nil in Hdel. rewrite fmap_filter_nil in Hadd.
      unfold member_good, node_served in *. rewrite Hfields in *. cbn in *.
      split_and!; [done..|]. intros n Hn. by apply Exists_exists, Hadd.
    + intros p Hp. specialize (Hcreate p Hp). apply app_nil in Hcreate as [H1 H2].
      unfold create_pool in H1. unfold create_listener in H2.
      repeat case_decide; try done. by rewrite !Exists_exists in *.
  - intros (Hl & Hv & Hp).
    assert (∀ v, v ∈ views → ∃ p, p ∈ ports ∧ pool_in_sync p v ∧ v.2 = port_fields p ∧
              isServicePortEqualPoolName p v.2 = true) as Hv'.
    { intros v Hin. destruct (Hv v Hin) as (p & Hpin & Hs). exists p.
      assert (v.2 = port_fields p) as Hf by (by apply good_name_fields, Hs).
      split_and!; [done..|]. rewrite Hf. by apply isServicePortEqualPoolName_self, port_tcp. }
    split_and!; [done| | | | |].
    + intros v Hin. destruct (Hv' v Hin) as (p & ? & ? & ? & ?). by exists p.
    + intros v [_ Hin]%list_elem_of_filter. destruct (Hv' v Hin) as (p & ? & (_ & Hm & _) & Hf & ?).
      unfold delete_members. rewrite fmap_filter_nil. unfold member_good. by rewrite Hf.
    + intros v [_ Hin]%list_elem_of_filter. destruct (Hv' v Hin) as (p & ? & (Hg & _) & Hf & ?).
      unfold update_pool. fold ports. erewrite find_match by done.
      rewrite (decide_True _ _ Hg). by rewrite decide_True by apply Hg.
    + intros v [_ Hin]%list_elem_of_filter. destruct (Hv' v Hin) as (p & ? & (_ & _ & Hn) & Hf & ?).
      unfold create_members. rewrite fmap_filter_nil. unfold node_served.
      rewrite Hf. intros n ?. apply Exists_exists. by apply Hn.
    + intros p Hin. destruct (Hp p Hin) as [H1 H2]. unfold create_pool, create_listener.
      by rewrite !decide_True by by apply Exists_exists.
Qed.

(** *** What is in the plan *)

Lemma elem_of_update_pool v a :
  a ∈ update_pool service v ↔
  ∃ p, List.find (λ p, isServicePortEqualPoolName p v.2) ports = Some p ∧
    ((a = UpdatePool (genLoadBalancerPoolName p) (pool_ID v.1) ∧ ¬ pool_good service p v.1) ∨
     (a = ReplacePoolMembers (genLoadBalancerPoolName p) (pool_ID v.1) ∧
      pool_Name v.1 ≠ genLoadBalancerPoolName p)).
Proof.
  unfold update_pool. fold ports. destruct (List.find _ ports) as [p|].
  2: { split; [by intros ?%not_elem_of_nil|by intros (? & ? & _)]. }
  rewrite elem_of_app. split.
  - intros [Ha|Ha]; case_decide; try by apply not_elem_of_nil in Ha.
    all: apply list_elem_of_singleton in Ha as ->; exists p; auto.
  - intros (q & [= <-] & [[-> Hn]|[-> Hn]]); [left|right]; rewrite decide_False by done; left.
Qed.

Lemma elem_of_create p a :
  a ∈ create_pool views p ++ create_listener listeners p ↔
  (a = CreatePool (genLoadBalancerPoolName p) ∧
   ∀ v, v ∈ views → isServicePortEqualPoolName p v.2 = false) ∨
  (a = CreateListener (genLoadBalancerPoolName p) ∧
   ∀ l, l ∈ listeners → isServicePortEqualListener p l = false).
Proof.
  assert (∀ (A : Type) (f : A → bool) l,
    ¬ Exists (λ x, f x = true) l ↔ ∀ x, x ∈ l → f x = false) as HE.
  { intros A f l. rewrite Exists_exists. split.
    - intros Hn x Hx. destruct (f x) eqn:Hf; [|done]. exfalso. by apply Hn; exists x.
    - intros Hl (x & Hx & Hf). by rewrite Hl in Hf. }
  rewrite elem_of_app, <- (HE _ (λ v : View, isServicePortEqualPoolName p v.2)),
    <- (HE _ (isServicePortEqualListener p)).
  unfold create_pool, create_listener. repeat case_decide;
    rewrite ?list_elem_of_singleton, ?elem_of_nil; tauto.
Qed.

Lemma elem_of_spec_updates a :
  a ∈ spec_updates service nodeList listeners views ↔
  (∃ l, l ∈ listeners ∧ ¬ listener_live service l ∧
        a = DeleteListener (listener_label l) (lst_ID l)) ∨
  (∃ v, v ∈ views ∧ ¬ live service v ∧ a = DeletePool (pool_Name v.1) (pool_ID v.1)) ∨
  (∃ v, v ∈ views ∧ stable service v ∧
        ((∃ m, m ∈ pool_Members v.1 ∧ ¬ member_good nodeList v m ∧
               a = DeletePoolMember (pool_Name v.1) (pool_ID v.1) (mem_ID m)
                                    (mem_TargetIPAddress m)) ∨
         (∃ n, n ∈ nodeList ∧ ¬ node_served v n ∧
               a = CreatePoolMember (pool_Name v.1) (pool_ID v.1) n))) ∨
  (∃ v, v ∈ views ∧ live service v ∧ a ∈ update_pool service v) ∨
  (∃ p, p ∈ ports ∧ a ∈ create_pool views p ++ create_listener listeners p).
Proof.
  unfold spec_updates, delete_listeners, delete_pools. fold ports. rewrite !elem_of_app.
  rewrite !list_elem_of_bind, !list_elem_of_fmap. unfold delete_members, create_members.
  setoid_rewrite list_elem_of_filter. setoid_rewrite list_elem_of_fmap.
  setoid_rewrite list_elem_of_filter. naive_solver.
Qed.

(** *** The order of the plan *)

Definition rank (a : Action) : nat :=
  match a with
  | DeleteListener _ _ => 0
  | DeletePool _ _ => 1
  | CreatePool _ | CreateListener _ => 3
  | _ => 2
  end.
(** [a] may precede [b]. *)
Definition before (a b : Action) : Prop :=
  rank a ≤ rank b ∧ (∀ n, a = CreateListener n → b ≠ CreatePool n).

Lemma before_low a b : rank a ≤ rank b → rank a < 3 → before a b.
Proof. intros H1 H2. split; [done|]. intros n ->. cbn in H2. lia. Qed.

Lemma sorted_all {A} (R : A → A → Prop) l :
  (∀ x y, x ∈ l → y ∈ l → R x y) → StronglySorted R l.
Proof.
  induction l as [|x l IH]; intros Hl; constructor.
  - apply IH. intros; apply Hl; by right.
  - apply Forall_forall. intros y Hy. apply Hl; [left|by right].
Qed.

Lemma sorted_bind {A B} (R : B → B → Prop) (g : A → list B) l :
  NoDup l → (∀ x, x ∈ l → StronglySorted R (g x)) →
  (∀ x y a b, x ∈ l → y ∈ l → x ≠ y → a ∈ g x → b ∈ g y → R a b) →
  StronglySorted R (l ≫= g).
Proof.
  induction 1 as [|x l Hx Hl IH]; intros Hg HR; cbn; [constructor|].
  apply StronglySorted_app_2.
  - intros a b Ha (y & Hb & Hy)%list_elem_of_bind.
    apply (HR x y); try done; [left|by right|by intros ->].
  - apply Hg. left.
  - apply IH; [intros; apply Hg; by right|].
    intros y z a b Hy Hz. apply HR; by right.
Qed.

Lemma gen_name_inj p q :
  p ∈ ports → q ∈ ports → genLoadBalancerPoolName p = genLoadBalancerPoolName q → p = q.
Proof.
  intros Hp Hq Heq. destruct (port_tcp p Hp) as [Hpp ?], (port_tcp q Hq) as [Hqp ?].
  apply (unique_port service); [done..|].
  apply gen_pool_name_inj in Heq; try done; rewrite ?Hpp, ?Hqp; try done.
  by injection Heq.
Qed.

(** In order, and nothing below rank [r]. *)
Definition sorted_from (r : nat) (l : list Action) : Prop :=
  StronglySorted before l ∧ ∀ a, a ∈ l → r ≤ rank a.

Lemma sorted_chunk r r' l1 l2 :
  r ≤ r' → r < 3 → (∀ a, a ∈ l1 → rank a = r) → sorted_from r' l2 → sorted_from r (l1 ++ l2).
Proof.
  intros Hr Hr3 H1 [Hs H2]. split.
  - apply StronglySorted_app_2; [|apply sorted_all|done].
    + intros a b Ha%H1 Hb%H2. apply before_low; lia.
    + intros a b Ha%H1 Hb%H1. apply before_low; lia.
  - intros a [Ha%H1|Ha%H2]%elem_of_app; lia.
Qed.

Lemma creates_sorted :
  sorted_from 3 (ports ≫= λ p, create_pool views p ++ create_listener listeners p).
Proof.
  split; [apply sorted_bind|].
  - by eapply NoDup_fmap_1.
  - intros p Hp. unfold create_pool, create_listener.
    repeat case_decide; repeat constructor; cbn; try lia; done.
  - intros p q a b Hp Hq Hne Ha Hb. apply elem_of_create in Ha. apply elem_of_create in Hb.
    assert (genLoadBalancerPoolName p ≠ genLoadBalancerPoolName q)
      by (intros ?%gen_name_inj; done).
    destruct Ha as [[-> _]|[-> _]], Hb as [[-> _]|[-> _]]; split; cbn; try lia; congruence.
  - by intros a (p & [[-> _]|[-> _]]%elem_of_create & _)%list_elem_of_bind.
Qed.

Lemma spec_updates_sorted :
  StronglySorted before (spec_updates service nodeList listeners views).
Proof.
  unfold spec_updates. fold ports.
  apply (sorted_chunk 0 1); [lia..|by intros a (? & -> & _)%list_elem_of_fmap|].
  apply (sorted_chunk 1 2); [lia..|by intros a (? & -> & _)%list_elem_of_fmap|].
  apply (sorted_chunk 2 2); [lia..| |].
  { by intros a (v & (m & -> & _)%list_elem_of_fmap & _)%list_elem_of_bind. }
  apply (sorted_chunk 2 2); [lia..| |].
  { intros a (v & Ha & _)%list_elem_of_bind.
    apply elem_of_update_pool in Ha as (p & _ & [[-> _]|[-> _]]); done. }
  apply (sorted_chunk 2 3); [lia..| |apply creates_sorted].
  by intros a (v & (m & -> & _)%list_elem_of_fmap & _)%list_elem_of_bind.
Qed.

Lemma coalesce_sorted busy seen l :
  StronglySorted before l → StronglySorted before (coalesce_go busy seen l).
Proof.
  intros Hl. revert seen. induction Hl as [|a l Hl IH Ha]; intros seen; [constructor|].
  assert (∀ a' seen, (a' = a ∨ (is_member_action a = true ∧
      ∃ p i, a' = ReplacePoolMembers p i)) →
    StronglySorted before (a' :: coalesce_go busy seen l)) as Hcons.
  { intros a' seen' Ha'. constructor; [apply IH|]. apply Forall_forall. intros b Hb.
    assert (∃ c, c ∈ l ∧ (b = c ∨ (rank b = rank c ∧ ∃ p i, b = ReplacePoolMembers p i)))
      as (c & Hc & Hbc).
    { apply elem_of_coalesce_go in Hb as [[? _]|(c & Hc & Hm & _ & ->)].
      - exists b; auto.
      - exists c. split; [done|]. right. split; [by destruct c|eauto]. }
    rewrite Forall_forall in Ha. destruct (Ha c Hc) as [Hr Hn].
    destruct Ha' as [->|[Hma (p & i & ->)]].
    - destruct Hbc as [->|[Hbc (p & i & ->)]]; [by split|]. split; [by rewrite Hbc|done].
    - split; [|done]. destruct a; try done; destruct Hbc as [->|[-> _]]; done. }
  cbn [coalesce_go]. case_match eqn:Hm; [|apply Hcons; by left].
  apply andb_true_iff in Hm as [Hm _].
  case_decide; [apply IH|]. apply Hcons. right. eauto.
Qed.

Lemma spec_plan_sorted : StronglySorted before (spec_plan service nodeList listeners views).
Proof. apply coalesce_sorted, spec_updates_sorted. Qed.

Lemma elem_of_spec_plan a :
  a ∈ spec_plan service nodeList listeners views →
  a ∈ spec_updates service nodeList listeners views ∨
  ∃ v, v ∈ views ∧ stable service v ∧ a = ReplacePoolMembers (pool_Name v.1) (pool_ID v.1).
Proof.
  intros [[? _]|(b & Hb & Hm & _ & ->)]%elem_of_coalesce_go; [by left|]. right.
  apply elem_of_spec_updates in Hb
    as [(?&?&?&->)|[(?&?&?&->)|[(v&?&?&[(?&?&?&->)|(?&?&?&->)])|[(v&?&?&Hb)|(p&?&Hb)]]]];
    try done; [by exists v|by exists v| |].
  - apply elem_of_update_pool in Hb as (p & _ & [[-> _]|[-> _]]); done.
  - apply elem_of_create in Hb as [[-> _]|[-> _]]; done.
Qed.

Lemma elem_of_spec_plan_other a :
  is_member_action a = false → a ∈ spec_updates service nodeList listeners views →
  a ∈ spec_plan service nodeList listeners views.
Proof.
  intros Hm Ha. unfold spec_plan, coalesce.
  eapply elem_of_sublist; [|apply coalesce_go_others]. by apply list_elem_of_filter.
Qed.

(** *** The rules *)

Context (Hids : NoDup (pool_ID <$> views.*1)).

Lemma same_pool v v' : v ∈ views → v' ∈ views → pool_ID v.1 = pool_ID v'.1 → v = v'.
Proof. apply (NoDup_key (λ v : View, pool_ID v.1)). by rewrite <- list_fmap_compose in Hids. Qed.

Lemma elem_of_plan_delete_pool n i :
  DeletePool n i ∈ spec_plan service nodeList listeners views →
  ∃ v, v ∈ views ∧ ¬ live service v ∧ n = pool_Name v.1 ∧ i = pool_ID v.1.
Proof.
  intros [Hd|(v & _ & _ & Hd)]%elem_of_spec_plan; [|done].
  apply elem_of_spec_updates in Hd
    as [(?&?&?&[=])|[(v&?&?&[= -> ->])|[(v&?&?&[(?&?&?&[=])|(?&?&?&[=])])|[(v&?&?&Hb)|(p&?&Hb)]]]].
  - by exists v.
  - by apply elem_of_update_pool in Hb as (p & _ & [[[=] _]|[[=] _]]).
  - by apply elem_of_create in Hb as [[[=] _]|[[=] _]].
Qed.

Lemma live_not_deleted v n :
  v ∈ views → live service v →
  DeletePool n (pool_ID v.1) ∉ spec_plan service nodeList listeners views.
Proof.
  intros Hv Hl (v' & Hv' & Hd & _ & Hi)%elem_of_plan_delete_pool.
  by rewrite (same_pool v v') in Hl.
Qed.

Lemma rule_3 n :
  CreateListener n ∈ spec_plan service nodeList listeners views →
  ∃ p, p ∈ ports ∧ n = genLoadBalancerPoolName p ∧
       ∀ x, x ∈ listeners → isServicePortEqualListener p x = false.
Proof.
  intros [Hd|(v & _ & _ & Hd)]%elem_of_spec_plan; [|done].
  apply elem_of_spec_updates in Hd
    as [(?&?&?&[=])|[(v&?&?&[=])|[(v&?&?&[(?&?&?&[=])|(?&?&?&[=])])|[(v&?&?&Hb)|(p&?&Hb)]]]].
  - by apply elem_of_update_pool in Hb as (p & _ & [[[=] _]|[[=] _]]).
  - apply elem_of_create in Hb as [[[=] _]|[[= ->] ?]]. by exists p.
Qed.

Lemma rule_2 l1 l2 n :
  spec_plan service nodeList listeners views = l1 ++ CreateListener n :: l2 →
  CreatePool n ∈ l1 ∨
  ∃ pool, pool ∈ views.*1 ∧ (pool_Name pool = n ∨ UpdatePool n (pool_ID pool) ∈ l1) ∧
          ∀ n', DeletePool n' (pool_ID pool) ∉ spec_plan service nodeList listeners views.
Proof.
  intros Hl. pose proof spec_plan_sorted as Hs. rewrite Hl in Hs.
  assert (∀ a, is_member_action a = false → ¬ before (CreateListener n) a →
    a ∈ spec_updates service nodeList listeners views → a ∈ l1) as Hbefore.
  { intros a Hm Hb Ha%elem_of_spec_plan_other; [|done]. rewrite Hl in Ha.
    apply elem_of_app in Ha as [?|[->|Ha]%elem_of_cons]; [done| |].
    - exfalso. apply Hb. by split.
    - exfalso. apply Hb. by eapply sorted_after. }
  destruct (rule_3 n) as (p & Hp & Hn & Hno).
  { rewrite Hl. apply elem_of_app. right. left. }
  destruct (decide (Exists (λ v : View, isServicePortEqualPoolName p v.2 = true) views))
    as [(v & Hv & Hm)%Exists_exists|He].
  - right. exists v.1. split; [by apply list_elem_of_fmap_2|].
    assert (live service v) as Hlive by by exists p.
    split; [|intros n'; by apply live_not_deleted].
    destruct (decide (pool_Name v.1 = n)) as [|Hne]; [by left|]. right.
    apply Hbefore; [done|by intros [? _]; cbn in *; lia|].
    apply elem_of_spec_updates. do 3 right. left. exists v. split_and!; [done..|].
    apply elem_of_update_pool. exists p. split; [by apply find_match|]. left.
    split; [by rewrite Hn|]. intros [Hgood _]. congruence.
  - left. apply Hbefore; [done|by intros [_ Hb]; eapply Hb|].
    apply elem_of_spec_updates. do 4 right. exists p. split; [done|].
    apply elem_of_create. left. split; [by rewrite Hn|]. intros v Hv.
    destruct (isServicePortEqualPoolName p v.2) eqn:Hm; [|done].
    exfalso. apply He, Exists_exists. by exists v.
Qed.

Lemma rule_5 n i a :
  Forall (λ v : View, pool_ID v.1 ≠ "") views →
  DeletePool n i ∈ spec_plan service nodeList listeners views →
  a ∈ spec_plan service nodeList listeners views → action_pool_id a = i → a = DeletePool n i.
Proof.
  intros Hne (v & Hv & Hdead & -> & ->)%elem_of_plan_delete_pool Ha Hi.
  rewrite Forall_forall in Hne. specialize (Hne v Hv).
  assert (∀ v', v' ∈ views → live service v' → pool_ID v'.1 ≠ pool_ID v.1) as Hlive.
  { intros v' Hv' Hl Heq. by rewrite (same_pool v' v) in Hl. }
  apply elem_of_spec_plan in Ha as [Ha|(v' & ? & [? _] & ->)].
  2: { exfalso. by eapply Hlive. }
  apply elem_of_spec_updates in Ha
    as [(?&?&?&->)|[(v'&?&?&->)|[(v'&?&[? _]&[(?&?&?&->)|(?&?&?&->)])|[(v'&?&?&Hb)|(p&?&Hb)]]]].
  - done.
  - by rewrite (same_pool v' v).
  - exfalso. by eapply Hlive.
  - exfalso. by eapply Hlive.
  - apply elem_of_update_pool in Hb as (p & _ & [[-> _]|[-> _]]); exfalso; by eapply Hlive.
  - apply elem_of_create in Hb as [[-> _]|[-> _]]; done.
Qed.
End plan.

(** A load balancer with a pool for [tcp-80-30303], for examples. *)
Definition example_member (id ip : string) (port : Z) : VpcLoadBalancerPoolMember :=
  {| mem_Health := "ok"; mem_ID := id; mem_Port := port; mem_ProvisioningStatus := "active";
     mem_TargetIPAddress := ip; mem_TargetInstanceID := ""; mem_Weight := 50 |}.
Definition example_pool (id name : string) (port : Z) (members : list VpcLoadBalancerPoolMember)
    : VpcLoadBalancerPool :=
  {| pool_Algorithm := "round_robin";
     pool_HealthMonitor := {| hm_Delay := 5; hm_MaxRetries := 2; hm_Port := port;
                              hm_Timeout := 2; hm_Type := "tcp"; hm_URLPath := "/" |};
     pool_ID := id; pool_Members := members; pool_Name := name; pool_Protocol := "tcp";
     pool_ProvisioningStatus := "active"; pool_ProxyProtocol := "disabled";
     pool_SessionPersistence := "" |}.
Definition example_listener (id pool : string) (port : Z) : VpcLoadBalancerListener :=
  {| lst_ConnectionLimit := 0; lst_DefaultPool := {| ref_ID := ""; ref_Name := pool |};
     lst_ID := id; lst_Port := port; lst_Protocol := "tcp";
     lst_ProvisioningStatus := "active" |}.

(** ** Properties *)

(** C10: the plan of UpdateLoadBalancer.  The eight steps over mutable pools
    and text lines compute exactly the lines of the reference plan
    [spec_plan] (list comprehensions over the listeners and the pools, then
    [coalesce]), and mark exactly the pools that serve no port.  They fail only
    when some pool name does not parse, with the error of the first such name,
    and never panic. *)
Theorem planUpdates_refines listeners pools service nodeList :
  WfInput listeners pools service nodeList →
  match parse_pools pools with
  | Ok views =>
      planUpdates listeners pools service nodeList
      = Ok (render <$> spec_plan service nodeList listeners views, mark_pool service <$> views)
  | Err e => planUpdates listeners pools service nodeList = Err e
  | Panic _ => False
  end.
Proof.
  intros Hwf. pose proof (parse_pools_no_panic pools) as Hp.
  destruct (parse_pools pools) as [views|e|w] eqn:Hv; [by apply plan_refines| |done].
  unfold planUpdates. by rewrite (collect_fails _ _ _ _ e).
Qed.

Lemma planUpdates_refines_witness :
  planUpdates [example_listener "l1" "tcp-443-30444" 443]
    [example_pool "p1" "tcp-443-30444" 30444 [];
     example_pool "p2" "tcp-80-30303" 30303
       [example_member "m1" "10.0.0.1" 30303; example_member "m2" "10.0.0.2" 30303]]
    (example_service "u" [(80, 30303)] ∅)%Z ["10.0.0.1"; "10.0.0.3"]
  = Ok ([ "DELETE-LISTENER tcp-443-30444 l1"; "DELETE-POOL tcp-443-30444 p1";
          "REPLACE-POOL-MEMBERS tcp-80-30303 p2"; "CREATE-LISTENER tcp-80-30303"],
        [set_pool_Name poolToBeDeleted (example_pool "p1" "tcp-443-30444" 30444 []);
         example_pool "p2" "tcp-80-30303" 30303
           [example_member "m1" "10.0.0.1" 30303; example_member "m2" "10.0.0.2" 30303]]).
Proof.
  refine (eq_trans (planUpdates_refines [example_listener "l1" "tcp-443-30444" 443]
    [example_pool "p1" "tcp-443-30444" 30444 [];
     example_pool "p2" "tcp-80-30303" 30303
       [example_member "m1" "10.0.0.1" 30303; example_member "m2" "10.0.0.2" 30303]]
    (example_service "u" [(80, 30303)] ∅)%Z ["10.0.0.1"; "10.0.0.3"] _) _); [by_decision|].
  by vm_compute.
Defined.

(** C11: UpdateLoadBalancer has nothing to do exactly when the load balancer is
    in sync with the service and its nodes: every listener serves a port of the
    service, every pool serves a port under its canonical name, with the health
    monitor the traffic policy asks for, the requested proxy protocol and as
    members exactly the nodes on the node port, and every port has a pool and
    a listener. *)
Theorem planUpdates_nothing_iff listeners pools service nodeList :
  WfInput listeners pools service nodeList → unique_ports service →
  (∃ pools', planUpdates listeners pools service nodeList = Ok ([], pools')) ↔
  (∃ views, parse_pools pools = Ok views ∧ in_sync service nodeList listeners views).
Proof.
  intros Hwf Hu. pose proof (parse_pools_no_panic pools) as Hp.
  destruct (parse_pools pools) as [views|e|w] eqn:Hv; [| |done].
  - rewrite (plan_refines _ _ _ _ views) by done.
    pose proof (parse_pools_Ok _ _ Hv) as [_ Hparsed].
    assert (spec_plan service nodeList listeners views = [] ↔
      in_sync service nodeList listeners views) as Hiff.
    { rewrite <- spec_updates_nil by (done || apply Hwf). apply coalesce_nil_iff. }
    split.
    + intros (ps & [= Hn%fmap_nil_inv _]). exists views. split; [done|]. by apply Hiff.
    + intros (vs & [= <-] & Hs). exists (mark_pool service <$> views).
      by rewrite (proj2 Hiff Hs).
  - split; [|by intros (? & ? & _)]. intros (ps & Hplan). unfold planUpdates in Hplan.
    by rewrite (collect_fails _ _ _ _ e) in Hplan.
Qed.

Lemma planUpdates_nothing_iff_witness :
  ∃ views,
    parse_pools [example_pool "p2" "tcp-80-30303" 30303 [example_member "m1" "10.0.0.1" 30303]]
    = Ok views ∧
    in_sync (example_service "u" [(80, 30303)] ∅)%Z ["10.0.0.1"]
      [example_listener "l1" "tcp-80-30303" 80] views.
Proof.
  refine (proj1 (planUpdates_nothing_iff [example_listener "l1" "tcp-80-30303" 80] _
    (example_service "u" [(80, 30303)] ∅)%Z ["10.0.0.1"] _ _) _); [by_decision..|].
  eexists. by vm_compute.
Defined.

(** C12: the rules 1, 2, 3 and 5 of the comment in UpdateLoadBalancer, and what
    holds of rule 4.  For pools with distinct IDs that parse, the plan consists
    of well-formed updates such that: listeners are deleted before pools, pools
    before anything is changed or created (rule 1), and pools and listeners are
    created last; that is rule 4 for them only - the creation of a pool member
    may come before other updates ([planUpdates_create_not_last]); when a
    listener is created, its pool has been created or renamed before, or exists
    and is not to be deleted (rule 2); a listener is created only for a port of
    the service that has no listener (rule 3); and a pool that is deleted
    appears in no other update (rule 5). *)
Theorem planUpdates_rules listeners pools service nodeList views :
  WfInput listeners pools service nodeList → unique_ports service →
  NoDup (pool_ID <$> pools) → parse_pools pools = Ok views →
  ∃ l pools', planUpdates listeners pools service nodeList = Ok (render <$> l, pools') ∧
    Forall wf_action l ∧
    StronglySorted (λ a b, rank a ≤ rank b) l ∧
    (∀ l1 l2 n, l = l1 ++ CreateListener n :: l2 →
       CreatePool n ∈ l1 ∨
       ∃ pool, pool ∈ pools ∧ (pool_Name pool = n ∨ UpdatePool n (pool_ID pool) ∈ l1) ∧
               ∀ n', DeletePool n' (pool_ID pool) ∉ l) ∧
    (∀ n, CreateListener n ∈ l →
       ∃ p, p ∈ spec_Ports (svc_Spec service) ∧ n = genLoadBalancerPoolName p ∧
            ∀ x, x ∈ listeners → isServicePortEqualListener p x = false) ∧
    (∀ n i a, DeletePool n i ∈ l → a ∈ l → action_pool_id a = i → a = DeletePool n i).
Proof.
  intros Hwf Hu Hids Hv. pose proof (parse_pools_Ok _ _ Hv) as [<- Hparsed].
  pose proof (@wf_ports _ _ _ _ Hwf) as Hports.
  exists (spec_plan service nodeList listeners views), (mark_pool service <$> views).
  pose proof (spec_plan_sorted service nodeList listeners views Hports Hu) as Hs.
  split_and!.
  - by apply plan_refines.
  - apply wf_coalesce. by eapply wf_spec_updates.
  - eapply StronglySorted_weaken; [|exact Hs]. by intros a b [].
  - intros l1 l2 n Hl. rewrite Hl in Hs. by eapply rule_2.
  - intros n Hn. by apply rule_3 in Hn.
  - intros n i a. apply rule_5; [done|]. pose proof (@wf_pools _ _ _ _ Hwf) as Hp.
    rewrite Forall_fmap in Hp. eapply Forall_impl; [exact Hp|]. by intros v [[? _] _].
Qed.

Lemma planUpdates_rules_witness :
  ∃ l pools',
    planUpdates [] [example_pool "p2" "tcp-80-30303" 30303 []]
      (example_service "u" [(80, 30304)] ∅)%Z ["10.0.0.1"] = Ok (render <$> l, pools') ∧
    StronglySorted (λ a b, rank a ≤ rank b) l.
Proof.
  destruct (planUpdates_rules [] [example_pool "p2" "tcp-80-30303" 30303 []]
    (example_service "u" [(80, 30304)] ∅)%Z ["10.0.0.1"]
    [(example_pool "p2" "tcp-80-30303" 30303 [],
      {| pn_Protocol := "tcp"; pn_Port := 80; pn_NodePort := 30303 |})])
    as (l & ps & H1 & _ & H2 & _); [by_decision..|by vm_compute|].
  exists l, ps. split; [exact H1|exact H2].
Defined.

(** Rule 4 of the comment, all CREATE operations last, does not hold for
    pool members: step 8 can leave the creation of a member of one pool before
    the replacement of the members of another. *)
Theorem planUpdates_create_not_last :
  let pool80 := example_pool "p1" "tcp-80-30080" 30080 [example_member "m1" "10.0.0.1" 30080] in
  let pool443 := example_pool "p2" "tcp-443-30443" 30443 [] in
  fst <$> planUpdates
    [example_listener "l1" "tcp-80-30080" 80; example_listener "l2" "tcp-443-30443" 443]
    [pool80; pool443] (example_service "u" [(80, 30080); (443, 30443)] ∅)%Z
    ["10.0.0.1"; "10.0.0.2"]
  = Ok ["CREATE-POOL-MEMBER tcp-80-30080 p1 10.0.0.2"; "REPLACE-POOL-MEMBERS tcp-443-30443 p2"].
Proof. by vm_compute. Qed.
