(* ===== verification/VpcSdk.v ===== *)
(** * VpcSdk: the SDK interface and the environment of the cloud logic
    (pkg/vpcctl/vpc_sdk_base.go, interface CloudVpcSdk; vpc_provider.go,
    struct CloudVpc)

    [CloudVpcSdk W] is the Go interface as a class: its methods act on a world
    [W] - whatever lies behind the SDK: the VPC service, the network, the mock.
    The interface promises nothing about [W]; a component that needs a promise
    states it as a class of laws
    ([SdkIdentity] and [SdkWords] below).

    The pools an SDK hands out are pointers, and [UpdateLoadBalancer] writes
    through them.  [sdk_written pools] is what that makes of the world, [pools]
    being the objects handed out last, as the caller leaves them: nothing for
    an SDK that builds its answers anew, the renaming of its own pool for the
    mock, which hands out what it owns.

    A Go call that returns a non-nil error is [Err]; the value returned beside
    a non-nil error is dropped, no caller of the interface reads it. *)
From S2P Require Import Prelude GoStrings Kube VpcTypes VpcConfig.

Class CloudVpcSdk (W : Type) := {
  sdk_CreateLoadBalancer (lbName : string) (nodeList poolList subnetList : list string)
    (options : ServiceOptions) : M W VpcLoadBalancer;
  sdk_CreateLoadBalancerListener (lbID poolName poolID : string)
    : M W VpcLoadBalancerListener;
  sdk_CreateLoadBalancerPool (lbID poolName : string) (nodeList : list string)
    (options : ServiceOptions) : M W VpcLoadBalancerPool;
  sdk_CreateLoadBalancerPoolMember (lbID poolName poolID nodeID : string)
    : M W VpcLoadBalancerPoolMember;
  sdk_DeleteLoadBalancer (lbID : string) : M W unit;
  sdk_DeleteLoadBalancerListener (lbID listenerID : string) : M W unit;
  sdk_DeleteLoadBalancerPool (lbID poolID : string) : M W unit;
  sdk_DeleteLoadBalancerPoolMember (lbID poolID memberID : string) : M W unit;
  sdk_GetLoadBalancer (lbID : string) : M W VpcLoadBalancer;
  sdk_GetSubnet (subnetID : string) : M W VpcSubnet;
  sdk_ListLoadBalancers : M W (list VpcLoadBalancer);
  sdk_ListLoadBalancerListeners (lbID : string) : M W (list VpcLoadBalancerListener);
  sdk_ListLoadBalancerPools (lbID : string) : M W (list VpcLoadBalancerPool);
  sdk_ListLoadBalancerPoolMembers (lbID poolID : string)
    : M W (list VpcLoadBalancerPoolMember);
  sdk_ListSubnets : M W (list VpcSubnet);
  sdk_ReplaceLoadBalancerPoolMembers (lbID poolName poolID : string)
    (nodeList : list string) : M W (list VpcLoadBalancerPoolMember);
  sdk_UpdateLoadBalancerPool (lbID newPoolName : string)
    (existingPool : VpcLoadBalancerPool) (options : ServiceOptions)
    : M W VpcLoadBalancerPool;
  (* not a method *)
  sdk_written (pools : list VpcLoadBalancerPool) : W → W;
}.

(** The clock of package time, in nanoseconds.  Reading it may advance it. *)
Class Clock (W : Type) := {
  time_Now : W → Z * W;
  time_Sleep : Z → W → W;
}.

(** ** The environment *)

(** The world, the events the recorder has been given, and the number of map
    iteration orders drawn so far. *)
Record Env (W : Type) := {
  env_world : W;
  env_events : list Event;
  env_draws : nat;
}.
Arguments env_world {W} e : rename.
Arguments env_events {W} e : rename.
Arguments env_draws {W} e : rename.
Arguments Build_Env {W}.

(** The receiver of the cloud logic.  [KubeClient] is only stored by the
    source; [Recorder] may be nil ([false]). *)
Record CloudVpc (W : Type) := {
  cv_Config : ConfigVpc;
  cv_Sdk : CloudVpcSdk W;
  cv_Recorder : bool;
}.
Arguments cv_Config {W} c : rename.
Arguments cv_Sdk {W} c : rename.
Arguments cv_Recorder {W} c : rename.
Arguments Build_CloudVpc {W}.

Section env.
Context {W : Type}.

Definition set_world (w : W) (e : Env W) : Env W :=
  {| env_world := w; env_events := env_events e; env_draws := env_draws e |}.

(** Run an SDK method from the cloud logic. *)
Definition sdk {A} (m : M W A) : M (Env W) A := λ e,
  let '(r, w) := m (env_world e) in (r, set_world w e).

(** The caller has written through the pool pointers it was given. *)
Definition written (s : CloudVpcSdk W) (pools : list VpcLoadBalancerPool) : M (Env W) unit :=
  modify (λ e, set_world (sdk_written pools (env_world e)) e).

Definition now `{Clock W} : M (Env W) Z := λ e,
  let '(t, w) := time_Now (env_world e) in (Ok t, set_world w e).
Definition sleep `{Clock W} (ns : Z) : M (Env W) unit :=
  modify (λ e, set_world (time_Sleep ns (env_world e)) e).

(** The order of the next map iteration. *)
Definition draw : M (Env W) nat := λ e,
  (Ok (env_draws e),
   {| env_world := env_world e; env_events := env_events e;
      env_draws := S (env_draws e) |}).

Definition record_event (ev : Event) : M (Env W) unit :=
  modify (λ e, {| env_world := env_world e; env_events := env_events e ++ [ev];
                  env_draws := env_draws e |}).

Lemma wp_sdk {A} (m : M W A) Q e :
  wp (sdk m) Q e ↔ wp m (λ r w, Q r (set_world w e)) (env_world e).
Proof. unfold wp, sdk. by destruct (m (env_world e)). Qed.
End env.

(** What the VPC API documents and the loops over a load balancer rely on: it
    answers with the load balancer that was asked for. *)
Class SdkIdentity {W} (s : CloudVpcSdk W) : Prop :=
  sdk_identity : ∀ lbID w lb w',
    @sdk_GetLoadBalancer W s lbID w = (Ok lb, w') → lb_ID lb = lbID.

(** The identifiers it lists hold no white space. *)
Class SdkWords {W} (s : CloudVpcSdk W) : Prop := {
  words_listeners : ∀ lbID w l w',
    @sdk_ListLoadBalancerListeners W s lbID w = (Ok l, w') → Forall wf_listener l;
  words_pools : ∀ lbID w l w',
    @sdk_ListLoadBalancerPools W s lbID w = (Ok l, w') → Forall wf_pool l;
}.

(** ** Requests: the SDK calls as data *)

(** What one SDK call asks for.  A request is a write when the VPC service is
    asked to change something. *)
Inductive Request :=
  | RCreateLoadBalancer (lbName : string) (nodeList poolList subnetList : list string)
      (options : ServiceOptions)
  | RCreateListener (lbID poolName poolID : string)
  | RCreatePool (lbID poolName : string) (nodeList : list string) (options : ServiceOptions)
  | RCreatePoolMember (lbID poolName poolID nodeID : string)
  | RDeleteLoadBalancer (lbID : string)
  | RDeleteListener (lbID listenerID : string)
  | RDeletePool (lbID poolID : string)
  | RDeletePoolMember (lbID poolID memberID : string)
  | RReplacePoolMembers (lbID poolName poolID : string) (nodeList : list string)
  | RUpdatePool (lbID newPoolName : string) (existingPool : VpcLoadBalancerPool)
      (options : ServiceOptions)
  | RGetLoadBalancer (lbID : string)
  | RGetSubnet (subnetID : string)
  | RListLoadBalancers
  | RListListeners (lbID : string)
  | RListPools (lbID : string)
  | RListPoolMembers (lbID poolID : string)
  | RListSubnets.

Definition is_write (r : Request) : bool :=
  match r with
  | RGetLoadBalancer _ | RGetSubnet _ | RListLoadBalancers | RListListeners _
  | RListPools _ | RListPoolMembers _ _ | RListSubnets => false
  | _ => true
  end.

(** The type of the value a request is answered with. *)
Definition answer (r : Request) : Type :=
  match r with
  | RCreateLoadBalancer _ _ _ _ _ | RGetLoadBalancer _ => VpcLoadBalancer
  | RCreateListener _ _ _ => VpcLoadBalancerListener
  | RCreatePool _ _ _ _ | RUpdatePool _ _ _ _ => VpcLoadBalancerPool
  | RCreatePoolMember _ _ _ _ => VpcLoadBalancerPoolMember
  | RDeleteLoadBalancer _ | RDeleteListener _ _ | RDeletePool _ _
  | RDeletePoolMember _ _ _ => unit
  | RReplacePoolMembers _ _ _ _ | RListPoolMembers _ _ => list VpcLoadBalancerPoolMember
  | RGetSubnet _ => VpcSubnet
  | RListLoadBalancers => list VpcLoadBalancer
  | RListListeners _ => list VpcLoadBalancerListener
  | RListPools _ => list VpcLoadBalancerPool
  | RListSubnets => list VpcSubnet
  end.

(** A request and its answer. *)
Definition Call : Type := { r : Request & outcome (answer r) }.
Definition call (r : Request) (o : outcome (answer r)) : Call := existT r o.
Notation "r ⇒ o" := (call r o) (at level 60, no associativity) : go_scope.

Definition request (x : Call) : Request := projT1 x.

(** Any SDK, observed: the same answers, and the list of calls made. *)
Section traced.
Context {W : Type} (s : CloudVpcSdk W).

Definition traced_call (r : Request) (m : M W (answer r)) : M (W * list Call) (answer r) :=
  λ '(w, tr), let '(o, w') := m w in (o, (w', tr ++ [call r o])).

Definition traced : CloudVpcSdk (W * list Call) := {|
  sdk_CreateLoadBalancer n l p sn o :=
    traced_call (RCreateLoadBalancer n l p sn o) (sdk_CreateLoadBalancer n l p sn o);
  sdk_CreateLoadBalancerListener a b c :=
    traced_call (RCreateListener a b c) (sdk_CreateLoadBalancerListener a b c);
  sdk_CreateLoadBalancerPool a b l o :=
    traced_call (RCreatePool a b l o) (sdk_CreateLoadBalancerPool a b l o);
  sdk_CreateLoadBalancerPoolMember a b c d :=
    traced_call (RCreatePoolMember a b c d) (sdk_CreateLoadBalancerPoolMember a b c d);
  sdk_DeleteLoadBalancer a := traced_call (RDeleteLoadBalancer a) (sdk_DeleteLoadBalancer a);
  sdk_DeleteLoadBalancerListener a b :=
    traced_call (RDeleteListener a b) (sdk_DeleteLoadBalancerListener a b);
  sdk_DeleteLoadBalancerPool a b :=
    traced_call (RDeletePool a b) (sdk_DeleteLoadBalancerPool a b);
  sdk_DeleteLoadBalancerPoolMember a b c :=
    traced_call (RDeletePoolMember a b c) (sdk_DeleteLoadBalancerPoolMember a b c);
  sdk_GetLoadBalancer a := traced_call (RGetLoadBalancer a) (sdk_GetLoadBalancer a);
  sdk_GetSubnet a := traced_call (RGetSubnet a) (sdk_GetSubnet a);
  sdk_ListLoadBalancers := traced_call RListLoadBalancers sdk_ListLoadBalancers;
  sdk_ListLoadBalancerListeners a :=
    traced_call (RListListeners a) (sdk_ListLoadBalancerListeners a);
  sdk_ListLoadBalancerPools a := traced_call (RListPools a) (sdk_ListLoadBalancerPools a);
  sdk_ListLoadBalancerPoolMembers a b :=
    traced_call (RListPoolMembers a b) (sdk_ListLoadBalancerPoolMembers a b);
  sdk_ListSubnets := traced_call RListSubnets sdk_ListSubnets;
  sdk_ReplaceLoadBalancerPoolMembers a b c l :=
    traced_call (RReplacePoolMembers a b c l) (sdk_ReplaceLoadBalancerPoolMembers a b c l);
  sdk_UpdateLoadBalancerPool a b p o :=
    traced_call (RUpdatePool a b p o) (sdk_UpdateLoadBalancerPool a b p o);
  sdk_written pools := λ '(w, tr), (sdk_written pools w, tr);
|}.
End traced.

#[export] Instance traced_clock {W} `{Clock W} : Clock (W * list Call) := {|
  time_Now := λ '(w, tr), let '(t, w') := time_Now w in (t, (w', tr));
  time_Sleep ns := λ '(w, tr), (time_Sleep ns w, tr);
|}.

(** The same cloud, observed. *)
Definition trace_cloud {W} (c : CloudVpc W) : CloudVpc (W * list Call) :=
  {| cv_Config := cv_Config c; cv_Sdk := traced (cv_Sdk c); cv_Recorder := cv_Recorder c |}.

(** The calls an observed environment has seen, and the writes among them. *)
Definition trace {W} (e : Env (W * list Call)) : list Call := (env_world e).2.
Definition writes (l : list Call) : list Request :=
  filter (λ r, is_write r = true) (request <$> l).

(** ** What an observed program does *)

(** [emits m P]: wherever it starts, [m] ends in an outcome and adds calls and
    events, in order, that satisfy [P]. *)
Definition emits {W A} (m : M (Env (W * list Call)) A)
    (P : outcome A → list Call → list Event → Prop) : Prop :=
  ∀ e, ∃ calls events,
    trace (m e).2 = trace e ++ calls ∧ env_events (m e).2 = env_events e ++ events ∧
    P (m e).1 calls events.

Section emits.
Context {W : Type}.
Local Abbreviation prog := (M (Env (W * list Call))).

Lemma emits_mono {A} (m : prog A) P Q :
  emits m P → (∀ r l v, P r l v → Q r l v) → emits m Q.
Proof. intros Hm HPQ e. destruct (Hm e) as (l & v & ? & ? & ?). exists l, v. auto. Qed.

Lemma emits_ret {A} (a : A) (P : outcome A → list Call → list Event → Prop) :
  P (Ok a) [] [] → emits (mret a : prog A) P.
Proof. intros HP e. exists [], []. by rewrite !app_nil_r. Qed.
Lemma emits_lift {A} (o : outcome A) (P : outcome A → list Call → list Event → Prop) :
  P o [] [] → emits (lift o : prog A) P.
Proof. intros HP e. exists [], []. by rewrite !app_nil_r. Qed.
Lemma emits_fail {A} err (P : outcome A → list Call → list Event → Prop) :
  P (Err err) [] [] → emits (fail err : prog A) P.
Proof. intros HP e. exists [], []. by rewrite !app_nil_r. Qed.

Lemma emits_bind {A B} (m : prog A) (f : A → prog B) Q P :
  emits m Q →
  (∀ r l v, Q r l v →
     match r with
     | Ok a => emits (f a) (λ r' l' v', P r' (l ++ l') (v ++ v'))
     | Err err => P (Err err) l v
     | Panic w => P (Panic w) l v
     end) →
  emits (m ≫= f) P.
Proof.
  intros Hm Hf e. destruct (Hm e) as (l & v & Hl & Hv & HQ). specialize (Hf _ _ _ HQ).
  unfold mbind, M_bind. destruct (m e) as [[a|err|w] e1]; cbn in *.
  - destruct (Hf e1) as (l' & v' & Hl' & Hv' & HP). exists (l ++ l'), (v ++ v').
    by rewrite Hl', Hv', Hl, Hv, !(assoc_L (++)).
  - by exists l, v.
  - by exists l, v.
Qed.

Lemma emits_attempt {A} (m : prog A) (P : outcome (A + error) → _) :
  emits m (λ r l v, match r with
                    | Ok a => P (Ok (inl a)) l v
                    | Err err => P (Ok (inr err)) l v
                    | Panic w => P (Panic w) l v
                    end) →
  emits (attempt m) P.
Proof.
  intros Hm e. destruct (Hm e) as (l & v & Hl & Hv & HQ). exists l, v.
  unfold attempt. by destruct (m e) as [[a|err|w] e1].
Qed.

(** One SDK call. *)
Lemma emits_call r (m : M W (answer r)) (P : outcome (answer r) → _) :
  (∀ o, (∃ w w', m w = (o, w')) → P o [call r o] []) →
  emits (sdk (traced_call r m)) P.
Proof.
  intros HP [[w tr] ev d]. unfold sdk, traced_call. cbn. destruct (m w) as [o w'] eqn:Hm. cbn.
  exists [call r o], []. rewrite app_nil_r. split_and!; [done..|]. apply HP. eauto.
Qed.

(** Programs that call nothing and record nothing. *)
Lemma emits_silent {A} (m : prog A) (P : outcome A → _) :
  (∀ e, trace (m e).2 = trace e ∧ env_events (m e).2 = env_events e ∧ P (m e).1 [] []) →
  emits m P.
Proof. intros Hm e. destruct (Hm e) as (? & ? & ?). exists [], []. by rewrite !app_nil_r. Qed.

Lemma emits_now `{Clock W} (P : outcome Z → _) : (∀ t, P (Ok t) [] []) → emits now P.
Proof.
  intros HP. apply emits_silent. intros [[w tr] ev d]. unfold now. cbn.
  destruct (time_Now w). cbn. split_and!; [done..|apply HP].
Qed.
Lemma emits_sleep `{Clock W} ns (P : outcome unit → _) : P (Ok tt) [] [] → emits (sleep ns) P.
Proof. intros HP. apply emits_silent. by intros [[w tr] ev d]. Qed.
Lemma emits_draw (P : outcome nat → _) : (∀ d, P (Ok d) [] []) →
  emits (draw : prog nat) P.
Proof. intros HP. apply emits_silent. intros [[w tr] ev d]. by cbn. Qed.
Lemma emits_event ev (P : outcome unit → _) : P (Ok tt) [] [ev] →
  emits (record_event ev : prog unit) P.
Proof.
  intros HP [[w tr] evs d]. exists [], [ev]. by rewrite app_nil_r.
Qed.

(** The same rules in front of a continuation. *)
Lemma emits_call_bind {B} r (m : M W (answer r)) (f : answer r → prog B) P :
  (∀ o, (∃ w w', m w = (o, w')) →
     match o with
     | Ok a => emits (f a) (λ r' l v, P r' (call r o :: l) v)
     | Err err => P (Err err) [call r o] []
     | Panic why => P (Panic why) [call r o] []
     end) →
  emits (sdk (traced_call r m) ≫= f) P.
Proof.
  intros HP. eapply emits_bind.
  - apply (emits_call r m (λ o l v, l = [call r o] ∧ v = [] ∧ ∃ w w', m w = (o, w'))). auto.
  - intros o l v (-> & -> & Hm). exact (HP o Hm).
Qed.
Lemma emits_lift_bind {A B} (o : outcome A) (f : A → prog B) P :
  match o with
  | Ok a => emits (f a) P
  | Err err => P (Err err) [] []
  | Panic why => P (Panic why) [] []
  end → emits (lift o ≫= f) P.
Proof.
  intros HP. eapply (emits_bind _ _ (λ r l v, r = o ∧ l = [] ∧ v = [])).
  - by apply emits_lift.
  - by intros r l v (-> & -> & ->).
Qed.
Lemma emits_ret_bind {A B} (a : A) (f : A → prog B) P :
  emits (f a) P → emits (mret a ≫= f) P.
Proof. done. Qed.
Lemma emits_now_bind `{Clock W} {B} (f : Z → prog B) P :
  (∀ t, emits (f t) P) → emits (now ≫= f) P.
Proof.
  intros HP. eapply (emits_bind _ _ (λ r l v, (∃ t, r = Ok t) ∧ l = [] ∧ v = [])).
  - apply emits_now. eauto.
  - intros r l v ((t & ->) & -> & ->). apply HP.
Qed.
Lemma emits_draw_bind {B} (f : nat → prog B) P :
  (∀ d, emits (f d) P) → emits (draw ≫= f) P.
Proof.
  intros HP. eapply (emits_bind _ _ (λ r l v, (∃ t, r = Ok t) ∧ l = [] ∧ v = [])).
  - apply emits_draw. eauto.
  - intros r l v ((t & ->) & -> & ->). apply HP.
Qed.
Lemma emits_sleep_bind `{Clock W} {B} ns (f : unit → prog B) P :
  emits (f tt) P → emits (sleep ns ≫= f) P.
Proof.
  intros HP. eapply (emits_bind _ _ (λ r l v, r = Ok tt ∧ l = [] ∧ v = [])).
  - by apply emits_sleep.
  - intros r l v (-> & -> & ->). apply HP.
Qed.
Lemma emits_written_bind (s : CloudVpcSdk W) {B} pools (f : unit → prog B) P :
  emits (f tt) P → emits (written (traced s) pools ≫= f) P.
Proof.
  intros HP. eapply (emits_bind _ _ (λ r l v, r = Ok tt ∧ l = [] ∧ v = [])).
  - apply emits_silent. by intros [[w tr] ev d].
  - intros r l v (-> & -> & ->). apply HP.
Qed.
End emits.

(** One step of an observed program. *)
Ltac emits_step :=
  first
    [ apply emits_lift_bind | apply emits_ret_bind | apply emits_now_bind; intros ?
    | apply emits_draw_bind; intros ? | apply emits_sleep_bind | apply emits_written_bind
    | apply emits_ret | apply emits_fail | apply emits_lift
    | apply emits_call_bind; intros [?|?|?] ?
    | apply emits_call; intros [?|?|?] ? ].
