(* ===== verification/StaticVpc.v ===== *)
(** * StaticVpc: an SDK that answers from a fixed inventory

    The interface [CloudVpcSdk] instantiated by a concrete world, for the
    examples of the theorems that hold for every SDK.  Reads answer from the
    inventory, writes succeed and change nothing.  It is not a model of any
    code of the repository. *)
From S2P Require Import Prelude GoStrings Kube VpcTypes VpcConfig VpcUpdates UpdatePlan VpcSdk.

Record StaticVpc := {
  st_subnets : list VpcSubnet;
  st_lbs : list VpcLoadBalancer;
  st_listeners : list VpcLoadBalancerListener;
  st_pools : list VpcLoadBalancerPool;
  st_time : Z;
}.

(** The load balancer [lb] under another ID. *)
Definition with_id (lbID : string) (lb : VpcLoadBalancer) : VpcLoadBalancer :=
  {| lb_CreatedAt := lb_CreatedAt lb; lb_Hostname := lb_Hostname lb; lb_ID := lbID;
     lb_IsPublic := lb_IsPublic lb; lb_ListenerIDs := lb_ListenerIDs lb; lb_Name := lb_Name lb;
     lb_OperatingStatus := lb_OperatingStatus lb; lb_Pools := lb_Pools lb;
     lb_PrivateIps := lb_PrivateIps lb; lb_ProfileFamily := lb_ProfileFamily lb;
     lb_ProvisioningStatus := lb_ProvisioningStatus lb; lb_PublicIps := lb_PublicIps lb;
     lb_ResourceGroup := lb_ResourceGroup lb; lb_Subnets := lb_Subnets lb;
     lb_VpcID := lb_VpcID lb |}.

Definition reads {A} (f : StaticVpc → outcome A) : M StaticVpc A := λ w, (f w, w).

Definition get_static (lbID : string) (w : StaticVpc) : outcome VpcLoadBalancer :=
  match List.find (λ lb, bool_decide (lb_ID lb = lbID)) (st_lbs w) with
  | Some lb => Ok (with_id lbID lb)
  | None => Err (ErrorString "not found")
  end.

#[export] Instance StaticSdk : CloudVpcSdk StaticVpc := {|
  sdk_CreateLoadBalancer n _ _ s _ :=
    reads (λ _, Ok (example_lb n n "offline" "create_pending" s []));
  sdk_CreateLoadBalancerListener _ p _ := reads (λ _, Ok (example_listener "new" p 0));
  sdk_CreateLoadBalancerPool _ p _ _ := reads (λ _, Ok (example_pool "new" p 0 []));
  sdk_CreateLoadBalancerPoolMember _ _ _ n := reads (λ _, Ok (example_member "new" n 0));
  sdk_DeleteLoadBalancer _ := reads (λ _, Ok tt);
  sdk_DeleteLoadBalancerListener _ _ := reads (λ _, Ok tt);
  sdk_DeleteLoadBalancerPool _ _ := reads (λ _, Ok tt);
  sdk_DeleteLoadBalancerPoolMember _ _ _ := reads (λ _, Ok tt);
  sdk_GetLoadBalancer lbID := reads (get_static lbID);
  sdk_GetSubnet _ := reads (λ _, Err (ErrorString "not found"));
  sdk_ListLoadBalancers := reads (λ w, Ok (st_lbs w));
  sdk_ListLoadBalancerListeners _ := reads (λ w, Ok (filter wf_listener (st_listeners w)));
  sdk_ListLoadBalancerPools _ := reads (λ w, Ok (filter wf_pool (st_pools w)));
  sdk_ListLoadBalancerPoolMembers _ _ := reads (λ _, Ok []);
  sdk_ListSubnets := reads (λ w, Ok (st_subnets w));
  sdk_ReplaceLoadBalancerPoolMembers _ _ _ _ := reads (λ _, Ok []);
  sdk_UpdateLoadBalancerPool _ p pool _ := reads (λ _, Ok (set_pool_Name p pool));
  sdk_written _ w := w;
|}.

#[export] Instance StaticSdk_identity : SdkIdentity StaticSdk.
Proof.
  intros lbID w lb w'. cbn. unfold reads, get_static.
  destruct (List.find _ _); [|done]. by intros [= <- <-].
Qed.

#[export] Instance StaticSdk_words : SdkWords StaticSdk.
Proof.
  split; intros lbID w l w' [= <- <-]; apply Forall_forall; by intros x [? _]%list_elem_of_filter.
Qed.

(** Reading the clock takes a millisecond. *)
#[export] Instance StaticClock : Clock StaticVpc := {|
  time_Now := λ w, (st_time w,
    {| st_subnets := st_subnets w; st_lbs := st_lbs w; st_listeners := st_listeners w;
       st_pools := st_pools w; st_time := st_time w + 1000000 |});
  time_Sleep ns := λ w,
    {| st_subnets := st_subnets w; st_lbs := st_lbs w; st_listeners := st_listeners w;
       st_pools := st_pools w; st_time := st_time w + ns |};
|}.

Definition example_config : ConfigVpc :=
  {| cfg_AccountID := "account"; cfg_APIKeySecret := "key"; cfg_ClusterID := "cluster";
     cfg_EnablePrivate := false; cfg_IamEndpointOverride := "";
     cfg_IKSPrivateEndpointHostname := ""; cfg_ProviderType := VpcProviderTypeGen2;
     cfg_Region := "us-south"; cfg_ResourceGroupName := "default"; cfg_RmEndpointOverride := "";
     cfg_SubnetNames := "net-a,net-b"; cfg_WorkerAccountID := ""; cfg_VpcName := "v";
     cfg_VpcEndpointOverride := ""; cfg_endpointURL := ""; cfg_resourceGroupID := "";
     cfg_tokenExchangeURL := "" |}.

Definition example_cloud : CloudVpc StaticVpc :=
  {| cv_Config := example_config; cv_Sdk := StaticSdk; cv_Recorder := true |}.

Definition example_node (name ip zone : string) : Node :=
  {| node_Name := name; node_Labels := {["ibm-cloud.kubernetes.io/zone" := zone]};
     node_ProviderID := ""; node_Taints := [];
     node_Addresses := [{| addr_Type := NodeInternalIP; addr_Address := ip |}];
     node_Conditions := [] |}.

(** An observed environment with nothing done yet. *)
Definition start (w : StaticVpc) : Env (StaticVpc * list Call) :=
  {| env_world := (w, []); env_events := []; env_draws := 0 |}.
