(* ===== verification/Logging.v ===== *)
(** * Logging: the log functions of the cloud logic (pkg/klog/logger.go)

    A log line goes to the klog library or, once [SetOutputToStdout] was
    called, to standard output with its severity in front.  [fmt.Sprintf] and
    the format of a time are arguments; klog keeps what it is given.  The other
    files leave log output out: nothing reads it. *)
From S2P Require Import Prelude GoStrings VpcSdk.

Open Scope go_scope.

Inductive Severity := SevError | SevInfo | SevWarning.

(** One call of klog: its severity, how many frames above the caller it reports,
    and the text. *)
Record KlogEntry := {
  ke_Severity : Severity;
  ke_Depth : nat;
  ke_Text : string;
}.

(** The package variable, the world with the clock, and the output so far. *)
Record Logger (W : Type) := {
  lg_logStdout : bool;
  lg_world : W;
  lg_stdout : list string;
  lg_klog : list KlogEntry;
}.
Arguments lg_logStdout {W} l : rename.
Arguments lg_world {W} l : rename.
Arguments lg_stdout {W} l : rename.
Arguments lg_klog {W} l : rename.
Arguments Build_Logger {W}.

Section logger.
Context {W Arg : Type} `{!Clock W}.
Context (sprintf : string → list Arg → string) (time_Format : Z → string → string).
Implicit Types (l : Logger W).

(** The newline at the end of a line of standard output. *)
Definition newline : string := String "010" "".

Definition printf (format : string) (v : list Arg) l : Logger W :=
  {| lg_logStdout := lg_logStdout l; lg_world := lg_world l;
     lg_stdout := lg_stdout l ++ [sprintf format v]; lg_klog := lg_klog l |}.
Definition klog_call (severity : Severity) (depth : nat) (text : string) l : Logger W :=
  {| lg_logStdout := lg_logStdout l; lg_world := lg_world l; lg_stdout := lg_stdout l;
     lg_klog := lg_klog l ++
       [{| ke_Severity := severity; ke_Depth := depth; ke_Text := text |}] |}.

Definition SetOutputToStdout l : Logger W :=
  {| lg_logStdout := true; lg_world := lg_world l; lg_stdout := lg_stdout l;
     lg_klog := lg_klog l |}.

Definition Errorf (format : string) (v : list Arg) l : Logger W :=
  if lg_logStdout l then printf ("ERROR: " +:+ format +:+ newline) v l
  else klog_call SevError 1 (sprintf format v) l.

Definition Infof (format : string) (v : list Arg) l : Logger W :=
  if lg_logStdout l then
    let '(t, w) := time_Now (lg_world l) in
    let timestamp := time_Format t "15:04:05.0000" in
    printf ("INFO: [" +:+ timestamp +:+ "] " +:+ format +:+ newline) v
      {| lg_logStdout := lg_logStdout l; lg_world := w; lg_stdout := lg_stdout l;
         lg_klog := lg_klog l |}
  else klog_call SevInfo 1 (sprintf format v) l.

Definition Warningf (format : string) (v : list Arg) l : Logger W :=
  if lg_logStdout l then printf ("WARNING: " +:+ format +:+ newline) v l
  else klog_call SevWarning 1 (sprintf format v) l.

(** ** Properties *)

(** What [fmt] documents of the text in front of a format: it is copied, if it
    has no verb. *)
Definition copies_prefix : Prop := ∀ p format v,
  contains p "%" = false → sprintf (p +:+ format) v = p +:+ sprintf format v.

(** A call of the package. *)
Inductive LogCall :=
  | CallErrorf (format : string) (v : list Arg)
  | CallInfof (format : string) (v : list Arg)
  | CallWarningf (format : string) (v : list Arg)
  | CallSetOutputToStdout.
Definition log_call l (x : LogCall) : Logger W :=
  match x with
  | CallErrorf format v => Errorf format v l
  | CallInfof format v => Infof format v l
  | CallWarningf format v => Warningf format v l
  | CallSetOutputToStdout => SetOutputToStdout l
  end.
Definition is_message (x : LogCall) : bool :=
  match x with CallSetOutputToStdout => false | _ => true end.

Lemma log_call_one l x :
  let l' := log_call l x in
  lg_logStdout l' = (lg_logStdout l || negb (is_message x)) ∧
  length (lg_stdout l') = length (lg_stdout l) + (if is_message x && lg_logStdout l then 1 else 0) ∧
  length (lg_klog l') = length (lg_klog l) + (if is_message x && negb (lg_logStdout l) then 1 else 0).
Proof.
  destruct l as [b w out kl]. destruct x; cbn; unfold Errorf, Infof, Warningf; cbn;
    destruct b; cbn; try destruct (time_Now w); cbn; rewrite ?length_app; cbn; lia.
Qed.

(** Every message is written once: the calls before the first
    [SetOutputToStdout] to klog, the ones after it to standard output. *)
Theorem log_calls_once l (before after : list LogCall) :
  lg_logStdout l = false → Forall (λ x, is_message x = true) before →
  let l' := foldl log_call (log_call (foldl log_call l before) CallSetOutputToStdout) after in
  length (lg_klog l') = length (lg_klog l) + length before ∧
  length (lg_stdout l') = length (lg_stdout l) + length (filter (λ x, is_message x = true) after).
Proof.
  intros Hl Hbefore. cbv zeta.
  assert (let l1 := foldl log_call l before in lg_logStdout l1 = false ∧
    length (lg_klog l1) = length (lg_klog l) + length before ∧ lg_stdout l1 = lg_stdout l) as H1.
  { revert l Hl. induction Hbefore as [|x before Hx _ IH]; intros l Hl; cbn; [split_and!; auto; lia|].
    destruct (log_call_one l x) as (Hb & Ho & Hk). rewrite Hx, Hl in *. cbn in Hb, Hk, Ho.
    destruct (IH (log_call l x) Hb) as (H1 & H2 & H3). split_and!; [done|lia|]. rewrite H3.
    destruct x; cbn; unfold Errorf, Infof, Warningf; by rewrite ?Hl. }
  destruct H1 as (_ & H2 & H3). set (l1 := foldl log_call l before) in *.
  assert (lg_logStdout (log_call l1 CallSetOutputToStdout) = true) as Hset by done.
  rewrite <- H2, <- H3. change (lg_klog l1) with (lg_klog (log_call l1 CallSetOutputToStdout)).
  change (lg_stdout l1) with (lg_stdout (log_call l1 CallSetOutputToStdout)).
  generalize dependent (log_call l1 CallSetOutputToStdout). clear.
  induction after as [|x after IH]; intros l Hl; [cbn; split; lia|]. cbn [foldl].
  destruct (log_call_one l x) as (Hb & Ho & Hk). rewrite Hl in *. cbn in Hb.
  destruct (IH (log_call l x) Hb) as [H1 H2]. rewrite H1, H2, Ho, Hk, filter_cons.
  destruct (is_message x); cbn; [rewrite decide_True by done|rewrite decide_False by done]; cbn;
    split; lia.
Qed.

(** A line on standard output is the formatted text with the severity in front,
    and with the time for information. *)
Theorem log_line l format v :
  copies_prefix → lg_logStdout l = true →
  (∀ t, contains (time_Format t "15:04:05.0000") "%" = false) →
  last (lg_stdout (Errorf format v l)) = Some ("ERROR: " +:+ sprintf (format +:+ newline) v) ∧
  last (lg_stdout (Warningf format v l)) = Some ("WARNING: " +:+ sprintf (format +:+ newline) v) ∧
  ∃ t, last (lg_stdout (Infof format v l)) =
    Some ("INFO: [" +:+ time_Format t "15:04:05.0000" +:+ "] " +:+ sprintf (format +:+ newline) v).
Proof.
  intros Hp Hl Ht. unfold Errorf, Warningf, Infof. rewrite Hl. destruct (time_Now _) as [t w] eqn:Hn.
  unfold printf. cbn [lg_stdout]. rewrite !last_snoc. split_and!.
  - by rewrite Hp.
  - by rewrite Hp.
  - exists t. by rewrite Hp, Hp, Hp.
Qed.
End logger.

(** Formats without verbs are their own text. *)
Lemma log_line_witness :
  let l := {| lg_logStdout := true; lg_world := tt; lg_stdout := []; lg_klog := [] |} in
  let unit_clock := {| time_Now w := (0%Z, w); time_Sleep _ w := w |} : Clock unit in
  last (lg_stdout (Errorf (λ f (_ : list string), f) "failed" [] l))
  = Some ("ERROR: failed" +:+ newline).
Proof.
  cbv zeta.
  set (unit_clock := {| time_Now w := (0%Z, w); time_Sleep _ w := w |} : Clock unit).
  destruct (log_line (Clock0 := unit_clock) (λ f (_ : list string), f) (λ _ _, "10:00:00.0000")
    {| lg_logStdout := true; lg_world := tt; lg_stdout := []; lg_klog := [] |} "failed" [])
    as (H & _); [done..|]. exact H.
Defined.
