(* ===== verification/VpcLbaas.v ===== *)
(** * VpcLbaas: creating, finding, updating, awaiting and deleting load
    balancers (pkg/vpcctl/vpc_lbaas.go) *)
From S2P Require Import Prelude GoStrings Kube VpcTypes VpcConfig VpcUpdates VpcSdk.

Definition missing_argument : error := ErrorString "Required argument is missing".

(** Two's-complement wrap-around of a 64-bit product. *)
Definition wrap64 (z : Z) : Z := ((z + 2 ^ 63) mod 2 ^ 64 - 2 ^ 63)%Z.
Definition second : Z := 1000000000.

Section lbaas.
Context {W : Type} `{!Clock W} `{!MapIteration}.
Implicit Types (c : CloudVpc W).

(** The nodes a load balancer sends traffic to, as both [CreateLoadBalancer]
    and [UpdateLoadBalancer] choose them: by the node selector annotation, or
    else by zone and edge label. *)
Definition selectNodes (service : Service) (options : ServiceOptions) (nodes : list Node)
    : list Node :=
  let '(filterLabel, filterValue) := getServiceNodeSelectorFilter service in
  if bool_decide (filterLabel ≠ "")
  then findNodesMatchingLabelValue nodes filterLabel filterValue
  else filterNodesByEdgeLabel (filterNodesByZone nodes (getServiceZone options)).

(** [nodes] is [None] for a nil slice. *)
Definition CreateLoadBalancer (c : CloudVpc W) (lbName : string) (service : option Service)
    (nodes : option (list Node)) : M (Env W) VpcLoadBalancer :=
  match service, nodes with
  | Some service, Some nodes =>
      if bool_decide (lbName = "") then fail missing_argument
      else
        options ← lift (validateService service);
        allSubnets ← sdk (@sdk_ListSubnets _ (cv_Sdk c));
        let vpcSubnets := filterSubnetsByVpcName allSubnets (cfg_VpcName (cv_Config c)) in
        let clusterSubnets := filterSubnetsByName vpcSubnets (cfg_SubnetNames (cv_Config c)) in
        match clusterSubnets with
        | [] =>
            fail (ErrorString ("None of the configured VPC subnets (" +:+
                               cfg_SubnetNames (cv_Config c) +:+ ") were found"))
        | clusterSubnet0 :: _ =>
            let serviceSubnets := options_getServiceSubnets options in
            let serviceZone := getServiceZone options in
            subnetList ←
              (if bool_decide (serviceSubnets ≠ "") then
                 let vpcID := ref_ID (sub_Vpc clusterSubnet0) in
                 d ← draw;
                 lift (validateServiceSubnets d service serviceSubnets vpcID vpcSubnets)
               else if bool_decide (serviceZone ≠ "") then
                 lift (validateServiceZone service serviceZone clusterSubnets)
               else mret (getSubnetIDs clusterSubnets));
            let nodes := selectNodes service options nodes in
            if bool_decide (length nodes = 0) then
              fail (ErrorString "There are no available nodes for this service")
            else
              let nodeList := getNodeIDs nodes in
              poolList ← lift (getServicePoolNames (Some service));
              sdk (@sdk_CreateLoadBalancer _ (cv_Sdk c) lbName nodeList poolList subnetList
                     options)
        end
  | _, _ => fail missing_argument
  end.

Definition createLoadBalancerListener (c : CloudVpc W) (lb : VpcLoadBalancer)
    (poolName : string) : M (Env W) unit :=
  let poolID :=
    match List.find (λ pool, bool_decide (poolName = ref_Name pool)) (lb_Pools lb) with
    | Some pool => ref_ID pool
    | None => ""
    end in
  if bool_decide (poolID = "") then
    fail (ErrorString ("Unable to create listener. Pool " +:+ poolName +:+ " not found"))
  else
    _ ← sdk (@sdk_CreateLoadBalancerListener _ (cv_Sdk c) (lb_ID lb) poolName poolID);
    mret tt.

Definition createLoadBalancerPool (c : CloudVpc W) (lb : VpcLoadBalancer)
    (poolName : string) (nodeList : list string) (options : ServiceOptions)
    : M (Env W) unit :=
  _ ← sdk (@sdk_CreateLoadBalancerPool _ (cv_Sdk c) (lb_ID lb) poolName nodeList options);
  mret tt.

Definition createLoadBalancerPoolMember (c : CloudVpc W) (lb : VpcLoadBalancer)
    (args : string) : M (Env W) unit :=
  match fields args with
  | [poolName; poolID; nodeID] =>
      _ ← sdk (@sdk_CreateLoadBalancerPoolMember _ (cv_Sdk c) (lb_ID lb) poolName poolID
                 nodeID);
      mret tt
  | _ => fail missing_argument
  end.

Definition DeleteLoadBalancer (c : CloudVpc W) (lb : option VpcLoadBalancer)
    (service : option Service) : M (Env W) unit :=
  match lb with
  | None => fail missing_argument
  | Some lb => sdk (@sdk_DeleteLoadBalancer _ (cv_Sdk c) (lb_ID lb))
  end.

Definition deleteLoadBalancerListener (c : CloudVpc W) (lb : VpcLoadBalancer)
    (args : string) : M (Env W) unit :=
  match fields args with
  | [_; listenerID] =>
      sdk (@sdk_DeleteLoadBalancerListener _ (cv_Sdk c) (lb_ID lb) listenerID)
  | _ => fail missing_argument
  end.

Definition deleteLoadBalancerPool (c : CloudVpc W) (lb : VpcLoadBalancer)
    (args : string) : M (Env W) unit :=
  match fields args with
  | [_; poolID] => sdk (@sdk_DeleteLoadBalancerPool _ (cv_Sdk c) (lb_ID lb) poolID)
  | _ => fail missing_argument
  end.

Definition deleteLoadBalancerPoolMember (c : CloudVpc W) (lb : VpcLoadBalancer)
    (args : string) : M (Env W) unit :=
  match fields args with
  | [_; poolID; memberID; _] =>
      sdk (@sdk_DeleteLoadBalancerPoolMember _ (cv_Sdk c) (lb_ID lb) poolID memberID)
  | _ => fail missing_argument
  end.

(** [Ok None] is the nil load balancer: not found. *)
Definition FindLoadBalancer (c : CloudVpc W) (nameID : string) (service : option Service)
    : M (Env W) (option VpcLoadBalancer) :=
  if bool_decide (nameID = "") then fail missing_argument
  else
    lbs ← sdk (@sdk_ListLoadBalancers _ (cv_Sdk c));
    mret (List.find (λ lb, bool_decide (nameID = lb_ID lb) ||
                           bool_decide (nameID = lb_Name lb) ||
                           bool_decide (nameID = lb_Hostname lb)) lbs).

Definition GetLoadBalancerStatus (service : Service) (lb : VpcLoadBalancer)
    : LoadBalancerStatus :=
  {| lbs_Ingress := Some [{| ing_IP := ""; ing_Hostname := lb_Hostname lb |}] |}.

Definition replaceLoadBalancerPoolMembers (c : CloudVpc W) (lb : VpcLoadBalancer)
    (args : string) (nodeList : list string) : M (Env W) unit :=
  match fields args with
  | [poolName; poolID] =>
      _ ← sdk (@sdk_ReplaceLoadBalancerPoolMembers _ (cv_Sdk c) (lb_ID lb) poolName poolID
                 nodeList);
      mret tt
  | _ => fail missing_argument
  end.

Definition updateLoadBalancerPool (c : CloudVpc W) (lb : VpcLoadBalancer)
    (args : string) (pools : list VpcLoadBalancerPool) (options : ServiceOptions)
    : M (Env W) unit :=
  match fields args with
  | [poolName; poolID] =>
      match List.find (λ pool, bool_decide (pool_ID pool = poolID)) pools with
      | None => fail (ErrorString ("Existing pool nof found for pool ID: " +:+ poolID))
      | Some existingPool =>
          _ ← sdk (@sdk_UpdateLoadBalancerPool _ (cv_Sdk c) (lb_ID lb) poolName
                     existingPool options);
          mret tt
      end
  | _ => fail missing_argument
  end.

(** ** Waiting for a load balancer *)

Definition not_ready_error (lb : VpcLoadBalancer) : error :=
  ErrorString ("load balancer not ready: " +:+ GetStatus lb).

(** The loop of [WaitLoadBalancerReady] with [n] rounds left.  The log line
    reads the clock as well. *)
Fixpoint wait_loop (c : CloudVpc W) (n : nat) (lbID : string)
    (startTime minSleep maxWait : Z) (lb : VpcLoadBalancer) : M (Env W) VpcLoadBalancer :=
  match n with
  | O => fail (not_ready_error lb)
  | S n =>
      _ ← now;
      if IsReady lb then mret lb
      else
        t ← now;
        if (maxWait * second <? t - startTime)%Z then fail (not_ready_error lb)
        else
          _ ← sleep (wrap64 (second * minSleep));
          lb ← sdk (@sdk_GetLoadBalancer _ (cv_Sdk c) lbID);
          wait_loop c n lbID startTime minSleep maxWait lb
  end.

Definition WaitLoadBalancerReady (c : CloudVpc W) (lb : VpcLoadBalancer)
    (minSleep maxWait : Z) : M (Env W) VpcLoadBalancer :=
  startTime ← now;
  if bool_decide (minSleep = 0%Z) then lift (Panic "integer divide by zero")
  else wait_loop c (Z.to_nat (Z.quot maxWait minSleep)) (lb_ID lb) startTime minSleep
         maxWait lb.

(** ** Updating *)

(** The switch on the action of one update line. *)
Definition processUpdate (c : CloudVpc W) (lb : VpcLoadBalancer) (update : string)
    (nodeList : list string) (pools : list VpcLoadBalancerPool) (options : ServiceOptions)
    : M (Env W) unit :=
  action ← lift (index (fields update) 0);
  let args := trimSpace (trimPrefix update action) in
  if bool_decide (action = actionCreateListener) then createLoadBalancerListener c lb args
  else if bool_decide (action = actionCreatePool) then
    createLoadBalancerPool c lb args nodeList options
  else if bool_decide (action = actionCreatePoolMember) then
    createLoadBalancerPoolMember c lb args
  else if bool_decide (action = actionDeleteListener) then
    deleteLoadBalancerListener c lb args
  else if bool_decide (action = actionDeletePool) then deleteLoadBalancerPool c lb args
  else if bool_decide (action = actionDeletePoolMember) then
    deleteLoadBalancerPoolMember c lb args
  else if bool_decide (action = actionUpdatePool) then
    updateLoadBalancerPool c lb args pools options
  else if bool_decide (action = actionReplacePoolMembers) then
    replaceLoadBalancerPoolMembers c lb args nodeList
  else fail (ErrorString ("Unsupported update operation: " +:+ update)).

Definition maxWaitTime : Z := 2 * 60.
Definition minSleepTime : Z := 8.

(** Before every update but the first, the load balancer is read again and
    awaited. *)
Definition refreshLoadBalancer (c : CloudVpc W) (lb : VpcLoadBalancer)
    : M (Env W) VpcLoadBalancer :=
  lb ← sdk (@sdk_GetLoadBalancer _ (cv_Sdk c) (lb_ID lb));
  if negb (IsReady lb) then WaitLoadBalancerReady c lb minSleepTime maxWaitTime
  else mret lb.

(** The processing loop; [first] says that no update has been done yet. *)
Fixpoint processUpdates (c : CloudVpc W) (first : bool) (lb : VpcLoadBalancer)
    (updatesRequired : list string) (nodeList : list string)
    (pools : list VpcLoadBalancerPool) (options : ServiceOptions)
    : M (Env W) VpcLoadBalancer :=
  match updatesRequired with
  | [] => mret lb
  | update :: rest =>
      lb ← (if first then mret lb else refreshLoadBalancer c lb);
      _ ← processUpdate c lb update nodeList pools options;
      processUpdates c false lb rest nodeList pools options
  end.

Definition UpdateLoadBalancer (c : CloudVpc W) (lb : option VpcLoadBalancer)
    (service : option Service) (nodes : option (list Node)) : M (Env W) VpcLoadBalancer :=
  match lb, service, nodes with
  | Some lb, Some service, Some nodes =>
      if negb (IsReady lb) then
        fail (ErrorString ("Update can not be performed, load balancer is not ready: " +:+
                           GetStatus lb))
      else
        options ← lift (validateService service);
        _ ← lift (validateServiceTypeNotUpdated options lb);
        vpcSubnets ← sdk (@sdk_ListSubnets _ (cv_Sdk c));
        d ← draw;
        _ ← lift (validateServiceSubnetsNotUpdated d service lb vpcSubnets);
        let nodes := selectNodes service options nodes in
        if bool_decide (length nodes = 0) then
          fail (ErrorString "There are no available nodes for this load balancer")
        else
          listeners ← sdk (@sdk_ListLoadBalancerListeners _ (cv_Sdk c) (lb_ID lb));
          pools ← sdk (@sdk_ListLoadBalancerPools _ (cv_Sdk c) (lb_ID lb));
          let nodeList := getNodeIDs nodes in
          _ ← written (cv_Sdk c) (renamedPools (spec_Ports (svc_Spec service)) pools);
          '(updatesRequired, pools) ← lift (planUpdates listeners pools service nodeList);
          processUpdates c true lb updatesRequired nodeList pools options
  | _, _, _ => fail missing_argument
  end.
End lbaas.
