(* ===== verification/LbaasProps.v ===== *)
(** * LbaasProps: what the load balancer operations ask of the SDK

    The operations of [VpcLbaas] are run on an observed cloud ([trace_cloud]);
    [emits] gives their outcome, calls and events for every SDK and every
    starting point.  [performed] is the abstract run of a plan: its updates, in
    order, each issued once, all but the first after the load balancer has
    answered that it is ready. *)
From S2P Require Import Prelude GoStrings Kube VpcTypes VpcConfig.
From S2P Require Import VpcUpdates UpdateSpec UpdatePlan VpcSdk StaticVpc VpcLbaas.

Open Scope go_scope.

Definition void {A} (o : outcome A) : outcome unit := (λ _, tt) <$> o.

(** ** One update *)

(** The request an update stands for, on the load balancer [lb] as read last. *)
Definition request_of (lb : VpcLoadBalancer) (nodeList : list string)
    (pools : list VpcLoadBalancerPool) (options : ServiceOptions) (a : Action)
    : option Request :=
  match a with
  | CreateListener p =>
      match List.find (λ ref, bool_decide (p = ref_Name ref)) (lb_Pools lb) with
      | Some ref => if decide (ref_ID ref = "") then None
                    else Some (RCreateListener (lb_ID lb) p (ref_ID ref))
      | None => None
      end
  | CreatePool p => Some (RCreatePool (lb_ID lb) p nodeList options)
  | CreatePoolMember p i n => Some (RCreatePoolMember (lb_ID lb) p i n)
  | DeleteListener _ l => Some (RDeleteListener (lb_ID lb) l)
  | DeletePool _ i => Some (RDeletePool (lb_ID lb) i)
  | DeletePoolMember _ i m _ => Some (RDeletePoolMember (lb_ID lb) i m)
  | ReplacePoolMembers p i => Some (RReplacePoolMembers (lb_ID lb) p i nodeList)
  | UpdatePool p i =>
      pool ← List.find (λ pool, bool_decide (pool_ID pool = i)) pools;
      Some (RUpdatePool (lb_ID lb) p pool options)
  end.

(** The line of an update is read back: first the action word, then the
    arguments. *)
Lemma line_read w l :
  Forall token (w :: l) →
  fields (join " " (w :: l)) = w :: l ∧
  fields (trimSpace (trimPrefix (join " " (w :: l)) w)) = l ∧
  trimSpace (trimPrefix (join " " (w :: l)) w) = join " " l.
Proof.
  intros Hl. rewrite trimSpace_args by done. rewrite !fields_join by (done || by inversion Hl).
  done.
Qed.

Section lbaas.
Context {W : Type} `{!Clock W} `{!MapIteration} (c : CloudVpc W).
Let tc := trace_cloud c.

Definition update_result (req : option Request) (r : outcome unit) (calls : list Call)
    (events : list Event) : Prop :=
  events = [] ∧
  match req with
  | Some req => ∃ o, calls = [req ⇒ o] ∧ r = void o
  | None => calls = [] ∧ is_Err r
  end.

Lemma emits_update req (m : M W (answer req)) :
  emits (_ ← sdk (traced_call req m); mret tt) (update_result (Some req)).
Proof.
  apply emits_call_bind. intros o _. destruct o as [a|e|w].
  - apply emits_ret. split; [done|]. by exists (Ok a).
  - split; [done|]. by exists (Err e).
  - split; [done|]. by exists (Panic w).
Qed.

(** The deletions return the SDK's answer as it is. *)
Lemma emits_unit_call (req : Request) (m : M W (answer req)) (P : outcome (answer req) → _) :
  (∀ o, P o [req ⇒ o] []) → emits (sdk (traced_call req m)) P.
Proof. intros HP. apply emits_call. intros o _. apply HP. Qed.
Lemma void_unit (o : outcome unit) : o = void o.
Proof. by destruct o as [[]| |]. Qed.

Lemma createListener_emits lb poolName nodeList pools options :
  emits (createLoadBalancerListener tc lb poolName)
        (update_result (request_of lb nodeList pools options (CreateListener poolName))).
Proof.
  unfold createLoadBalancerListener. cbn [request_of].
  destruct (List.find _ _) as [ref|]; cbn zeta.
  - case_decide as Hr.
    + rewrite bool_decide_eq_true_2 by done. apply emits_fail. split_and!; by eexists.
    + rewrite bool_decide_eq_false_2 by done. apply (emits_update (RCreateListener _ _ _)).
  - apply emits_fail. split_and!; by eexists.
Qed.

Lemma updatePool_emits lb p i nodeList pools options args :
  fields args = [p; i] →
  emits (updateLoadBalancerPool tc lb args pools options)
        (update_result (request_of lb nodeList pools options (UpdatePool p i))).
Proof.
  intros Hf. unfold updateLoadBalancerPool. rewrite Hf. cbn [request_of].
  destruct (List.find _ _) as [pool|]; cbn [mbind option_bind].
  - apply (emits_update (RUpdatePool _ _ _ _)).
  - apply emits_fail. split_and!; by eexists.
Qed.

Lemma processUpdate_emits lb a nodeList pools options :
  wf_action a →
  emits (processUpdate tc lb (render a) nodeList pools options)
        (update_result (request_of lb nodeList pools options a)).
Proof.
  intros Ha%wf_words. unfold processUpdate, render, sprint_words.
  destruct a; cbn [words] in *; apply line_read in Ha as (-> & Hf & Ht);
    apply emits_lift_bind; cbn [index lookup list_lookup]; cbn zeta;
    rewrite ?(bool_decide_eq_false_2 (_ = _)) by done;
    rewrite bool_decide_eq_true_2 by done.
  - rewrite Ht. apply createListener_emits.
  - rewrite Ht. apply (emits_update (RCreatePool _ _ _ _)).
  - unfold createLoadBalancerPoolMember. rewrite Hf.
    apply (emits_update (RCreatePoolMember _ _ _ _)).
  - unfold deleteLoadBalancerListener. rewrite Hf.
    apply (emits_unit_call (RDeleteListener _ _)). intros o. split; [done|]. exists o. split; [done|apply void_unit].
  - unfold deleteLoadBalancerPool. rewrite Hf. apply (emits_unit_call (RDeletePool _ _)). intros o. split; [done|]. exists o. split; [done|apply void_unit].
  - unfold deleteLoadBalancerPoolMember. rewrite Hf.
    apply (emits_unit_call (RDeletePoolMember _ _ _)). intros o. split; [done|]. exists o. split; [done|apply void_unit].
  - unfold replaceLoadBalancerPoolMembers. rewrite Hf.
    apply (emits_update (RReplacePoolMembers _ _ _ _)).
  - by apply updatePool_emits.
Qed.

(** ** Waiting *)

Context `{!SdkIdentity (cv_Sdk c)}.

Definition is_get (lbID : string) (x : Call) : Prop := request x = RGetLoadBalancer lbID.
Definition answered (x : Call) : Prop := is_Ok (projT2 x).

(** The calls stop at the first one that fails. *)
Definition stops {A} (r : outcome A) (calls : list Call) : Prop :=
  (∀ l1 x l2, calls = l1 ++ x :: l2 → l2 ≠ [] → answered x) ∧
  (is_Ok r → Forall answered calls) ∧
  (∀ w, r = Panic w → ∃ x, x ∈ calls ∧ ¬ answered x).

(** Reading the load balancer [lbID] until [lb] was the answer. *)
Definition last_read (lbID : string) (lb0 : VpcLoadBalancer) (calls : list Call)
    (lb : VpcLoadBalancer) : Prop :=
  (calls = [] ∧ lb = lb0) ∨ ∃ pre, calls = pre ++ [RGetLoadBalancer lbID ⇒ Ok lb].

Lemma stops_nil {A} (r : outcome A) : no_panic r → stops r [].
Proof.
  intros Hr. split_and!; [|constructor|by intros w ->].
  intros l1 x l2 Heq. by destruct l1.
Qed.
Lemma stops_one {A} (r : outcome A) x : ¬ answered x → ¬ is_Ok r → stops r [x].
Proof.
  intros Hx Hr. split_and!; [|done|by intros w ->; exists x; split; [left|]].
  intros [|? [|]] y l2 Heq; simplify_eq/=; done.
Qed.
Lemma stops_app {A} (r : outcome A) l1 l2 :
  Forall answered l1 → stops r l2 → stops r (l1 ++ l2).
Proof.
  intros Hl1 (H1 & H2 & H3). split_and!.
  - intros k1 x k2 Heq Hk2. apply app_eq_app in Heq as (l & [[Hl Hk]|[Hl Hk]]).
    + rewrite Hl in Hl1. apply Forall_app in Hl1 as [_ Hl1]. destruct l as [|y l].
      * by eapply (H1 [] x k2).
      * injection Hk as -> _. by inversion Hl1.
    + by eapply H1.
  - intros Hr. apply Forall_app. auto.
  - intros w Hw. destruct (H3 w Hw) as (x & Hx & ?). exists x. split; [|done].
    apply elem_of_app. by right.
Qed.

(** How waiting for at most [n] reads ends: after answered reads, the load
    balancer [lb] known last decides - all before it were not ready - or one
    more read fails. *)
Definition wait_ends (lbID : string) (n : nat) (lb0 : VpcLoadBalancer)
    (r : outcome VpcLoadBalancer) (calls : list Call) : Prop :=
  ∃ reads : list VpcLoadBalancer,
    let got := (λ lb, RGetLoadBalancer lbID ⇒ Ok lb) <$> reads in
    let lb := default lb0 (last reads) in
    length reads ≤ n ∧
    Forall (λ lb, IsReady lb = false) (take (length reads) (lb0 :: reads)) ∧
    ((calls = got ∧ IsReady lb = true ∧ r = Ok lb) ∨
     (calls = got ∧ (IsReady lb = false ∨ length reads = n) ∧ r = Err (not_ready_error lb)) ∨
     (∃ e, calls = got ++ [RGetLoadBalancer lbID ⇒ Err e] ∧ IsReady lb = false ∧ r = Err e) ∨
     (∃ why, calls = got ++ [RGetLoadBalancer lbID ⇒ Panic why] ∧ IsReady lb = false ∧
             r = Panic why)).

Lemma wait_ends_read lbID n lb lb' r calls :
  IsReady lb = false → wait_ends lbID n lb' r calls →
  wait_ends lbID (S n) lb r ((RGetLoadBalancer lbID ⇒ Ok lb') :: calls).
Proof.
  intros Hready (reads & Hn & Hreads & Hcases). exists (lb' :: reads). cbn zeta in *.
  assert (default lb (last (lb' :: reads)) = default lb' (last reads)) as ->
    by (rewrite last_cons; by destruct (last reads)).
  split; [cbn; lia|]. split; [by constructor|].
  destruct Hcases as [(-> & ? & ?)|[(-> & Ho & ?)|[(e & -> & ? & ?)|(why & -> & ? & ?)]]].
  - by left.
  - right; left. split_and!; [done| |done]. cbn. destruct Ho; [by left|right; lia].
  - right; right; left. by exists e.
  - right; right; right. by exists why.
Qed.

Definition wait_result (lbID : string) (n : nat) (lb0 : VpcLoadBalancer)
    (r : outcome VpcLoadBalancer) (calls : list Call) (events : list Event) : Prop :=
  events = [] ∧ length calls ≤ n ∧ Forall (is_get lbID) calls ∧ stops r calls ∧
  wait_ends lbID n lb0 r calls ∧
  match r with
  | Ok lb => IsReady lb = true ∧ last_read lbID lb0 calls lb ∧
             (lb_ID lb0 = lbID → lb_ID lb = lbID)
  | _ => True
  end.

Lemma wait_loop_emits n lbID start ms mw lb :
  emits (wait_loop tc n lbID start ms mw lb) (wait_result lbID n lb).
Proof.
  revert lb. induction n as [|n IH]; intros lb; cbn [wait_loop].
  { apply emits_fail. split_and!; [done|done|done|by apply stops_nil| |done].
    exists []. split_and!; [done..|]. right; left. auto. }
  apply emits_now_bind. intros _. destruct (IsReady lb) eqn:Hready.
  { apply emits_ret. split_and!; [done|cbn; lia|done|by apply stops_nil| |done|by left|done].
    exists []. split_and!; [cbn; lia|done|]. by left. }
  apply emits_now_bind. intros t. case_match.
  { apply emits_fail. split_and!; [done|cbn; lia|done|by apply stops_nil| |done].
    exists []. split_and!; [cbn; lia|done|]. right; left. auto. }
  apply emits_sleep_bind. apply (emits_call_bind (RGetLoadBalancer lbID)). intros o (w & w' & Ho).
  assert (is_get lbID (RGetLoadBalancer lbID ⇒ o)) as Hget by done.
  destruct o as [lb'|e|why].
  - apply sdk_identity in Ho.
    eapply emits_mono; [apply IH|]. intros r calls evs (-> & Hlen & Hgets & Hstop & Hends & Hr).
    split_and!; [done|cbn; lia|by constructor| |by apply wait_ends_read|].
    + apply (stops_app _ [_]); [|done]. repeat constructor. by exists lb'.
    + destruct r as [lb''| |]; [|done..]. destruct Hr as (? & Hlast & Hid). split_and!; [done| |auto]. right.
      destruct Hlast as [[-> ->]|(pre & ->)]; [by exists []|by eexists (_ :: pre)].
  - split_and!; [done|cbn; lia|by constructor| | |done].
    + apply stops_one; by intros [? ?].
    + exists []. split_and!; [cbn; lia|done|]. right; right; left. by exists e.
  - split_and!; [done|cbn; lia|by constructor| | |done].
    + apply stops_one; by intros [? ?].
    + exists []. split_and!; [cbn; lia|done|]. right; right; right. by exists why.
Qed.

Lemma wait_emits lb ms mw :
  ms ≠ 0%Z →
  emits (WaitLoadBalancerReady tc lb ms mw)
        (wait_result (lb_ID lb) (Z.to_nat (Z.quot mw ms)) lb).
Proof.
  intros Hms. unfold WaitLoadBalancerReady. apply emits_now_bind. intros t.
  rewrite bool_decide_eq_false_2 by done. apply wait_loop_emits.
Qed.

(** ** Performing a plan *)

(** [refreshLoadBalancer]: at most sixteen reads, and the last answer is a
    ready load balancer with the ID asked for. *)
Definition refresh_result (lbID : string) (r : outcome VpcLoadBalancer)
    (calls : list Call) (events : list Event) : Prop :=
  events = [] ∧ length calls ≤ 16 ∧ Forall (is_get lbID) calls ∧ stops r calls ∧
  match r with
  | Ok lb => IsReady lb = true ∧ lb_ID lb = lbID ∧
             ∃ pre, calls = pre ++ [RGetLoadBalancer lbID ⇒ Ok lb]
  | _ => True
  end.

Lemma refresh_emits lb :
  emits (refreshLoadBalancer tc lb) (refresh_result (lb_ID lb)).
Proof.
  unfold refreshLoadBalancer. apply (emits_call_bind (RGetLoadBalancer (lb_ID lb))).
  intros o (w & w' & Hget). set (x := RGetLoadBalancer (lb_ID lb) ⇒ o).
  assert (is_get (lb_ID lb) x) as Hx by done.
  destruct o as [lb1|e|why].
  2-3: split_and!; [done|cbn; lia|by constructor| |done]; apply stops_one; by intros [? ?].
  apply sdk_identity in Hget. destruct (IsReady lb1) eqn:Hready; cbn [negb].
  - apply emits_ret. split_and!; [done|cbn; lia|by constructor| |done|done|by exists []].
    apply (stops_app _ [x]); [repeat constructor; by exists lb1|by apply stops_nil].
  - unfold WaitLoadBalancerReady. apply emits_now_bind. intros t.
    rewrite bool_decide_eq_false_2 by done. rewrite Hget.
    eapply emits_mono; [apply wait_loop_emits|].
    intros r l v (-> & Hlen & Hg & Hs & _ & Hr).
    assert (length l ≤ 15) by (by etrans; [exact Hlen|]).
    split_and!; [done|cbn; lia|by constructor| |].
    + apply (stops_app _ [x]); [repeat constructor; by exists lb1|done].
    + destruct r as [lb2| |]; [|done..]. destruct Hr as (? & [[-> ->]|(pre & ->)] & ?); [congruence|].
      split_and!; [done|auto|]. by exists (x :: pre).
Qed.

(** The run of a plan: the calls made and the outcome.  [lb] is the load
    balancer as read last, [first] says that nothing has been done yet. *)
Section performed.
Context (nodeList : list string) (pools : list VpcLoadBalancerPool)
  (options : ServiceOptions).

(** The reads before an update. *)
Definition awaited (first : bool) (lb : VpcLoadBalancer) (gets : list Call)
    (lb' : VpcLoadBalancer) : Prop :=
  if first then gets = [] ∧ lb' = lb else refresh_result (lb_ID lb) (Ok lb') gets [].

Inductive performed : bool → VpcLoadBalancer → list Action → list Call →
    outcome VpcLoadBalancer → Prop :=
  | performed_done first lb : performed first lb [] [] (Ok lb)
  | performed_update first lb lb' a l gets req ans calls r :
      awaited first lb gets lb' →
      request_of lb' nodeList pools options a = Some req →
      performed false lb' l calls r →
      performed first lb (a :: l) (gets ++ [req ⇒ Ok ans] ++ calls) r
  | performed_failed first lb lb' a l gets req o r :
      awaited first lb gets lb' →
      request_of lb' nodeList pools options a = Some req →
      ¬ is_Ok o → ¬ is_Ok r →
      performed first lb (a :: l) (gets ++ [req ⇒ o]) r
  | performed_no_request first lb lb' a l gets e :
      awaited first lb gets lb' →
      request_of lb' nodeList pools options a = None →
      performed first lb (a :: l) gets (Err e)
  | performed_not_ready lb a l gets r :
      refresh_result (lb_ID lb) r gets [] → ¬ is_Ok r →
      performed false lb (a :: l) gets r.

Lemma processUpdates_performed first lb l :
  Forall wf_action l →
  emits (processUpdates tc first lb (render <$> l) nodeList pools options)
        (λ r calls events, events = [] ∧ performed first lb l calls r).
Proof.
  intros Hl. revert first lb. induction Hl as [|a l Ha Hl IH]; intros first lb.
  { apply emits_ret. split; [done|constructor]. }
  cbn [fmap list_fmap processUpdates].
  eapply (emits_bind _ _ (λ r calls events, events = [] ∧
    match r with
    | Ok lb' => awaited first lb calls lb'
    | r => first = false ∧ refresh_result (lb_ID lb) r calls []
    end)).
  { destruct first.
    - by apply emits_ret.
    - eapply emits_mono; [apply refresh_emits|].
      intros r calls events Hr. pose proof Hr as (-> & _). by destruct r. }
  intros r gets events (-> & Hr). destruct r as [lb'|e|w].
  2-3: destruct Hr as [-> Hr]; split; [done|];
       eapply performed_not_ready; [done|by intros []].
  eapply emits_bind; [by apply processUpdate_emits|].
  intros r calls events (-> & Hreq).
  destruct (request_of lb' nodeList pools options a) as [req|] eqn:Hreq'.
  - destruct Hreq as (o & -> & ->). destruct o as [ans|e|w]; cbn [void fmap outcome_fmap].
    + eapply emits_mono; [apply IH|]. intros r calls events (-> & Hp). split; [done|].
      by econstructor.
    + split; [done|]. eapply performed_failed; try done; by intros [].
    + split; [done|]. eapply performed_failed; try done; by intros [].
  - destruct Hreq as (-> & e & ->). split; [done|]. rewrite app_nil_r.
    by eapply performed_no_request.
Qed.

(** What every run of a plan does, by induction on the run. *)
Lemma writes_app l1 l2 : writes (l1 ++ l2) = writes l1 ++ writes l2.
Proof. unfold writes. by rewrite fmap_app, filter_app. Qed.
Lemma writes_gets lbID l : Forall (is_get lbID) l → writes l = [].
Proof. unfold writes. induction 1 as [|x l Hx Hl IH]; [done|]. cbn. by rewrite Hx. Qed.
Lemma request_of_write lb a req :
  request_of lb nodeList pools options a = Some req → is_write req = true.
Proof. destruct a; cbn; intros; repeat case_match; by simplify_option_eq. Qed.
Lemma writes_one req o : is_write req = true → writes [req ⇒ o] = [req].
Proof. intros Hw. unfold writes. cbn. by rewrite Hw. Qed.

Lemma awaited_facts first lb gets lb' :
  awaited first lb gets lb' → IsReady lb = true →
  IsReady lb' = true ∧ lb_ID lb' = lb_ID lb ∧ writes gets = [] ∧ Forall answered gets ∧
  length gets ≤ 16 ∧
  ((first = true ∧ gets = []) ∨ ∃ pre, gets = pre ++ [RGetLoadBalancer (lb_ID lb) ⇒ Ok lb']).
Proof.
  unfold awaited. destruct first.
  - intros [-> ->] Hr. split_and!; try done; [cbn; lia|by left].
  - intros (_ & Hlen & Hg & (_ & Hs & _) & Hr & Hid & Hpre) _.
    split_and!; try done; [by eapply writes_gets|apply Hs; by eexists|by right].
Qed.

(** The update [a] was asked for, on a ready answer for the load balancer. *)
Definition asked (lbID : string) (a : Action) (req : Request) : Prop :=
  ∃ lb, IsReady lb = true ∧ lb_ID lb = lbID ∧
        request_of lb nodeList pools options a = Some req.

Lemma performed_writes first lb l calls r :
  performed first lb l calls r → IsReady lb = true →
  ∃ ok rest, l = ok ++ rest ∧ Forall2 (asked (lb_ID lb)) ok (writes calls) ∧
             (is_Ok r → rest = []).
Proof.
  induction 1 as [first lb|first lb lb' a l gets req ans calls r Haw Hreq Hp IH
    |first lb lb' a l gets req o r Haw Hreq Ho Hr|first lb lb' a l gets e Haw Hreq
    |lb a l gets r Href Hr]; intros Hready.
  - by exists [], [].
  - apply awaited_facts in Haw as (Hr' & Hid & Hw & _); [|done].
    destruct (IH Hr') as (ok & rest & -> & Hall & Hok). exists (a :: ok), rest.
    split_and!; [done| |done].
    rewrite !writes_app, Hw, writes_one by by eapply request_of_write.
    constructor; [by exists lb'|by rewrite <- Hid].
  - apply awaited_facts in Haw as (Hr' & Hid & Hw & _); [|done].
    exists [a], l. split_and!; [done| |done].
    rewrite writes_app, Hw, writes_one by by eapply request_of_write.
    constructor; [by exists lb'|constructor].
  - apply awaited_facts in Haw as (Hr' & Hid & Hw & _); [|done].
    exists [], (a :: l). rewrite Hw. split_and!; [done|constructor|by intros []].
  - destruct Href as (_ & _ & Hg & _). exists [], (a :: l).
    rewrite (writes_gets _ _ Hg). split_and!; [done|constructor|done].
Qed.

Lemma performed_stops first lb l calls r :
  performed first lb l calls r → IsReady lb = true →
  stops r calls ∧ length calls ≤ 17 * length l.
Proof.
  induction 1 as [first lb|first lb lb' a l gets req ans calls r Haw Hreq Hp IH
    |first lb lb' a l gets req o r Haw Hreq Ho Hr|first lb lb' a l gets e Haw Hreq
    |lb a l gets r Href Hr]; intros Hready.
  - split; [by apply stops_nil|done].
  - apply awaited_facts in Haw as (Hr' & Hid & Hw & Ha & Hlen & _); [|done].
    destruct (IH Hr') as [Hs Hl]. split.
    + apply stops_app; [done|]. apply (stops_app _ [_]); [|done].
      repeat constructor. by exists ans.
    + rewrite !length_app. cbn. lia.
  - apply awaited_facts in Haw as (Hr' & Hid & Hw & Ha & Hlen & _); [|done]. split.
    + apply stops_app; [done|]. by apply stops_one.
    + rewrite length_app. cbn. lia.
  - apply awaited_facts in Haw as (Hr' & Hid & Hw & Ha & Hlen & _); [|done]. split.
    + rewrite <- (app_nil_r gets). apply stops_app; [done|]. by apply stops_nil.
    + cbn. lia.
  - destruct Href as (_ & Hlen & _ & Hs & _). split; [done|]. cbn. lia.
Qed.

Lemma performed_guarded first lb l calls r :
  performed first lb l calls r → IsReady lb = true →
  ∀ l1 x l2, calls = l1 ++ x :: l2 → is_write (request x) = true →
  (first = true ∧ l1 = []) ∨
  ∃ l0 lb', l1 = l0 ++ [RGetLoadBalancer (lb_ID lb) ⇒ Ok lb'] ∧ IsReady lb' = true.
Proof.
  assert (∀ gets x l1 l2, writes gets = [] → gets = l1 ++ x :: l2 →
    is_write (request x) = true → False) as Hno.
  { intros gets x l1 l2 Hw -> Hx. rewrite writes_app in Hw. apply app_nil in Hw as [_ Hw].
    unfold writes in Hw. cbn in Hw. by rewrite Hx in Hw. }
  assert (∀ first lb lb' gets req o rest l1 x l2,
    awaited first lb gets lb' → IsReady lb = true →
    gets ++ [req ⇒ o] ++ rest = l1 ++ x :: l2 → is_write (request x) = true →
    ((first = true ∧ l1 = []) ∨
      ∃ l0 lb', l1 = l0 ++ [RGetLoadBalancer (lb_ID lb) ⇒ Ok lb'] ∧ IsReady lb' = true) ∨
    ∃ l1', l1 = gets ++ [req ⇒ o] ++ l1' ∧ rest = l1' ++ x :: l2) as Hstep.
  { intros first' lb0 lb' gets req o rest l1 x l2 Haw Hr Heq Hx.
    apply awaited_facts in Haw as (Hr' & _ & Hw & _ & _ & Hg); [|done].
    apply app_eq_app in Heq as (k & [[Hk1 Hk2]|[Hk1 Hk2]]).
    - destruct k as [|y k]; cbn in Hk2.
      + left. rewrite app_nil_r in Hk1. subst l1.
        destruct Hg as [[-> ->]|(pre & ->)]; [by left|right; eauto].
      + exfalso. injection Hk2 as -> _. by eapply Hno.
    - destruct k as [|y k]; cbn in Hk2.
      + left. rewrite app_nil_r in Hk1. subst l1.
        destruct Hg as [[-> ->]|(pre & ->)]; [by left|right; eauto].
      + injection Hk2 as <- Hk2. right. exists k. by rewrite Hk1, Hk2. }
  induction 1 as [first lb|first lb lb' a l gets req ans calls r Haw Hreq Hp IH
    |first lb lb' a l gets req o r Haw Hreq Ho Hr|first lb lb' a l gets e Haw Hreq
    |lb a l gets r Href Hr]; intros Hready l1 x l2 Heq Hx.
  - by destruct l1.
  - destruct (Hstep _ _ _ _ _ _ _ _ _ _ Haw Hready Heq Hx) as [?|(l1' & -> & Hrest)]; [done|].
    right. apply awaited_facts in Haw as (Hr' & Hid & _); [|done].
    destruct (IH Hr' _ _ _ Hrest Hx) as [[? _]|(l0 & lb2 & -> & ?)]; [done|].
    exists (gets ++ [req ⇒ Ok ans] ++ l0), lb2. by rewrite Hid, !(assoc_L (++)).
  - destruct (Hstep _ _ _ _ _ _ [] _ _ _ Haw Hready Heq Hx) as [?|(l1' & -> & Hrest)]; [done|].
    by destruct l1'.
  - exfalso. apply awaited_facts in Haw as (_ & _ & Hw & _); [|done]. by eapply Hno.
  - exfalso. destruct Href as (_ & _ & Hg & _).
    eapply Hno; [by eapply writes_gets|done..].
Qed.
End performed.

(** ** UpdateLoadBalancer *)

(** The conditions under which an update of [lb] is planned; [subnets] is the
    answer of ListSubnets. *)
Record accepted (lb : VpcLoadBalancer) (service : Service) (nodes : list Node)
    (subnets : list VpcSubnet) : Prop := {
  acc_ready : IsReady lb = true;
  acc_tcp : Forall (λ p, sp_Protocol p = ProtocolTCP) (spec_Ports (svc_Spec service));
  acc_type : isPublic (getServiceOptions (Some service)) = lb_IsPublic lb;
  acc_subnets : ∃ d, validateServiceSubnetsNotUpdated d service lb subnets = Ok tt;
  acc_nodes : selectNodes service (getServiceOptions (Some service)) nodes ≠ [];
}.

Definition not_accepted {A} (r : outcome A) (calls : list Call) : Prop :=
  writes calls = [] ∧ ¬ is_Ok r ∧ stops r calls.

Lemma validateService_cases service :
  (Forall (λ p, sp_Protocol p = ProtocolTCP) (spec_Ports (svc_Spec service)) ∧
   validateService service = Ok (getServiceOptions (Some service))) ∨
  (∃ e, validateService service = Err e) ∧
  ¬ Forall (λ p, sp_Protocol p = ProtocolTCP) (spec_Ports (svc_Spec service)).
Proof.
  unfold validateService. destruct (List.find _ _) as [p|] eqn:Hf.
  - right. split; [by eexists|]. apply find_some in Hf as [Hin Hp]. rewrite Forall_forall.
    intros Hall. apply bool_decide_eq_true in Hp. by apply Hp, Hall, list_elem_of_In.
  - left. split; [|done]. apply Forall_forall. intros p Hp.
    eapply find_none in Hf; [|by apply list_elem_of_In]. cbn in Hf.
    apply bool_decide_eq_false in Hf. by apply dec_stable.
Qed.

Lemma not_accepted_nil {A} (r : outcome A) : is_Err r → not_accepted r [].
Proof. intros [e ->]. split_and!; [done|by intros []|by apply stops_nil]. Qed.
Lemma not_accepted_call {A} (r : outcome A) req (o : outcome (answer req)) :
  is_write req = false → ¬ is_Ok r → ¬ is_Ok o → not_accepted r [req ⇒ o].
Proof.
  intros Hw Hr Ho. split_and!; [|done|by apply stops_one].
  unfold writes. cbn. by rewrite Hw.
Qed.
Lemma not_accepted_cons {A} (r : outcome A) req (a : answer req) calls :
  is_write req = false → not_accepted r calls → not_accepted r ((req ⇒ Ok a) :: calls).
Proof.
  intros Hw (Hc & Hr & Hs). split_and!; [|done|].
  - unfold writes in *. cbn. by rewrite Hw.
  - apply (stops_app _ [_]); [|done]. repeat constructor. by exists a.
Qed.

(** The run of an accepted update. *)
Definition update_run (lb : VpcLoadBalancer) (service : Service) (nodes : list Node)
    (r : outcome VpcLoadBalancer) (calls : list Call) : Prop :=
  let options := getServiceOptions (Some service) in
  let nodeList := getNodeIDs (selectNodes service options nodes) in
  ∃ subnets listeners pools views calls',
    calls = [RListSubnets ⇒ Ok subnets; RListListeners (lb_ID lb) ⇒ Ok listeners;
             RListPools (lb_ID lb) ⇒ Ok pools] ++ calls' ∧
    accepted lb service nodes subnets ∧
    parse_pools pools = Ok views ∧
    planUpdates listeners pools service nodeList
    = Ok (render <$> spec_plan service nodeList listeners views, mark_pool service <$> views) ∧
    performed nodeList (mark_pool service <$> views) options true lb
      (spec_plan service nodeList listeners views) calls' r.

Definition update_outcome (lb : VpcLoadBalancer) (service : Service) (nodes : list Node)
    (r : outcome VpcLoadBalancer) (calls : list Call) (events : list Event) : Prop :=
  events = [] ∧ (not_accepted r calls ∨ update_run lb service nodes r calls).

Context `{!SdkWords (cv_Sdk c)}.

(** Leave with the failure of the call just made, or with an error. *)
Local Ltac bail := split; [done|]; left; repeat (apply not_accepted_cons; [done|]);
  first [ apply not_accepted_nil; by eexists
        | apply not_accepted_call; [done|by intros []|by intros []] ].

Lemma UpdateLoadBalancer_emits lb service nodes :
  Forall valid_port (spec_Ports (svc_Spec service)) →
  Forall token (getNodeIDs (selectNodes service (getServiceOptions (Some service)) nodes)) →
  emits (UpdateLoadBalancer tc (Some lb) (Some service) (Some nodes))
        (update_outcome lb service nodes).
Proof.
  intros Hvalid Htoken. unfold UpdateLoadBalancer.
  destruct (IsReady lb) eqn:Hready; cbn [negb]; [|apply emits_fail; bail].
  apply emits_lift_bind. destruct (validateService_cases service) as [[Htcp ->]|[[e ->] _]];
    [|bail].
  apply emits_lift_bind. unfold validateServiceTypeNotUpdated.
  case_bool_decide as Htype; [bail|].
  apply (emits_call_bind RListSubnets). intros [subnets|e|why] _; [|bail..].
  apply emits_draw_bind. intros d. apply emits_lift_bind.
  destruct (validateServiceSubnetsNotUpdated d service lb subnets) as [[]|e|why] eqn:Hsub;
    [|bail|exfalso; by eapply validateServiceSubnetsNotUpdated_no_panic].
  destruct (decide (selectNodes service (getServiceOptions (Some service)) nodes = []))
    as [Hnil|Hnodes].
  { rewrite bool_decide_eq_true_2 by (by rewrite Hnil). apply emits_fail. bail. }
  rewrite bool_decide_eq_false_2 by (by intros ?%nil_length_inv).
  apply (emits_call_bind (RListListeners (lb_ID lb))).
  intros [listeners|e|why] (w1 & w2 & Hlisteners); [|bail..].
  apply (emits_call_bind (RListPools (lb_ID lb))).
  intros [pools|e|why] (w3 & w4 & Hpools); [|bail..].
  assert (WfInput listeners pools service
    (getNodeIDs (selectNodes service (getServiceOptions (Some service)) nodes))) as Hwf.
  { split; [exact (words_listeners _ _ _ _ Hlisteners)|exact (words_pools _ _ _ _ Hpools)| |done].
    apply Forall_forall. intros p Hp.
    split; [exact (proj1 (Forall_forall _ _) Htcp p Hp)|exact (proj1 (Forall_forall _ _) Hvalid p Hp)]. }
  apply emits_written_bind.
  apply emits_lift_bind. pose proof (parse_pools_no_panic pools) as Hnp.
  destruct (parse_pools pools) as [views|e|why] eqn:Hviews; [| |done].
  2: { unfold planUpdates. rewrite (collect_fails _ _ _ _ e) by done. bail. }
  rewrite (plan_refines _ _ _ _ views) by done.
  eapply emits_mono.
  { apply processUpdates_performed. apply wf_coalesce. by eapply wf_spec_updates. }
  intros r calls events (-> & Hrun). split; [done|]. right.
  do 5 eexists. split_and!; [done| |exact Hviews|by apply plan_refines|exact Hrun].
  split; try done. by exists d.
Qed.

(** *** The other operations *)

Lemma FindLoadBalancer_emits nameID service :
  emits (FindLoadBalancer tc nameID service) (λ r calls events,
    events = [] ∧
    if decide (nameID = "") then r = Err missing_argument ∧ calls = []
    else ∃ o, calls = [RListLoadBalancers ⇒ o] ∧
      r = (λ lbs, List.find (λ lb, bool_decide (nameID = lb_ID lb) ||
             bool_decide (nameID = lb_Name lb) || bool_decide (nameID = lb_Hostname lb)) lbs)
          <$> (o : outcome (list VpcLoadBalancer))).
Proof.
  unfold FindLoadBalancer. case_decide as Hn.
  - rewrite bool_decide_eq_true_2 by done. by apply emits_fail.
  - rewrite bool_decide_eq_false_2 by done. apply (emits_call_bind RListLoadBalancers).
    intros o _. destruct o as [lbs|e|w].
    + apply emits_ret. split; [done|]. by exists (Ok lbs).
    + split; [done|]. by exists (Err e).
    + split; [done|]. by exists (Panic w).
Qed.

(** The subnets a new load balancer is attached to, given the answer of
    ListSubnets. *)
Definition chosen_subnets (service : Service) (subnets : list VpcSubnet)
    (subnetList : list string) : Prop :=
  let options := getServiceOptions (Some service) in
  let vpcSubnets := filterSubnetsByVpcName subnets (cfg_VpcName (cv_Config c)) in
  let clusterSubnets := filterSubnetsByName vpcSubnets (cfg_SubnetNames (cv_Config c)) in
  ∃ first, head clusterSubnets = Some first ∧
    if decide (options_getServiceSubnets options ≠ "") then
      ∃ d, validateServiceSubnets d service (options_getServiceSubnets options)
             (ref_ID (sub_Vpc first)) vpcSubnets = Ok subnetList
    else if decide (getServiceZone options ≠ "") then
      subnetList = sub_ID <$> filter (λ s, getServiceZone options = sub_Zone s) clusterSubnets ∧
      subnetList ≠ []
    else subnetList = sub_ID <$> clusterSubnets.

Definition create_run (lbName : string) (service : Service) (nodes : list Node)
    (r : outcome VpcLoadBalancer) (calls : list Call) : Prop :=
  let options := getServiceOptions (Some service) in
  ∃ subnets subnetList o,
    Forall (λ p, sp_Protocol p = ProtocolTCP) (spec_Ports (svc_Spec service)) ∧
    chosen_subnets service subnets subnetList ∧
    selectNodes service options nodes ≠ [] ∧
    calls = [RListSubnets ⇒ Ok subnets;
             RCreateLoadBalancer lbName (getNodeIDs (selectNodes service options nodes))
               (genLoadBalancerPoolName <$> spec_Ports (svc_Spec service)) subnetList options
             ⇒ o] ∧ r = o.

Definition create_outcome (lbName : string) (service : Service) (nodes : list Node)
    (r : outcome VpcLoadBalancer) (calls : list Call) (events : list Event) : Prop :=
  events = [] ∧ (not_accepted r calls ∨ create_run lbName service nodes r calls).

(** The request at the end of [CreateLoadBalancer]. *)
Lemma create_request_emits lbName service nodes subnets subnetList :
  Forall (λ p, sp_Protocol p = ProtocolTCP) (spec_Ports (svc_Spec service)) →
  chosen_subnets service subnets subnetList →
  emits
    (let nodes := selectNodes service (getServiceOptions (Some service)) nodes in
     if bool_decide (length nodes = 0) then
       fail (ErrorString "There are no available nodes for this service")
     else
       let nodeList := getNodeIDs nodes in
       poolList ← lift (getServicePoolNames (Some service));
       sdk (@sdk_CreateLoadBalancer _ (cv_Sdk tc) lbName nodeList poolList subnetList
              (getServiceOptions (Some service))))
    (λ r calls events, create_outcome lbName service nodes r
       ((RListSubnets ⇒ Ok subnets) :: calls) events).
Proof.
  intros Htcp Hsub. cbn zeta.
  destruct (decide (selectNodes service (getServiceOptions (Some service)) nodes = []))
    as [Hnil|Hnodes].
  { rewrite bool_decide_eq_true_2 by (by rewrite Hnil). apply emits_fail. bail. }
  rewrite bool_decide_eq_false_2 by (by intros ?%nil_length_inv).
  apply emits_lift_bind. cbn [getServicePoolNames].
  apply (emits_call (RCreateLoadBalancer _ _ _ _ _)). intros o _. split; [done|]. right.
  by exists subnets, subnetList, o.
Qed.

Lemma choose_subnets_emits service subnets first rest :
  let options := getServiceOptions (Some service) in
  let vpcSubnets := filterSubnetsByVpcName subnets (cfg_VpcName (cv_Config c)) in
  filterSubnetsByName vpcSubnets (cfg_SubnetNames (cv_Config c)) = first :: rest →
  emits (W := W)
    (if bool_decide (options_getServiceSubnets options ≠ "") then
       let vpcID := ref_ID (sub_Vpc first) in
       d ← draw;
       lift (validateServiceSubnets d service (options_getServiceSubnets options) vpcID vpcSubnets)
     else if bool_decide (getServiceZone options ≠ "") then
       lift (validateServiceZone service (getServiceZone options) (first :: rest))
     else mret (getSubnetIDs (first :: rest)))
    (λ r calls events, calls = [] ∧ events = [] ∧
       match r with
       | Ok l => chosen_subnets service subnets l
       | Err _ => True
       | Panic _ => False
       end).
Proof.
  intros options vpcSubnets Hcluster. unfold chosen_subnets. fold options vpcSubnets.
  rewrite Hcluster. destruct (decide (options_getServiceSubnets options ≠ "")) as [Ha|Ha].
  { rewrite bool_decide_eq_true_2 by done. apply emits_draw_bind. intros d. apply emits_lift.
    split_and!; [done..|].
    pose proof (validateServiceSubnets_no_panic d service (options_getServiceSubnets options)
                  (ref_ID (sub_Vpc first)) vpcSubnets) as Hnp.
    destruct (validateServiceSubnets _ _ _ _ _) as [l|e|w] eqn:Hl; [|done..].
    exists first. split; [done|]. by exists d. }
  rewrite bool_decide_eq_false_2 by done.
  destruct (decide (getServiceZone options ≠ "")) as [Hz|Hz].
  - rewrite bool_decide_eq_true_2 by done. apply emits_lift. split_and!; [done..|].
    unfold validateServiceZone. case_bool_decide as Hlen; [done|].
    exists first. split_and!; [done..|]. by intros Hnil; rewrite Hnil in Hlen.
  - rewrite bool_decide_eq_false_2 by done. apply emits_ret. split_and!; [done..|].
    by exists first.
Qed.

Lemma CreateLoadBalancer_emits lbName service nodes :
  emits (CreateLoadBalancer tc lbName (Some service) (Some nodes))
        (create_outcome lbName service nodes).
Proof.
  unfold CreateLoadBalancer.
  destruct (decide (lbName = "")) as [Hname|Hname].
  { rewrite bool_decide_eq_true_2 by done. apply emits_fail. bail. }
  rewrite bool_decide_eq_false_2 by done.
  apply emits_lift_bind. destruct (validateService_cases service) as [[Htcp ->]|[[e ->] _]];
    [|bail].
  apply (emits_call_bind RListSubnets). intros [subnets|e|why] _; [|bail..].
  change (cv_Config tc) with (cv_Config c). cbn zeta.
  destruct (filterSubnetsByName _ _) as [|first rest] eqn:Hcluster; [apply emits_fail; bail|].
  eapply emits_bind; [by apply (choose_subnets_emits service subnets)|].
  intros r calls events (-> & -> & Hr). destruct r as [l|e|why]; [|bail|done].
  by apply create_request_emits.
Qed.
End lbaas.

(** ** Properties *)

(** Which nodes get traffic: a sublist of the given nodes, in order; with a
    valid node selector annotation exactly the nodes with that label value, and
    otherwise the nodes of the requested zone (all nodes when none is
    requested), narrowed to the edge nodes when there is one among them. *)
Theorem selectNodes_spec service options nodes :
  sublist (selectNodes service options nodes) nodes ∧
  ∀ node, node ∈ selectNodes service options nodes ↔ node ∈ nodes ∧
    let '(label, value) := getServiceNodeSelectorFilter service in
    let has l v (n : Node) := node_Labels n !! l = Some v in
    let in_zone n := getServiceZone options = "" ∨ has nodeLabelZone (getServiceZone options) n in
    if decide (label = "") then
      in_zone node ∧
      ((∃ n, n ∈ nodes ∧ in_zone n ∧ has nodeLabelDedicated nodeLabelValueEdge n) →
       has nodeLabelDedicated nodeLabelValueEdge node)
    else has label value node.
Proof.
  unfold selectNodes, findNodesMatchingLabelValue.
  destruct (getServiceNodeSelectorFilter service) as [label value].
  destruct (decide (label = "")) as [Hl|Hl].
  2: { rewrite bool_decide_eq_true_2 by done. split; [apply sublist_filter|].
       intros node. rewrite list_elem_of_filter. tauto. }
  rewrite bool_decide_eq_false_2 by tauto.
  set (zone := getServiceZone options).
  assert (sublist (filterNodesByZone nodes zone) nodes ∧ ∀ n, n ∈ filterNodesByZone nodes zone ↔
    n ∈ nodes ∧ (zone = "" ∨ node_Labels n !! nodeLabelZone = Some zone)) as [Hsub Hz].
  { unfold filterNodesByZone, findNodesMatchingLabelValue. case_bool_decide as Hzone.
    - split; [apply sublist_filter|]. intros n. rewrite list_elem_of_filter. tauto.
    - split; [done|]. intros n. tauto. }
  unfold filterNodesByEdgeLabel. cbn zeta. case_bool_decide as Hedge.
  - split; [done|]. intros node. rewrite Hz. split; [|tauto].
    intros [? ?]. split_and!; [done..|]. intros (n & Hn & Hin & He). exfalso.
    apply nil_length_inv in Hedge. apply (not_elem_of_nil n). rewrite <- Hedge.
    apply list_elem_of_filter. by rewrite Hz.
  - split; [by etrans; [apply sublist_filter|]|]. intros node.
    unfold findNodesMatchingLabelValue in *. rewrite list_elem_of_filter, Hz.
    split; [tauto|]. intros (Hn & Hin & He). split; [|done]. apply He.
    destruct (filter _ (filterNodesByZone nodes zone)) as [|n l] eqn:Hf; [done|].
    assert (n ∈ n :: l) as Hnl by left. rewrite <- Hf in Hnl.
    apply list_elem_of_filter in Hnl as [? [? ?]%Hz]. eauto.
Qed.

(** C27: an update survives its trip through a line of text: performing the line
    of a well-formed update issues exactly the request of the update and ends
    as the SDK ends it; only an update whose pool is not known (to the load
    balancer for a listener, to the pool list for a pool update) is an error
    without a request. *)
Theorem processUpdate_spec {W} (c : CloudVpc W) lb a nodeList pools options :
  wf_action a →
  emits (processUpdate (trace_cloud c) lb (render a) nodeList pools options)
    (λ r calls events,
       events = [] ∧
       match request_of lb nodeList pools options a with
       | Some req => ∃ o, calls = [req ⇒ o] ∧ r = void o
       | None => calls = [] ∧ is_Err r
       end).
Proof. apply processUpdate_emits. Qed.

Lemma processUpdate_spec_witness :
  trace (processUpdate (trace_cloud example_cloud) (example_lb "lb" "name" "online" "active" [] [])
           "DELETE-POOL-MEMBER tcp-80-30303 p1 m1 10.0.0.1" [] []
           (getServiceOptions None)
           (start {| st_subnets := []; st_lbs := []; st_listeners := []; st_pools := [];
                     st_time := 0 |})).2
  = [RDeletePoolMember "lb" "p1" "m1" ⇒ Ok tt].
Proof.
  destruct (processUpdate_spec example_cloud (example_lb "lb" "name" "online" "active" [] [])
    (DeletePoolMember "tcp-80-30303" "p1" "m1" "10.0.0.1") [] [] (getServiceOptions None)
    ltac:(by_decision)
    (start {| st_subnets := []; st_lbs := []; st_listeners := []; st_pools := []; st_time := 0 |}))
    as (calls & events & Htrace & _ & _ & o & -> & _).
  vm_compute in Htrace. by vm_compute.
Defined.

(** C28: waiting.  With a zero sleep time the division panics before anything is
    read.  Otherwise the load balancer is read at most maxWait / minSleep times.
    As long as the reads are answered, waiting goes on only while the load
    balancer known last - the given one, when nothing was read - is not ready:
    it ends with that one when it is ready, or with the error not-ready when it
    is not or all rounds are over.  A read that fails ends it with the error of
    the read; so with a non-zero sleep time it panics only if a read panicked.
    What it returns is ready and has the ID asked for. *)
Theorem WaitLoadBalancerReady_spec {W} `{!Clock W} (c : CloudVpc W)
    `{!SdkIdentity (cv_Sdk c)} lb minSleep maxWait :
  emits (WaitLoadBalancerReady (trace_cloud c) lb minSleep maxWait)
    (λ r calls events,
       events = [] ∧
       if decide (minSleep = 0%Z) then calls = [] ∧ r = Panic "integer divide by zero"
       else
         let rounds := Z.to_nat (maxWait ÷ minSleep) in
         length calls ≤ rounds ∧ Forall (is_get (lb_ID lb)) calls ∧
         wait_ends (lb_ID lb) rounds lb r calls ∧
         (∀ lb', r = Ok lb' → IsReady lb' = true ∧ lb_ID lb' = lb_ID lb) ∧
         (∀ why, r = Panic why → last calls = Some (RGetLoadBalancer (lb_ID lb) ⇒ Panic why))).
Proof.
  case_decide as Hs.
  - unfold WaitLoadBalancerReady. apply emits_now_bind. intros t.
    rewrite bool_decide_eq_true_2 by done. by apply emits_lift.
  - eapply emits_mono; [by apply wait_emits|].
    intros r calls events (-> & Hlen & Hget & _ & Hends & Hr). split; [done|]. cbn zeta.
    split_and!; [done..| |].
    + intros lb' ->. destruct Hr as (? & _ & ?). auto.
    + intros why ->.
      destruct Hends as (reads & _ & _ & [(_ & _ & [=])|[(_ & _ & [=])|[(e & _ & _ & [=])|(? & -> & _ & [= ->])]]]).
      by rewrite last_snoc.
Qed.

(** Two subnets, a ready load balancer with a stale listener and two pools. *)
Definition example_world : StaticVpc :=
  {| st_subnets := [example_subnet "s1" "net-a" "v" "z1"; example_subnet "s2" "net-b" "v" "z2"];
     st_lbs := [example_lb "lb" "name" "online" "active" ["s1"]
                  [{| ref_ID := "p1"; ref_Name := "tcp-80-30303" |}]];
     st_listeners := [example_listener "l9" "tcp-9-30009" 9];
     st_pools := [example_pool "p1" "tcp-80-30303" 30303 [example_member "m" "10.0.0.1" 30303]];
     st_time := 0 |}.

Lemma WaitLoadBalancerReady_spec_witness :
  ∃ calls,
    trace (WaitLoadBalancerReady (trace_cloud example_cloud)
             (example_lb "lb" "name" "offline" "active" [] []) 8 120 (start example_world)).2 = calls ∧
    length calls ≤ 15 ∧ Forall (is_get "lb") calls.
Proof.
  destruct (WaitLoadBalancerReady_spec example_cloud
    (example_lb "lb" "name" "offline" "active" [] []) 8 120 (start example_world))
    as (calls & events & Htrace & _ & _ & Hlen & Hget & _).
  exists calls. split; [exact Htrace|]. split; [exact Hlen|exact Hget].
Defined.

(** The status read in the last round of the wait is not looked at: a load
    balancer that gets ready then is reported as not ready, although the error
    message itself says online/active. *)
Theorem WaitLoadBalancerReady_last_poll :
  (WaitLoadBalancerReady example_cloud (example_lb "lb" "name" "offline" "active" [] []) 8 8
     {| env_world := example_world; env_events := []; env_draws := 0 |}).1
  = Err (ErrorString "load balancer not ready: online/active").
Proof. by vm_compute. Qed.

(** Finding a load balancer lists the load balancers once and returns the
    first whose ID, name or hostname is the given one; an empty name is an
    error, a list without a match is not. *)
Theorem FindLoadBalancer_spec {W} (c : CloudVpc W) nameID service :
  emits (FindLoadBalancer (trace_cloud c) nameID service) (λ r calls events,
    events = [] ∧
    ((nameID = "" ∧ is_Err r ∧ calls = []) ∨
     ∃ o : outcome (list VpcLoadBalancer), nameID ≠ "" ∧ calls = [RListLoadBalancers ⇒ o] ∧
       match o with
       | Ok lbs => ∃ found, r = Ok found ∧
           match found with
           | Some lb => ∃ l1 l2, lbs = l1 ++ lb :: l2 ∧
               nameID ∈ [lb_ID lb; lb_Name lb; lb_Hostname lb] ∧
               Forall (λ x, nameID ∉ [lb_ID x; lb_Name x; lb_Hostname x]) l1
           | None => Forall (λ x, nameID ∉ [lb_ID x; lb_Name x; lb_Hostname x]) lbs
           end
       | Err e => r = Err e
       | Panic w => r = Panic w
       end)).
Proof.
  eapply emits_mono; [apply FindLoadBalancer_emits|]. intros r calls events [-> Hr].
  split; [done|]. case_decide as Hn.
  { left. destruct Hr as [-> ->]. split_and!; [done|by eexists|done]. }
  right. destruct Hr as (o & -> & ->). exists o. split_and!; [done..|].
  assert (∀ lb, (bool_decide (nameID = lb_ID lb) || bool_decide (nameID = lb_Name lb)
     || bool_decide (nameID = lb_Hostname lb)) = bool_decide (nameID ∈ [lb_ID lb; lb_Name lb; lb_Hostname lb]))
    as Hm.
  { intros lb. apply eq_true_iff_eq.
    rewrite !orb_true_iff, !bool_decide_eq_true, !elem_of_cons, elem_of_nil. tauto. }
  destruct o as [lbs|e|w]; [|done..]. eexists. split; [done|].
  destruct (List.find _ lbs) as [lb|] eqn:Hf.
  - apply find_some_first in Hf as (l1 & l2 & -> & Hlb & Hl1). exists l1, l2.
    rewrite Hm, bool_decide_eq_true in Hlb. split_and!; [done..|].
    eapply Forall_impl; [exact Hl1|]. intros x. cbn. by rewrite Hm, bool_decide_eq_false.
  - apply Forall_forall. intros x Hx.
    eapply find_none in Hf; [|by apply list_elem_of_In]. cbn in Hf.
    by rewrite Hm, bool_decide_eq_false in Hf.
Qed.

(** C25: creating a load balancer.  Either nothing is written and the call fails
    (no TCP-only service, no configured subnet found, an invalid subnet or zone
    annotation, no node, a failed listing), or the service is TCP only, a node
    is selected, and exactly one load balancer is requested: with the addresses
    of the selected nodes, one pool per port, the subnets the annotations or the
    configuration choose, and the service's options; its answer is the result.
    No event is recorded. *)
Theorem CreateLoadBalancer_spec {W} `{!MapIteration} (c : CloudVpc W) lbName service nodes :
  emits (CreateLoadBalancer (trace_cloud c) lbName (Some service) (Some nodes))
    (λ r calls events,
       events = [] ∧
       ((writes calls = [] ∧ ¬ is_Ok r ∧ stops r calls) ∨
        create_run c lbName service nodes r calls)).
Proof. apply CreateLoadBalancer_emits. Qed.

(** C9: updating a load balancer that has been accepted or rejected.  On any SDK
    that answers with the load balancer asked for and lists identifiers without
    white space, for a service with valid ports and nodes with addresses: the
    run stops at the first failed call and records no event.  Either it writes
    nothing and fails, or the load balancer was ready, the service TCP only, its
    type and subnets unchanged and a node selected, the subnets, listeners and
    pools were read once, all pool names parsed, and from then on: the writes
    are the requests of an initial part of the plan, one per update, in order,
    all of it when the run succeeds; before every write but the first the load
    balancer was read and found ready; and there are at most 17 calls per
    update. *)
Theorem UpdateLoadBalancer_spec {W} `{!Clock W} `{!MapIteration} (c : CloudVpc W)
    `{!SdkIdentity (cv_Sdk c)} `{!SdkWords (cv_Sdk c)} lb service nodes :
  let options := getServiceOptions (Some service) in
  let nodeList := getNodeIDs (selectNodes service options nodes) in
  Forall valid_port (spec_Ports (svc_Spec service)) → Forall token nodeList →
  emits (UpdateLoadBalancer (trace_cloud c) (Some lb) (Some service) (Some nodes))
    (λ r calls events,
       events = [] ∧ stops r calls ∧
       ((writes calls = [] ∧ ¬ is_Ok r) ∨
        ∃ subnets listeners pools views calls',
          calls = [RListSubnets ⇒ Ok subnets; RListListeners (lb_ID lb) ⇒ Ok listeners;
                   RListPools (lb_ID lb) ⇒ Ok pools] ++ calls' ∧
          accepted lb service nodes subnets ∧
          parse_pools pools = Ok views ∧
          let l := spec_plan service nodeList listeners views in
          let pools' := mark_pool service <$> views in
          planUpdates listeners pools service nodeList = Ok (render <$> l, pools') ∧
          (∃ ok rest, l = ok ++ rest ∧
             Forall2 (asked nodeList pools' options (lb_ID lb)) ok (writes calls') ∧
             (is_Ok r → rest = [])) ∧
          (∀ l1 x l2, calls' = l1 ++ x :: l2 → is_write (request x) = true →
             l1 = [] ∨
             ∃ l0 lb', l1 = l0 ++ [RGetLoadBalancer (lb_ID lb) ⇒ Ok lb'] ∧ IsReady lb' = true) ∧
          length calls' ≤ 17 * length l)).
Proof.
  intros options nodeList Hvalid Htoken.
  eapply emits_mono; [by apply UpdateLoadBalancer_emits|].
  intros r calls events [-> [(Hw & Hr & Hs)|Hrun]]; [split_and!; [done..|]; by left|].
  destruct Hrun as (subnets & listeners & pools & views & calls' & -> & Hacc & Hviews & Hplan & Hrun).
  pose proof (acc_ready _ _ _ _ Hacc) as Hready.
  pose proof (performed_stops _ _ _ _ _ _ _ _ Hrun Hready) as [Hs Hlen].
  split_and!; [done| |].
  { apply (stops_app _ [_; _; _]); [|done]. repeat constructor; eexists; reflexivity. }
  right. exists subnets, listeners, pools, views, calls'. cbv zeta. split_and!; [done..| | |exact Hlen].
  - by eapply performed_writes.
  - intros l1 x l2 Heq Hx.
    destruct (performed_guarded _ _ _ _ _ _ _ _ Hrun Hready l1 x l2 Heq Hx) as [[_ ?]|?];
      [by left|by right].
Qed.

Lemma UpdateLoadBalancer_spec_witness :
  ∃ calls,
    trace (UpdateLoadBalancer (H := key_order) (trace_cloud example_cloud)
             (Some (example_lb "lb" "name" "online" "active" ["s1"] []))
             (Some (example_service "u" [(80, 30303)] ∅)%Z)
             (Some [example_node "n1" "10.0.0.1" "z1"; example_node "n2" "10.0.0.2" "z2"])
             (start example_world)).2 = calls ∧
    stops (UpdateLoadBalancer (H := key_order) (trace_cloud example_cloud)
             (Some (example_lb "lb" "name" "online" "active" ["s1"] []))
             (Some (example_service "u" [(80, 30303)] ∅)%Z)
             (Some [example_node "n1" "10.0.0.1" "z1"; example_node "n2" "10.0.0.2" "z2"])
             (start example_world)).1 calls.
Proof.
  destruct (UpdateLoadBalancer_spec (H := key_order) example_cloud
    (example_lb "lb" "name" "online" "active" ["s1"] [])
    (example_service "u" [(80, 30303)] ∅)%Z
    [example_node "n1" "10.0.0.1" "z1"; example_node "n2" "10.0.0.2" "z2"]
    ltac:(by_decision) ltac:(by_decision) (start example_world))
    as (calls & events & Htrace & _ & _ & Hstop & _).
  exists calls. split; [exact Htrace|exact Hstop].
Defined.
