(* ===== verification/VpcProvider.v ===== *)
(** * VpcProvider: the operations the Kubernetes service controller calls, and
    the load balancer monitor (pkg/vpcctl/vpc_provider.go)

    Log output is not modelled.  Events given to the recorder are. *)
From S2P Require Import Prelude GoStrings Kube VpcTypes VpcConfig VpcSdk VpcLbaas.

Definition creatingCloudLoadBalancerFailed := "CreatingCloudLoadBalancerFailed".
Definition deletingCloudLoadBalancerFailed := "DeletingCloudLoadBalancerFailed".
Definition gettingCloudLoadBalancerFailed := "GettingCloudLoadBalancerFailed".
Definition updatingCloudLoadBalancerFailed := "UpdatingCloudLoadBalancerFailed".
Definition verifyingCloudLoadBalancerFailed := "VerifyingCloudLoadBalancerFailed".

Definition vpcLbStatusOnlineActive := "online/active".
Definition vpcLbStatusOfflineCreatePending := "offline/create_pending".
Definition vpcLbStatusOfflineMaintenancePending := "offline/maintenance_pending".
Definition vpcLbStatusOfflineFailed := "offline/failed".
Definition vpcLbStatusOfflineNotFound := "offline/not_found".

Definition VpcLbNamePrefix := "kube".

(** ** Names *)

Definition GenerateLoadBalancerName (service : Service) (clusterID : string) : string :=
  let serviceLbName := map_get (svc_Annotations service) serviceAnnotationLbName in
  if bool_decide (serviceLbName ≠ "") then serviceLbName
  else
    let serviceID := removeAll "-" (svc_UID service) in
    let lbName := VpcLbNamePrefix +:+ "-" +:+ clusterID +:+ "-" +:+ serviceID in
    if (63 <? String.length lbName)%nat then take_bytes 63 lbName else lbName.

Definition getEventMessage (status : string) : string :=
  if bool_decide (status = vpcLbStatusOfflineFailed) then
    "The VPC load balancer that routes requests to this Kubernetes LoadBalancer service is offline. For troubleshooting steps, see <https://ibm.biz/vpc-lb-ts>"
  else if bool_decide (status = vpcLbStatusOfflineMaintenancePending) then
    "The VPC load balancer that routes requests to this Kubernetes LoadBalancer service is under maintenance."
  else if bool_decide (status = vpcLbStatusOfflineNotFound) then
    "The VPC load balancer that routes requests to this Kubernetes LoadBalancer service was not found. To recreate the VPC load balancer, restart the Kubernetes master by running 'ibmcloud ks cluster master refresh --cluster <cluster_name_or_id>'."
  else
    "The VPC load balancer that routes requests to this Kubernetes LoadBalancer service is currently "
    +:+ status +:+ ".".

Definition event_text (kind lbName : string) (lbService : Service) (text : string) : string :=
  kind +:+ " on cloud load balancer " +:+ lbName +:+ " for service " +:+
  namespacedName lbService +:+ " with UID " +:+ svc_UID lbService +:+ ": " +:+ text.

Definition normal_event (lbService : Service) (lbName eventMessage : string) : Event :=
  {| ev_Service := lbService; ev_Type := EventTypeNormal;
     ev_Reason := "CloudVPCLoadBalancerNormalEvent";
     ev_Message := event_text "Event" lbName lbService eventMessage |}.
Definition warning_event (lbService : Service) (reason lbName errorMessage : string) : Event :=
  {| ev_Service := lbService; ev_Type := EventTypeWarning; ev_Reason := reason;
     ev_Message := event_text "Error" lbName lbService errorMessage |}.

Section provider.
Context {W : Type} `{!Clock W} `{!MapIteration}.
Implicit Types (c : CloudVpc W).

Definition recordServiceNormalEvent (c : CloudVpc W) (lbService : Service)
    (lbName eventMessage : string) : M (Env W) unit :=
  if cv_Recorder c then record_event (normal_event lbService lbName eventMessage)
  else mret tt.

(** Returns the error that represents the event. *)
Definition recordServiceWarningEvent (c : CloudVpc W) (lbService : Service)
    (reason lbName errorMessage : string) : M (Env W) error :=
  _ ← (if cv_Recorder c
       then record_event (warning_event lbService reason lbName errorMessage)
       else mret tt);
  mret (ErrorString (event_text "Error" lbName lbService errorMessage)).

(** [return ..., c.recordServiceWarningEvent(...)]. *)
Definition fail_with_event {A} (c : CloudVpc W) (service : Service)
    (reason lbName errString : string) : M (Env W) A :=
  err ← recordServiceWarningEvent c service reason lbName errString;
  fail err.

(** The update of an existing load balancer, the last part of
    [EnsureLoadBalancer]. *)
Definition ensureExisting (c : CloudVpc W) (lbName : string) (service : Service)
    (nodes : option (list Node)) (lb : VpcLoadBalancer) : M (Env W) LoadBalancerStatus :=
  if negb (IsReady lb) then
    fail_with_event c service creatingCloudLoadBalancerFailed lbName
      ("LoadBalancer is busy: " +:+ GetStatus lb)
  else
    r ← attempt (UpdateLoadBalancer c (Some lb) (Some service) nodes);
    match r with
    | inr err =>
        fail_with_event c service creatingCloudLoadBalancerFailed lbName
          ("Failed ensuring LoadBalancer: " +:+ error_string err)
    | inl lb => mret (GetLoadBalancerStatus service lb)
    end.

Definition EnsureLoadBalancer (c : CloudVpc W) (lbName : string) (service : Service)
    (nodes : option (list Node)) : M (Env W) LoadBalancerStatus :=
  r ← attempt (FindLoadBalancer c lbName (Some service));
  match r with
  | inr err =>
      fail_with_event c service creatingCloudLoadBalancerFailed lbName
        ("Failed getting LoadBalancer: " +:+ error_string err)
  | inl None =>
      r ← attempt (CreateLoadBalancer c lbName (Some service) nodes);
      match r with
      | inr err =>
          fail_with_event c service creatingCloudLoadBalancerFailed lbName
            ("Failed ensuring LoadBalancer: " +:+ error_string err)
      | inl lb =>
          if IsReady lb || negb (IsNLB lb) then mret (GetLoadBalancerStatus service lb)
          else ensureExisting c lbName service nodes lb
      end
  | inl (Some lb) => ensureExisting c lbName service nodes lb
  end.

Definition EnsureLoadBalancerDeleted (c : CloudVpc W) (lbName : string) (service : Service)
    : M (Env W) unit :=
  r ← attempt (FindLoadBalancer c lbName (Some service));
  match r with
  | inr err =>
      fail_with_event c service deletingCloudLoadBalancerFailed lbName
        ("Failed getting LoadBalancer: " +:+ error_string err)
  | inl None => mret tt
  | inl (Some lb) =>
      r ← attempt (DeleteLoadBalancer c (Some lb) (Some service));
      match r with
      | inr err =>
          fail_with_event c service deletingCloudLoadBalancerFailed lbName
            ("Failed deleting LoadBalancer: " +:+ error_string err)
      | inl _ => mret tt
      end
  end.

Definition EnsureLoadBalancerUpdated (c : CloudVpc W) (lbName : string) (service : Service)
    (nodes : option (list Node)) : M (Env W) unit :=
  r ← attempt (FindLoadBalancer c lbName (Some service));
  match r with
  | inr err =>
      fail_with_event c service updatingCloudLoadBalancerFailed lbName
        ("Failed getting LoadBalancer: " +:+ error_string err)
  | inl None => mret tt
  | inl (Some lb) =>
      if negb (IsReady lb) then
        fail_with_event c service updatingCloudLoadBalancerFailed lbName
          ("LoadBalancer is busy: " +:+ GetStatus lb)
      else
        r ← attempt (UpdateLoadBalancer c (Some lb) (Some service) nodes);
        match r with
        | inr err =>
            fail_with_event c service updatingCloudLoadBalancerFailed lbName
              ("Failed updating LoadBalancer: " +:+ error_string err)
        | inl _ => mret tt
        end
  end.

Definition GetLoadBalancer (c : CloudVpc W) (lbName : string) (service : Service)
    : M (Env W) (option LoadBalancerStatus * bool) :=
  r ← attempt (FindLoadBalancer c lbName (Some service));
  match r with
  | inr err =>
      fail_with_event c service gettingCloudLoadBalancerFailed lbName
        ("Failed getting LoadBalancer: " +:+ error_string err)
  | inl None => mret (None, false)
  | inl (Some lb) =>
      if negb (IsReady lb) then
        let lbStatus :=
          if bool_decide (lbs_Ingress (svc_LoadBalancer service) ≠ None)
          then GetLoadBalancerStatus service lb
          else {| lbs_Ingress := None |} in
        mret (Some lbStatus, true)
      else mret (Some (GetLoadBalancerStatus service lb), true)
  end.

(** ** Gathering *)

(** The load balancers of this cluster, by name. *)
Definition makeVpcMap (clusterID : string) (lbs : list VpcLoadBalancer)
    : gmap string VpcLoadBalancer :=
  let lbPrefix := VpcLbNamePrefix +:+ "-" +:+ clusterID +:+ "-" in
  foldl (λ vpcMap lb, if hasPrefix (lb_Name lb) lbPrefix
                      then <[lb_Name lb := lb]> vpcMap else vpcMap) ∅ lbs.

(** The services of one type, by load balancer name. *)
Definition makeServiceMap (clusterID kind : string) (services : list Service)
    : gmap string Service :=
  foldl (λ m service, if bool_decide (spec_Type (svc_Spec service) = kind)
                      then <[GenerateLoadBalancerName service clusterID := service]> m
                      else m) ∅ services.

(** The clean-up loop deletes a ready load balancer that no service claims;
    a failed deletion is only logged. *)
Definition deleteStale (c : CloudVpc W) (lbMap npMap : gmap string Service)
    (lb : VpcLoadBalancer) : M (Env W) unit :=
  if negb (IsReady lb) then mret tt
  else if bool_decide (lbMap !! lb_Name lb = None)
          && bool_decide (npMap !! lb_Name lb = None) then
    _ ← attempt (DeleteLoadBalancer c (Some lb) None);
    mret tt
  else mret tt.

Definition GatherLoadBalancers (c : CloudVpc W) (services : option (list Service))
    : M (Env W) (gmap string Service * gmap string VpcLoadBalancer) :=
  match services with
  | None => fail missing_argument
  | Some services =>
      lbs ← sdk (@sdk_ListLoadBalancers _ (cv_Sdk c));
      let clusterID := cfg_ClusterID (cv_Config c) in
      let vpcMap := makeVpcMap clusterID lbs in
      let lbMap := makeServiceMap clusterID ServiceTypeLoadBalancer services in
      let npMap := makeServiceMap clusterID ServiceTypeNodePort services in
      d ← draw;
      _ ← forM (λ _ '(_, lb), deleteStale c lbMap npMap lb) tt (range_map d vpcMap);
      mret (lbMap, vpcMap)
  end.

(** ** Monitoring *)

(** One round of the monitor for the service [service]; [status] maps a
    service UID to the status seen last. *)
Definition monitorService (c : CloudVpc W) (vpcMap : gmap string VpcLoadBalancer)
    (status : gmap string string) (entry : string * Service)
    : M (Env W) (gmap string string) :=
  let '(lbName, service) := entry in
  let serviceID := svc_UID service in
  let oldStatus := map_get status serviceID in
  match vpcMap !! lbName with
  | Some vpcLB =>
      let newStatus := GetStatus vpcLB in
      let status := <[serviceID := newStatus]> status in
      if bool_decide (newStatus = vpcLbStatusOnlineActive) then
        _ ← (if bool_decide (oldStatus ≠ vpcLbStatusOnlineActive)
             then recordServiceNormalEvent c service lbName (getEventMessage newStatus)
             else mret tt);
        mret status
      else
        _ ← (if bool_decide (oldStatus = newStatus)
             then _ ← recordServiceWarningEvent c service verifyingCloudLoadBalancerFailed
                        lbName (getEventMessage newStatus); mret tt
             else mret tt);
        mret status
  | None =>
      let newStatus := vpcLbStatusOfflineNotFound in
      let status := <[serviceID := newStatus]> status in
      _ ← (if bool_decide (oldStatus = newStatus)
           then _ ← recordServiceWarningEvent c service verifyingCloudLoadBalancerFailed
                      lbName (getEventMessage newStatus); mret tt
           else mret tt);
      mret status
  end.

(** Returns the status map as the call leaves it. *)
Definition MonitorLoadBalancers (c : CloudVpc W) (services : option (list Service))
    (status : gmap string string) : M (Env W) (gmap string string) :=
  match services with
  | None => mret status
  | Some _ =>
      r ← attempt (GatherLoadBalancers c services);
      match r with
      | inr _ => mret status
      | inl (lbMap, vpcMap) =>
          d ← draw;
          forM (monitorService c vpcMap) status (range_map d lbMap)
      end
  end.
End provider.
