(* ===== verification/ProviderProps.v ===== *)
(** * ProviderProps: what the service controller's operations and the monitor do

    As in [LbaasProps], operations are run on an observed cloud and [emits]
    gives outcome, calls and events. *)
From S2P Require Import Prelude GoStrings Kube VpcTypes VpcConfig VpcUpdates.
From S2P Require Import UpdateSpec UpdatePlan VpcSdk StaticVpc VpcLbaas LbaasProps VpcProvider.

Open Scope go_scope.

(** ** Names *)

Lemma length_removeAll c s : String.length (removeAll c s) ≤ String.length s.
Proof. induction s as [|b s IH]; [done|]. cbn. case_decide; cbn; lia. Qed.

Lemma append_inj (a b c : string) : a +:+ b = a +:+ c → b = c.
Proof. induction a as [|x a IH]; [done|]. cbn. intros [= ?]. auto. Qed.

Definition cluster_prefix (clusterID : string) : string :=
  VpcLbNamePrefix +:+ "-" +:+ clusterID +:+ "-".

(** C29: load balancer names.  The name annotation is used as it is.  A generated
    name has at most 63 bytes; as long as the cluster ID and the service UID
    (dashes removed) fit into 57 bytes together, it is the cluster's prefix
    followed by the UID, so it is recognised as the cluster's own and no two
    services whose UIDs differ in more than dashes share it. *)
Theorem GenerateLoadBalancerName_spec service clusterID :
  let annotation := map_get (svc_Annotations service) serviceAnnotationLbName in
  let name := GenerateLoadBalancerName service clusterID in
  (annotation ≠ "" → name = annotation) ∧
  (annotation = "" → String.length name ≤ 63) ∧
  (annotation = "" →
   String.length clusterID + String.length (removeAll "-" (svc_UID service)) ≤ 57 →
   hasPrefix name (cluster_prefix clusterID) = true ∧
   ∀ service', map_get (svc_Annotations service') serviceAnnotationLbName = "" →
     String.length clusterID + String.length (removeAll "-" (svc_UID service')) ≤ 57 →
     GenerateLoadBalancerName service' clusterID = name →
     removeAll "-" (svc_UID service') = removeAll "-" (svc_UID service)).
Proof.
  assert (∀ s, map_get (svc_Annotations s) serviceAnnotationLbName = "" →
    String.length clusterID + String.length (removeAll "-" (svc_UID s)) ≤ 57 →
    GenerateLoadBalancerName s clusterID = cluster_prefix clusterID +:+ removeAll "-" (svc_UID s))
    as Hfull.
  { intros s Ha Hlen. unfold GenerateLoadBalancerName, cluster_prefix, VpcLbNamePrefix.
    rewrite bool_decide_eq_false_2 by tauto. cbn zeta.
    rewrite !app_assoc_str. destruct (Nat.ltb_spec 63 (String.length
      ("kube" +:+ "-" +:+ clusterID +:+ "-" +:+ removeAll "-" (svc_UID s)))) as [Hl|]; [|done].
    rewrite !length_app_str in Hl. cbn in Hl. lia. }
  intros annotation name. split_and!.
  - intros Ha. unfold name, GenerateLoadBalancerName. by rewrite bool_decide_eq_true_2.
  - intros Ha. unfold name, GenerateLoadBalancerName.
    rewrite bool_decide_eq_false_2 by tauto. cbn zeta.
    destruct (Nat.ltb_spec 63 (String.length (VpcLbNamePrefix +:+ "-" +:+ clusterID +:+ "-" +:+
      removeAll "-" (svc_UID service)))); [|done].
    rewrite take_bytes_length. lia.
  - intros Ha Hlen. unfold name. rewrite Hfull by done. split; [apply hasPrefix_app|].
    intros s' Ha' Hlen' Heq. rewrite Hfull in Heq by done. by apply append_inj in Heq.
Qed.

(** ** Errors and events *)

(** ** The maps of the monitor *)

Definition in_cluster (clusterID : string) (lb : VpcLoadBalancer) : Prop :=
  hasPrefix (lb_Name lb) (cluster_prefix clusterID) = true.
#[export] Instance in_cluster_dec clusterID lb : Decision (in_cluster clusterID lb).
Proof. unfold in_cluster. apply _. Defined.

(** The last load balancer of the cluster under a name. *)
Lemma makeVpcMap_lookup clusterID lbs name :
  makeVpcMap clusterID lbs !! name
  = last (filter (λ lb, in_cluster clusterID lb ∧ lb_Name lb = name) lbs).
Proof.
  unfold makeVpcMap. change (VpcLbNamePrefix +:+ "-" +:+ clusterID +:+ "-")
    with (cluster_prefix clusterID).
  induction lbs as [|lb lbs IH] using rev_ind; [done|].
  rewrite foldl_app, filter_app. cbn [foldl]. unfold in_cluster in *.
  destruct (hasPrefix (lb_Name lb) (cluster_prefix clusterID)) eqn:Hp.
  - destruct (decide (lb_Name lb = name)) as [<-|Hn].
    + rewrite lookup_insert_eq, filter_cons, decide_True by done.
      by rewrite filter_nil, last_snoc.
    + rewrite lookup_insert_ne, filter_cons, decide_False by tauto. by rewrite filter_nil, app_nil_r.
  - rewrite filter_cons, decide_False by (rewrite Hp; by intros []). by rewrite filter_nil, app_nil_r.
Qed.

(** The last service of a type under a name. *)
Lemma makeServiceMap_lookup clusterID kind services name :
  makeServiceMap clusterID kind services !! name
  = last (filter (λ s, spec_Type (svc_Spec s) = kind ∧ GenerateLoadBalancerName s clusterID = name)
                 services).
Proof.
  unfold makeServiceMap. induction services as [|s services IH] using rev_ind; [done|].
  rewrite foldl_app, filter_app. cbn [foldl]. case_bool_decide as Hk.
  - destruct (decide (GenerateLoadBalancerName s clusterID = name)) as [<-|Hn].
    + rewrite lookup_insert_eq, filter_cons, decide_True by done.
      by rewrite filter_nil, last_snoc.
    + rewrite lookup_insert_ne, filter_cons, decide_False by tauto. by rewrite filter_nil, app_nil_r.
  - rewrite filter_cons, decide_False by tauto. by rewrite filter_nil, app_nil_r.
Qed.

Lemma last_filter_Some {A} (P : A → Prop) `{∀ x, Decision (P x)} l x :
  last (filter P l) = Some x → P x ∧ x ∈ l.
Proof. by intros Hl%last_Some_elem_of%list_elem_of_filter. Qed.
Lemma last_filter_None {A} (P : A → Prop) `{∀ x, Decision (P x)} l :
  last (filter P l) = None ↔ ∀ x, x ∈ l → ¬ P x.
Proof.
  rewrite last_None. split.
  - intros Hf x Hx HP. apply (not_elem_of_nil x). rewrite <- Hf. by apply list_elem_of_filter.
  - intros Hl. destruct (filter P l) as [|x k] eqn:Hf; [done|].
    assert (x ∈ filter P l) as Hx by (rewrite Hf; left).
    apply list_elem_of_filter in Hx as [? ?]. by destruct (Hl x).
Qed.

Section provider.
Context {W : Type} `{!Clock W} `{!MapIteration} (c : CloudVpc W).
Let tc := trace_cloud c.

(** A failure is the text of one warning event about the service, and the
    event is recorded when there is a recorder; success records nothing. *)
Definition reported {A} (service : Service) (reason lbName : string) (r : outcome A)
    (events : list Event) : Prop :=
  match r with
  | Ok _ => events = []
  | Err e => ∃ text, e = ErrorString (event_text "Error" lbName service text) ∧
      events = if cv_Recorder c then [warning_event service reason lbName text] else []
  | Panic _ => True
  end.

Lemma fail_with_event_emits {A} service reason lbName text
    (P : outcome A → list Call → list Event → Prop) :
  P (Err (ErrorString (event_text "Error" lbName service text))) []
    (if cv_Recorder c then [warning_event service reason lbName text] else []) →
  emits (fail_with_event tc service reason lbName text) P.
Proof.
  intros HP. unfold fail_with_event, recordServiceWarningEvent.
  change (cv_Recorder tc) with (cv_Recorder c).
  eapply emits_bind with (Q := λ r l v, l = [] ∧
    v = (if cv_Recorder c then [warning_event service reason lbName text] else []) ∧
    r = Ok (ErrorString (event_text "Error" lbName service text))).
  - eapply emits_bind with (Q := λ r l v, l = [] ∧
      v = (if cv_Recorder c then [warning_event service reason lbName text] else []) ∧
      r = Ok tt).
    + destruct (cv_Recorder c); [apply emits_event|apply emits_ret]; split_and!; reflexivity.
    + intros r l v (-> & -> & ->). apply emits_ret. by rewrite !app_nil_r.
  - intros r l v (-> & -> & ->). apply emits_fail. by rewrite !app_nil_r.
Qed.

(** [v, err := f(); if err != nil { ... }]. *)
Lemma emits_attempt_bind {A B} (m : M (Env (W * list Call)) A)
    (f : A + error → M (Env (W * list Call)) B) Q P :
  emits m Q →
  (∀ r l v, Q r l v →
     match r with
     | Ok a => emits (f (inl a)) (λ r' l' v', P r' (l ++ l') (v ++ v'))
     | Err e => emits (f (inr e)) (λ r' l' v', P r' (l ++ l') (v ++ v'))
     | Panic w => P (Panic w) l v
     end) →
  emits (attempt m ≫= f) P.
Proof.
  intros Hm Hf. eapply (emits_bind _ _ (λ r l v, ∃ r0, Q r0 l v ∧
    match r0 with
    | Ok a => r = Ok (inl a) | Err e => r = Ok (inr e) | Panic w => r = Panic w
    end)).
  - apply emits_attempt. eapply emits_mono; [exact Hm|]. intros r l v HQ. cbn.
    destruct r; eexists; (split; [exact HQ|done]).
  - intros r l v (r0 & HQ & Hr). specialize (Hf _ _ _ HQ). by destruct r0; subst r.
Qed.

(** What FindLoadBalancer answers from the list of load balancers. *)
Definition lookup_lb (nameID : string) (lbs : list VpcLoadBalancer) : option VpcLoadBalancer :=
  List.find (λ lb, bool_decide (nameID = lb_ID lb) || bool_decide (nameID = lb_Name lb) ||
                   bool_decide (nameID = lb_Hostname lb)) lbs.

(** An operation that first looks for the load balancer: [found] says what
    follows for each answer. *)
Definition finds {A} (lbName : string) (r : outcome A) (calls : list Call)
    (found : option VpcLoadBalancer → list Call → Prop) : Prop :=
  (lbName = "" ∧ calls = [] ∧ ¬ is_Ok r) ∨
  ∃ (o : outcome (list VpcLoadBalancer)) rest, lbName ≠ "" ∧
    calls = (RListLoadBalancers ⇒ o) :: rest ∧
    match o with
    | Ok lbs => found (lookup_lb lbName lbs) rest
    | _ => rest = [] ∧ ¬ is_Ok r
    end.

Lemma find_bind_emits {A} lbName service (f : option VpcLoadBalancer + error → M (Env (W * list Call)) A)
    reason (found : outcome A → option VpcLoadBalancer → list Call → Prop) :
  (∀ e, ∃ text, f (inr e) = fail_with_event tc service reason lbName text) →
  (∀ x, emits (f (inl x)) (λ r l v, reported service reason lbName r v ∧ found r x l)) →
  emits (attempt (FindLoadBalancer tc lbName (Some service)) ≫= f)
    (λ r l v, reported service reason lbName r v ∧ finds lbName r l (found r)).
Proof.
  intros Herr Hfound. eapply emits_attempt_bind; [apply FindLoadBalancer_emits|].
  intros r l v [-> Hr]. case_decide as Hn.
  - destruct Hr as [-> ->]. destruct (Herr missing_argument) as (text & ->).
    apply fail_with_event_emits. split; [by eexists|]. left. split_and!; [done..|by intros []].
  - destruct Hr as (o & -> & ->). destruct o as [lbs|e|w]; cbn [fmap outcome_fmap].
    + eapply emits_mono; [apply Hfound|]. intros r l v [H1 H2]. split; [done|]. right.
      by exists (Ok lbs), l.
    + destruct (Herr e) as (text & ->). apply fail_with_event_emits. split; [by eexists|].
      right. exists (Err e), []. split_and!; [done..|]. by intros [].
    + split; [done|]. right. exists (Panic w), []. split_and!; [done..|]. by intros [].
Qed.

(** A second operation whose error is reported. *)
Lemma reported_bind_emits {A B} (m : M (Env (W * list Call)) A) service reason lbName
    (f : A + error → M (Env (W * list Call)) B)
    (Q : outcome A → list Call → list Event → Prop) (P : outcome B → list Call → Prop) :
  emits m Q →
  (∀ r l v, Q r l v → v = []) →
  (∀ e, ∃ text, f (inr e) = fail_with_event tc service reason lbName text) →
  (∀ a l, Q (Ok a) l [] →
     emits (f (inl a)) (λ r l' v, reported service reason lbName r v ∧ P r (l ++ l'))) →
  (∀ r r' l, Q r l [] → ¬ is_Ok r → ¬ is_Ok r' → P r' l) →
  emits (attempt m ≫= f) (λ r l v, reported service reason lbName r v ∧ P r l).
Proof.
  intros Hm Hv Herr Hok Hfail. eapply emits_attempt_bind; [exact Hm|].
  intros r l v HQ. pose proof (Hv _ _ _ HQ) as ->. destruct r as [a|e|w].
  - by apply Hok.
  - destruct (Herr e) as (text & ->). apply fail_with_event_emits.
    split; [by eexists|]. rewrite app_nil_r. eapply Hfail; [done|by intros []|by intros []].
  - split; [done|]. eapply Hfail; [done|by intros []|by intros []].
Qed.

Context `{!SdkIdentity (cv_Sdk c)} `{!SdkWords (cv_Sdk c)}.

(** The service and nodes the update theorems are about. *)
Definition regular (service : Service) (nodes : list Node) : Prop :=
  Forall valid_port (spec_Ports (svc_Spec service)) ∧
  Forall token (getNodeIDs (selectNodes service (getServiceOptions (Some service)) nodes)).
#[export] Instance regular_dec service nodes : Decision (regular service nodes).
Proof. unfold regular. apply _. Defined.

(** The run on an existing load balancer: a busy one is left alone. *)
Definition existing_run (lb : VpcLoadBalancer) (service : Service) (nodes : list Node)
    (r : outcome LoadBalancerStatus) (calls : list Call) : Prop :=
  if IsReady lb then
    ∃ r', update_outcome lb service nodes r' calls [] ∧
          match r' with
          | Ok lb' => r = Ok (GetLoadBalancerStatus service lb')
          | _ => ¬ is_Ok r
          end
  else calls = [] ∧ ¬ is_Ok r.

Lemma ensureExisting_emits lbName service nodes lb :
  regular service nodes →
  emits (ensureExisting tc lbName service (Some nodes) lb) (λ r l v,
    reported service creatingCloudLoadBalancerFailed lbName r v ∧
    existing_run lb service nodes r l).
Proof.
  intros [Hv Ht]. unfold ensureExisting, existing_run.
  destruct (IsReady lb) eqn:Hr; cbn [negb].
  - eapply reported_bind_emits; [by apply UpdateLoadBalancer_emits|by intros r l v [-> _]| | |].
    + intros e. by eexists.
    + intros lb' l Hl. apply emits_ret. split; [done|]. rewrite app_nil_r. by exists (Ok lb').
    + intros r r' l Hl Hno Hno'. exists r. split; [done|]. destruct r; [|done..].
      exfalso. apply Hno. by eexists.
  - apply fail_with_event_emits. split; [by eexists|]. split; [done|]. by intros [].
Qed.

Lemma EnsureLoadBalancer_emits lbName service nodes :
  regular service nodes →
  emits (EnsureLoadBalancer tc lbName service (Some nodes)) (λ r l v,
    reported service creatingCloudLoadBalancerFailed lbName r v ∧
    finds lbName r l (λ lb l',
      match lb with
      | Some lb => existing_run lb service nodes r l'
      | None =>
          ∃ r', create_outcome c lbName service nodes r' l' [] ∧
            match r' with
            | Ok lb => if IsReady lb || negb (IsNLB lb)
                       then r = Ok (GetLoadBalancerStatus service lb) else ¬ is_Ok r
            | _ => ¬ is_Ok r
            end
      end)).
Proof.
  intros Hreg. unfold EnsureLoadBalancer.
  apply find_bind_emits with (found := λ r lb l', match lb with
    | Some lb => existing_run lb service nodes r l' | None => _ end).
  { intros e. by eexists. }
  intros [lb|]; [by apply ensureExisting_emits|].
  eapply reported_bind_emits; [apply CreateLoadBalancer_emits|by intros r l v [-> _]| | |].
  - intros e. by eexists.
  - intros lb l Hl. destruct (IsReady lb || negb (IsNLB lb)) eqn:Hb.
    + apply emits_ret. split; [done|]. rewrite app_nil_r. exists (Ok lb). by rewrite Hb.
    + eapply emits_mono; [by apply ensureExisting_emits|]. intros r l' v [Hrep Hex].
      split; [done|]. apply orb_false_iff in Hb as [Hready Hb].
      unfold existing_run in Hex. rewrite Hready in Hex. destruct Hex as [-> Hno].
      rewrite app_nil_r. exists (Ok lb). by rewrite Hready, Hb.
  - intros r r' l Hl Hno Hno'. exists r. split; [done|]. destruct r; [|done..].
    exfalso. apply Hno. by eexists.
Qed.

Lemma EnsureLoadBalancerDeleted_emits lbName service :
  emits (EnsureLoadBalancerDeleted tc lbName service) (λ r l v,
    reported service deletingCloudLoadBalancerFailed lbName r v ∧
    finds lbName r l (λ lb l',
      match lb with
      | Some lb => ∃ o : outcome unit, l' = [RDeleteLoadBalancer (lb_ID lb) ⇒ o] ∧
                                       (is_Ok r ↔ is_Ok o)
      | None => l' = [] ∧ r = Ok tt
      end)).
Proof.
  unfold EnsureLoadBalancerDeleted. apply find_bind_emits with (found := λ r lb l', match lb with
    | Some lb => ∃ o : outcome unit, l' = [RDeleteLoadBalancer (lb_ID lb) ⇒ o] ∧ (is_Ok r ↔ is_Ok o)
    | None => l' = [] ∧ r = Ok tt end).
  { intros e. by eexists. }
  intros [lb|]; [|by apply emits_ret].
  eapply reported_bind_emits with (Q := λ r l v, v = [] ∧ l = [RDeleteLoadBalancer (lb_ID lb) ⇒ r]).
  - apply (emits_call (RDeleteLoadBalancer (lb_ID lb))). by intros o _.
  - by intros r l v [-> _].
  - intros e. by eexists.
  - intros a l [_ ->]. apply emits_ret. split; [done|]. exists (Ok a). split; [done|].
    split; intros _; by eexists.
  - intros r r' l [_ ->] Hno Hno'. exists r. split; [done|]. by split; intros ?.
Qed.

Lemma EnsureLoadBalancerUpdated_emits lbName service nodes :
  regular service nodes →
  emits (EnsureLoadBalancerUpdated tc lbName service (Some nodes)) (λ r l v,
    reported service updatingCloudLoadBalancerFailed lbName r v ∧
    finds lbName r l (λ lb l',
      match lb with
      | Some lb =>
          if IsReady lb then ∃ r', update_outcome lb service nodes r' l' [] ∧ (is_Ok r ↔ is_Ok r')
          else l' = [] ∧ ¬ is_Ok r
      | None => l' = [] ∧ r = Ok tt
      end)).
Proof.
  intros [Hv Ht]. unfold EnsureLoadBalancerUpdated.
  apply find_bind_emits with (found := λ r lb l', match lb with
    | Some lb => if IsReady lb then ∃ r', update_outcome lb service nodes r' l' [] ∧ (is_Ok r ↔ is_Ok r')
                 else l' = [] ∧ ¬ is_Ok r
    | None => l' = [] ∧ r = Ok tt end).
  { intros e. by eexists. }
  intros [lb|]; [|by apply emits_ret]. destruct (IsReady lb) eqn:Hr; cbn [negb].
  - eapply reported_bind_emits; [by apply UpdateLoadBalancer_emits|by intros r l v [-> _]| | |].
    + intros e. by eexists.
    + intros lb' l Hl. apply emits_ret. split; [done|]. rewrite app_nil_r.
      exists (Ok lb'). split; [done|]. split; intros _; by eexists.
    + intros r r' l Hl Hno Hno'. exists r. split; [done|]. by split; intros ?.
  - apply fail_with_event_emits. split; [by eexists|]. split; [done|]. by intros [].
Qed.

Lemma GetLoadBalancer_emits lbName service :
  emits (GetLoadBalancer tc lbName service) (λ r l v,
    reported service gettingCloudLoadBalancerFailed lbName r v ∧
    finds lbName r l (λ lb l', l' = [] ∧
      r = Ok match lb with
             | Some lb =>
                 (Some (if IsReady lb || bool_decide (lbs_Ingress (svc_LoadBalancer service) ≠ None)
                        then GetLoadBalancerStatus service lb else {| lbs_Ingress := None |}), true)
             | None => (None, false)
             end)).
Proof.
  unfold GetLoadBalancer. apply find_bind_emits with (found := λ r lb l', l' = [] ∧ r = Ok _).
  { intros e. by eexists. }
  intros [lb|]; [|by apply emits_ret].
  destruct (IsReady lb); cbn [negb orb]; by apply emits_ret.
Qed.

(** ** Gathering *)

(** No service of the lists claims the load balancer. *)
Definition unclaimed (lbMap npMap : gmap string Service) (lb : VpcLoadBalancer) : Prop :=
  IsReady lb = true ∧ lbMap !! lb_Name lb = None ∧ npMap !! lb_Name lb = None.
#[export] Instance unclaimed_dec lbMap npMap lb : Decision (unclaimed lbMap npMap lb).
Proof. unfold unclaimed. apply _. Defined.

Lemma deleteStale_emits lbMap npMap lb :
  emits (deleteStale tc lbMap npMap lb) (λ r l v,
    v = [] ∧ ¬ is_Err r ∧
    request <$> l = if decide (unclaimed lbMap npMap lb)
                    then [RDeleteLoadBalancer (lb_ID lb)] else []).
Proof.
  unfold deleteStale. destruct (IsReady lb) eqn:Hr; cbn [negb].
  2: { apply emits_ret. rewrite decide_False by (intros []; congruence).
       split_and!; [done|by intros []|done]. }
  destruct (decide (unclaimed lbMap npMap lb)) as [(_ & H1 & H2)|Hno].
  - rewrite !bool_decide_eq_true_2 by done. cbn [andb].
    eapply emits_attempt_bind with (Q := λ r l v, v = [] ∧ l = [RDeleteLoadBalancer (lb_ID lb) ⇒ r]).
    { apply (emits_call (RDeleteLoadBalancer (lb_ID lb))). by intros o _. }
    intros r l v [-> ->]. destruct r as [[]|e|w].
    1-2: apply emits_ret; split_and!; [done|by intros []|done].
    split_and!; [done|by intros []|done].
  - rewrite <- bool_decide_and, bool_decide_eq_false_2 by (intros []; by apply Hno).
    apply emits_ret. split_and!; [done|by intros []|done].
Qed.

Lemma deleteStales_emits lbMap npMap (l : list (string * VpcLoadBalancer)) :
  let deletes := (λ lb, RDeleteLoadBalancer (lb_ID lb)) <$> filter (unclaimed lbMap npMap) l.*2 in
  emits (forM (λ _ '(_, lb), deleteStale tc lbMap npMap lb) tt l) (λ r calls v,
    v = [] ∧ ¬ is_Err r ∧ (request <$> calls) `prefix_of` deletes ∧
    (is_Ok r → request <$> calls = deletes)).
Proof.
  induction l as [|[n lb] l IH]; cbn zeta; cbn [forM].
  { apply emits_ret. split_and!; [done|by intros []|done|done]. }
  eapply emits_bind; [apply deleteStale_emits|].
  intros r calls v (-> & Hr & Hcalls). cbn [fmap list_fmap]. rewrite filter_cons.
  assert (∀ r' l', (request <$> l') `prefix_of`
      ((λ lb, RDeleteLoadBalancer (lb_ID lb)) <$> filter (unclaimed lbMap npMap) l.*2) →
    (is_Ok r' → request <$> l' = (λ lb, RDeleteLoadBalancer (lb_ID lb))
                                 <$> filter (unclaimed lbMap npMap) l.*2) → ¬ is_Err r' →
    let deletes := (λ lb, RDeleteLoadBalancer (lb_ID lb)) <$>
      (if decide (unclaimed lbMap npMap lb) then lb :: filter (unclaimed lbMap npMap) l.*2
       else filter (unclaimed lbMap npMap) l.*2) in
    ([] : list Event) = [] ∧ ¬ is_Err r' ∧ (request <$> calls ++ l') `prefix_of` deletes ∧
    (is_Ok (r' : outcome unit) → request <$> calls ++ l' = deletes)) as Hstep.
  { intros r' l' Hpre Hok Herr. cbn zeta. rewrite fmap_app, Hcalls.
    case_decide; cbn [fmap list_fmap app]; split_and!; try done.
    - by apply prefix_cons.
    - intros H'. by rewrite Hok. }
  destruct r as [[]|e|w]; [|exfalso; apply Hr; by eexists|].
  - eapply emits_mono; [apply IH|]. intros r' l' v (-> & Herr & Hpre & Hok). by apply Hstep.
  - rewrite <- (app_nil_r calls). apply Hstep; [apply prefix_nil|by intros []|by intros []].
Qed.

Definition gather_maps (services : list Service) (lbs : list VpcLoadBalancer)
    : gmap string Service * gmap string VpcLoadBalancer :=
  (makeServiceMap (cfg_ClusterID (cv_Config c)) ServiceTypeLoadBalancer services,
   makeVpcMap (cfg_ClusterID (cv_Config c)) lbs).

Definition stale (services : list Service) (lb : VpcLoadBalancer)
    : Prop :=
  unclaimed (makeServiceMap (cfg_ClusterID (cv_Config c)) ServiceTypeLoadBalancer services)
    (makeServiceMap (cfg_ClusterID (cv_Config c)) ServiceTypeNodePort services) lb.
#[export] Instance stale_dec services lb : Decision (stale services lb).
Proof. unfold stale. apply _. Defined.

Definition gather_result (services : list Service)
    (r : outcome (gmap string Service * gmap string VpcLoadBalancer)) (calls : list Call)
    (events : list Event) : Prop :=
  events = [] ∧ ∃ (o : outcome (list VpcLoadBalancer)) rest,
    calls = (RListLoadBalancers ⇒ o) :: rest ∧
    match o with
    | Ok lbs =>
        let vpcMap := makeVpcMap (cfg_ClusterID (cv_Config c)) lbs in
        let deletes := (λ lb, RDeleteLoadBalancer (lb_ID lb))
                         <$> filter (stale services) (map_to_list vpcMap).*2 in
        ¬ is_Err r ∧ (∀ req, req ∈ request <$> rest → req ∈ deletes) ∧
        (∀ m, r = Ok m → m = gather_maps services lbs ∧ request <$> rest ≡ₚ deletes)
    | Err e => rest = [] ∧ r = Err e
    | Panic w => rest = [] ∧ r = Panic w
    end.

Lemma GatherLoadBalancers_emits services :
  emits (GatherLoadBalancers tc (Some services)) (gather_result services).
Proof.
  unfold GatherLoadBalancers. change (cv_Config tc) with (cv_Config c).
  apply (emits_call_bind RListLoadBalancers). intros o _. destruct o as [lbs|e|w].
  2: { split; [done|]. by exists (Err e), []. }
  2: { split; [done|]. by exists (Panic w), []. }
  apply emits_draw_bind. intros d.
  set (vpcMap := makeVpcMap (cfg_ClusterID (cv_Config c)) lbs).
  assert (((λ lb, RDeleteLoadBalancer (lb_ID lb)) <$>
      filter (stale services) (range_map d vpcMap).*2) ≡ₚ
    ((λ lb, RDeleteLoadBalancer (lb_ID lb)) <$>
      filter (stale services) (map_to_list vpcMap).*2)) as Hperm
    by by rewrite range_map_perm.
  eapply emits_bind; [apply deleteStales_emits|].
  intros r calls v (-> & Hr & Hpre & Hok). fold (stale services) in Hpre, Hok.
  assert (∀ req, req ∈ request <$> calls →
    req ∈ (λ lb, RDeleteLoadBalancer (lb_ID lb)) <$>
      filter (stale services) (map_to_list vpcMap).*2) as Hin.
  { intros req Hreq. rewrite <- Hperm. exact (elem_of_prefix _ _ _ Hreq Hpre). }
  destruct r as [[]|e|w]; [|exfalso; apply Hr; by eexists|].
  - apply emits_ret. split; [done|]. exists (Ok lbs), calls. rewrite app_nil_r.
    split; [done|]. split_and!; [by intros []|done|].
    intros m [= <-]. split; [done|]. rewrite Hok by by eexists. exact Hperm.
  - split; [done|]. exists (Ok lbs), calls. split; [done|]. split_and!; [by intros []|done|done].
Qed.

(** ** Monitoring *)

Definition new_status (vpcMap : gmap string VpcLoadBalancer) (lbName : string) : string :=
  match vpcMap !! lbName with
  | Some lb => GetStatus lb
  | None => vpcLbStatusOfflineNotFound
  end.

(** The event of one service: a normal event when the status gets to
    online/active, a warning when another status is seen twice in a row. *)
Definition monitor_event (vpcMap : gmap string VpcLoadBalancer) (status : gmap string string)
    (entry : string * Service) : list Event :=
  let '(lbName, service) := entry in
  let old := map_get status (svc_UID service) in
  let new := new_status vpcMap lbName in
  if cv_Recorder c then
    if decide (new = vpcLbStatusOnlineActive) then
      if decide (old = new) then [] else [normal_event service lbName (getEventMessage new)]
    else if decide (old = new)
    then [warning_event service verifyingCloudLoadBalancerFailed lbName (getEventMessage new)]
    else []
  else [].

(** The silent form of the warning. *)
Lemma warning_emits service lbName text :
  emits (_ ← recordServiceWarningEvent tc service verifyingCloudLoadBalancerFailed lbName text;
         mret tt)
    (λ r l v, r = Ok tt ∧ l = [] ∧
       v = if cv_Recorder c
           then [warning_event service verifyingCloudLoadBalancerFailed lbName text] else []).
Proof.
  eapply emits_bind with (Q := λ r l v, is_Ok r ∧ l = [] ∧
    v = if cv_Recorder c
        then [warning_event service verifyingCloudLoadBalancerFailed lbName text] else []).
  - unfold recordServiceWarningEvent. change (cv_Recorder tc) with (cv_Recorder c).
    eapply emits_bind with (Q := λ r l v, is_Ok r ∧ l = [] ∧
      v = if cv_Recorder c
          then [warning_event service verifyingCloudLoadBalancerFailed lbName text] else []).
    + destruct (cv_Recorder c); [apply emits_event|apply emits_ret]; split_and!;
        done || by eexists.
    + intros r l v ([a ->] & -> & ->). apply emits_ret. rewrite !app_nil_r.
      split_and!; [by eexists|done|done].
  - intros r l v ([a ->] & -> & ->). apply emits_ret. by rewrite !app_nil_r.
Qed.

Lemma monitorService_emits vpcMap status entry :
  emits (monitorService tc vpcMap status entry) (λ r l v,
    l = [] ∧ v = monitor_event vpcMap status entry ∧
    r = Ok (<[svc_UID entry.2 := new_status vpcMap entry.1]> status)).
Proof.
  destruct entry as [lbName service]. unfold monitorService, monitor_event, new_status. cbn [fst snd].
  set (old := map_get status (svc_UID service)).
  assert (∀ new st, emits
    (_ ← (if bool_decide (old = new)
          then _ ← recordServiceWarningEvent tc service verifyingCloudLoadBalancerFailed
                     lbName (getEventMessage new); mret tt
          else mret tt : M (Env (W * list Call)) unit); mret st)
    (λ (r : outcome (gmap string string)) l v, l = [] ∧ v = (if cv_Recorder c then
        if decide (old = new) then [warning_event service verifyingCloudLoadBalancerFailed lbName
          (getEventMessage new)] else [] else []) ∧ r = Ok st)) as Hwarn.
  { intros new st. rewrite bool_decide_decide. destruct (decide (old = new)).
    - eapply emits_bind; [apply warning_emits|]. intros r l v (-> & -> & ->).
      apply emits_ret. by rewrite !app_nil_r.
    - apply emits_ret_bind, emits_ret. by destruct (cv_Recorder c). }
  destruct (vpcMap !! lbName) as [lb|].
  - cbn zeta. rewrite bool_decide_decide.
    destruct (decide (GetStatus lb = vpcLbStatusOnlineActive)) as [Hs|Hs]; [|apply Hwarn].
    rewrite <- Hs. rewrite bool_decide_not, bool_decide_decide. cbn [negb].
    destruct (decide (old = GetStatus lb)); cbn [negb].
    + apply emits_ret_bind, emits_ret. by destruct (cv_Recorder c).
    + unfold recordServiceNormalEvent. change (cv_Recorder tc) with (cv_Recorder c).
      eapply emits_bind with (Q := λ r l v, r = Ok tt ∧ l = [] ∧ v = if cv_Recorder c
        then [normal_event service lbName (getEventMessage (GetStatus lb))] else []).
      * destruct (cv_Recorder c); [by apply emits_event|by apply emits_ret].
      * intros r l v (-> & -> & ->). apply emits_ret. by rewrite !app_nil_r.
  - apply Hwarn.
Qed.

(** The status map after the services of a list. *)
Definition monitored (vpcMap : gmap string VpcLoadBalancer) (status : gmap string string)
    (entries : list (string * Service)) : gmap string string :=
  foldl (λ st e, <[svc_UID e.2 := new_status vpcMap e.1]> st) status entries.

Lemma monitored_lookup_other vpcMap status entries uid :
  uid ∉ (λ e : string * Service, svc_UID e.2) <$> entries →
  monitored vpcMap status entries !! uid = status !! uid.
Proof.
  unfold monitored. revert status. induction entries as [|e entries IH]; intros status Hu; [done|].
  cbn [foldl fmap list_fmap] in *. apply not_elem_of_cons in Hu as [Hne Hu].
  rewrite IH by done. by rewrite lookup_insert_ne.
Qed.

Lemma monitored_lookup vpcMap status entries e :
  NoDup ((λ e : string * Service, svc_UID e.2) <$> entries) → e ∈ entries →
  monitored vpcMap status entries !! svc_UID e.2 = Some (new_status vpcMap e.1).
Proof.
  unfold monitored. revert status. induction entries as [|x entries IH]; intros status Hnd He;
    [by apply not_elem_of_nil in He|]. cbn [foldl fmap list_fmap] in *.
  apply NoDup_cons in Hnd as [Hx Hnd]. apply elem_of_cons in He as [->|He]; [|by apply IH].
  fold (monitored vpcMap (<[svc_UID x.2 := new_status vpcMap x.1]> status) entries).
  rewrite monitored_lookup_other by done. by rewrite lookup_insert_eq.
Qed.

Lemma monitorServices_emits vpcMap status entries :
  NoDup ((λ e : string * Service, svc_UID e.2) <$> entries) →
  emits (forM (monitorService tc vpcMap) status entries) (λ r l v,
    l = [] ∧ v = entries ≫= monitor_event vpcMap status ∧
    r = Ok (monitored vpcMap status entries)).
Proof.
  revert status. induction entries as [|e entries IH]; intros status Hnd.
  { by apply emits_ret. }
  cbn [fmap list_fmap] in Hnd. apply NoDup_cons in Hnd as [He Hnd]. cbn [forM].
  eapply emits_bind; [apply monitorService_emits|]. intros r l v (-> & -> & ->).
  eapply emits_mono; [by apply IH|]. intros r l v (-> & -> & ->). split_and!; [done| |done].
  cbn. f_equal. apply bind_cong. intros [n s] Hin. unfold monitor_event, map_get.
  rewrite lookup_insert_ne; [done|]. intros Heq. apply He. rewrite Heq.
  apply list_elem_of_fmap. by exists (n, s).
Qed.

Lemma lbMap_elem services name s :
  (gather_maps services []).1 !! name = Some s →
  s ∈ services ∧ name = GenerateLoadBalancerName s (cfg_ClusterID (cv_Config c)) ∧
  spec_Type (svc_Spec s) = ServiceTypeLoadBalancer.
Proof.
  cbn [gather_maps fst]. rewrite makeServiceMap_lookup.
  by intros [[? <-] ?]%last_filter_Some.
Qed.

Lemma entries_unique d services :
  NoDup (svc_UID <$> services) →
  NoDup ((λ e : string * Service, svc_UID e.2)
           <$> range_map d (gather_maps services []).1).
Proof.
  intros Hu. apply NoDup_fmap_2_strong.
  - intros [n s] [n' s'] Hn%elem_of_range_map%lbMap_elem Hn'%elem_of_range_map%lbMap_elem Heq.
    destruct Hn as (Hs & -> & _), Hn' as (Hs' & -> & _).
    by rewrite (NoDup_key svc_UID services s s').
  - eapply NoDup_fmap_1, NoDup_range_map_fst.
Qed.

(** What one round of the monitor does, given the answer of the listing. *)
Definition monitor_result (services : list Service) (status : gmap string string)
    (r : outcome (gmap string string)) (calls : list Call) (events : list Event) : Prop :=
  ∃ (o : outcome (list VpcLoadBalancer)) rest, calls = (RListLoadBalancers ⇒ o) :: rest ∧
    match o with
    | Ok lbs =>
        let '(lbMap, vpcMap) := gather_maps services lbs in
        ¬ is_Err r ∧
        ∀ status', r = Ok status' →
          (∀ name s, lbMap !! name = Some s →
             status' !! svc_UID s = Some (new_status vpcMap name)) ∧
          (∀ uid, (∀ name s, lbMap !! name = Some s → svc_UID s ≠ uid) →
             status' !! uid = status !! uid) ∧
          events ≡ₚ map_to_list lbMap ≫= monitor_event vpcMap status
    | Err _ => rest = [] ∧ r = Ok status ∧ events = []
    | Panic w => rest = [] ∧ r = Panic w ∧ events = []
    end.

Lemma MonitorLoadBalancers_emits services status :
  NoDup (svc_UID <$> services) →
  emits (MonitorLoadBalancers tc (Some services) status) (monitor_result services status).
Proof.
  intros Hu. unfold MonitorLoadBalancers.
  eapply emits_attempt_bind; [apply GatherLoadBalancers_emits|].
  intros r l v (-> & o & rest & -> & Ho). destruct o as [lbs|e|w].
  2: { destruct Ho as [-> ->]. apply emits_ret. by exists (Err e), []. }
  2: { destruct Ho as [-> ->]. by exists (Panic w), []. }
  destruct Ho as (Hr & _ & Hok). destruct r as [m|e|w].
  - destruct (Hok m) as [-> _]; [done|]. unfold gather_maps. apply emits_draw_bind. intros d.
    pose proof (entries_unique d services Hu) as Hnd. cbn [gather_maps fst] in Hnd.
    eapply emits_mono; [by apply monitorServices_emits|]. intros r l v (-> & -> & ->).
    exists (Ok lbs), rest. rewrite app_nil_r. split; [done|]. split; [by intros []|].
    intros status' [= <-]. split_and!.
    + intros name s Hs. by apply (monitored_lookup _ _ _ (name, s)), elem_of_range_map.
    + intros uid Hno. apply monitored_lookup_other.
      intros ([n s] & -> & Hin%elem_of_range_map)%list_elem_of_fmap. by eapply Hno.
    + cbn [app]. by rewrite range_map_perm.
  - exfalso. apply Hr. by eexists.
  - exists (Ok lbs), rest. split; [done|]. split; [by intros []|done].
Qed.
End provider.

(** ** Properties *)

(** C14: EnsureLoadBalancer on any well-behaved SDK.  Every failure is reported by
    exactly one warning event with the error's text and success records no
    event.  When the listing finds the load balancer it is never created: a
    busy one is refused without a further call, a ready one goes through
    UpdateLoadBalancer.  When the listing does not find it, it is created once;
    the result is its status, unless it is a network load balancer that is not
    ready yet, which is an error to be retried. *)
Theorem EnsureLoadBalancer_spec {W} `{!Clock W} `{!MapIteration} (c : CloudVpc W)
    `{!SdkIdentity (cv_Sdk c)} `{!SdkWords (cv_Sdk c)} lbName service nodes :
  regular service nodes →
  emits (EnsureLoadBalancer (trace_cloud c) lbName service (Some nodes)) (λ r calls events,
    reported c service creatingCloudLoadBalancerFailed lbName r events ∧
    finds lbName r calls (λ lb rest,
      match lb with
      | Some lb => existing_run lb service nodes r rest
      | None =>
          ∃ r', create_outcome c lbName service nodes r' rest [] ∧
            match r' with
            | Ok lb => if IsReady lb || negb (IsNLB lb)
                       then r = Ok (GetLoadBalancerStatus service lb) else ¬ is_Ok r
            | _ => ¬ is_Ok r
            end
      end)).
Proof. intros Hreg. by apply EnsureLoadBalancer_emits. Qed.

Lemma EnsureLoadBalancer_spec_witness :
  reported example_cloud (example_service "u" [(80, 30303)] ∅)%Z creatingCloudLoadBalancerFailed ""
    (EnsureLoadBalancer (H := key_order) (trace_cloud example_cloud) ""
       (example_service "u" [(80, 30303)] ∅)%Z
       (Some [example_node "n1" "10.0.0.1" "z1"]) (start example_world)).1
    [warning_event (example_service "u" [(80, 30303)] ∅)%Z creatingCloudLoadBalancerFailed ""
       "Failed getting LoadBalancer: Required argument is missing"].
Proof.
  assert (regular (example_service "u" [(80, 30303)] ∅)%Z [example_node "n1" "10.0.0.1" "z1"])
    as Hreg by by_decision.
  destruct (EnsureLoadBalancer_spec (H := key_order) example_cloud ""
    (example_service "u" [(80, 30303)] ∅)%Z
    [example_node "n1" "10.0.0.1" "z1"] Hreg (start example_world))
    as (calls & events & _ & Hev & Hrep & _).
  vm_compute in Hev. rewrite <- Hev in Hrep. exact Hrep.
Defined.

(** C26: EnsureLoadBalancerDeleted.  A load balancer that is not found counts as
    deleted, without a further call; one that is found is asked to be deleted
    exactly once, and the call succeeds exactly if the deletion is accepted.
    Failures are reported by one warning event. *)
Theorem EnsureLoadBalancerDeleted_spec {W} (c : CloudVpc W) lbName service :
  emits (EnsureLoadBalancerDeleted (trace_cloud c) lbName service) (λ r calls events,
    reported c service deletingCloudLoadBalancerFailed lbName r events ∧
    finds lbName r calls (λ lb rest,
      match lb with
      | Some lb => ∃ o : outcome unit, rest = [RDeleteLoadBalancer (lb_ID lb) ⇒ o] ∧
                                       (is_Ok r ↔ is_Ok o)
      | None => rest = [] ∧ r = Ok tt
      end)).
Proof. apply EnsureLoadBalancerDeleted_emits. Qed.

(** EnsureLoadBalancerUpdated.  A load balancer that is not found is no
    error and nothing is created; a busy one is refused without a further call;
    a ready one goes through UpdateLoadBalancer, and the call succeeds exactly if
    that does.  Failures are reported by one warning event. *)
Theorem EnsureLoadBalancerUpdated_spec {W} `{!Clock W} `{!MapIteration} (c : CloudVpc W)
    `{!SdkIdentity (cv_Sdk c)} `{!SdkWords (cv_Sdk c)} lbName service nodes :
  regular service nodes →
  emits (EnsureLoadBalancerUpdated (trace_cloud c) lbName service (Some nodes))
    (λ r calls events,
      reported c service updatingCloudLoadBalancerFailed lbName r events ∧
      finds lbName r calls (λ lb rest,
        match lb with
        | Some lb =>
            if IsReady lb
            then ∃ r', update_outcome lb service nodes r' rest [] ∧ (is_Ok r ↔ is_Ok r')
            else rest = [] ∧ ¬ is_Ok r
        | None => rest = [] ∧ r = Ok tt
        end)).
Proof. intros Hreg. by apply EnsureLoadBalancerUpdated_emits. Qed.

Lemma EnsureLoadBalancerUpdated_spec_witness :
  ∃ events,
    reported example_cloud (example_service "u" [(80, 30303)] ∅)%Z updatingCloudLoadBalancerFailed
      "other"
      (EnsureLoadBalancerUpdated (H := key_order) (trace_cloud example_cloud) "other"
         (example_service "u" [(80, 30303)] ∅)%Z
         (Some [example_node "n1" "10.0.0.1" "z1"]) (start example_world)).1 events ∧
    events = [].
Proof.
  assert (regular (example_service "u" [(80, 30303)] ∅)%Z [example_node "n1" "10.0.0.1" "z1"])
    as Hreg by by_decision.
  destruct (EnsureLoadBalancerUpdated_spec (H := key_order) example_cloud "other"
    (example_service "u" [(80, 30303)] ∅)%Z
    [example_node "n1" "10.0.0.1" "z1"] Hreg (start example_world))
    as (calls & events & _ & Hev & Hrep & _).
  exists events. split; [exact Hrep|]. by vm_compute in Hev.
Defined.

(** GetLoadBalancer writes nothing.  A load balancer that is found exists,
    with its hostname as status - or with an empty status while it is busy and
    the service has none yet; one that is not found does not exist. *)
Theorem GetLoadBalancer_spec {W} (c : CloudVpc W) lbName service :
  emits (GetLoadBalancer (trace_cloud c) lbName service) (λ r calls events,
    reported c service gettingCloudLoadBalancerFailed lbName r events ∧
    finds lbName r calls (λ lb rest, rest = [] ∧
      r = Ok match lb with
             | Some lb =>
                 (Some (if IsReady lb || bool_decide (lbs_Ingress (svc_LoadBalancer service) ≠ None)
                        then GetLoadBalancerStatus service lb else {| lbs_Ingress := None |}), true)
             | None => (None, false)
             end)).
Proof. apply GetLoadBalancer_emits. Qed.

(** C16: what gathering deletes.  It lists the load balancers once and then only
    deletes: load balancers from the list that are ready, carry the name prefix
    of this cluster, and are not named after any LoadBalancer or NodePort service
    of the given list.  A failed deletion does not stop it; unless the SDK
    panics it deletes every such load balancer (the last one of each name)
    exactly once, in whatever order the map yields, and returns the services
    and the load balancers by name. *)
Theorem GatherLoadBalancers_spec {W} `{!MapIteration} (c : CloudVpc W) services :
  emits (GatherLoadBalancers (trace_cloud c) (Some services)) (λ r calls events,
    events = [] ∧ ∃ (o : outcome (list VpcLoadBalancer)) rest,
      calls = (RListLoadBalancers ⇒ o) :: rest ∧
      match o with
      | Ok lbs =>
          (∀ req, req ∈ request <$> rest → ∃ lb,
             req = RDeleteLoadBalancer (lb_ID lb) ∧ lb ∈ lbs ∧ IsReady lb = true ∧
             in_cluster (cfg_ClusterID (cv_Config c)) lb ∧
             ∀ s, s ∈ services →
               spec_Type (svc_Spec s) = ServiceTypeLoadBalancer ∨
               spec_Type (svc_Spec s) = ServiceTypeNodePort →
               GenerateLoadBalancerName s (cfg_ClusterID (cv_Config c)) ≠ lb_Name lb) ∧
          (∀ m, r = Ok m →
             m = gather_maps c services lbs ∧
             request <$> rest ≡ₚ (λ lb, RDeleteLoadBalancer (lb_ID lb)) <$>
               filter (stale c services) (map_to_list m.2).*2) ∧
          ¬ is_Err r
      | Err e => rest = [] ∧ r = Err e
      | Panic w => rest = [] ∧ r = Panic w
      end).
Proof.
  eapply emits_mono; [apply GatherLoadBalancers_emits|].
  intros r l v (-> & o & rest & -> & Ho). split; [done|]. exists o, rest. split; [done|].
  destruct o as [lbs|e|w]; [|done..]. destruct Ho as (Hr & Hin & Hok). split_and!; [| |done].
  - intros req (lb & -> & [Hst Hlb]%list_elem_of_filter)%Hin%list_elem_of_fmap.
    apply list_elem_of_fmap in Hlb as ([n lb'] & -> & Hlb%elem_of_map_to_list). cbn [snd] in *.
    rewrite makeVpcMap_lookup in Hlb. apply last_filter_Some in Hlb as [[Hc <-] Hlb].
    exists lb'. destruct Hst as (Hready & H1 & H2). split_and!; [done..|].
    rewrite makeServiceMap_lookup, last_filter_None in H1.
    rewrite makeServiceMap_lookup, last_filter_None in H2.
    intros s Hs [Ht|Ht] Heq; [by apply (H1 s Hs)|by apply (H2 s Hs)].
  - intros m Hm. destruct (Hok m Hm) as [-> ?]. done.
Qed.



(** A load balancer named by the annotation is never found by the monitor
    when the name does not start with the cluster's prefix: its status is
    offline/not_found whatever load balancers there are, although
    EnsureLoadBalancer finds and uses it by that name. *)
Theorem monitor_misses_named_load_balancer clusterID service lbs name :
  map_get (svc_Annotations service) serviceAnnotationLbName = name →
  name ≠ "" → hasPrefix name (cluster_prefix clusterID) = false →
  new_status (makeVpcMap clusterID lbs) (GenerateLoadBalancerName service clusterID)
  = vpcLbStatusOfflineNotFound.
Proof.
  intros Ha Hne Hp. unfold GenerateLoadBalancerName. rewrite Ha, bool_decide_eq_true_2 by done.
  unfold new_status. rewrite makeVpcMap_lookup.
  destruct (last _) as [lb|] eqn:Hl; [|done].
  apply last_filter_Some in Hl as [[Hc <-] _]. unfold in_cluster in Hc. congruence.
Qed.

Lemma monitor_misses_named_load_balancer_witness :
  new_status
    (makeVpcMap "cluster" [example_lb "lb" "my-lb" "online" "active" ["s1"] []])
    (GenerateLoadBalancerName (example_service "u" [] {[serviceAnnotationLbName := "my-lb"]})
       "cluster")
  = "offline/not_found".
Proof.
  refine (monitor_misses_named_load_balancer "cluster"
    (example_service "u" [] {[serviceAnnotationLbName := "my-lb"]})
    [example_lb "lb" "my-lb" "online" "active" ["s1"] []] "my-lb" _ _ _); by vm_compute.
Defined.
