(* ===== verification/Observation.v ===== *)
(** * Observation: looking at the calls changes nothing

    The theorems of LbaasProps and ProviderProps speak of an observed cloud
    ([trace_cloud]), whose world also keeps the list of calls.  [observes] is
    the simulation between a program on the observed world and the same program
    on the plain one: the same outcome, and the same environment but for the
    list.  Every operation of the load balancer logic is observed faithfully,
    so what those theorems say of outcomes, events and requests holds of the
    plain cloud. *)
From S2P Require Import Prelude GoStrings Kube VpcTypes VpcConfig VpcUpdates VpcSdk StaticVpc.
From S2P Require Import VpcLbaas VpcProvider.

Open Scope go_scope.

(** The environment without the list of calls. *)
Definition forget {W} (e : Env (W * list Call)) : Env W :=
  {| env_world := (env_world e).1; env_events := env_events e; env_draws := env_draws e |}.

Definition observes {W A} (m' : M (Env (W * list Call)) A) (m : M (Env W) A) : Prop :=
  ∀ e, m (forget e) = ((m' e).1, forget (m' e).2).

(** ** Rules *)

Section rules.
Context {W : Type}.
Local Abbreviation prog' := (M (Env (W * list Call))).
Local Abbreviation prog := (M (Env W)).

Lemma observes_ret {A} (a : A) : observes (mret a : prog' A) (mret a : prog A).
Proof. by intros e. Qed.
Lemma observes_fail {A} err : observes (fail err : prog' A) (fail err : prog A).
Proof. by intros e. Qed.
Lemma observes_lift {A} (o : outcome A) : observes (lift o : prog' A) (lift o : prog A).
Proof. by intros e. Qed.
Lemma observes_draw : observes (draw : prog' nat) (draw : prog nat).
Proof. by intros e. Qed.
Lemma observes_event ev : observes (record_event ev : prog' unit) (record_event ev : prog unit).
Proof. by intros e. Qed.
Lemma observes_now `{!Clock W} : observes (now : prog' Z) (now : prog Z).
Proof. intros [[w tr] ev d]. unfold now, forget. cbn. by destruct (time_Now w). Qed.
Lemma observes_sleep `{!Clock W} ns : observes (sleep ns : prog' unit) (sleep ns : prog unit).
Proof. by intros [[w tr] ev d]. Qed.
Lemma observes_written (s : CloudVpcSdk W) pools :
  observes (written (traced s) pools) (written s pools).
Proof. by intros [[w tr] ev d]. Qed.
Lemma observes_call r (m : M W (answer r)) : observes (sdk (traced_call r m)) (sdk m).
Proof. intros [[w tr] ev d]. unfold sdk, traced_call, forget. cbn. by destruct (m w). Qed.

Lemma observes_bind {A B} (m' : prog' A) (m : prog A) (f' : A → prog' B) (f : A → prog B) :
  observes m' m → (∀ a, observes (f' a) (f a)) → observes (m' ≫= f') (m ≫= f).
Proof.
  intros Hm Hf e. unfold mbind, M_bind. rewrite Hm.
  destruct (m' e) as [[a| |] e1]; [apply Hf|done..].
Qed.
Lemma observes_attempt {A} (m' : prog' A) (m : prog A) :
  observes m' m → observes (attempt m') (attempt m).
Proof. intros Hm e. unfold attempt. rewrite Hm. by destruct (m' e) as [[a| |] e1]. Qed.
Lemma observes_forM {A B} (f' : A → B → prog' A) (f : A → B → prog A) acc l :
  (∀ acc x, observes (f' acc x) (f acc x)) → observes (forM f' acc l) (forM f acc l).
Proof.
  intros Hf. revert acc. induction l as [|x l IH]; intros acc; [apply observes_ret|].
  cbn [forM]. by apply observes_bind.
Qed.
End rules.

Create HintDb observe.
#[export] Hint Resolve observes_ret observes_fail observes_lift observes_draw observes_event
  observes_now observes_sleep observes_written observes_attempt : observe.

(** Go through a program on both sides. *)
Ltac observe :=
  repeat first
    [ progress intros
    | solve [eauto with observe]
    | apply observes_bind | apply observes_attempt | apply observes_forM
    | apply (observes_call (RCreateLoadBalancer _ _ _ _ _))
    | apply (observes_call (RCreateListener _ _ _)) | apply (observes_call (RCreatePool _ _ _ _))
    | apply (observes_call (RCreatePoolMember _ _ _ _)) | apply (observes_call (RDeleteLoadBalancer _))
    | apply (observes_call (RDeleteListener _ _)) | apply (observes_call (RDeletePool _ _))
    | apply (observes_call (RDeletePoolMember _ _ _))
    | apply (observes_call (RReplacePoolMembers _ _ _ _))
    | apply (observes_call (RUpdatePool _ _ _ _)) | apply (observes_call (RGetLoadBalancer _))
    | apply (observes_call RListLoadBalancers) | apply (observes_call (RListListeners _))
    | apply (observes_call (RListPools _)) | apply (observes_call RListSubnets)
    | progress cbn zeta
    | progress cbn [trace_cloud cv_Config cv_Recorder]
    | match goal with |- observes (match ?x with _ => _ end) _ => destruct x end ].

(** ** The operations *)

Section operations.
Context {W : Type} `{!Clock W} `{!MapIteration} (c : CloudVpc W).
Local Abbreviation tc := (trace_cloud c).

Lemma observes_Find nameID service :
  observes (FindLoadBalancer tc nameID service) (FindLoadBalancer c nameID service).
Proof. unfold FindLoadBalancer. observe. Qed.
Lemma observes_Delete lb service :
  observes (DeleteLoadBalancer tc lb service) (DeleteLoadBalancer c lb service).
Proof. unfold DeleteLoadBalancer. observe. Qed.
Lemma observes_Create lbName service nodes :
  observes (CreateLoadBalancer tc lbName service nodes) (CreateLoadBalancer c lbName service nodes).
Proof. unfold CreateLoadBalancer. observe. Qed.

Lemma observes_processUpdate lb update nodeList pools options :
  observes (processUpdate tc lb update nodeList pools options)
           (processUpdate c lb update nodeList pools options).
Proof.
  unfold processUpdate, createLoadBalancerListener, createLoadBalancerPool,
    createLoadBalancerPoolMember, deleteLoadBalancerListener, deleteLoadBalancerPool,
    deleteLoadBalancerPoolMember, updateLoadBalancerPool, replaceLoadBalancerPoolMembers.
  observe.
Qed.

Lemma observes_wait_loop n lbID start minSleep maxWait lb :
  observes (wait_loop tc n lbID start minSleep maxWait lb)
           (wait_loop c n lbID start minSleep maxWait lb).
Proof.
  revert lb. induction n as [|n IH]; intros lb; cbn [wait_loop]; observe.
Qed.
Lemma observes_refresh lb : observes (refreshLoadBalancer tc lb) (refreshLoadBalancer c lb).
Proof.
  unfold refreshLoadBalancer, WaitLoadBalancerReady. pose proof observes_wait_loop.
  observe.
Qed.

Lemma observes_processUpdates first lb updates nodeList pools options :
  observes (processUpdates tc first lb updates nodeList pools options)
           (processUpdates c first lb updates nodeList pools options).
Proof.
  revert first lb. induction updates as [|update rest IH]; intros first lb;
    cbn [processUpdates]; [apply observes_ret|].
  apply observes_bind; [destruct first; [apply observes_ret|apply observes_refresh]|].
  intros lb'. apply observes_bind; [apply observes_processUpdate|]. intros _. apply IH.
Qed.
Lemma observes_Update lb service nodes :
  observes (UpdateLoadBalancer tc lb service nodes) (UpdateLoadBalancer c lb service nodes).
Proof.
  unfold UpdateLoadBalancer. pose proof observes_processUpdates. observe.
Qed.
#[local] Hint Resolve observes_Find observes_Delete observes_Create observes_Update : observe.

Lemma observes_fail_with_event {A} service reason lbName errString :
  observes (fail_with_event (A := A) tc service reason lbName errString)
           (fail_with_event c service reason lbName errString).
Proof. unfold fail_with_event, recordServiceWarningEvent. observe. Qed.
#[local] Hint Resolve observes_fail_with_event : observe.

Lemma observes_ensureExisting lbName service nodes lb :
  observes (ensureExisting tc lbName service nodes lb) (ensureExisting c lbName service nodes lb).
Proof. unfold ensureExisting. observe. Qed.
#[local] Hint Resolve observes_ensureExisting : observe.

Lemma observes_Ensure lbName service nodes :
  observes (EnsureLoadBalancer tc lbName service nodes) (EnsureLoadBalancer c lbName service nodes).
Proof. unfold EnsureLoadBalancer. observe. Qed.
Lemma observes_EnsureDeleted lbName service :
  observes (EnsureLoadBalancerDeleted tc lbName service) (EnsureLoadBalancerDeleted c lbName service).
Proof. unfold EnsureLoadBalancerDeleted. observe. Qed.
Lemma observes_EnsureUpdated lbName service nodes :
  observes (EnsureLoadBalancerUpdated tc lbName service nodes)
           (EnsureLoadBalancerUpdated c lbName service nodes).
Proof. unfold EnsureLoadBalancerUpdated. observe. Qed.
Lemma observes_Get lbName service :
  observes (GetLoadBalancer tc lbName service) (GetLoadBalancer c lbName service).
Proof. unfold GetLoadBalancer. observe. Qed.
Lemma observes_Gather services :
  observes (GatherLoadBalancers tc services) (GatherLoadBalancers c services).
Proof. unfold GatherLoadBalancers, deleteStale. observe. Qed.
Lemma observes_Monitor services status :
  observes (MonitorLoadBalancers tc services status) (MonitorLoadBalancers c services status).
Proof.
  pose proof observes_Gather.
  unfold MonitorLoadBalancers, monitorService, recordServiceWarningEvent, recordServiceNormalEvent.
  observe.
Qed.
End operations.

(** Every operation of the load balancer logic is observed faithfully: run
    from the same environment, the observed operation and the plain one have the
    same outcome and leave the same world, events and draws. *)
Theorem observation_faithful {W} `{!Clock W} `{!MapIteration} (c : CloudVpc W) :
  (∀ lbName service nodes, observes (EnsureLoadBalancer (trace_cloud c) lbName service nodes)
                                    (EnsureLoadBalancer c lbName service nodes)) ∧
  (∀ lbName service, observes (EnsureLoadBalancerDeleted (trace_cloud c) lbName service)
                              (EnsureLoadBalancerDeleted c lbName service)) ∧
  (∀ lbName service nodes, observes (EnsureLoadBalancerUpdated (trace_cloud c) lbName service nodes)
                                    (EnsureLoadBalancerUpdated c lbName service nodes)) ∧
  (∀ lbName service, observes (GetLoadBalancer (trace_cloud c) lbName service)
                              (GetLoadBalancer c lbName service)) ∧
  (∀ services status, observes (MonitorLoadBalancers (trace_cloud c) services status)
                               (MonitorLoadBalancers c services status)).
Proof.
  split_and!; intros; [apply observes_Ensure|apply observes_EnsureDeleted|
    apply observes_EnsureUpdated|apply observes_Get|apply observes_Monitor].
Qed.
