(* ===== verification/VpcSdkFake.v ===== *)
(** * VpcSdkFake: the mock SDK (pkg/vpcctl/vpc_sdk_fake.go)

    A mock is an object with one VPC object of each kind and a map of errors to
    return.  The mocks of the process are the list [mock_heap], a part of the
    world; an SDK is the mock at a place of it.  The methods hand out pointers
    to the mock's own objects, so what a caller writes through them changes the
    mock ([sdk_written]): step 2 of [UpdateLoadBalancer] renames its pool. *)
From S2P Require Import Prelude GoStrings Kube VpcTypes VpcConfig VpcSdk VpcProvider.

Record VpcSdkFake := {
  fake_Error : gmap string error;
  fake_LoadBalancerReady : VpcLoadBalancer;
  fake_LoadBalancerNotReady : VpcLoadBalancer;
  fake_Listener : VpcLoadBalancerListener;
  fake_Pool : VpcLoadBalancerPool;
  fake_Member1 : VpcLoadBalancerPoolMember;
  fake_Member2 : VpcLoadBalancerPoolMember;
  fake_Subnet1 : VpcSubnet;
  fake_Subnet2 : VpcSubnet;
}.

Definition fake_lb (name id hostname provisioning operating : string)
    (subnet : VpcObjectReference) : VpcLoadBalancer :=
  {| lb_CreatedAt := ""; lb_Hostname := hostname; lb_ID := id; lb_IsPublic := true;
     lb_ListenerIDs := []; lb_Name := name; lb_OperatingStatus := operating;
     lb_Pools := [{| ref_ID := ""; ref_Name := "tcp-80-30303" |}];
     lb_PrivateIps := ["10.0.0.1"; "10.0.0.2"]; lb_ProfileFamily := "";
     lb_ProvisioningStatus := provisioning; lb_PublicIps := ["192.168.0.1"; "192.168.0.2"];
     lb_ResourceGroup := ref0; lb_Subnets := [subnet]; lb_VpcID := "" |}.

Definition fake_member (target : string) : VpcLoadBalancerPoolMember :=
  {| mem_Health := "ok"; mem_ID := "memberID"; mem_Port := 30303;
     mem_ProvisioningStatus := LoadBalancerProvisioningStatusActive;
     mem_TargetIPAddress := target; mem_TargetInstanceID := ""; mem_Weight := 50 |}.

(** The object [NewVpcSdkFake] builds. *)
Definition fakeObjects : VpcSdkFake :=
  let member1 := fake_member "192.168.1.1" in
  let member2 := fake_member "192.168.2.2" in
  {| fake_Error := ∅;
     fake_LoadBalancerReady :=
       fake_lb (VpcLbNamePrefix +:+ "-clusterID-Ready") "Ready" "lb.ibm.com"
         LoadBalancerProvisioningStatusActive LoadBalancerOperatingStatusOnline
         {| ref_Name := "subnet1"; ref_ID := "1111" |};
     fake_LoadBalancerNotReady :=
       fake_lb (VpcLbNamePrefix +:+ "-clusterID-NotReady") "NotReady" "notready.lb.ibm.com"
         LoadBalancerProvisioningStatusCreatePending LoadBalancerOperatingStatusOffline
         {| ref_Name := "subnet2"; ref_ID := "2222" |};
     fake_Listener :=
       {| lst_ConnectionLimit := 0;
          lst_DefaultPool := {| ref_ID := ""; ref_Name := "tcp-80-30303" |};
          lst_ID := "listener"; lst_Port := 80; lst_Protocol := LoadBalancerProtocolTCP;
          lst_ProvisioningStatus := LoadBalancerProvisioningStatusActive |};
     fake_Pool :=
       {| pool_Algorithm := LoadBalancerAlgorithmRoundRobin;
          pool_HealthMonitor :=
            {| hm_Delay := 0; hm_MaxRetries := 3; hm_Port := 30303; hm_Timeout := 3;
               hm_Type := LoadBalancerProtocolTCP; hm_URLPath := "/" |};
          pool_ID := "poolID"; pool_Members := [member1; member2];
          pool_Name := "tcp-80-30303"; pool_Protocol := LoadBalancerProtocolTCP;
          pool_ProvisioningStatus := LoadBalancerProvisioningStatusActive;
          pool_ProxyProtocol := ""; pool_SessionPersistence := "None" |};
     fake_Member1 := member1;
     fake_Member2 := member2;
     fake_Subnet1 :=
       {| sub_AvailableIpv4AddressCount := 246; sub_CreatedAt := ""; sub_ID := "subnetID";
          sub_IPVersion := "ipv4"; sub_Ipv4CidrBlock := "10.240.0.0/24"; sub_Name := "subnet1";
          sub_NetworkACL := ref0; sub_PublicGateway := ref0; sub_ResourceGroup := ref0;
          sub_Status := "available"; sub_TotalIpv4AddressCount := 256;
          sub_Vpc := {| ref_Name := "vpc"; ref_ID := "vpcID" |}; sub_Zone := "us-south-1" |};
     fake_Subnet2 :=
       {| sub_AvailableIpv4AddressCount := 0; sub_CreatedAt := ""; sub_ID := "subnetVpc2";
          sub_IPVersion := ""; sub_Ipv4CidrBlock := ""; sub_Name := "subnetVpc2";
          sub_NetworkACL := ref0; sub_PublicGateway := ref0; sub_ResourceGroup := ref0;
          sub_Status := ""; sub_TotalIpv4AddressCount := 0;
          sub_Vpc := {| ref_Name := "vpc2"; ref_ID := "vpc2ID" |};
          sub_Zone := "us-south-2" |} |}.

Definition set_fake_Error (m : gmap string error) (v : VpcSdkFake) : VpcSdkFake :=
  {| fake_Error := m; fake_LoadBalancerReady := fake_LoadBalancerReady v;
     fake_LoadBalancerNotReady := fake_LoadBalancerNotReady v;
     fake_Listener := fake_Listener v; fake_Pool := fake_Pool v;
     fake_Member1 := fake_Member1 v; fake_Member2 := fake_Member2 v;
     fake_Subnet1 := fake_Subnet1 v; fake_Subnet2 := fake_Subnet2 v |}.

Definition set_fake_Pool (pool : VpcLoadBalancerPool) (v : VpcSdkFake) : VpcSdkFake :=
  {| fake_Error := fake_Error v; fake_LoadBalancerReady := fake_LoadBalancerReady v;
     fake_LoadBalancerNotReady := fake_LoadBalancerNotReady v;
     fake_Listener := fake_Listener v; fake_Pool := pool;
     fake_Member1 := fake_Member1 v; fake_Member2 := fake_Member2 v;
     fake_Subnet1 := fake_Subnet1 v; fake_Subnet2 := fake_Subnet2 v |}.

(** ** The mocks of the process *)

Class MockHeap (W : Type) := {
  mock_heap : W → list VpcSdkFake;
  set_mock_heap : list VpcSdkFake → W → W;
}.
#[export] Hint Mode MockHeap ! : typeclass_instances.
Class MockHeapLaws (W : Type) `{!MockHeap W} : Prop :=
  mock_heap_set : ∀ l (w : W), mock_heap (set_mock_heap l w) = l.

#[export] Instance traced_mocks {W} `{!MockHeap W} : MockHeap (W * list Call) := {|
  mock_heap w := mock_heap w.1;
  set_mock_heap l w := (set_mock_heap l w.1, w.2);
|}.
#[export] Instance traced_mocks_laws {W} `{!MockHeap W} `{!MockHeapLaws W} :
  MockHeapLaws (W * list Call).
Proof. intros l [w tr]. apply (mock_heap_set (W := W)). Qed.

(** A world without mocks, for programs that build none. *)
Definition no_mocks {W} : MockHeap W := {| mock_heap _ := []; set_mock_heap _ w := w |}.

Section fake.
Context {W : Type} `{!MockHeap W} (at_ : nat).

Definition update_mock (f : VpcSdkFake → VpcSdkFake) (w : W) : W :=
  set_mock_heap (alter f at_ (mock_heap w)) w.

(** [if v.Error[method] != nil { return v.Error[method] }; return x]. *)
Definition fake_call {A} (method : string) (x : VpcSdkFake → A) : M W A := λ w,
  match mock_heap w !! at_ with
  | None => (Panic "nil pointer", w)
  | Some v =>
      match fake_Error v !! method with
      | Some e => (Err e, w)
      | None => (Ok (x v), w)
      end
  end.

(** An entry holding nil reads as no entry. *)
Definition ClearFakeSdkError (methodName : string) : M W unit :=
  modify (update_mock (λ v, set_fake_Error (delete methodName (fake_Error v)) v)).
Definition SetFakeSdkError (methodName : string) : M W unit :=
  modify (update_mock (λ v,
    set_fake_Error (<[methodName := ErrorString (methodName +:+ " failed")]> (fake_Error v)) v)).

Definition Fake_CreateLoadBalancer (lbName : string) (nodeList poolList subnetList : list string)
    (options : ServiceOptions) : M W VpcLoadBalancer :=
  fake_call "CreateLoadBalancer" (λ v,
    if hasSuffix lbName "-Ready" then fake_LoadBalancerReady v else fake_LoadBalancerNotReady v).

Definition Fake_GetLoadBalancer (lbID : string) : M W VpcLoadBalancer :=
  fake_call "GetLoadBalancer" (λ v,
    if bool_decide (lbID = lb_ID (fake_LoadBalancerNotReady v))
    then fake_LoadBalancerNotReady v else fake_LoadBalancerReady v).

Definition FakeSdk : CloudVpcSdk W := {|
  sdk_CreateLoadBalancer := Fake_CreateLoadBalancer;
  sdk_CreateLoadBalancerListener _ _ _ := fake_call "CreateLoadBalancerListener" fake_Listener;
  sdk_CreateLoadBalancerPool _ _ _ _ := fake_call "CreateLoadBalancerPool" fake_Pool;
  sdk_CreateLoadBalancerPoolMember _ _ _ _ :=
    fake_call "CreateLoadBalancerPoolMember" fake_Member1;
  sdk_DeleteLoadBalancer _ := fake_call "DeleteLoadBalancer" (λ _, tt);
  sdk_DeleteLoadBalancerListener _ _ := fake_call "DeleteLoadBalancerListener" (λ _, tt);
  sdk_DeleteLoadBalancerPool _ _ := fake_call "DeleteLoadBalancerPool" (λ _, tt);
  sdk_DeleteLoadBalancerPoolMember _ _ _ := fake_call "DeleteLoadBalancerPoolMember" (λ _, tt);
  sdk_GetLoadBalancer := Fake_GetLoadBalancer;
  sdk_GetSubnet _ := fake_call "GetSubnet" fake_Subnet1;
  sdk_ListLoadBalancers :=
    fake_call "ListLoadBalancers" (λ v, [fake_LoadBalancerReady v; fake_LoadBalancerNotReady v]);
  sdk_ListLoadBalancerListeners _ :=
    fake_call "ListLoadBalancerListeners" (λ v, [fake_Listener v]);
  sdk_ListLoadBalancerPools _ := fake_call "ListLoadBalancerPools" (λ v, [fake_Pool v]);
  sdk_ListLoadBalancerPoolMembers _ _ :=
    fake_call "ListLoadBalancerPoolMembers" (λ v, [fake_Member1 v; fake_Member2 v]);
  sdk_ListSubnets := fake_call "ListSubnets" (λ v, [fake_Subnet1 v; fake_Subnet2 v]);
  sdk_ReplaceLoadBalancerPoolMembers _ _ _ _ :=
    fake_call "ReplaceLoadBalancerPoolMembers" (λ v, [fake_Member1 v; fake_Member2 v]);
  sdk_UpdateLoadBalancerPool _ _ _ _ := fake_call "UpdateLoadBalancerPool" fake_Pool;
  sdk_written pools :=
    match pools with
    | [pool] => update_mock (set_fake_Pool pool)
    | _ => id
    end;
|}.
End fake.

(** A new mock, at the end of the list. *)
Definition NewVpcSdkFake {W} `{!MockHeap W} : M W (CloudVpcSdk W) := λ w,
  (Ok (FakeSdk (length (mock_heap w))), set_mock_heap (mock_heap w ++ [fakeObjects]) w).
