(* ===== verification/VpcSdkGen2.v ===== *)
(** * VpcSdkGen2: the VPC Gen2 SDK (pkg/vpcctl/vpc_sdk_gen2.go)

    The requests built for the IBM VPC client, the conversion of its answers,
    and the pagination loops.  The client, [sdk.VpcV1] of vpc-go-sdk, is not
    part of the repository: it is the class [VpcV1], an unspecified set of
    operations on the world.  Its data are records of the fields the source
    reads or writes; a pointer field is an [option].  [AsPatch] is the client's
    conversion of a patch, and [url_start] stands for [url.Parse] followed by
    [Query().Get("start")]. *)
From S2P Require Import Prelude GoStrings Kube VpcTypes VpcConfig VpcSdk.

(** ** Data of the client *)

Record sdk_Reference := { r_ID : option string; r_Name : option string }.
Record sdk_IP := { ip_Address : option string }.
Record sdk_Profile := { pf_Family : option string }.

Record sdk_LoadBalancer := {
  slb_CreatedAt : option string;
  slb_Hostname : option string;
  slb_ID : option string;
  slb_IsPublic : option bool;
  slb_Listeners : list sdk_Reference;
  slb_Name : option string;
  slb_OperatingStatus : option string;
  slb_Pools : list sdk_Reference;
  slb_PrivateIps : list sdk_IP;
  slb_Profile : option sdk_Profile;
  slb_ProvisioningStatus : option string;
  slb_PublicIps : list sdk_IP;
  slb_ResourceGroup : option sdk_Reference;
  slb_Subnets : list sdk_Reference;
}.

Record sdk_LoadBalancerListener := {
  sl_ConnectionLimit : option Z;
  sl_DefaultPool : option sdk_Reference;
  sl_ID : option string;
  sl_Port : option Z;
  sl_Protocol : option string;
  sl_ProvisioningStatus : option string;
}.

Record sdk_HealthMonitor := {
  shm_Delay : option Z;
  shm_MaxRetries : option Z;
  shm_Port : option Z;
  shm_Timeout : option Z;
  shm_Type : option string;
  shm_URLPath : option string;
}.

(** [Target] is an interface; the source asserts it to be the generic type. *)
Inductive sdk_MemberTarget :=
  | LoadBalancerPoolMemberTarget (Address ID : option string)
  | OtherMemberTarget.

Record sdk_LoadBalancerPoolMember := {
  sm_Health : option string;
  sm_ID : option string;
  sm_Port : option Z;
  sm_ProvisioningStatus : option string;
  sm_Target : option sdk_MemberTarget;
  sm_Weight : option Z;
}.

Record sdk_LoadBalancerPool := {
  spl_Algorithm : option string;
  spl_HealthMonitor : option sdk_HealthMonitor;
  spl_ID : option string;
  spl_Members : list sdk_Reference;
  spl_Name : option string;
  spl_Protocol : option string;
  spl_ProvisioningStatus : option string;
  spl_ProxyProtocol : option string;
  spl_SessionPersistence : option (option string);
}.

Record sdk_Subnet := {
  ss_AvailableIpv4AddressCount : option Z;
  ss_CreatedAt : option string;
  ss_ID : option string;
  ss_IPVersion : option string;
  ss_Ipv4CIDRBlock : option string;
  ss_Name : option string;
  ss_NetworkACL : option sdk_Reference;
  ss_PublicGateway : option sdk_Reference;
  ss_ResourceGroup : option sdk_Reference;
  ss_Status : option string;
  ss_TotalIpv4AddressCount : option Z;
  ss_VPC : option sdk_Reference;
  ss_Zone : option (option string);
}.

(** One page of a list: the items and [Next.Href]. *)
Record sdk_Page (A : Type) := {
  pg_Items : list A;
  pg_Next : option (option string);
}.
Arguments pg_Items {A}.
Arguments pg_Next {A}.

(** Templates sent to the client.  The health monitor prototype and patch have
    the same fields. *)
Record HealthMonitorPrototype := {
  hp_Delay : Z;
  hp_MaxRetries : Z;
  hp_Port : Z;
  hp_Timeout : Z;
  hp_Type : string;
  hp_URLPath : option string;
}.
Record MemberPrototype := { mp_Port : Z; mp_Address : string }.
Record PoolPrototype := {
  pp_Algorithm : string;
  pp_HealthMonitor : HealthMonitorPrototype;
  pp_Members : list MemberPrototype;
  pp_Name : string;
  pp_Protocol : string;
  pp_ProxyProtocol : option string;
}.
(** In a load balancer the listener names its pool; on its own it gives the
    pool's ID. *)
Record ListenerPrototype := {
  lp_ConnectionLimit : Z;
  lp_DefaultPool : string;
  lp_Port : Z;
  lp_Protocol : string;
}.
Record CreateLoadBalancerOptions := {
  co_IsPublic : bool;
  co_Subnets : list string;
  co_Listeners : list ListenerPrototype;
  co_Name : string;
  co_Pools : list PoolPrototype;
  co_ResourceGroup : string;
}.
Record LoadBalancerPoolPatch := {
  pt_HealthMonitor : HealthMonitorPrototype;
  pt_Name : string;
  pt_ProxyProtocol : option string;
}.

(** The operations of the client the source calls. *)
Class VpcV1 (W Patch : Type) := {
  cl_AsPatch : LoadBalancerPoolPatch → outcome Patch;
  cl_CreateLoadBalancer : CreateLoadBalancerOptions → M W sdk_LoadBalancer;
  cl_CreateLoadBalancerListener (lbID : string) : ListenerPrototype → M W sdk_LoadBalancerListener;
  cl_CreateLoadBalancerPool (lbID : string) : PoolPrototype → M W sdk_LoadBalancerPool;
  cl_CreateLoadBalancerPoolMember (lbID poolID : string)
    : MemberPrototype → M W sdk_LoadBalancerPoolMember;
  cl_DeleteLoadBalancer (lbID : string) : M W unit;
  cl_DeleteLoadBalancerListener (lbID listenerID : string) : M W unit;
  cl_DeleteLoadBalancerPool (lbID poolID : string) : M W unit;
  cl_DeleteLoadBalancerPoolMember (lbID poolID memberID : string) : M W unit;
  cl_GetLoadBalancer (lbID : string) : M W sdk_LoadBalancer;
  cl_GetSubnet (subnetID : string) : M W sdk_Subnet;
  cl_ListLoadBalancers (start : option string) : M W (sdk_Page sdk_LoadBalancer);
  cl_ListLoadBalancerListeners (lbID : string) : M W (list sdk_LoadBalancerListener);
  cl_ListLoadBalancerPools (lbID : string) : M W (list sdk_LoadBalancerPool);
  cl_ListLoadBalancerPoolMembers (lbID poolID : string) : M W (list sdk_LoadBalancerPoolMember);
  cl_ListSubnets (start : option string) : M W (sdk_Page sdk_Subnet);
  cl_ReplaceLoadBalancerPoolMembers (lbID poolID : string)
    : list MemberPrototype → M W (list sdk_LoadBalancerPoolMember);
  cl_UpdateLoadBalancerPool (lbID poolID : string) : Patch → M W sdk_LoadBalancerPool;
}.

(** ** Templates *)

Definition genLoadBalancerHealthMonitor (nodePort healthCheckPort : Z) : HealthMonitorPrototype :=
  if (0 <? healthCheckPort)%Z then
    {| hp_Delay := 5; hp_MaxRetries := 2; hp_Port := healthCheckPort; hp_Timeout := 2;
       hp_Type := LoadBalancerProtocolHTTP; hp_URLPath := Some "/" |}
  else
    {| hp_Delay := 5; hp_MaxRetries := 2; hp_Port := nodePort; hp_Timeout := 2;
       hp_Type := LoadBalancerProtocolTCP; hp_URLPath := None |}.

(** The patch version, written out again in the source. *)
Definition genLoadBalancerHealthMonitorUpdate (nodePort healthCheckPort : Z)
    : HealthMonitorPrototype :=
  if (0 <? healthCheckPort)%Z then
    {| hp_Delay := 5; hp_MaxRetries := 2; hp_Port := healthCheckPort; hp_Timeout := 2;
       hp_Type := LoadBalancerProtocolHTTP; hp_URLPath := Some "/" |}
  else
    {| hp_Delay := 5; hp_MaxRetries := 2; hp_Port := nodePort; hp_Timeout := 2;
       hp_Type := LoadBalancerProtocolTCP; hp_URLPath := None |}.

Definition genLoadBalancerMembers (nodePort : Z) (nodeList : list string) : list MemberPrototype :=
  (λ node, {| mp_Port := nodePort; mp_Address := node |}) <$> nodeList.

(** ** Conversion of the client's objects *)

Definition mapReference (r : sdk_Reference) : VpcObjectReference :=
  {| ref_ID := SafePointerString (r_ID r); ref_Name := SafePointerString (r_Name r) |}.
Definition mapOptReference (r : option sdk_Reference) : VpcObjectReference :=
  from_option mapReference ref0 r.

Definition mapLoadBalancer (item : sdk_LoadBalancer) : VpcLoadBalancer :=
  {| lb_CreatedAt := SafePointerDate (slb_CreatedAt item);
     lb_Hostname := SafePointerString (slb_Hostname item);
     lb_ID := SafePointerString (slb_ID item);
     lb_IsPublic := SafePointerBool (slb_IsPublic item);
     lb_ListenerIDs := (λ r, SafePointerString (r_ID r)) <$> slb_Listeners item;
     lb_Name := SafePointerString (slb_Name item);
     lb_OperatingStatus := SafePointerString (slb_OperatingStatus item);
     lb_Pools := mapReference <$> slb_Pools item;
     lb_PrivateIps := sortStrings ((λ ip, SafePointerString (ip_Address ip)) <$> slb_PrivateIps item);
     lb_ProfileFamily := from_option (λ p, SafePointerString (pf_Family p)) "" (slb_Profile item);
     lb_ProvisioningStatus := SafePointerString (slb_ProvisioningStatus item);
     lb_PublicIps := sortStrings ((λ ip, SafePointerString (ip_Address ip)) <$> slb_PublicIps item);
     lb_ResourceGroup := mapOptReference (slb_ResourceGroup item);
     lb_Subnets := mapReference <$> slb_Subnets item;
     lb_VpcID := "" |}.

Definition mapLoadBalancerListener (item : sdk_LoadBalancerListener) : VpcLoadBalancerListener :=
  {| lst_ConnectionLimit := SafePointerInt64 (sl_ConnectionLimit item);
     lst_DefaultPool := mapOptReference (sl_DefaultPool item);
     lst_ID := SafePointerString (sl_ID item);
     lst_Port := SafePointerInt64 (sl_Port item);
     lst_Protocol := SafePointerString (sl_Protocol item);
     lst_ProvisioningStatus := SafePointerString (sl_ProvisioningStatus item) |}.

Definition mapLoadBalancerPoolHealthMonitor (item : sdk_HealthMonitor)
    : VpcLoadBalancerPoolHealthMonitor :=
  {| hm_Delay := SafePointerInt64 (shm_Delay item);
     hm_MaxRetries := SafePointerInt64 (shm_MaxRetries item);
     hm_Port := SafePointerInt64 (shm_Port item);
     hm_Timeout := SafePointerInt64 (shm_Timeout item);
     hm_Type := SafePointerString (shm_Type item);
     hm_URLPath := SafePointerString (shm_URLPath item) |}.

(** The members of a freshly mapped pool carry only their IDs. *)
Definition member_reference (r : sdk_Reference) : VpcLoadBalancerPoolMember :=
  {| mem_Health := ""; mem_ID := SafePointerString (r_ID r); mem_Port := 0;
     mem_ProvisioningStatus := ""; mem_TargetIPAddress := ""; mem_TargetInstanceID := "";
     mem_Weight := 0 |}.

Definition mapLoadBalancerPool (item : sdk_LoadBalancerPool) : VpcLoadBalancerPool :=
  {| pool_Algorithm := SafePointerString (spl_Algorithm item);
     pool_HealthMonitor := from_option mapLoadBalancerPoolHealthMonitor hm0 (spl_HealthMonitor item);
     pool_ID := SafePointerString (spl_ID item);
     pool_Members := member_reference <$> spl_Members item;
     pool_Name := SafePointerString (spl_Name item);
     pool_Protocol := SafePointerString (spl_Protocol item);
     pool_ProvisioningStatus := SafePointerString (spl_ProvisioningStatus item);
     pool_ProxyProtocol := SafePointerString (spl_ProxyProtocol item);
     pool_SessionPersistence :=
       from_option SafePointerString "None" (spl_SessionPersistence item) |}.

Definition set_pool_Members (members : list VpcLoadBalancerPoolMember)
    (pool : VpcLoadBalancerPool) : VpcLoadBalancerPool :=
  {| pool_Algorithm := pool_Algorithm pool;
     pool_HealthMonitor := pool_HealthMonitor pool;
     pool_ID := pool_ID pool;
     pool_Members := members;
     pool_Name := pool_Name pool;
     pool_Protocol := pool_Protocol pool;
     pool_ProvisioningStatus := pool_ProvisioningStatus pool;
     pool_ProxyProtocol := pool_ProxyProtocol pool;
     pool_SessionPersistence := pool_SessionPersistence pool |}.

(** The type assertion on the target panics on any other type. *)
Definition mapLoadBalancerPoolMember (item : sdk_LoadBalancerPoolMember)
    : outcome VpcLoadBalancerPoolMember :=
  let member address instance :=
    {| mem_Health := SafePointerString (sm_Health item);
       mem_ID := SafePointerString (sm_ID item);
       mem_Port := SafePointerInt64 (sm_Port item);
       mem_ProvisioningStatus := SafePointerString (sm_ProvisioningStatus item);
       mem_TargetIPAddress := address;
       mem_TargetInstanceID := instance;
       mem_Weight := SafePointerInt64 (sm_Weight item) |} in
  match sm_Target item with
  | None => Ok (member "" "")
  | Some (LoadBalancerPoolMemberTarget address id) =>
      Ok (member (SafePointerString address) (SafePointerString id))
  | Some OtherMemberTarget => Panic "interface conversion"
  end.

Definition mapMembers (items : list sdk_LoadBalancerPoolMember)
    : outcome (list VpcLoadBalancerPoolMember) :=
  foldM (λ members item,
    member ← mapLoadBalancerPoolMember item; Ok (members ++ [member])) [] items.

Definition mapSubnet (item : sdk_Subnet) : VpcSubnet :=
  {| sub_AvailableIpv4AddressCount := SafePointerInt64 (ss_AvailableIpv4AddressCount item);
     sub_CreatedAt := SafePointerDate (ss_CreatedAt item);
     sub_ID := SafePointerString (ss_ID item);
     sub_IPVersion := SafePointerString (ss_IPVersion item);
     sub_Ipv4CidrBlock := SafePointerString (ss_Ipv4CIDRBlock item);
     sub_Name := SafePointerString (ss_Name item);
     sub_NetworkACL := mapOptReference (ss_NetworkACL item);
     sub_PublicGateway := mapOptReference (ss_PublicGateway item);
     sub_ResourceGroup := mapOptReference (ss_ResourceGroup item);
     sub_Status := SafePointerString (ss_Status item);
     sub_TotalIpv4AddressCount := SafePointerInt64 (ss_TotalIpv4AddressCount item);
     sub_Vpc := mapOptReference (ss_VPC item);
     sub_Zone := from_option SafePointerString "" (ss_Zone item) |}.

(** ** The methods *)

Section gen2.
Context {W Patch : Type} `{!VpcV1 W Patch}.
(** [resourceGroupID] of the configuration the SDK was created with. *)
Context (resourceGroupID : string).
Context (url_start : string → outcome string).
(** How many pages a list call follows before giving up; the source has no
    bound. *)
Context (fuel : nat).

Definition poolPrototype (poolName : string) (nodeList : list string)
    (options : ServiceOptions) (f : VpcPoolNameFields) (proxy : option string)
    : PoolPrototype :=
  {| pp_Algorithm := LoadBalancerAlgorithmRoundRobin;
     pp_HealthMonitor :=
       genLoadBalancerHealthMonitor (pn_NodePort f) (getHealthCheckNodePort options);
     pp_Members := genLoadBalancerMembers (pn_NodePort f) nodeList;
     pp_Name := poolName;
     pp_Protocol := pn_Protocol f;
     pp_ProxyProtocol := proxy |}.

(** One round of the loop over the pool names of [CreateLoadBalancer]. *)
Definition createOptionsStep (nodeList : list string) (options : ServiceOptions)
    (acc : list PoolPrototype * list ListenerPrototype) (poolName : string)
    : outcome (list PoolPrototype * list ListenerPrototype) :=
  let '(pools, listeners) := acc in
  f ← extractFieldsFromPoolName poolName;
  let proxy := if isProxyProtocol options then LoadBalancerProxyProtocolV1
               else LoadBalancerProxyProtocolDisabled in
  let pool := poolPrototype poolName nodeList options f (Some proxy) in
  let listener := {| lp_ConnectionLimit := 15000; lp_DefaultPool := poolName;
                     lp_Port := pn_Port f; lp_Protocol := LoadBalancerProtocolTCP |} in
  Ok (pools ++ [pool], listeners ++ [listener]).

Definition createOptions (lbName : string) (nodeList poolList subnetList : list string)
    (options : ServiceOptions) : outcome CreateLoadBalancerOptions :=
  '(pools, listeners) ← foldM (createOptionsStep nodeList options) ([], []) poolList;
  Ok {| co_IsPublic := isPublic options; co_Subnets := subnetList;
        co_Listeners := listeners; co_Name := lbName; co_Pools := pools;
        co_ResourceGroup := resourceGroupID |}.

Definition Gen2_CreateLoadBalancer (lbName : string)
    (nodeList poolList subnetList : list string) (options : ServiceOptions)
    : M W VpcLoadBalancer :=
  o ← lift (createOptions lbName nodeList poolList subnetList options);
  lb ← cl_CreateLoadBalancer o;
  mret (mapLoadBalancer lb).

Definition Gen2_CreateLoadBalancerListener (lbID poolName poolID : string)
    : M W VpcLoadBalancerListener :=
  f ← lift (extractFieldsFromPoolName poolName);
  listener ← cl_CreateLoadBalancerListener lbID
    {| lp_ConnectionLimit := 15000; lp_DefaultPool := poolID; lp_Port := pn_Port f;
       lp_Protocol := pn_Protocol f |};
  mret (mapLoadBalancerListener listener).

(** No [ProxyProtocol] is set here. *)
Definition Gen2_CreateLoadBalancerPool (lbID poolName : string) (nodeList : list string)
    (options : ServiceOptions) : M W VpcLoadBalancerPool :=
  f ← lift (extractFieldsFromPoolName poolName);
  pool ← cl_CreateLoadBalancerPool lbID (poolPrototype poolName nodeList options f None);
  mret (mapLoadBalancerPool pool).

Definition Gen2_CreateLoadBalancerPoolMember (lbID poolName poolID nodeID : string)
    : M W VpcLoadBalancerPoolMember :=
  f ← lift (extractFieldsFromPoolName poolName);
  member ← cl_CreateLoadBalancerPoolMember lbID poolID
    {| mp_Port := pn_NodePort f; mp_Address := nodeID |};
  lift (mapLoadBalancerPoolMember member).

Definition Gen2_GetLoadBalancer (lbID : string) : M W VpcLoadBalancer :=
  lb ← cl_GetLoadBalancer lbID; mret (mapLoadBalancer lb).

Definition Gen2_GetSubnet (subnetID : string) : M W VpcSubnet :=
  subnet ← cl_GetSubnet subnetID; mret (mapSubnet subnet).

(** The pagination loop of [ListLoadBalancers] and [ListSubnets]: follow
    [Next.Href] until a page has none. *)
Fixpoint listPages {A B} (n : nat) (list_page : option string → M W (sdk_Page A))
    (f : A → B) (start : option string) (acc : list B) : M W (list B) :=
  match n with
  | O => lift (Panic "out of fuel")
  | S n =>
      page ← list_page start;
      let acc := acc ++ (f <$> pg_Items page) in
      match pg_Next page with
      | Some (Some href) =>
          next ← lift (url_start href);
          listPages n list_page f (Some next) acc
      | _ => mret acc
      end
  end.

Definition Gen2_ListLoadBalancers : M W (list VpcLoadBalancer) :=
  listPages fuel cl_ListLoadBalancers mapLoadBalancer None [].

Definition Gen2_ListLoadBalancerListeners (lbID : string)
    : M W (list VpcLoadBalancerListener) :=
  l ← cl_ListLoadBalancerListeners lbID; mret (mapLoadBalancerListener <$> l).

Definition Gen2_ListLoadBalancerPoolMembers (lbID poolID : string)
    : M W (list VpcLoadBalancerPoolMember) :=
  l ← cl_ListLoadBalancerPoolMembers lbID poolID; lift (mapMembers l).

Definition Gen2_ListLoadBalancerPools (lbID : string) : M W (list VpcLoadBalancerPool) :=
  l ← cl_ListLoadBalancerPools lbID;
  forM (λ pools item,
    let pool := mapLoadBalancerPool item in
    members ← Gen2_ListLoadBalancerPoolMembers lbID (pool_ID pool);
    mret (pools ++ [set_pool_Members members pool])) [] l.

Definition Gen2_ListSubnets : M W (list VpcSubnet) :=
  listPages fuel cl_ListSubnets mapSubnet None [].

Definition Gen2_ReplaceLoadBalancerPoolMembers (lbID poolName poolID : string)
    (nodeList : list string) : M W (list VpcLoadBalancerPoolMember) :=
  f ← lift (extractFieldsFromPoolName poolName);
  l ← cl_ReplaceLoadBalancerPoolMembers lbID poolID
        (genLoadBalancerMembers (pn_NodePort f) nodeList);
  lift (mapMembers l).

Definition poolPatch (newPoolName : string) (f : VpcPoolNameFields)
    (existingPool : VpcLoadBalancerPool) (options : ServiceOptions)
    : LoadBalancerPoolPatch :=
  let proxyProtocolRequested := isProxyProtocol options in
  {| pt_HealthMonitor :=
       genLoadBalancerHealthMonitorUpdate (pn_NodePort f) (getHealthCheckNodePort options);
     pt_Name := newPoolName;
     pt_ProxyProtocol :=
       if proxyProtocolRequested
          && bool_decide (pool_ProxyProtocol existingPool ≠ LoadBalancerProxyProtocolV1)
       then Some LoadBalancerProxyProtocolV1
       else if negb proxyProtocolRequested
          && bool_decide (pool_ProxyProtocol existingPool ≠ LoadBalancerProxyProtocolDisabled)
       then Some LoadBalancerProxyProtocolDisabled
       else None |}.

Definition Gen2_UpdateLoadBalancerPool (lbID newPoolName : string)
    (existingPool : VpcLoadBalancerPool) (options : ServiceOptions)
    : M W VpcLoadBalancerPool :=
  f ← lift (extractFieldsFromPoolName newPoolName);
  patch ← lift (cl_AsPatch (poolPatch newPoolName f existingPool options));
  pool ← cl_UpdateLoadBalancerPool lbID (pool_ID existingPool) patch;
  mret (mapLoadBalancerPool pool).

(** The four deletions; a failed response is written to the log. *)
Definition Gen2_DeleteLoadBalancer (lbID : string) : M W unit := cl_DeleteLoadBalancer lbID.
Definition Gen2_DeleteLoadBalancerListener (lbID listenerID : string) : M W unit :=
  cl_DeleteLoadBalancerListener lbID listenerID.
Definition Gen2_DeleteLoadBalancerPool (lbID poolID : string) : M W unit :=
  cl_DeleteLoadBalancerPool lbID poolID.
Definition Gen2_DeleteLoadBalancerPoolMember (lbID poolID memberID : string) : M W unit :=
  cl_DeleteLoadBalancerPoolMember lbID poolID memberID.

Definition VpcSdkGen2 : CloudVpcSdk W := {|
  sdk_CreateLoadBalancer := Gen2_CreateLoadBalancer;
  sdk_CreateLoadBalancerListener := Gen2_CreateLoadBalancerListener;
  sdk_CreateLoadBalancerPool := Gen2_CreateLoadBalancerPool;
  sdk_CreateLoadBalancerPoolMember := Gen2_CreateLoadBalancerPoolMember;
  sdk_DeleteLoadBalancer := Gen2_DeleteLoadBalancer;
  sdk_DeleteLoadBalancerListener := Gen2_DeleteLoadBalancerListener;
  sdk_DeleteLoadBalancerPool := Gen2_DeleteLoadBalancerPool;
  sdk_DeleteLoadBalancerPoolMember := Gen2_DeleteLoadBalancerPoolMember;
  sdk_GetLoadBalancer := Gen2_GetLoadBalancer;
  sdk_GetSubnet := Gen2_GetSubnet;
  sdk_ListLoadBalancers := Gen2_ListLoadBalancers;
  sdk_ListLoadBalancerListeners := Gen2_ListLoadBalancerListeners;
  sdk_ListLoadBalancerPools := Gen2_ListLoadBalancerPools;
  sdk_ListLoadBalancerPoolMembers := Gen2_ListLoadBalancerPoolMembers;
  sdk_ListSubnets := Gen2_ListSubnets;
  sdk_ReplaceLoadBalancerPoolMembers := Gen2_ReplaceLoadBalancerPoolMembers;
  sdk_UpdateLoadBalancerPool := Gen2_UpdateLoadBalancerPool;
  sdk_written _ w := w;
|}.
End gen2.
