(* ===== verification/Gen2Props.v ===== *)
(** * Gen2Props: what the Gen2 SDK sends and answers

    The templates agree with what the update plan checks ([pool_good]), the
    pagination loops return every page, and the SDK keeps the promises the
    cloud logic relies on ([SdkIdentity], [SdkWords]) when the client does. *)
From S2P Require Import Prelude GoStrings Kube VpcTypes VpcConfig.
From S2P Require Import VpcUpdates UpdateSpec UpdatePlan VpcSdk VpcSdkGen2.

(** ** Templates *)

Lemma health_monitor_good service p hm :
  let m := genLoadBalancerHealthMonitor (sp_NodePort p) (getServiceHealthCheckNodePort service) in
  hm_Type hm = hp_Type m → hm_Port hm = hp_Port m → monitor_good service p hm.
Proof.
  unfold genLoadBalancerHealthMonitor, getServiceHealthCheckNodePort, monitor_good. cbn zeta.
  case_bool_decide as Hlocal.
  - destruct (Z.ltb_spec 0 (spec_HealthCheckNodePort (svc_Spec service))); cbn; intros -> ->.
    + split; [done|]. rewrite Hlocal. discriminate.
    + split; [lia|]. rewrite Hlocal. discriminate.
  - cbn. intros -> ->. split; [by intros ?|done].
Qed.

Lemma patch_good service p existing pool :
  let patch := poolPatch (genLoadBalancerPoolName p) (port_fields p) existing
                 (getServiceOptions (Some service)) in
  pool_Name pool = pt_Name patch →
  hm_Type (pool_HealthMonitor pool) = hp_Type (pt_HealthMonitor patch) →
  hm_Port (pool_HealthMonitor pool) = hp_Port (pt_HealthMonitor patch) →
  pool_ProxyProtocol pool = default (pool_ProxyProtocol existing) (pt_ProxyProtocol patch) →
  pool_good service p pool.
Proof.
  intros patch Hname Htype Hport Hproxy. split; [done|]. split.
  - by apply health_monitor_good.
  - rewrite Hproxy. unfold proxy_good. cbn [patch poolPatch pt_ProxyProtocol].
    destruct (isProxyProtocol (getServiceOptions (Some service))); cbn [negb andb];
      by case_bool_decide.
Qed.

(** A pool update cures what the plan complained about.  A pool that has
    the name and health monitor of the patch that UpdateLoadBalancerPool sends,
    and its proxy protocol - or the old one where the patch leaves it out - is
    as [pool_good] of the plan demands: the canonical name of the port, the
    health monitor of the traffic policy, the requested proxy protocol. *)
Theorem poolPatch_good service p existing pool :
  let patch := poolPatch (genLoadBalancerPoolName p) (port_fields p) existing
                 (getServiceOptions (Some service)) in
  pool_Name pool = pt_Name patch →
  hm_Type (pool_HealthMonitor pool) = hp_Type (pt_HealthMonitor patch) →
  hm_Port (pool_HealthMonitor pool) = hp_Port (pt_HealthMonitor patch) →
  pool_ProxyProtocol pool = default (pool_ProxyProtocol existing) (pt_ProxyProtocol patch) →
  pool_good service p pool.
Proof. apply patch_good. Qed.

Definition new_listener (n : string) (f : VpcPoolNameFields) : ListenerPrototype :=
  {| lp_ConnectionLimit := 15000; lp_DefaultPool := n; lp_Port := pn_Port f;
     lp_Protocol := "tcp" |}.
Definition new_pool (nodeList : list string) (options : ServiceOptions) (n : string)
    (f : VpcPoolNameFields) : PoolPrototype :=
  {| pp_Algorithm := "round_robin";
     pp_HealthMonitor :=
       genLoadBalancerHealthMonitor (pn_NodePort f) (so_healthCheckNodePort options);
     pp_Members := (λ node, {| mp_Port := pn_NodePort f; mp_Address := node |}) <$> nodeList;
     pp_Name := n; pp_Protocol := pn_Protocol f;
     pp_ProxyProtocol := Some (if isProxyProtocol options then "v1" else "disabled") |}.

Lemma createOptions_loop nodeList options poolList pools listeners :
  match mapM extractFieldsFromPoolName poolList with
  | Ok fs =>
      foldM (createOptionsStep nodeList options) (pools, listeners) poolList
      = Ok (pools ++ zip_with (new_pool nodeList options) poolList fs,
            listeners ++ zip_with new_listener poolList fs)
  | Err e => foldM (createOptionsStep nodeList options) (pools, listeners) poolList = Err e
  | Panic _ => False
  end.
Proof.
  revert pools listeners. induction poolList as [|n poolList IH]; intros pools listeners.
  { cbn. by rewrite !app_nil_r. }
  cbn [mapM foldM createOptionsStep]. pose proof (extract_no_panic n) as Hnp.
  destruct (extractFieldsFromPoolName n) as [f|e|w]; cbn [mbind outcome_bind]; [|done|done].
  specialize (IH (pools ++ [new_pool nodeList options n f]) (listeners ++ [new_listener n f])).
  destruct (mapM extractFieldsFromPoolName poolList) as [fs|e|w]; cbn [mbind outcome_bind];
    [|exact IH|done].
  cbn [mret outcome_ret zip_with]. rewrite <- !(assoc_L (++)) in IH. exact IH.
Qed.

(** The templates of a new load balancer, for any list of pool names.  If
    every name parses there is one pool and one listener per name, in order:
    the pool named so, with one member per node on the node port, the health
    monitor for the options and proxy protocol v1 or disabled as requested; the
    listener on the external port, for that pool.  Otherwise the error is that
    of the first name that does not parse, and nothing is sent. *)
Theorem createOptions_spec resourceGroupID lbName nodeList poolList subnetList options :
  match mapM extractFieldsFromPoolName poolList with
  | Ok fs =>
      createOptions resourceGroupID lbName nodeList poolList subnetList options =
      Ok {| co_IsPublic := isPublic options; co_Subnets := subnetList;
            co_Listeners := zip_with new_listener poolList fs;
            co_Name := lbName;
            co_Pools := zip_with (new_pool nodeList options) poolList fs;
            co_ResourceGroup := resourceGroupID |}
  | Err e => createOptions resourceGroupID lbName nodeList poolList subnetList options = Err e
  | Panic _ => False
  end.
Proof.
  pose proof (createOptions_loop nodeList options poolList [] []) as Hloop. unfold createOptions.
  destruct (mapM _ poolList) as [fs|e|w]; [| |done]; by rewrite Hloop.
Qed.

Lemma poolPatch_good_witness :
  pool_good (example_service "u" [(80, 30304)] ∅)%Z
    {| sp_Protocol := ProtocolTCP; sp_Port := 80; sp_NodePort := 30304 |}
    (example_pool "p1" "tcp-80-30304" 30304 []).
Proof.
  refine (poolPatch_good (example_service "u" [(80, 30304)] ∅)%Z
    {| sp_Protocol := ProtocolTCP; sp_Port := 80; sp_NodePort := 30304 |}
    (example_pool "p1" "tcp-80-30303" 30303 []) _ _ _ _ _); by vm_compute.
Defined.

(** A pool added to an existing load balancer is requested without a proxy
    protocol setting, whatever the service asks for; all else is as in the
    template for a new load balancer.  So a service with the proxy-protocol
    feature gets a pool that the next plan has to update. *)
Theorem Gen2_CreateLoadBalancerPool_no_proxy {W Patch} `{!VpcV1 W Patch} lbID poolName nodeList
    options f w :
  extractFieldsFromPoolName poolName = Ok f →
  let template := new_pool nodeList options poolName f in
  Gen2_CreateLoadBalancerPool lbID poolName nodeList options w
  = (pool ← cl_CreateLoadBalancerPool lbID
       {| pp_Algorithm := pp_Algorithm template; pp_HealthMonitor := pp_HealthMonitor template;
          pp_Members := pp_Members template; pp_Name := pp_Name template;
          pp_Protocol := pp_Protocol template; pp_ProxyProtocol := None |};
     mret (mapLoadBalancerPool pool)) w ∧
  pp_ProxyProtocol template = Some (if isProxyProtocol options then "v1" else "disabled").
Proof. intros Hf. unfold Gen2_CreateLoadBalancerPool. run_bind Hf. done. Qed.

(** ** Pagination *)

Section pages.
Context {W A : Type} (url_start : string → outcome string).
Context (list_page : option string → M W (sdk_Page A)).

(** Following the pages from [start] leads through these items to the end. *)
Inductive pages : option string → W → list (list A) → W → Prop :=
  | pages_last start w page w' :
      list_page start w = (Ok page, w') →
      pg_Next page = None ∨ pg_Next page = Some None →
      pages start w [pg_Items page] w'
  | pages_next start w page w' href next rest w'' :
      list_page start w = (Ok page, w') →
      pg_Next page = Some (Some href) → url_start href = Ok next →
      pages (Some next) w' rest w'' →
      pages start w (pg_Items page :: rest) w''.

Lemma listPages_pages {B} (f : A → B) n start w ps w' acc :
  pages start w ps w' → length ps ≤ n →
  listPages url_start n list_page f start acc w = (Ok (acc ++ (f <$> concat ps)), w').
Proof.
  intros Hp. revert n acc. induction Hp as [start w page w' Hpage Hnext
    |start w page w' href next rest w'' Hpage Hnext Hurl Hp IH]; intros n acc Hlen;
    (destruct n as [|n]; [cbn in Hlen; lia|]); cbn [listPages]; run_bind Hpage.
  - rewrite app_nil_r. by destruct Hnext as [-> | ->].
  - rewrite Hnext. cbn. unfold lift. run_bind Hurl. rewrite IH by (cbn in Hlen; lia).
    by rewrite fmap_app, (assoc_L (++)).
Qed.

(** A page that leads back to itself is followed for ever. *)
Lemma listPages_loop {B} (f : A → B) n start w page href acc :
  list_page start w = (Ok page, w) → pg_Next page = Some (Some href) →
  Some <$> url_start href = Ok start →
  (listPages url_start n list_page f start acc w).1 = Panic "out of fuel".
Proof.
  intros Hpage Hnext Hurl. revert acc. induction n as [|n IH]; intros acc; [done|].
  cbn [listPages]. run_bind Hpage. rewrite Hnext.
  destruct (url_start href) as [next|e|why] eqn:Hu; cbn in Hurl; [|done..].
  injection Hurl as <-. apply IH.
Qed.
End pages.

(** C36: the pagination loops.  When following the next links leads to a last
    page, ListLoadBalancers and ListSubnets return the items of all pages, in
    order and converted, however many pages there are: any bound on the loop
    that is at least the number of pages gives this result. *)
Theorem Gen2_lists_all_pages {W Patch} `{!VpcV1 W Patch} url_start fuel w w' :
  (∀ ps, pages url_start cl_ListLoadBalancers None w ps w' → length ps ≤ fuel →
     Gen2_ListLoadBalancers url_start fuel w = (Ok (mapLoadBalancer <$> concat ps), w')) ∧
  (∀ ps, pages url_start cl_ListSubnets None w ps w' → length ps ≤ fuel →
     Gen2_ListSubnets url_start fuel w = (Ok (mapSubnet <$> concat ps), w')).
Proof.
  split; intros ps Hp Hlen; unfold Gen2_ListLoadBalancers, Gen2_ListSubnets;
    by rewrite (listPages_pages _ _ _ _ _ _ ps w').
Qed.

(** ** The promises to the cloud logic *)

(** What the VPC API documents of the client's answers: a load balancer has the
    ID it was asked for by; IDs, addresses and pool names hold no white space,
    and a pool member has a target address. *)
Class VpcV1Laws {W Patch} (client : VpcV1 W Patch) : Prop := {
  law_get : ∀ lbID w lb w',
    cl_GetLoadBalancer lbID w = (Ok lb, w') → slb_ID lb = Some lbID;
  law_listeners : ∀ lbID w l w',
    cl_ListLoadBalancerListeners lbID w = (Ok l, w') →
    Forall (λ x, (∀ i, sl_ID x = Some i → token i) ∧
      (∀ r n, sl_DefaultPool x = Some r → r_Name r = Some n → no_space n = true)) l;
  law_pools : ∀ lbID w l w',
    cl_ListLoadBalancerPools lbID w = (Ok l, w') →
    Forall (λ x, ∀ i, spl_ID x = Some i → token i) l;
  law_members : ∀ lbID poolID w l w',
    cl_ListLoadBalancerPoolMembers lbID poolID w = (Ok l, w') →
    Forall (λ x, (∀ i, sm_ID x = Some i → token i) ∧
      ∃ a i, sm_Target x = Some (LoadBalancerPoolMemberTarget a i) ∧ ∀ s, a = Some s → token s) l;
}.

Lemma token_SafePointer ptr : (∀ s, ptr = Some s → token s) → token (SafePointerString ptr).
Proof. intros Hp. destruct ptr as [s|]; cbn; [by apply Hp|by_decision]. Qed.

Section laws.
Context {W Patch : Type} `{client : !VpcV1 W Patch} `{!VpcV1Laws client}
  (resourceGroupID : string) (url_start : string → outcome string) (fuel : nat).
Let gen2 := VpcSdkGen2 resourceGroupID url_start fuel.

Lemma wf_mapListener x :
  (∀ i, sl_ID x = Some i → token i) →
  (∀ r n, sl_DefaultPool x = Some r → r_Name r = Some n → no_space n = true) →
  wf_listener (mapLoadBalancerListener x).
Proof.
  intros Hi Hn. split; [by apply token_SafePointer|]. cbn.
  destruct (sl_DefaultPool x) as [r|] eqn:Hr; cbn; [|done].
  destruct (r_Name r) as [n|] eqn:Hrn; cbn; [by eapply Hn|done].
Qed.

Lemma wf_mapMembers l members :
  Forall (λ x, (∀ i, sm_ID x = Some i → token i) ∧
    ∃ a i, sm_Target x = Some (LoadBalancerPoolMemberTarget a i) ∧ ∀ s, a = Some s → token s) l →
  mapMembers l = Ok members → Forall wf_member members.
Proof.
  intros Hl. unfold mapMembers. rewrite Forall_forall in Hl.
  apply (foldM_invariant (Forall wf_member)); [|constructor].
  intros acc x acc' Hx Hacc. destruct (Hl x Hx) as (Hi & a & i & Ht & Ha).
  unfold mapLoadBalancerPoolMember. rewrite Ht. cbn. intros [= <-].
  apply Forall_app. split; [done|]. constructor; [|done].
  split; cbn; by apply token_SafePointer.
Qed.

Lemma ListPoolMembers_words lbID poolID w members w' :
  Gen2_ListLoadBalancerPoolMembers lbID poolID w = (Ok members, w') → Forall wf_member members.
Proof.
  unfold Gen2_ListLoadBalancerPoolMembers, mbind, M_bind.
  destruct (cl_ListLoadBalancerPoolMembers lbID poolID w) as [[l|e|why] w1] eqn:Hl;
    [|done..]. unfold lift. intros [= Hm _]. eapply wf_mapMembers; [|done].
  by eapply law_members.
Qed.

Lemma ListPools_words lbID w pools w' :
  Gen2_ListLoadBalancerPools lbID w = (Ok pools, w') → Forall wf_pool pools.
Proof.
  unfold Gen2_ListLoadBalancerPools. intros Hrun.
  assert (wp (Gen2_ListLoadBalancerPools lbID)
    (λ r _, match r with Ok pools => Forall wf_pool pools | _ => True end) w) as Hwp.
  2: { unfold wp, Gen2_ListLoadBalancerPools in Hwp. by rewrite Hrun in Hwp. }
  apply wp_bind. unfold wp at 1.
  destruct (cl_ListLoadBalancerPools lbID w) as [[l|e|why] w1] eqn:Hl; cbn; [|done..].
  pose proof (law_pools _ _ _ _ Hl) as Hids. rewrite Forall_forall in Hids.
  apply (wp_forM _ (λ pools _, Forall wf_pool pools) (λ _ _, True)); [constructor|].
  intros x acc s Hx Hacc. apply wp_bind. unfold wp at 1.
  destruct (Gen2_ListLoadBalancerPoolMembers lbID _ s) as [[ms|e|why] s'] eqn:Hms; cbn; [|done..].
  apply Forall_app. split; [done|]. constructor; [|done]. split; cbn.
  - apply token_SafePointer, Hids, Hx.
  - by eapply ListPoolMembers_words.
Qed.

Lemma gen2_identity : SdkIdentity gen2.
Proof.
  intros lbID w lb w' Hget. cbn in Hget. unfold Gen2_GetLoadBalancer, mbind, M_bind in Hget.
  destruct (cl_GetLoadBalancer lbID w) as [[x|e|why] w1] eqn:Hx; [|done..].
  injection Hget as <- <-. cbn. by rewrite (law_get _ _ _ _ Hx).
Qed.

Lemma gen2_words : SdkWords gen2.
Proof.
  split; intros lbID w l w' Hl; cbn in Hl.
  - unfold Gen2_ListLoadBalancerListeners, mbind, M_bind in Hl.
    destruct (cl_ListLoadBalancerListeners lbID w) as [[x|e|why] w1] eqn:Hx; [|done..].
    injection Hl as <- <-. apply Forall_fmap. eapply Forall_impl; [by eapply law_listeners|].
    intros y [? ?]. by apply wf_mapListener.
  - by eapply ListPools_words.
Qed.
End laws.

(** C35: the Gen2 SDK implements the interface the cloud logic is proved against:
    over a client that answers with the load balancer asked for, with
    identifiers without white space and members with an address, its answers
    have the ID asked for, and the listeners and pools it lists - the pools
    with the members it collects for each - have words as identifiers. *)
Theorem VpcSdkGen2_laws {W Patch} (client : VpcV1 W Patch) resourceGroupID url_start fuel :
  VpcV1Laws client →
  SdkIdentity (VpcSdkGen2 resourceGroupID url_start fuel) ∧
  SdkWords (VpcSdkGen2 resourceGroupID url_start fuel).
Proof. intros Hl. split; [by apply gen2_identity|by apply gen2_words]. Qed.

(** A client that answers every request with an empty object, for examples. *)
Definition no_pool : sdk_LoadBalancerPool :=
  {| spl_Algorithm := None; spl_HealthMonitor := None; spl_ID := None; spl_Members := [];
     spl_Name := None; spl_Protocol := None; spl_ProvisioningStatus := None;
     spl_ProxyProtocol := None; spl_SessionPersistence := None |}.
Definition no_member : sdk_LoadBalancerPoolMember :=
  {| sm_Health := None; sm_ID := None; sm_Port := None; sm_ProvisioningStatus := None;
     sm_Target := None; sm_Weight := None |}.
Definition no_listener : sdk_LoadBalancerListener :=
  {| sl_ConnectionLimit := None; sl_DefaultPool := None; sl_ID := None; sl_Port := None;
     sl_Protocol := None; sl_ProvisioningStatus := None |}.
Definition no_lb (lbID : string) : sdk_LoadBalancer :=
  {| slb_CreatedAt := None; slb_Hostname := None; slb_ID := Some lbID; slb_IsPublic := None;
     slb_Listeners := []; slb_Name := None; slb_OperatingStatus := None; slb_Pools := [];
     slb_PrivateIps := []; slb_Profile := None; slb_ProvisioningStatus := None;
     slb_PublicIps := []; slb_ResourceGroup := None; slb_Subnets := [] |}.

Definition EmptyClient : VpcV1 unit LoadBalancerPoolPatch := {|
  cl_AsPatch := Ok;
  cl_CreateLoadBalancer _ := mret (no_lb "new");
  cl_CreateLoadBalancerListener _ _ := mret no_listener;
  cl_CreateLoadBalancerPool _ _ := mret no_pool;
  cl_CreateLoadBalancerPoolMember _ _ _ := mret no_member;
  cl_DeleteLoadBalancer _ := mret tt;
  cl_DeleteLoadBalancerListener _ _ := mret tt;
  cl_DeleteLoadBalancerPool _ _ := mret tt;
  cl_DeleteLoadBalancerPoolMember _ _ _ := mret tt;
  cl_GetLoadBalancer lbID := mret (no_lb lbID);
  cl_GetSubnet _ := fail (ErrorString "not found");
  cl_ListLoadBalancers _ := mret {| pg_Items := []; pg_Next := None |};
  cl_ListLoadBalancerListeners _ := mret [no_listener];
  cl_ListLoadBalancerPools _ := mret [no_pool];
  cl_ListLoadBalancerPoolMembers _ _ := mret [];
  cl_ListSubnets _ := mret {| pg_Items := []; pg_Next := None |};
  cl_ReplaceLoadBalancerPoolMembers _ _ _ := mret [];
  cl_UpdateLoadBalancerPool _ _ _ := mret no_pool;
|}.

Lemma EmptyClient_laws : VpcV1Laws EmptyClient.
Proof.
  split; cbn.
  - by intros lbID w lb w' [= <- _].
  - intros lbID w l w' [= <- _]. apply Forall_cons_2; [|apply Forall_nil_2]. by split.
  - intros lbID w l w' [= <- _]. by apply Forall_cons_2; [|apply Forall_nil_2].
  - intros lbID poolID w l w' [= <- _]. apply Forall_nil_2.
Qed.

Lemma VpcSdkGen2_laws_witness :
  SdkIdentity (@VpcSdkGen2 _ _ EmptyClient "group" Ok 1).
Proof. exact (proj1 (VpcSdkGen2_laws EmptyClient "group" Ok 1 EmptyClient_laws)). Defined.

Lemma Gen2_CreateLoadBalancerPool_no_proxy_witness :
  pp_ProxyProtocol (new_pool [] (getServiceOptions (Some
    (example_service "u" [] {[serviceAnnotationEnableFeatures := "proxy-protocol"]})))
    "tcp-80-30303" {| pn_Protocol := "tcp"; pn_Port := 80; pn_NodePort := 30303 |})
  = Some "v1".
Proof.
  refine (eq_trans (proj2 (@Gen2_CreateLoadBalancerPool_no_proxy _ _ EmptyClient "lb" "tcp-80-30303" []
    (getServiceOptions (Some
      (example_service "u" [] {[serviceAnnotationEnableFeatures := "proxy-protocol"]})))
    {| pn_Protocol := "tcp"; pn_Port := 80; pn_NodePort := 30303 |} tt _)) _); by vm_compute.
Defined.
