(* ===== verification/LbEffects.v ===== *)
(** * LbEffects: what a successful request does to a load balancer

    [LbState] is what the VPC service stores of one load balancer: its listeners
    and its pools with their members.  [effect] says what a request that was
    answered without an error has changed, in terms of the templates of
    VpcSdkGen2; IDs and everything else the service chooses are left open.
    [SdkEffects] is the promise an SDK makes to the update logic: its requests
    have their effects, its lists are the state, and the service keeps
    identifiers and pool names unique. *)
From S2P Require Import Prelude GoStrings Kube VpcTypes VpcConfig VpcUpdates UpdateSpec UpdatePlan.
From S2P Require Import VpcSdk VpcLbaas LbaasProps VpcSdkGen2.

Open Scope go_scope.

Record LbState := {
  ls_listeners : list VpcLoadBalancerListener;
  ls_pools : list VpcLoadBalancerPool;
}.

(** The service keeps the IDs of an object's parts, and the names of the
    pools, unique; identifiers hold no white space. *)
Record lb_wf (s : LbState) : Prop := {
  lw_listeners : Forall wf_listener (ls_listeners s);
  lw_pools : Forall wf_pool (ls_pools s);
  lw_listener_ids : NoDup (lst_ID <$> ls_listeners s);
  lw_pool_ids : NoDup (pool_ID <$> ls_pools s);
  lw_pool_names : NoDup (pool_Name <$> ls_pools s);
  lw_member_ids : Forall (λ pool, NoDup (mem_ID <$> pool_Members pool)) (ls_pools s);
}.

#[export] Instance lb_wf_dec s : Decision (lb_wf s).
Proof.
  refine (cast_if (decide (
    Forall wf_listener (ls_listeners s) ∧ Forall wf_pool (ls_pools s) ∧
    NoDup (lst_ID <$> ls_listeners s) ∧ NoDup (pool_ID <$> ls_pools s) ∧
    NoDup (pool_Name <$> ls_pools s) ∧
    Forall (λ pool, NoDup (mem_ID <$> pool_Members pool)) (ls_pools s)))).
  - by split; destruct_and!.
  - intros []. tauto.
Defined.

(** ** Effects *)

(** The port of [l] is the one of the pool name. *)
Definition listener_for (name : string) (l : VpcLoadBalancerListener) : Prop :=
  ∃ f, extractFieldsFromPoolName name = Ok f ∧
       lst_Port l = pn_Port f ∧ lst_Protocol l = pn_Protocol f.

(** One member per node, on the node port of the pool name. *)
Definition members_for (name : string) (nodes : list string)
    (members : list VpcLoadBalancerPoolMember) : Prop :=
  ∃ f, extractFieldsFromPoolName name = Ok f ∧
       (λ m, (mem_TargetIPAddress m, mem_Port m)) <$> members
       = (λ node, (node, pn_NodePort f)) <$> nodes.

Definition monitored (t : HealthMonitorPrototype) (pool : VpcLoadBalancerPool) : Prop :=
  hm_Type (pool_HealthMonitor pool) = hp_Type t ∧ hm_Port (pool_HealthMonitor pool) = hp_Port t.

(** [createLoadBalancerPool] asks for no proxy protocol, which is disabled then. *)
Definition pool_created (name : string) (nodes : list string) (options : ServiceOptions)
    (pool : VpcLoadBalancerPool) : Prop :=
  ∃ f, extractFieldsFromPoolName name = Ok f ∧
       let template := poolPrototype name nodes options f None in
       pool_Name pool = pp_Name template ∧
       monitored (pp_HealthMonitor template) pool ∧
       pool_ProxyProtocol pool = default LoadBalancerProxyProtocolDisabled (pp_ProxyProtocol template) ∧
       members_for name nodes (pool_Members pool).

Definition pool_patched (name : string) (existing : VpcLoadBalancerPool)
    (options : ServiceOptions) (x y : VpcLoadBalancerPool) : Prop :=
  ∃ f, extractFieldsFromPoolName name = Ok f ∧
       let patch := poolPatch name f existing options in
       pool_ID y = pool_ID x ∧ pool_Members y = pool_Members x ∧
       pool_Name y = pt_Name patch ∧ monitored (pt_HealthMonitor patch) y ∧
       pool_ProxyProtocol y = default (pool_ProxyProtocol x) (pt_ProxyProtocol patch).

(** What a request changes of the pool [x], which is [y] afterwards. *)
Definition pool_effect (req : Request) (x y : VpcLoadBalancerPool) : Prop :=
  match req with
  | RCreatePoolMember _ name i node =>
      if decide (pool_ID x = i)
      then ∃ m, members_for name [node] [m] ∧ y = set_pool_Members (pool_Members x ++ [m]) x
      else y = x
  | RDeletePoolMember _ i memberID =>
      if decide (pool_ID x = i)
      then y = set_pool_Members (filter (λ m, mem_ID m ≠ memberID) (pool_Members x)) x
      else y = x
  | RReplacePoolMembers _ name i nodes =>
      if decide (pool_ID x = i)
      then ∃ members, members_for name nodes members ∧ y = set_pool_Members members x
      else y = x
  | RUpdatePool _ name existing options =>
      if decide (pool_ID x = pool_ID existing) then pool_patched name existing options x y
      else y = x
  | _ => y = x
  end.

(** What a request changes of its load balancer. *)
Definition effect (req : Request) (s s' : LbState) : Prop :=
  match req with
  | RCreateListener _ name _ =>
      ∃ l, listener_for name l ∧
           s' = {| ls_listeners := ls_listeners s ++ [l]; ls_pools := ls_pools s |}
  | RDeleteListener _ i =>
      s' = {| ls_listeners := filter (λ l, lst_ID l ≠ i) (ls_listeners s);
              ls_pools := ls_pools s |}
  | RCreatePool _ name nodes options =>
      ∃ pool, pool_created name nodes options pool ∧
              s' = {| ls_listeners := ls_listeners s; ls_pools := ls_pools s ++ [pool] |}
  | RDeletePool _ i =>
      s' = {| ls_listeners := ls_listeners s;
              ls_pools := filter (λ pool, pool_ID pool ≠ i) (ls_pools s) |}
  | RCreatePoolMember _ _ _ _ | RDeletePoolMember _ _ _ | RReplacePoolMembers _ _ _ _
  | RUpdatePool _ _ _ _ =>
      ls_listeners s' = ls_listeners s ∧
      Forall2 (pool_effect req) (ls_pools s) (ls_pools s')
  | _ => s' = s
  end.

(** The method of the SDK that makes a request. *)
Definition sdk_call {W} (s : CloudVpcSdk W) (r : Request) : M W (answer r) :=
  match r with
  | RCreateLoadBalancer n l p sn o => sdk_CreateLoadBalancer n l p sn o
  | RCreateListener a b c => sdk_CreateLoadBalancerListener a b c
  | RCreatePool a b l o => sdk_CreateLoadBalancerPool a b l o
  | RCreatePoolMember a b c d => sdk_CreateLoadBalancerPoolMember a b c d
  | RDeleteLoadBalancer a => sdk_DeleteLoadBalancer a
  | RDeleteListener a b => sdk_DeleteLoadBalancerListener a b
  | RDeletePool a b => sdk_DeleteLoadBalancerPool a b
  | RDeletePoolMember a b c => sdk_DeleteLoadBalancerPoolMember a b c
  | RReplacePoolMembers a b c l => sdk_ReplaceLoadBalancerPoolMembers a b c l
  | RUpdatePool a b p o => sdk_UpdateLoadBalancerPool a b p o
  | RGetLoadBalancer a => sdk_GetLoadBalancer a
  | RGetSubnet a => sdk_GetSubnet a
  | RListLoadBalancers => sdk_ListLoadBalancers
  | RListListeners a => sdk_ListLoadBalancerListeners a
  | RListPools a => sdk_ListLoadBalancerPools a
  | RListPoolMembers a b => sdk_ListLoadBalancerPoolMembers a b
  | RListSubnets => sdk_ListSubnets
  end.

(** The request changes the load balancer [lbID] or only reads. *)
Definition concerns (lbID : string) (r : Request) : Prop :=
  match r with
  | RCreateListener i _ _ | RCreatePool i _ _ _ | RCreatePoolMember i _ _ _
  | RDeleteListener i _ | RDeletePool i _ | RDeletePoolMember i _ _
  | RReplacePoolMembers i _ _ _ | RUpdatePool i _ _ _ => i = lbID
  | r => is_write r = false
  end.

(** [state] is the load balancer [lbID] in the world. *)
Class SdkEffects {W} `{!Clock W} (s : CloudVpcSdk W) (lbID : string) (state : W → LbState)
    : Prop := {
  effect_request : ∀ r w a w', concerns lbID r → sdk_call s r w = (Ok a, w') →
    effect r (state w) (state w');
  effect_listeners : ∀ w l w',
    @sdk_ListLoadBalancerListeners W s lbID w = (Ok l, w') → l = ls_listeners (state w);
  effect_pools : ∀ w l w',
    @sdk_ListLoadBalancerPools W s lbID w = (Ok l, w') → l = ls_pools (state w);
  effect_now : ∀ w, state (time_Now w).2 = state w;
  effect_sleep : ∀ ns w, state (time_Sleep ns w) = state w;
  effect_written : ∀ pools w, state (@sdk_written W s pools w) = state w;
  effect_wf : ∀ w, lb_wf (state w);
}.

(** ** Programs and the state *)

Section moves.
Context {W : Type} `{!Clock W} {sdk0 : CloudVpcSdk W} {lbID : string} {state : W → LbState}
  `{!SdkEffects sdk0 lbID state}.

(** When [m] answers [a], it has taken the state from [s] to [s'] with
    [Q a s s']. *)
Definition moves {A} (m : M (Env W) A) (Q : A → LbState → LbState → Prop) : Prop :=
  ∀ e a e', m e = (Ok a, e') → Q a (state (env_world e)) (state (env_world e')).

Lemma moves_mono {A} (m : M (Env W) A) (Q Q' : A → LbState → LbState → Prop) :
  moves m Q → (∀ a s s', Q a s s' → Q' a s s') → moves m Q'.
Proof. intros Hm HQ e a e' He. by apply HQ, Hm. Qed.

Lemma moves_bind {A B} (m : M (Env W) A) (f : A → M (Env W) B) Q1 Q :
  moves m Q1 →
  (∀ a, moves (f a) (λ b s1 s', ∀ s, Q1 a s s1 → Q b s s')) → moves (m ≫= f) Q.
Proof.
  intros Hm Hf e b e'. unfold mbind, M_bind.
  destruct (m e) as [[a| |] e1] eqn:He; [|done..]. intros Hb.
  eapply Hf; [done|]. by eapply Hm.
Qed.

Lemma moves_ret {A} (a : A) (Q : A → LbState → LbState → Prop) :
  (∀ s, Q a s s) → moves (mret a) Q.
Proof. intros HQ e b e' [= <- <-]. apply HQ. Qed.
Lemma moves_lift_bind {A B} (a : A) (f : A → M (Env W) B) (Q : B → LbState → LbState → Prop) :
  moves (f a) Q → moves (lift (Ok a) ≫= f) Q.
Proof. done. Qed.
Lemma moves_lift_cases {A B} (o : outcome A) (f : A → M (Env W) B)
    (Q : B → LbState → LbState → Prop) :
  (∀ a, o = Ok a → moves (f a) Q) → moves (lift o ≫= f) Q.
Proof. intros HQ. destruct o as [a| |]; [by apply (HQ a)|by intros ???..]. Qed.
Lemma moves_if {A} (b : bool) (m1 m2 : M (Env W) A) (Q : A → LbState → LbState → Prop) :
  moves m1 Q → moves m2 Q → moves (if b then m1 else m2) Q.
Proof. by destruct b. Qed.
Lemma moves_fail {A} e (Q : A → LbState → LbState → Prop) : moves (fail e) Q.
Proof. by intros ???. Qed.
Lemma moves_lift {A} (o : outcome A) (Q : A → LbState → LbState → Prop) :
  (∀ a s, o = Ok a → Q a s s) → moves (lift o) Q.
Proof. intros HQ e a e' [= -> ->]. by apply HQ. Qed.
Lemma moves_now_bind {B} (f : Z → M (Env W) B) (Q : B → LbState → LbState → Prop) :
  (∀ t, moves (f t) Q) → moves (now ≫= f) Q.
Proof.
  intros HQ e b e'. unfold mbind, M_bind, now. pose proof (effect_now (env_world e)) as Hn.
  destruct (time_Now _) as [t w]. intros Hb%HQ. cbn in *. by rewrite Hn in Hb.
Qed.
Lemma moves_sleep_bind {B} ns (f : unit → M (Env W) B) (Q : B → LbState → LbState → Prop) :
  moves (f tt) Q → moves (sleep ns ≫= f) Q.
Proof. intros HQ e b e' Hb%HQ. cbn in Hb. by rewrite effect_sleep in Hb. Qed.
Lemma moves_written_bind {B} pools (f : unit → M (Env W) B) (Q : B → LbState → LbState → Prop) :
  moves (f tt) Q → moves (written sdk0 pools ≫= f) Q.
Proof. intros HQ e b e' Hb%HQ. cbn in Hb. by rewrite effect_written in Hb. Qed.
Lemma moves_draw_bind {B} (f : nat → M (Env W) B) (Q : B → LbState → LbState → Prop) :
  (∀ d, moves (f d) Q) → moves (draw ≫= f) Q.
Proof. intros HQ e b e' Hb%HQ. done. Qed.
Lemma moves_call (r : Request) (Q : answer r → LbState → LbState → Prop) :
  concerns lbID r → (∀ a s s', effect r s s' → Q a s s') → moves (sdk (sdk_call sdk0 r)) Q.
Proof.
  intros Hr HQ e a e'. unfold sdk.
  destruct (sdk_call sdk0 r (env_world e)) as [o w] eqn:Hc. intros [= -> <-].
  apply HQ. cbn. by eapply effect_request.
Qed.

Lemma moves_listeners :
  moves (sdk (@sdk_ListLoadBalancerListeners W sdk0 lbID)) (λ l s s', l = ls_listeners s ∧ s' = s ∧ lb_wf s).
Proof.
  intros e a e'. unfold sdk.
  destruct (sdk_ListLoadBalancerListeners lbID (env_world e)) as [o w] eqn:Hc. intros [= -> <-].
  split_and!; [by eapply effect_listeners| |apply effect_wf]. by apply (effect_request (RListListeners lbID) _ _ _ eq_refl Hc).
Qed.
Lemma moves_pools :
  moves (sdk (@sdk_ListLoadBalancerPools W sdk0 lbID)) (λ l s s', l = ls_pools s ∧ s' = s ∧ lb_wf s).
Proof.
  intros e a e'. unfold sdk.
  destruct (sdk_ListLoadBalancerPools lbID (env_world e)) as [o w] eqn:Hc. intros [= -> <-].
  split_and!; [by eapply effect_pools| |apply effect_wf]. by apply (effect_request (RListPools lbID) _ _ _ eq_refl Hc).
Qed.
End moves.

(** ** The run of a plan *)

Section run.
Context (lbID : string) (nodeList : list string) (pools : list VpcLoadBalancerPool)
  (options : ServiceOptions).

(** The update [a] was performed. *)
Definition act (a : Action) (s s' : LbState) : Prop :=
  ∃ lb req, lb_ID lb = lbID ∧ request_of lb nodeList pools options a = Some req ∧
            effect req s s'.

Fixpoint acts (l : list Action) (s s' : LbState) : Prop :=
  match l with
  | [] => s' = s
  | a :: l => ∃ s1, act a s s1 ∧ acts l s1 s'
  end.

Lemma acts_app l1 l2 s s' : acts (l1 ++ l2) s s' ↔ ∃ s1, acts l1 s s1 ∧ acts l2 s1 s'.
Proof.
  revert s. induction l1 as [|a l1 IH]; intros s; cbn; [naive_solver|].
  setoid_rewrite IH. naive_solver.
Qed.

Context {W : Type} `{!Clock W} (c : CloudVpc W) {state : W → LbState}
  `{!SdkEffects (cv_Sdk c) lbID state} `{!SdkIdentity (cv_Sdk c)}.

Lemma moves_request lb a req :
  concerns lbID req → lb_ID lb = lbID → request_of lb nodeList pools options a = Some req →
  moves (state := state) (sdk (sdk_call (cv_Sdk c) req)) (λ _, act a).
Proof.
  intros Hc Hid Hreq. apply (moves_call req _ Hc). intros ans s s' Heff. exists lb, req.
  by split_and!.
Qed.

(** The text line of an update makes its request, or fails at once. *)
Lemma processUpdate_request lb a :
  wf_action a → ∃ err, ∀ e,
  processUpdate c lb (render a) nodeList pools options e =
    match request_of lb nodeList pools options a with
    | Some req => (_ ← sdk (sdk_call (cv_Sdk c) req); mret tt) e
    | None => (Err err, e)
    end.
Proof.
  assert (∀ (m : M W unit) e, sdk m e = (_ ← sdk m; mret tt) e) as Hunit.
  { intros m e. unfold mbind, M_bind, sdk. by destruct (m (env_world e)) as [[[]| |] ?]. }
  intros Ha%wf_words. unfold processUpdate, render, sprint_words.
  destruct a; cbn [words] in *; apply line_read in Ha as (-> & Hf & Ht);
    cbn [index lookup list_lookup]; cbn zeta;
    unfold mbind at 1, M_bind at 1, lift; cbn [request_of];
    rewrite ?(bool_decide_eq_false_2 (_ = _)) by done;
    rewrite bool_decide_eq_true_2 by done.
  - rewrite Ht. change (join " " [poolName]) with poolName.
    unfold createLoadBalancerListener. cbn zeta.
    destruct (List.find _ _) as [ref|] eqn:Hfind.
    + case_bool_decide as Hr.
      * rewrite decide_True by done. by eexists.
      * rewrite decide_False by done. exists missing_argument. by intros e.
    + rewrite bool_decide_eq_true_2 by done. by eexists.
  - rewrite Ht. exists missing_argument. by intros e.
  - unfold createLoadBalancerPoolMember. rewrite Hf. exists missing_argument. by intros e.
  - unfold deleteLoadBalancerListener. rewrite Hf. exists missing_argument. intros e. apply Hunit.
  - unfold deleteLoadBalancerPool. rewrite Hf. exists missing_argument. intros e. apply Hunit.
  - unfold deleteLoadBalancerPoolMember. rewrite Hf. exists missing_argument. intros e. apply Hunit.
  - unfold replaceLoadBalancerPoolMembers. rewrite Hf. exists missing_argument. by intros e.
  - unfold updateLoadBalancerPool. rewrite Hf.
    destruct (List.find _ _) as [pool|] eqn:Hfind; [exists missing_argument; by intros e|].
    by eexists.
Qed.

Lemma request_concerns lb a req :
  request_of lb nodeList pools options a = Some req → concerns (lb_ID lb) req.
Proof.
  destruct a; cbn [request_of]; try by intros [= <-].
  - destruct (List.find _ _) as [ref|]; [|done]. case_decide; [done|]. by intros [= <-].
  - destruct (List.find _ _) as [pool|]; [|done]. by intros [= <-].
Qed.

Lemma processUpdate_moves lb a :
  wf_action a → lb_ID lb = lbID →
  moves (state := state) (processUpdate c lb (render a) nodeList pools options) (λ _, act a).
Proof.
  intros Ha Hid e [] e'. destruct (processUpdate_request lb a Ha) as [err Hrun].
  rewrite Hrun. clear Hrun.
  destruct (request_of lb nodeList pools options a) as [req|] eqn:Hreq; [|done].
  enough (moves (state := state) (_ ← sdk (sdk_call (cv_Sdk c) req); mret tt) (λ _, act a)) as Hm
    by exact (Hm e tt e').
  eapply moves_bind; [eapply moves_request; [|done..]|].
  - rewrite <- Hid. by eapply request_concerns.
  - intros ans. by apply moves_ret.
Qed.

Lemma refresh_moves lb :
  lb_ID lb = lbID →
  moves (state := state) (refreshLoadBalancer c lb) (λ lb' s s', s' = s ∧ lb_ID lb' = lbID).
Proof.
  intros Hid. assert (moves (state := state)
    (sdk (@sdk_GetLoadBalancer _ (cv_Sdk c) lbID)) (λ lb' s s', s' = s ∧ lb_ID lb' = lbID)) as Hget.
  { intros e a e'. unfold sdk.
    destruct (sdk_GetLoadBalancer lbID (env_world e)) as [o w] eqn:Ho. intros [= -> <-].
    split; [|by apply sdk_identity in Ho].
    by apply (effect_request (RGetLoadBalancer lbID) _ _ _ eq_refl Ho). }
  unfold refreshLoadBalancer. rewrite Hid. eapply moves_bind; [exact Hget|]. intros lb1.
  destruct (IsReady lb1); cbn [negb].
  { apply moves_ret. by intros s0 s (-> & ?). }
  unfold WaitLoadBalancerReady. eapply (moves_now_bind (sdk0 := cv_Sdk c) (lbID := lbID)).
  intros start. rewrite bool_decide_eq_false_2 by done.
  assert (∀ n lb1, moves (state := state) (wait_loop c n lbID start minSleepTime maxWaitTime lb1)
    (λ lb' s s', s' = s ∧ (lb_ID lb1 = lbID → lb_ID lb' = lbID))) as Hloop.
  { clear lb1. induction n as [|n IH]; intros lb1; cbn [wait_loop]; [apply moves_fail|].
    apply (moves_now_bind (sdk0 := cv_Sdk c) (lbID := lbID)). intros t1.
    destruct (IsReady lb1); [by apply moves_ret|].
    apply (moves_now_bind (sdk0 := cv_Sdk c) (lbID := lbID)). intros t2.
    case_match; [apply moves_fail|].
    apply (moves_sleep_bind (sdk0 := cv_Sdk c) (lbID := lbID)).
    eapply moves_bind; [exact Hget|]. intros lb2. eapply moves_mono; [apply IH|].
    cbn. intros lb3 s s' [-> Hlb] s1 [-> ?]. auto. }
  assert (lb_ID lb1 = lbID ∨ lb_ID lb1 ≠ lbID) as [Hlb1|Hlb1] by (destruct (decide (lb_ID lb1 = lbID)); auto).
  - rewrite Hlb1. eapply moves_mono; [apply Hloop|]. cbn.
    intros lb3 s s' [-> Hlb] s1 [-> ?]. auto.
  - by intros e a e' _ s1 [_ ?].
Qed.

Lemma processUpdates_moves first lb l :
  Forall wf_action l → lb_ID lb = lbID →
  moves (state := state) (processUpdates c first lb (render <$> l) nodeList pools options)
    (λ _, acts l).
Proof.
  intros Hl. revert first lb. induction Hl as [|a l Ha Hl IH]; intros first lb Hid.
  { by apply moves_ret. }
  cbn [fmap list_fmap processUpdates].
  eapply (moves_bind _ _ (λ lb' s s', s' = s ∧ lb_ID lb' = lbID)).
  { destruct first; [by apply moves_ret|by apply refresh_moves]. }
  intros lb'. destruct (decide (lb_ID lb' = lbID)) as [Hid'|Hid'].
  2: { intros e b e' _ s [_ ?]. done. }
  eapply moves_bind; [by apply processUpdate_moves|]. intros [].
  eapply moves_mono; [by apply IH|]. cbn. intros lb2 s s' Hacts s1 Ha1 s2 [-> _]. eauto.
Qed.
End run.
