(* ===== verification/FakeProps.v ===== *)
(** * FakeProps: what the mock SDK does (pkg/vpcctl/vpc_sdk_fake.go)

    The calls of a mock answer from its objects and change nothing; the error
    switch makes exactly one method fail; and the objects are shared with the
    caller, so that an update that marks the mock's pool for deletion renames
    it for good. *)
From S2P Require Import Prelude GoStrings Kube VpcTypes VpcConfig VpcUpdates UpdateSpec UpdatePlan.
From S2P Require Import VpcSdk StaticVpc VpcLbaas LbaasProps VpcSdkFake LbEffects.

Open Scope go_scope.

(** The key of a request in the error switch. *)
Definition method_of (r : Request) : string :=
  match r with
  | RCreateLoadBalancer _ _ _ _ _ => "CreateLoadBalancer"
  | RCreateListener _ _ _ => "CreateLoadBalancerListener"
  | RCreatePool _ _ _ _ => "CreateLoadBalancerPool"
  | RCreatePoolMember _ _ _ _ => "CreateLoadBalancerPoolMember"
  | RDeleteLoadBalancer _ => "DeleteLoadBalancer"
  | RDeleteListener _ _ => "DeleteLoadBalancerListener"
  | RDeletePool _ _ => "DeleteLoadBalancerPool"
  | RDeletePoolMember _ _ _ => "DeleteLoadBalancerPoolMember"
  | RReplacePoolMembers _ _ _ _ => "ReplaceLoadBalancerPoolMembers"
  | RUpdatePool _ _ _ _ => "UpdateLoadBalancerPool"
  | RGetLoadBalancer _ => "GetLoadBalancer"
  | RGetSubnet _ => "GetSubnet"
  | RListLoadBalancers => "ListLoadBalancers"
  | RListListeners _ => "ListLoadBalancerListeners"
  | RListPools _ => "ListLoadBalancerPools"
  | RListPoolMembers _ _ => "ListLoadBalancerPoolMembers"
  | RListSubnets => "ListSubnets"
  end.

(** The answer of a mock without errors. *)
Definition fake_answer (v : VpcSdkFake) (r : Request) : answer r :=
  match r with
  | RCreateLoadBalancer name _ _ _ _ =>
      if hasSuffix name "-Ready" then fake_LoadBalancerReady v else fake_LoadBalancerNotReady v
  | RCreateListener _ _ _ => fake_Listener v
  | RCreatePool _ _ _ _ | RUpdatePool _ _ _ _ => fake_Pool v
  | RCreatePoolMember _ _ _ _ => fake_Member1 v
  | RDeleteLoadBalancer _ | RDeleteListener _ _ | RDeletePool _ _ | RDeletePoolMember _ _ _ => tt
  | RReplacePoolMembers _ _ _ _ | RListPoolMembers _ _ => [fake_Member1 v; fake_Member2 v]
  | RGetLoadBalancer lbID =>
      if bool_decide (lbID = lb_ID (fake_LoadBalancerNotReady v))
      then fake_LoadBalancerNotReady v else fake_LoadBalancerReady v
  | RGetSubnet _ => fake_Subnet1 v
  | RListLoadBalancers => [fake_LoadBalancerReady v; fake_LoadBalancerNotReady v]
  | RListListeners _ => [fake_Listener v]
  | RListPools _ => [fake_Pool v]
  | RListSubnets => [fake_Subnet1 v; fake_Subnet2 v]
  end.

Section mock.
Context {W : Type} `{!MockHeap W} `{!MockHeapLaws W}.

(** A call of a mock: what is switched on, or else the answer; the world is
    left alone. *)
Lemma fake_sdk_call l r (w : W) v :
  mock_heap w !! l = Some v →
  sdk_call (FakeSdk l) r w =
    (match fake_Error v !! method_of r with Some e => Err e | None => Ok (fake_answer v r) end, w).
Proof.
  intros Hv.
  destruct r; cbn [sdk_call FakeSdk sdk_CreateLoadBalancer sdk_CreateLoadBalancerListener
    sdk_CreateLoadBalancerPool sdk_CreateLoadBalancerPoolMember sdk_DeleteLoadBalancer
    sdk_DeleteLoadBalancerListener sdk_DeleteLoadBalancerPool sdk_DeleteLoadBalancerPoolMember
    sdk_GetLoadBalancer sdk_GetSubnet sdk_ListLoadBalancers sdk_ListLoadBalancerListeners
    sdk_ListLoadBalancerPools sdk_ListLoadBalancerPoolMembers sdk_ListSubnets
    sdk_ReplaceLoadBalancerPoolMembers sdk_UpdateLoadBalancerPool method_of fake_answer];
    unfold Fake_CreateLoadBalancer, Fake_GetLoadBalancer, fake_call; rewrite Hv;
    by destruct (fake_Error v !! _).
Qed.

Lemma update_mock_lookup l f (w : W) l' :
  mock_heap (update_mock l f w) !! l' =
    if decide (l' = l) then f <$> mock_heap w !! l' else mock_heap w !! l'.
Proof.
  unfold update_mock. rewrite mock_heap_set, list_lookup_alter.
  by repeat case_decide; try congruence.
Qed.

(** Setting the error of a method makes exactly the calls of this method, on
    this mock, fail with that error; clearing it undoes the switch.  A new mock
    is a mock of its own. *)
Theorem fake_error_switch l l' (w : W) v v' m r :
  mock_heap w !! l = Some v → mock_heap w !! l' = Some v' →
  let w1 := (SetFakeSdkError l m w).2 in
  let w2 := (ClearFakeSdkError l m w1).2 in
  (sdk_call (FakeSdk l') r w1).1 =
    (if decide (l' = l ∧ method_of r = m) then Err (ErrorString (m +:+ " failed"))
     else (sdk_call (FakeSdk l') r w).1) ∧
  (fake_Error v !! m = None → (sdk_call (FakeSdk l') r w2).1 = (sdk_call (FakeSdk l') r w).1).
Proof.
  intros Hv Hv' w1. rewrite (fake_sdk_call l' r w v' Hv').
  assert (mock_heap w1 !! l' = Some (if decide (l' = l)
    then set_fake_Error (<[m := ErrorString (m +:+ " failed")]> (fake_Error v)) v else v')) as H1.
  { unfold w1, SetFakeSdkError. cbn. rewrite update_mock_lookup. case_decide; [|done].
    subst. by rewrite Hv. }
  clearbody w1. intros w2.
  assert (mock_heap w2 !! l' = Some (if decide (l' = l)
    then set_fake_Error (delete m (<[m := ErrorString (m +:+ " failed")]> (fake_Error v)))
           (set_fake_Error (<[m := ErrorString (m +:+ " failed")]> (fake_Error v)) v) else v')) as H2.
  { unfold w2, ClearFakeSdkError. cbn. rewrite update_mock_lookup, H1. by case_decide. }
  rewrite (fake_sdk_call _ _ _ _ H1), (fake_sdk_call _ _ _ _ H2). cbn.
  destruct (decide (l' = l)) as [->|Hl].
  - assert (v' = v) as -> by congruence. split.
    + cbn. destruct (decide (method_of r = m)) as [<-|Hm].
      * by rewrite decide_True, lookup_insert_eq.
      * rewrite decide_False by (intros [_ ?]; congruence). rewrite lookup_insert_ne by done.
        by destruct r.
    + intros Hnone. cbn. rewrite delete_insert_id by done. by destruct r.
  - split; [|done]. by rewrite decide_False by (intros [? _]; done).
Qed.
End mock.

(** ** The pool the mock shares *)

(** Time passes without touching the mocks. *)
Class MockClock (W : Type) `{!MockHeap W} `{!Clock W} : Prop := {
  mock_now : ∀ w : W, mock_heap (time_Now w).2 = mock_heap w;
  mock_sleep : ∀ ns (w : W), mock_heap (time_Sleep ns w) = mock_heap w;
}.

Section update.
Context {W : Type} `{!Clock W} `{!MapIteration} `{!MockHeap W} `{!MockHeapLaws W}
  `{!MockClock W} (c : CloudVpc W) (l : nat) (Hsdk : cv_Sdk c = FakeSdk l).

Local Abbreviation mocks := (λ e : Env W, mock_heap (env_world e)).

Lemma keeps_fake {A} method (x : VpcSdkFake → A) : keeps mocks (sdk (fake_call l method x)).
Proof.
  intros e r e'. unfold sdk, fake_call. destruct (mock_heap (env_world e) !! l) as [v|] eqn:Hv;
    [|by intros [= _ <-]].
  destruct (fake_Error v !! method); by intros [= _ <-].
Qed.
Lemma keeps_now : keeps mocks now.
Proof.
  intros e r e'. unfold now. pose proof (mock_now (env_world e)) as Hn.
  destruct (time_Now _). by intros [= _ <-].
Qed.
Lemma keeps_sleep ns : keeps mocks (sleep ns).
Proof. intros e r e' [= _ <-]. apply mock_sleep. Qed.
Lemma keeps_draw : keeps mocks draw.
Proof. by intros e r e' [= _ <-]. Qed.

Ltac keeps_all :=
  repeat first
    [ apply keeps_fake | apply keeps_now | apply keeps_sleep | apply keeps_draw | apply keeps_lift
    | apply keeps_ret | apply keeps_fail | apply keeps_bind; [|intros ?] | progress cbv zeta
    | case_match ].

Lemma keeps_wait n lbID start minSleep maxWait lb :
  keeps mocks (wait_loop c n lbID start minSleep maxWait lb).
Proof.
  revert lb. induction n as [|n IH]; intros lb; cbn [wait_loop]; rewrite ?Hsdk; keeps_all. apply IH.
Qed.

Lemma keeps_refresh lb : keeps mocks (refreshLoadBalancer c lb).
Proof.
  unfold refreshLoadBalancer. rewrite Hsdk. apply keeps_bind; [apply keeps_fake|]. intros lb'.
  case_match; [|apply keeps_ret]. unfold WaitLoadBalancerReady.
  apply keeps_bind; [apply keeps_now|]. intros start. case_match; [apply keeps_lift|].
  apply keeps_wait.
Qed.

(** Carrying out a plan does not touch the mock's objects. *)
Lemma keeps_processUpdates first lb updates nodeList pools options :
  keeps mocks (processUpdates c first lb updates nodeList pools options).
Proof.
  revert first lb. induction updates as [|u rest IH]; intros first lb; cbn [processUpdates];
    [apply keeps_ret|].
  apply keeps_bind.
  { destruct first; [apply keeps_ret|apply keeps_refresh]. }
  intros lb'. apply keeps_bind; [|intros _; apply IH].
  unfold processUpdate, createLoadBalancerListener, createLoadBalancerPool,
    createLoadBalancerPoolMember, deleteLoadBalancerListener, deleteLoadBalancerPool,
    deleteLoadBalancerPoolMember, updateLoadBalancerPool, replaceLoadBalancerPoolMembers.
  rewrite Hsdk. keeps_all.
Qed.

Lemma renamedPools_one ports pool : ∃ pool', renamedPools ports [pool] = [pool'].
Proof.
  cbn. destruct (checkPoolForExtPortDeletedFromService _ _ _) as [[? pool']| |]; by eexists.
Qed.

(** The mock when its pool was seen by an update for [service]. *)
Definition seen_by (service : Service) (v : VpcSdkFake) : VpcSdkFake :=
  match renamedPools (spec_Ports (svc_Spec service)) [fake_Pool v] with
  | [pool] => set_fake_Pool pool v
  | _ => v
  end.

Lemma mock_step {A B} (m : M (Env W) A) (f : A → M (Env W) B) e r e' (P : Prop) :
  (m ≫= f) e = (r, e') → keeps mocks m →
  (mocks e' = mocks e → ¬ is_Ok r → P) →
  (∀ a e1, m e = (Ok a, e1) → mocks e1 = mocks e → f a e1 = (r, e') → P) → P.
Proof.
  intros Hf Hm. revert Hf. unfold mbind, M_bind. destruct (m e) as [o e1] eqn:Hrun.
  apply Hm in Hrun. destruct o as [a|err|why].
  - intros Hf _ HP. by apply (HP a e1).
  - intros [= <- <-] HP _. apply HP; [done|by intros []].
  - intros [= <- <-] HP _. apply HP; [done|by intros []].
Qed.

(** Take the first part of a run off, or be done where it failed. *)
Ltac mock_run H a e1 Hm He :=
  eapply mock_step;
    [exact H|first [apply keeps_lift|apply keeps_fake|apply keeps_draw]
    |intros; left; split; [auto with congruence|done]|];
  clear H; intros a e1 Hm He H; cbv beta in H.

(** An update leaves the mock as it was and fails, or marks its pool; it
    succeeds only with a plan for the mock's listener and pool. *)
Lemma mock_update lb service nodes e v r e' :
  mocks e !! l = Some v →
  UpdateLoadBalancer c lb service nodes e = (r, e') →
  (mocks e' !! l = Some v ∧ ¬ is_Ok r) ∨
  ∃ s ns, service = Some s ∧ nodes = Some ns ∧ mocks e' !! l = Some (seen_by s v) ∧
    (is_Ok r → is_Ok (planUpdates [fake_Listener v] [fake_Pool v] s
       (getNodeIDs (selectNodes s (getServiceOptions (Some s)) ns)))).
Proof.
  intros Hv. unfold UpdateLoadBalancer.
  destruct lb as [lb|], service as [s|], nodes as [ns|]; try (intros [= <- <-]; left; split; [done|by intros []]).
  destruct (negb (IsReady lb)); [intros [= <- <-]; left; split; [done|by intros []]|].
  rewrite Hsdk.
  assert (∀ e1, mocks e1 = mocks e → mocks e1 !! l = Some v) as Hsame by by intros e1 ->.
  intros Hrun. mock_run Hrun options e1 Hopts H1.
  assert (options = getServiceOptions (Some s)) as ->.
  { injection Hopts as Hval _. destruct (validateService_cases s) as [[_ Hs]|[[? Hs] _]];
      rewrite Hs in Hval; congruence. }
  mock_run Hrun u2 e2 H2m H2. mock_run Hrun subnets e3 H3m H3.
  mock_run Hrun d e4 H4m H4. mock_run Hrun u5 e5 H5m H5.
  destruct (bool_decide _); [injection Hrun as <- <-; left; split; [apply Hsame; congruence|by intros []]|].
  mock_run Hrun listeners e6 H6m H6. mock_run Hrun pools e7 H7m H7.
  pose proof (fake_sdk_call l (RListListeners (lb_ID lb)) (env_world e5) v
    ltac:(apply Hsame; congruence)) as Hl.
  pose proof (fake_sdk_call l (RListPools (lb_ID lb)) (env_world e6) v
    ltac:(apply Hsame; congruence)) as Hp.
  unfold sdk in H6m, H7m. cbn [sdk_call] in Hl, Hp. rewrite Hl in H6m. rewrite Hp in H7m.
  destruct (fake_Error v !! method_of (RListListeners _)); [done|].
  destruct (fake_Error v !! method_of (RListPools _)); [done|].
  injection H6m as <- _. injection H7m as <- _. clear Hl Hp.
  set (e8 := set_world (@sdk_written _ (FakeSdk l)
    (renamedPools (spec_Ports (svc_Spec s)) [fake_Pool v]) (env_world e7)) e7).
  rewrite (run_Ok (written _ _) _ e7 tt e8) in Hrun by done.
  assert (mocks e8 !! l = Some (seen_by s v)) as H8.
  { assert (mocks e7 !! l = Some v) as Hv7 by (apply Hsame; congruence).
    destruct (renamedPools_one (spec_Ports (svc_Spec s)) (fake_Pool v)) as [pool Hpool].
    unfold e8, seen_by. rewrite Hpool. cbn. rewrite update_mock_lookup, decide_True by done.
    by rewrite Hv7. }
  right. exists s, ns. split_and!; [done..| |].
  - eapply mock_step; [exact Hrun|apply keeps_lift|by intros ->|].
    intros [updates pools'] e9 _ H9 Hrun'. apply keeps_processUpdates in Hrun'.
    by rewrite Hrun', H9.
  - intros [? ->]. destruct (planUpdates _ _ _ _) as [p|err|why]; [by eexists|done..].
Qed.

(** A mock whose pool is marked is lost: its name parses no more. *)
Definition pool_lost (v : VpcSdkFake) : Prop := pool_Name (fake_Pool v) = poolToBeDeleted.

Lemma pool_lost_extract v : pool_lost v → ∃ err, extractFieldsFromPoolName (pool_Name (fake_Pool v)) = Err err.
Proof. intros ->. by eexists. Qed.

Lemma pool_lost_stays service v : pool_lost v → seen_by service v = v.
Proof.
  intros Hv. destruct (pool_lost_extract v Hv) as [err Herr]. unfold seen_by. cbn.
  unfold checkPoolForExtPortDeletedFromService. rewrite Herr. cbn. by destruct v.
Qed.

Lemma pool_lost_plan service v ns :
  pool_lost v → ¬ is_Ok (planUpdates [fake_Listener v] [fake_Pool v] service ns).
Proof.
  intros Hv [a Ha]. destruct (pool_lost_extract v Hv) as [err Herr].
  unfold planUpdates in Ha. rewrite (collect_fails _ _ _ _ err) in Ha; [done|].
  unfold parse_pools, parse_pool. cbn. by rewrite Herr.
Qed.

(** One update over the mock, with any arguments. *)
Definition mock_updated (e e' : Env W) : Prop :=
  ∃ lb service nodes r, UpdateLoadBalancer c lb service nodes e = (r, e').

(** With the mock, an update either leaves the mock as it was or is the last
    one that can succeed: it has renamed the pool in the mock itself, and from
    then on no update can read the pool's name, whatever the service. *)
Theorem mock_update_last lb service nodes e v r e1 e2 :
  mocks e !! l = Some v → UpdateLoadBalancer c lb service nodes e = (r, e1) →
  mocks e1 !! l ≠ Some v → rtc mock_updated e1 e2 →
  ∀ lb2 service2 nodes2, ¬ is_Ok (UpdateLoadBalancer c lb2 service2 nodes2 e2).1.
Proof.
  intros Hv Hrun Hchanged Hruns.
  assert (∃ v1, mocks e1 !! l = Some v1 ∧ pool_lost v1) as Hlost.
  { destruct (mock_update _ _ _ _ v _ _ Hv Hrun) as [[? _]|(s & ns & _ & _ & H1 & _)]; [done|].
    exists (seen_by s v). split; [done|]. assert (seen_by s v ≠ v) as Hne.
    { intros Heq. apply Hchanged. rewrite Heq in H1. exact H1. }
    revert Hne. unfold pool_lost, seen_by. cbn. unfold checkPoolForExtPortDeletedFromService.
    destruct (extractFieldsFromPoolName _) as [f| |]; cbn;
      [destruct (existsb _ _); cbn|..]; try done; intros []; by destruct v. }
  clear Hrun Hv Hchanged.
  assert (∃ v2, mocks e2 !! l = Some v2 ∧ pool_lost v2) as (v2 & Hv2 & Hlost2).
  { induction Hruns as [|ea eb ec Hstep _ IH]; [done|]. apply IH.
    destruct Hstep as (lb3 & s3 & n3 & r3 & Hrun). clear IH. destruct Hlost as (v1 & Hv1 & Hl1).
    destruct (mock_update _ _ _ _ v1 _ _ Hv1 Hrun) as [[H2 _]|(s & ns' & _ & _ & H2 & _)];
      [by exists v1|].
    rewrite pool_lost_stays in H2 by done. by exists v1. }
  intros lb2 service2 nodes2 Hok. destruct (UpdateLoadBalancer _ _ _ _ e2) as [r2 e3] eqn:Hrun.
  destruct (mock_update _ _ _ _ v2 _ _ Hv2 Hrun) as [[_ ?]|(s & ns' & _ & _ & _ & Hplan)]; [done|].
  by eapply pool_lost_plan, Hplan.
Qed.
End update.

(** ** Examples *)

(** A world of mocks and nothing else. *)
#[local] Instance mocks_only : MockHeap (list VpcSdkFake) := {|
  mock_heap w := w;
  set_mock_heap l _ := l;
|}.
#[local] Instance mocks_laws : MockHeapLaws (list VpcSdkFake).
Proof. done. Qed.
#[local] Instance mocks_clock : Clock (list VpcSdkFake) := {|
  time_Now w := (0%Z, w);
  time_Sleep _ w := w;
|}.
#[local] Instance mocks_timeless : MockClock (list VpcSdkFake).
Proof. done. Qed.

Lemma fake_error_switch_witness :
  let w := [fakeObjects] in
  (sdk_call (FakeSdk 0) RListSubnets (SetFakeSdkError 0 "ListSubnets" w).2).1
  = Err (ErrorString "ListSubnets failed").
Proof.
  cbv zeta.
  exact (proj1 (fake_error_switch 0 0 [fakeObjects] fakeObjects fakeObjects "ListSubnets"
    RListSubnets eq_refl eq_refl)).
Defined.

(** A service that moves from port 80 to port 81, and back. *)
Lemma mock_update_last_witness :
  let c := {| cv_Config := example_config; cv_Sdk := FakeSdk 0; cv_Recorder := true |} in
  let e := {| env_world := [fakeObjects]; env_events := []; env_draws := 0 |} in
  let lb := fake_LoadBalancerReady fakeObjects in
  let nodes := [example_node "n1" "192.168.1.1" "z1"] in
  let update port e := UpdateLoadBalancer (H := key_order) c (Some lb)
    (Some (example_service "u" [(port, 30303)]%Z ∅)) (Some nodes) e in
  is_Ok (update 80%Z e).1 ∧ ¬ is_Ok (update 80%Z (update 81%Z e).2).1.
Proof.
  cbv zeta. split; [by_decision|].
  set (c := {| cv_Config := example_config; cv_Sdk := FakeSdk 0; cv_Recorder := true |}).
  set (e := {| env_world := [fakeObjects]; env_events := []; env_draws := 0 |}).
  set (run := UpdateLoadBalancer _ _ (Some (example_service "u" [(81, 30303)]%Z ∅)) _ e).
  apply (mock_update_last (H := key_order) c 0 eq_refl _ _ _ e fakeObjects run.1 run.2 run.2
    eq_refl (surjective_pairing run)); [|done].
  vm_compute. discriminate.
Defined.
