(* ===== verification/Gen2Effects.v ===== *)
(** * Gen2Effects: the Gen2 SDK has the effects the update logic relies on

    [VpcV1Effects] states the documented behaviour of the VPC client for one
    load balancer: what it stores, in the client's own types, and what a
    request that succeeds changes of it.  Over such a client the Gen2 SDK
    satisfies [LbEffects.SdkEffects]: its templates arrive as the requests of
    the plan mean them, and its lists, collected from several calls, are the
    state. *)
From S2P Require Import Prelude GoStrings Kube VpcTypes VpcConfig VpcUpdates UpdateSpec UpdatePlan.
From S2P Require Import VpcSdk VpcLbaas LbaasProps VpcSdkGen2 Gen2Props LbEffects.

Open Scope go_scope.

(** ** What the client stores *)

(** A pool and its members. *)
Definition PoolEntry : Type := sdk_LoadBalancerPool * list sdk_LoadBalancerPoolMember.

Record ClientState := {
  cs_listeners : list sdk_LoadBalancerListener;
  cs_pools : list PoolEntry;
}.

(** The member that is stored for a prototype. *)
Definition member_stored (proto : MemberPrototype) (m : sdk_LoadBalancerPoolMember) : Prop :=
  sm_Port m = Some (mp_Port proto) ∧
  ∃ id, sm_Target m = Some (LoadBalancerPoolMemberTarget (Some (mp_Address proto)) id).

Definition monitor_stored (proto : HealthMonitorPrototype) (x : sdk_LoadBalancerPool) : Prop :=
  ∃ hm, spl_HealthMonitor x = Some hm ∧
        shm_Type hm = Some (hp_Type proto) ∧ shm_Port hm = Some (hp_Port proto).

(** Proxy protocol is disabled unless the prototype says otherwise. *)
Definition pool_stored (proto : PoolPrototype) (e : PoolEntry) : Prop :=
  spl_Name e.1 = Some (pp_Name proto) ∧ monitor_stored (pp_HealthMonitor proto) e.1 ∧
  spl_ProxyProtocol e.1 = Some (default "disabled" (pp_ProxyProtocol proto)) ∧
  Forall2 member_stored (pp_Members proto) e.2.

(** A patch replaces the fields it holds. *)
Definition patch_stored (patch : LoadBalancerPoolPatch) (e e' : PoolEntry) : Prop :=
  spl_ID e'.1 = spl_ID e.1 ∧ spl_Name e'.1 = Some (pt_Name patch) ∧
  monitor_stored (pt_HealthMonitor patch) e'.1 ∧
  spl_ProxyProtocol e'.1 = match pt_ProxyProtocol patch with
                           | Some x => Some x
                           | None => spl_ProxyProtocol e.1
                           end ∧
  e'.2 = e.2.

(** The pool with the given ID changes by [R], the others do not. *)
Definition pool_changed (poolID : string) (R : PoolEntry → PoolEntry → Prop)
    (s s' : ClientState) : Prop :=
  cs_listeners s' = cs_listeners s ∧
  Forall2 (λ e e', if decide (spl_ID e.1 = Some poolID) then R e e' else e' = e)
          (cs_pools s) (cs_pools s').

(** ** The SDK's view of it *)

Definition map_entry (e : PoolEntry) : VpcLoadBalancerPool :=
  set_pool_Members (match mapMembers e.2 with Ok ms => ms | _ => [] end) (mapLoadBalancerPool e.1).

Definition map_state (s : ClientState) : LbState :=
  {| ls_listeners := mapLoadBalancerListener <$> cs_listeners s;
     ls_pools := map_entry <$> cs_pools s |}.

(** Every object has an ID, and every member an address as its target. *)
Definition has_address (m : sdk_LoadBalancerPoolMember) : Prop :=
  match sm_Target m with
  | Some (LoadBalancerPoolMemberTarget (Some _) _) => True
  | _ => False
  end.
#[export] Instance has_address_dec m : Decision (has_address m).
Proof. unfold has_address. repeat case_match; apply _. Defined.

Definition entry_wf (e : PoolEntry) : Prop :=
  is_Some (spl_ID e.1) ∧ Forall (λ m, is_Some (sm_ID m) ∧ has_address m) e.2.

Record client_wf (s : ClientState) : Prop := {
  cw_listeners : Forall (λ l, is_Some (sl_ID l)) (cs_listeners s);
  cw_pools : Forall entry_wf (cs_pools s);
  cw_state : lb_wf (map_state s);
}.
#[export] Instance client_wf_dec s : Decision (client_wf s).
Proof.
  refine (cast_if (decide (Forall (λ l, is_Some (sl_ID l)) (cs_listeners s) ∧
    Forall (λ e : PoolEntry, is_Some (spl_ID e.1) ∧
      Forall (λ m, is_Some (sm_ID m) ∧ has_address m) e.2) (cs_pools s) ∧ lb_wf (map_state s)))).
  - by split; destruct_and!.
  - intros []. tauto.
Defined.

Class VpcV1Effects {W Patch} `{!Clock W} (client : VpcV1 W Patch) (lbID : string)
    (state : W → ClientState) : Prop := {
  ce_create_listener : ∀ proto w x w',
    cl_CreateLoadBalancerListener lbID proto w = (Ok x, w') →
    ∃ l, sl_Port l = Some (lp_Port proto) ∧ sl_Protocol l = Some (lp_Protocol proto) ∧
      state w' = {| cs_listeners := cs_listeners (state w) ++ [l]; cs_pools := cs_pools (state w) |};
  ce_delete_listener : ∀ i w x w',
    cl_DeleteLoadBalancerListener lbID i w = (Ok x, w') →
    state w' = {| cs_listeners := filter (λ l, sl_ID l ≠ Some i) (cs_listeners (state w));
                  cs_pools := cs_pools (state w) |};
  ce_create_pool : ∀ proto w x w',
    cl_CreateLoadBalancerPool lbID proto w = (Ok x, w') →
    ∃ e, pool_stored proto e ∧
      state w' = {| cs_listeners := cs_listeners (state w); cs_pools := cs_pools (state w) ++ [e] |};
  ce_delete_pool : ∀ i w x w',
    cl_DeleteLoadBalancerPool lbID i w = (Ok x, w') →
    state w' = {| cs_listeners := cs_listeners (state w);
                  cs_pools := filter (λ e : PoolEntry, spl_ID e.1 ≠ Some i) (cs_pools (state w)) |};
  ce_create_member : ∀ i proto w x w',
    cl_CreateLoadBalancerPoolMember lbID i proto w = (Ok x, w') →
    pool_changed i (λ e e', ∃ m, member_stored proto m ∧ e' = (e.1, e.2 ++ [m]))
                 (state w) (state w');
  ce_delete_member : ∀ i memberID w x w',
    cl_DeleteLoadBalancerPoolMember lbID i memberID w = (Ok x, w') →
    pool_changed i (λ e e', e' = (e.1, filter (λ m, sm_ID m ≠ Some memberID) e.2))
                 (state w) (state w');
  ce_replace_members : ∀ i protos w x w',
    cl_ReplaceLoadBalancerPoolMembers lbID i protos w = (Ok x, w') →
    pool_changed i (λ e e', ∃ ms, Forall2 member_stored protos ms ∧ e' = (e.1, ms))
                 (state w) (state w');
  ce_update_pool : ∀ i patch p w x w',
    cl_AsPatch patch = Ok p → cl_UpdateLoadBalancerPool lbID i p w = (Ok x, w') →
    pool_changed i (patch_stored patch) (state w) (state w');
  ce_get : ∀ i w x w', cl_GetLoadBalancer i w = (x, w') → state w' = state w;
  ce_get_subnet : ∀ i w x w', cl_GetSubnet i w = (x, w') → state w' = state w;
  ce_list : ∀ start w x w', cl_ListLoadBalancers start w = (x, w') → state w' = state w;
  ce_list_subnets : ∀ start w x w', cl_ListSubnets start w = (x, w') → state w' = state w;
  ce_list_listeners : ∀ i w x w',
    cl_ListLoadBalancerListeners i w = (x, w') →
    state w' = state w ∧ ∀ l, i = lbID → x = Ok l → l = cs_listeners (state w);
  ce_list_pools : ∀ i w x w',
    cl_ListLoadBalancerPools i w = (x, w') →
    state w' = state w ∧ ∀ l, i = lbID → x = Ok l → l = (cs_pools (state w)).*1;
  ce_list_members : ∀ i poolID w x w',
    cl_ListLoadBalancerPoolMembers i poolID w = (x, w') →
    state w' = state w ∧ ∀ l e, i = lbID → x = Ok l → e ∈ cs_pools (state w) →
      spl_ID e.1 = Some poolID → l = e.2;
  ce_now : ∀ w, state (time_Now w).2 = state w;
  ce_sleep : ∀ ns w, state (time_Sleep ns w) = state w;
  ce_wf : ∀ w, client_wf (state w);
}.

(** ** Conversions *)

(** A member as the SDK converts it. *)
Definition map_member (m : sdk_LoadBalancerPoolMember) : VpcLoadBalancerPoolMember :=
  match mapLoadBalancerPoolMember m with
  | Ok x => x
  | _ => member_reference {| r_ID := None; r_Name := None |}
  end.

Lemma map_member_Ok m : has_address m → mapLoadBalancerPoolMember m = Ok (map_member m).
Proof.
  unfold map_member, has_address, mapLoadBalancerPoolMember.
  by destruct (sm_Target m) as [[[a|] id|]|].
Qed.

Lemma mapMembers_Ok l : Forall has_address l → mapMembers l = Ok (map_member <$> l).
Proof.
  intros Hl. unfold mapMembers. rewrite (foldM_append _ (λ m, [map_member m])).
  - done.
  - intros u m Hm. rewrite map_member_Ok; [done|]. by apply (proj1 (Forall_forall _ _) Hl).
Qed.

Lemma map_entry_wf e :
  entry_wf e → map_entry e = set_pool_Members (map_member <$> e.2) (mapLoadBalancerPool e.1).
Proof.
  intros [_ Hms]. unfold map_entry. rewrite mapMembers_Ok; [done|].
  eapply Forall_impl; [exact Hms|]. by intros m [_ ?].
Qed.

Lemma map_member_stored proto m :
  member_stored proto m →
  mem_TargetIPAddress (map_member m) = mp_Address proto ∧ mem_Port (map_member m) = mp_Port proto.
Proof.
  intros (Hp & id & Ht). unfold map_member, mapLoadBalancerPoolMember. by rewrite Ht, Hp.
Qed.
Lemma map_member_ID m : has_address m → mem_ID (map_member m) = SafePointerString (sm_ID m).
Proof.
  unfold map_member, has_address, mapLoadBalancerPoolMember.
  by destruct (sm_Target m) as [[[a|] id|]|].
Qed.

Lemma members_stored name f nodes ms :
  extractFieldsFromPoolName name = Ok f →
  Forall2 member_stored (genLoadBalancerMembers (pn_NodePort f) nodes) ms →
  members_for name nodes (map_member <$> ms).
Proof.
  intros Hf Hms. exists f. split; [done|]. unfold genLoadBalancerMembers in Hms.
  revert ms Hms. induction nodes as [|node nodes IH]; intros ms Hms; inversion Hms; subst; [done|].
  cbn. match goal with H : member_stored _ _ |- _ => apply map_member_stored in H as [-> ->] end.
  by rewrite IH.
Qed.

Lemma monitor_monitored proto x ms :
  monitor_stored proto x → monitored proto (set_pool_Members ms (mapLoadBalancerPool x)).
Proof. intros (hm & Hx & Ht & Hp). unfold monitored. cbn. rewrite Hx. cbn. by rewrite Ht, Hp. Qed.

Lemma SafePointer_eq ptr i : is_Some ptr → SafePointerString ptr = i ↔ ptr = Some i.
Proof. intros [x ->]. cbn. split; congruence. Qed.

(** ** The requests *)

Section effects.
Context {W Patch : Type} `{!Clock W} {client : VpcV1 W Patch} {lbID : string}
  {state : W → ClientState} `{!VpcV1Effects client lbID state}
  (resourceGroupID : string) (url_start : string → outcome string) (fuel : nat).
Let gen2 := VpcSdkGen2 resourceGroupID url_start fuel.
Let view (w : W) : LbState := map_state (state w).

(** A change of one stored pool, seen through the SDK. *)
Lemma pool_changed_effect req i R w w' :
  pool_changed i R (state w) (state w') →
  (∀ x y, pool_ID x ≠ i → y = x → pool_effect req x y) →
  (∀ e e', entry_wf e → entry_wf e' → spl_ID e.1 = Some i → R e e' →
     pool_effect req (map_entry e) (map_entry e')) →
  ls_listeners (view w') = ls_listeners (view w) ∧
  Forall2 (pool_effect req) (ls_pools (view w)) (ls_pools (view w')).
Proof.
  intros [Hl Hp] Hother Hchange. split; [cbn; by rewrite Hl|].
  cbn. apply Forall2_fmap.
  pose proof (cw_pools _ (ce_wf w)) as H1. pose proof (cw_pools _ (ce_wf w')) as H2.
  revert H1 H2. induction Hp as [|e e' l l' He Hp IH]; intros H1 H2; [constructor|].
  inversion H1; inversion H2; subst. constructor; [|by apply IH].
  case_decide as Hi; [by apply Hchange|]. subst e'. apply Hother; [|done].
  cbn. by rewrite SafePointer_eq by by match goal with H : entry_wf e |- _ => apply H end.
Qed.

Lemma pool_ID_entry e i : spl_ID e.1 = Some i → pool_ID (map_entry e) = i.
Proof. intros Hi. cbn. by rewrite Hi. Qed.

Lemma gen2_create_listener name poolID w a w' :
  Gen2_CreateLoadBalancerListener lbID name poolID w = (Ok a, w') →
  effect (RCreateListener lbID name poolID) (view w) (view w').
Proof.
  intros (f & w1 & [= Hf ->] & Hrun)%bind_Ok.
  apply bind_Ok in Hrun as (x & w2 & (l & Hport & Hproto & Hs)%ce_create_listener & [= _ ->]).
  exists (mapLoadBalancerListener l). split.
  - exists f. split; [done|]. cbn. by rewrite Hport, Hproto.
  - unfold view. rewrite Hs. unfold map_state. cbn. by rewrite fmap_app.
Qed.

Lemma gen2_delete_listener i w a w' :
  cl_DeleteLoadBalancerListener lbID i w = (Ok a, w') →
  effect (RDeleteListener lbID i) (view w) (view w').
Proof.
  intros Hs%ce_delete_listener. cbn. unfold view. rewrite Hs. unfold map_state. cbn. f_equal.
  pose proof (cw_listeners _ (ce_wf w)) as Hwf. clear Hs. induction Hwf as [|l ls Hl Hls IH]; [done|].
  cbn [fmap list_fmap]. rewrite !filter_cons, <- IH.
  rewrite (decide_ext (lst_ID (mapLoadBalancerListener l) ≠ i) (sl_ID l ≠ Some i)).
  - by case_decide.
  - cbn. by rewrite SafePointer_eq.
Qed.

Lemma gen2_create_pool name nodes options w a w' :
  Gen2_CreateLoadBalancerPool lbID name nodes options w = (Ok a, w') →
  effect (RCreatePool lbID name nodes options) (view w) (view w').
Proof.
  intros (f & w1 & [= Hf ->] & Hrun)%bind_Ok.
  apply bind_Ok in Hrun
    as (x & w2 & (e & (Hname & Hmon & Hproxy & Hms) & Hs)%ce_create_pool & [= _ ->]).
  pose proof (cw_pools _ (ce_wf w')) as Hwf. rewrite Hs in Hwf. apply Forall_app in Hwf as [_ Hwf].
  inversion Hwf as [|? ? He _]; subst. exists (map_entry e). split.
  - exists f. split; [done|]. rewrite map_entry_wf by done. cbn zeta. split_and!.
    + cbn. by rewrite Hname.
    + by apply monitor_monitored.
    + cbn. by rewrite Hproxy.
    + cbn. by eapply members_stored.
  - unfold view. rewrite Hs. unfold map_state. cbn. by rewrite fmap_app.
Qed.

Lemma gen2_delete_pool i w a w' :
  cl_DeleteLoadBalancerPool lbID i w = (Ok a, w') →
  effect (RDeletePool lbID i) (view w) (view w').
Proof.
  intros Hs%ce_delete_pool. cbn. unfold view. rewrite Hs. unfold map_state. cbn. f_equal.
  pose proof (cw_pools _ (ce_wf w)) as Hwf. clear Hs. induction Hwf as [|e es [He _] Hes IH]; [done|].
  cbn [fmap list_fmap]. rewrite !filter_cons, <- IH.
  rewrite (decide_ext (pool_ID (map_entry e) ≠ i) (spl_ID e.1 ≠ Some i)).
  - by case_decide.
  - cbn. by rewrite SafePointer_eq.
Qed.

Lemma gen2_create_member name i node w a w' :
  Gen2_CreateLoadBalancerPoolMember lbID name i node w = (Ok a, w') →
  effect (RCreatePoolMember lbID name i node) (view w) (view w').
Proof.
  intros (f & w1 & [= Hf ->] & Hrun)%bind_Ok.
  apply bind_Ok in Hrun as (x & w2 & Hs%ce_create_member & [= _ ->]).
  eapply pool_changed_effect; [exact Hs|cbn; intros; by rewrite decide_False|].
  intros e e' He He' Hi (m & Hm & ->). cbn [pool_effect].
  rewrite decide_True by by apply pool_ID_entry.
  exists (map_member m). split.
  - apply (members_stored name f [node] [m] Hf). by constructor.
  - rewrite !map_entry_wf by done. cbn. by rewrite fmap_app.
Qed.

Lemma gen2_delete_member i memberID w a w' :
  cl_DeleteLoadBalancerPoolMember lbID i memberID w = (Ok a, w') →
  effect (RDeletePoolMember lbID i memberID) (view w) (view w').
Proof.
  intros Hs%ce_delete_member.
  eapply pool_changed_effect; [exact Hs|cbn; intros; by rewrite decide_False|].
  intros e e' He He' Hi ->. cbn [pool_effect]. rewrite decide_True by by apply pool_ID_entry.
  rewrite !map_entry_wf by done. unfold set_pool_Members. cbn. f_equal. destruct He as [_ Hms].
  clear He' Hi. induction Hms as [|m ms [Hid Ha] Hms IH]; [done|].
  cbn [fmap list_fmap]. rewrite !filter_cons.
  rewrite (decide_ext (mem_ID (map_member m) ≠ memberID) (sm_ID m ≠ Some memberID)).
  - case_decide; cbn; by rewrite IH.
  - rewrite map_member_ID by done. by rewrite SafePointer_eq.
Qed.

Lemma gen2_replace_members name i nodes w a w' :
  Gen2_ReplaceLoadBalancerPoolMembers lbID name i nodes w = (Ok a, w') →
  effect (RReplacePoolMembers lbID name i nodes) (view w) (view w').
Proof.
  intros (f & w1 & [= Hf ->] & Hrun)%bind_Ok.
  apply bind_Ok in Hrun as (x & w2 & Hs%ce_replace_members & [= _ ->]).
  eapply pool_changed_effect; [exact Hs|cbn; intros; by rewrite decide_False|].
  intros e e' He He' Hi (ms & Hms & ->). cbn [pool_effect].
  rewrite decide_True by by apply pool_ID_entry.
  exists (map_member <$> ms). split; [by eapply members_stored|].
  by rewrite !map_entry_wf.
Qed.

Lemma gen2_update_pool name existing options w a w' :
  Gen2_UpdateLoadBalancerPool lbID name existing options w = (Ok a, w') →
  effect (RUpdatePool lbID name existing options) (view w) (view w').
Proof.
  intros (f & w1 & [= Hf ->] & Hrun)%bind_Ok.
  apply bind_Ok in Hrun as (p & w2 & [= Hp ->] & Hrun).
  apply bind_Ok in Hrun as (x & w3 & Hs & [= _ ->]). eapply ce_update_pool in Hs; [|exact Hp].
  eapply pool_changed_effect; [exact Hs|cbn; intros; by rewrite decide_False|].
  intros e e' He He' Hi (Hid & Hname & Hmon & Hproxy & Hms). cbn [pool_effect].
  rewrite decide_True by by apply pool_ID_entry.
  exists f. split; [done|]. rewrite !map_entry_wf by done. cbn zeta. split_and!.
  - cbn. by rewrite Hid.
  - cbn. by rewrite Hms.
  - cbn. by rewrite Hname.
  - by apply monitor_monitored.
  - cbn [set_pool_Members pool_ProxyProtocol mapLoadBalancerPool]. rewrite Hproxy.
    by destruct (pt_ProxyProtocol _).
Qed.
(** Listing the pools reads each pool's members. *)
Lemma gen2_list_pools_loop es acc w l w' :
  (∀ e, e ∈ es → e ∈ cs_pools (state w)) →
  forM (λ pools item,
    let pool := mapLoadBalancerPool item in
    members ← Gen2_ListLoadBalancerPoolMembers lbID (pool_ID pool);
    mret (pools ++ [set_pool_Members members pool])) acc es.*1 w = (Ok l, w') →
  state w' = state w ∧ l = acc ++ (map_entry <$> es).
Proof.
  revert acc w. induction es as [|e es IH]; intros acc w Hes.
  { intros [= <- <-]. by rewrite app_nil_r. }
  cbn [fmap list_fmap forM]. cbn zeta. intros (a & w1 & Ha & Hrun)%bind_Ok.
  apply bind_Ok in Ha as (ms & w2 & Hms & [= <- <-]).
  apply bind_Ok in Hms as (l0 & w3 & [Hs Hl0]%ce_list_members & [= Hms ->]).
  assert (e ∈ cs_pools (state w)) as He by (apply Hes; left).
  pose proof (cw_pools _ (ce_wf w)) as Hwf. rewrite Forall_forall in Hwf.
  assert (l0 = e.2) as ->.
  { apply Hl0; [done..|]. cbn. destruct (Hwf e He) as [[i ->] _]. done. }
  destruct (IH _ _ ltac:(intros e' He'; rewrite Hs; apply Hes; by right) Hrun) as [Hs' ->].
  split; [by rewrite Hs'|]. rewrite <- (assoc_L (++)). f_equal. cbn. f_equal.
  unfold map_entry. by rewrite Hms.
Qed.

Lemma gen2_list_pools w l w' :
  Gen2_ListLoadBalancerPools lbID w = (Ok l, w') → state w' = state w ∧ l = ls_pools (view w).
Proof.
  intros (l0 & w1 & [Hs Hl0]%ce_list_pools & Hrun)%bind_Ok.
  rewrite (Hl0 l0) in Hrun by done. rewrite <- Hs in Hrun.
  apply gen2_list_pools_loop in Hrun as [Hs' ->]; [|done].
  split; [congruence|]. cbn. by rewrite Hs.
Qed.

(** Reads keep the state. *)
Lemma listPages_keeps {A B} n (list_page : option string → M W (sdk_Page A)) (f : A → B) start acc
    w l w' :
  (∀ start w x w', list_page start w = (x, w') → state w' = state w) →
  listPages url_start n list_page f start acc w = (Ok l, w') → state w' = state w.
Proof.
  intros Hpage. revert start acc w. induction n as [|n IH]; intros start acc w; [done|].
  cbn [listPages]. intros (page & w1 & Hp%Hpage & Hrun)%bind_Ok.
  destruct (pg_Next page) as [[href|]|]; [|by injection Hrun as _ <-..].
  apply bind_Ok in Hrun as (next & w2 & [= Hn ->] & Hrun). rewrite <- Hp. by eapply IH.
Qed.

Lemma forM_keeps {A B} (f : A → B → M W A) acc l w r w' :
  (∀ acc x w a w', f acc x w = (Ok a, w') → state w' = state w) →
  forM f acc l w = (Ok r, w') → state w' = state w.
Proof.
  intros Hf. revert acc w. induction l as [|x l IH]; intros acc w; [by intros [= _ <-]|].
  cbn [forM]. intros (a & w1 & Ha%Hf & Hrun)%bind_Ok. rewrite <- Ha. by eapply IH.
Qed.

Lemma gen2_reads r w a w' :
  is_write r = false → sdk_call gen2 r w = (Ok a, w') → state w' = state w.
Proof.
  intros Hr. destruct r; try done; cbn [sdk_call].
  - by intros (x & w1 & Hs%ce_get & [= _ <-])%bind_Ok.
  - by intros (x & w1 & Hs%ce_get_subnet & [= _ <-])%bind_Ok.
  - intros Hrun. eapply listPages_keeps; [|exact Hrun]. apply ce_list.
  - by intros (x & w1 & [Hs _]%ce_list_listeners & [= _ <-])%bind_Ok.
  - intros (x & w1 & [Hs _]%ce_list_pools & Hrun)%bind_Ok. rewrite <- Hs.
    eapply forM_keeps; [|exact Hrun]. intros pools item w2 b w3 Hb.
    apply bind_Ok in Hb as (ms & w4 & Hms & [= _ <-]).
    by apply bind_Ok in Hms as (l0 & w5 & [Hs' _]%ce_list_members & [= _ <-]).
  - by intros (x & w1 & [Hs _]%ce_list_members & [= _ <-])%bind_Ok.
  - intros Hrun. eapply listPages_keeps; [|exact Hrun]. apply ce_list_subnets.
Qed.

Lemma gen2_effects : SdkEffects gen2 lbID view.
Proof.
  split.
  - intros r w a w' Hc Hrun. destruct (is_write r) eqn:Hw.
    + destruct r; try done; cbn in Hc; subst; cbn [sdk_call] in Hrun.
      * by eapply gen2_create_listener.
      * by eapply gen2_create_pool.
      * by eapply gen2_create_member.
      * by eapply gen2_delete_listener.
      * by eapply gen2_delete_pool.
      * by eapply gen2_delete_member.
      * by eapply gen2_replace_members.
      * by eapply gen2_update_pool.
    + apply gen2_reads in Hrun; [|done]. unfold view. rewrite Hrun. by destruct r.
  - intros w l w' Hrun. apply bind_Ok in Hrun as (x & w1 & [_ Hx]%ce_list_listeners & [= <- _]).
    by rewrite (Hx x).
  - intros w l w' Hrun. by apply gen2_list_pools in Hrun as [_ ->].
  - intros w. unfold view. by rewrite ce_now.
  - intros ns w. unfold view. by rewrite ce_sleep.
  - done.
  - intros w. apply (cw_state _ (ce_wf w)).
Qed.
End effects.
