(* ===== verification/Serving.v ===== *)
(** * Serving: a VPC service that answers

    [SdkServes] is the promise that requests the rules of the service admit are
    answered, and that the load balancer is shown with its pools, and as ready
    before the wait for it is over.
    [VpcV1Serves] states the same of the client, and the Gen2 SDK passes it
    on. *)
From S2P Require Import Prelude GoStrings Kube VpcTypes VpcConfig VpcUpdates UpdateSpec UpdatePlan.
From S2P Require Import VpcSdk VpcLbaas LbaasProps VpcSdkGen2 Gen2Props LbEffects Gen2Effects.

Open Scope go_scope.

(** ** A service that answers *)

Definition has_pool (i : string) (s : LbState) : Prop :=
  ∃ pool, pool ∈ ls_pools s ∧ pool_ID pool = i.

(** The rules of the service: names of pools and ports of listeners are used
    once, what is named exists, and a pool is not deleted under a listener. *)
Definition admissible (lbID : string) (r : Request) (s : LbState) : Prop :=
  match r with
  | RCreateListener j name poolID =>
      j = lbID ∧ has_pool poolID s ∧
      ∃ f, extractFieldsFromPoolName name = Ok f ∧
           ∀ l, l ∈ ls_listeners s → lst_Port l ≠ pn_Port f
  | RCreatePool j name nodes _ =>
      j = lbID ∧ Forall token nodes ∧ is_Ok (extractFieldsFromPoolName name) ∧
      ∀ pool, pool ∈ ls_pools s → pool_Name pool ≠ name
  | RCreatePoolMember j name i node =>
      j = lbID ∧ token node ∧ is_Ok (extractFieldsFromPoolName name) ∧ has_pool i s
  | RDeleteListener j i => j = lbID ∧ ∃ l, l ∈ ls_listeners s ∧ lst_ID l = i
  | RDeletePool j i =>
      j = lbID ∧ has_pool i s ∧ ∀ l, l ∈ ls_listeners s → ref_ID (lst_DefaultPool l) ≠ i
  | RDeletePoolMember j i memberID =>
      j = lbID ∧ ∃ pool m, pool ∈ ls_pools s ∧ pool_ID pool = i ∧
                           m ∈ pool_Members pool ∧ mem_ID m = memberID
  | RReplacePoolMembers j name i nodes =>
      j = lbID ∧ Forall token nodes ∧ is_Ok (extractFieldsFromPoolName name) ∧ has_pool i s
  | RUpdatePool j name existing _ =>
      j = lbID ∧ is_Ok (extractFieldsFromPoolName name) ∧ has_pool (pool_ID existing) s ∧
      ∀ pool, pool ∈ ls_pools s → pool_Name pool = name → pool_ID pool = pool_ID existing
  | RGetLoadBalancer j | RListListeners j | RListPools j => j = lbID
  | RListSubnets => True
  | _ => False
  end.

(** The load balancer lists its pools. *)
Definition shows (lb : VpcLoadBalancer) (s : LbState) : Prop :=
  (λ r, (ref_ID r, ref_Name r)) <$> lb_Pools lb
  = (λ pool, (pool_ID pool, pool_Name pool)) <$> ls_pools s.

(** How many more waits of [minSleepTime] the service needs to be ready, and
    the time, in a world. *)
Record Timing (W : Type) := { tm_busy : W → nat; tm_clock : W → Z }.
Arguments tm_busy {W} t : rename.
Arguments tm_clock {W} t : rename.

(** A tenth of a second: what a call may take, and a wait take too long. *)
Definition slack : Z := 100000000.

(** The service is busy for at most fourteen waits, and then shows the load
    balancer as ready. *)
Class GetsReady {W} `{!Clock W} (get : M W VpcLoadBalancer) (tm : Timing W) : Prop := {
  gr_bound : ∀ w, tm_busy tm w ≤ 14;
  gr_get : ∀ w lb w', get w = (Ok lb, w') →
    (tm_busy tm w = 0 → IsReady lb = true) ∧
    tm_busy tm w' ≤ tm_busy tm w ∧ (tm_clock tm w' ≤ tm_clock tm w + slack)%Z;
  gr_now : ∀ w,
    (time_Now w).1 = tm_clock tm w ∧ tm_busy tm (time_Now w).2 ≤ tm_busy tm w ∧
    (tm_clock tm (time_Now w).2 ≤ tm_clock tm w + slack)%Z;
  gr_sleep : ∀ w, let w' := time_Sleep (second * minSleepTime) w in
    tm_busy tm w' ≤ pred (tm_busy tm w) ∧
    (tm_clock tm w' ≤ tm_clock tm w + second * minSleepTime + slack)%Z;
}.

Class SdkServes {W} `{!Clock W} (s : CloudVpcSdk W) (lbID : string) (state : W → LbState)
    : Prop := {
  serves_admissible : ∀ r w, admissible lbID r (state w) →
    ∃ a w', sdk_call s r w = (Ok a, w');
  serves_shows : ∀ w lb w', @sdk_GetLoadBalancer W s lbID w = (Ok lb, w') → shows lb (state w);
  serves_ready : ∃ tm, GetsReady (@sdk_GetLoadBalancer W s lbID) tm;
}.

(** ** A client that answers *)

Definition answers {W A} (m : M W A) (w : W) : Prop := ∃ x w', m w = (Ok x, w').

Class VpcV1Serves {W Patch} `{!Clock W} (client : VpcV1 W Patch) (lbID : string)
    (state : W → ClientState) : Prop := {
  vs_patch : ∀ patch, is_Ok (cl_AsPatch patch);
  vs_create_listener : ∀ proto w,
    has_pool (lp_DefaultPool proto) (map_state (state w)) →
    (∀ l, l ∈ ls_listeners (map_state (state w)) → lst_Port l ≠ lp_Port proto) →
    answers (cl_CreateLoadBalancerListener lbID proto) w;
  vs_delete_listener : ∀ i w,
    (∃ l, l ∈ ls_listeners (map_state (state w)) ∧ lst_ID l = i) →
    answers (cl_DeleteLoadBalancerListener lbID i) w;
  vs_create_pool : ∀ proto w,
    Forall (λ m, token (mp_Address m)) (pp_Members proto) →
    (∀ pool, pool ∈ ls_pools (map_state (state w)) → pool_Name pool ≠ pp_Name proto) →
    answers (cl_CreateLoadBalancerPool lbID proto) w;
  vs_delete_pool : ∀ i w,
    has_pool i (map_state (state w)) →
    (∀ l, l ∈ ls_listeners (map_state (state w)) → ref_ID (lst_DefaultPool l) ≠ i) →
    answers (cl_DeleteLoadBalancerPool lbID i) w;
  vs_create_member : ∀ i proto w,
    has_pool i (map_state (state w)) → token (mp_Address proto) →
    ∃ x w', cl_CreateLoadBalancerPoolMember lbID i proto w = (Ok x, w') ∧ has_address x;
  vs_delete_member : ∀ i memberID w,
    (∃ pool m, pool ∈ ls_pools (map_state (state w)) ∧ pool_ID pool = i ∧
               m ∈ pool_Members pool ∧ mem_ID m = memberID) →
    answers (cl_DeleteLoadBalancerPoolMember lbID i memberID) w;
  vs_replace_members : ∀ i protos w,
    has_pool i (map_state (state w)) → Forall (λ m, token (mp_Address m)) protos →
    ∃ l w', cl_ReplaceLoadBalancerPoolMembers lbID i protos w = (Ok l, w') ∧
            Forall has_address l;
  vs_update_pool : ∀ i patch p w,
    cl_AsPatch patch = Ok p → has_pool i (map_state (state w)) →
    (∀ pool, pool ∈ ls_pools (map_state (state w)) → pool_Name pool = pt_Name patch →
             pool_ID pool = i) →
    answers (cl_UpdateLoadBalancerPool lbID i p) w;
  vs_get : ∀ w, ∃ x w', cl_GetLoadBalancer lbID w = (Ok x, w') ∧
    shows (mapLoadBalancer x) (map_state (state w));
  vs_ready : ∃ tm, GetsReady (x ← cl_GetLoadBalancer lbID; mret (mapLoadBalancer x)) tm;
  vs_list_listeners : ∀ w, answers (cl_ListLoadBalancerListeners lbID) w;
  vs_list_pools : ∀ w, answers (cl_ListLoadBalancerPools lbID) w;
  vs_list_members : ∀ w i, has_pool i (map_state (state w)) →
    answers (cl_ListLoadBalancerPoolMembers lbID i) w;
}.

Section serves.
Context {W Patch : Type} `{!Clock W} {client : VpcV1 W Patch} {lbID : string}
  {state : W → ClientState} `{!VpcV1Effects client lbID state} `{!VpcV1Serves client lbID state}
  (resourceGroupID : string) (url_start : string → outcome string) (fuel : nat).
Let gen2 := VpcSdkGen2 resourceGroupID url_start fuel.
Let view (w : W) : LbState := map_state (state w).

Lemma answers_bind {A B} (m : M W A) (f : A → M W B) w :
  answers m w → (∀ a w', m w = (Ok a, w') → answers (f a) w') → answers (m ≫= f) w.
Proof.
  intros (a & w1 & Ha) Hf. destruct (Hf a w1 Ha) as (b & w2 & Hb).
  exists b, w2. by rewrite (run_Ok _ _ _ _ _ Ha).
Qed.
Lemma answers_ret {A} (a : A) (w : W) : answers (mret a) w.
Proof. by exists a, w. Qed.
Lemma answers_lift {A} (r : outcome A) (w : W) : is_Ok r → answers (lift r) w.
Proof. intros [a ->]. by exists a, w. Qed.

(** A request made from the fields of a pool name. *)
Lemma answers_fields {A} name (k : VpcPoolNameFields → M W A) w :
  is_Ok (extractFieldsFromPoolName name) →
  (∀ f, extractFieldsFromPoolName name = Ok f → answers (k f) w) →
  answers (f ← lift (extractFieldsFromPoolName name); k f) w.
Proof.
  intros Hname Hk. apply answers_bind; [by apply answers_lift|].
  intros f w' [= Hf <-]. by apply Hk.
Qed.

Lemma nodes_tokens np nodes :
  Forall token nodes → Forall (λ m, token (mp_Address m)) (genLoadBalancerMembers np nodes).
Proof. intros Hn. unfold genLoadBalancerMembers. by rewrite Forall_fmap. Qed.

Lemma gen2_pools_answer es acc w :
  (∀ e, e ∈ es → e ∈ cs_pools (state w)) →
  answers (forM (λ pools item,
    let pool := mapLoadBalancerPool item in
    members ← Gen2_ListLoadBalancerPoolMembers lbID (pool_ID pool);
    mret (pools ++ [set_pool_Members members pool])) acc es.*1) w.
Proof.
  revert acc w. induction es as [|e es IH]; intros acc w Hes; [apply answers_ret|].
  cbn [fmap list_fmap forM]. cbn zeta. assert (e ∈ cs_pools (state w)) as He by (apply Hes; left).
  pose proof (cw_pools _ (ce_wf w)) as Hwf. rewrite Forall_forall in Hwf.
  destruct (Hwf e He) as [[i Hi] Hms].
  assert (has_pool (SafePointerString (spl_ID e.1)) (map_state (state w))) as Hpool.
  { exists (map_entry e). split; [by apply list_elem_of_fmap_2|]. cbn. done. }
  destruct (vs_list_members w _ Hpool) as (l & w1 & Hl).
  pose proof (ce_list_members _ _ _ _ _ Hl) as [Hs Hl'].
  assert (l = e.2) as -> by (apply Hl'; [done|done|done|by rewrite Hi]).
  assert (mapMembers e.2 = Ok (map_member <$> e.2)) as Hmap.
  { apply mapMembers_Ok. eapply Forall_impl; [exact Hms|]. by intros m [_ ?]. }
  apply answers_bind.
  { apply answers_bind; [|intros; apply answers_ret].
    apply answers_bind; [by exists e.2, w1|]. intros l w' Hl2. cbn in Hl2. rewrite Hl in Hl2.
    injection Hl2 as <- <-. apply answers_lift. by eexists. }
  intros a w2 Ha. apply IH. intros e' He'.
  apply bind_Ok in Ha as (ms & w3 & Hrun & [= _ <-]).
  apply bind_Ok in Hrun as (l0 & w4 & Hl0 & [= _ <-]). cbn in Hl0. rewrite Hl in Hl0.
  injection Hl0 as _ <-. rewrite Hs. apply Hes. by right.
Qed.

(** Listing the subnets, which the pages of the client may fail to end, is
    left to the caller. *)
Lemma gen2_serves :
  (∀ w, answers (Gen2_ListSubnets url_start fuel) w) → SdkServes gen2 lbID view.
Proof.
  intros Hsubnets. split.
  - intros r w Hadm. change (answers (sdk_call gen2 r) w).
    destruct r; cbn [admissible] in Hadm; try done.
    + destruct Hadm as (-> & Hpool & f & Hf & Hport). apply answers_fields; [by exists f|].
      rewrite Hf. intros ? [= <-]. apply answers_bind; [|intros; apply answers_ret].
      by apply vs_create_listener.
    + destruct Hadm as (-> & Hn & Hname & Hfree). apply answers_fields; [done|]. intros f _.
      apply answers_bind; [|intros; apply answers_ret].
      apply vs_create_pool; [by apply nodes_tokens|done].
    + destruct Hadm as (-> & Hn & Hname & Hpool). apply answers_fields; [done|]. intros f _.
      destruct (vs_create_member poolID {| mp_Port := pn_NodePort f; mp_Address := nodeID |} w)
        as (x & w' & Hx & Ha); [done..|].
      apply answers_bind; [by exists x, w'|]. intros x' w2 Hx'. rewrite Hx in Hx'.
      injection Hx' as <- <-. apply answers_lift. exists (map_member x). by apply map_member_Ok.
    + destruct Hadm as (-> & Hl). by apply vs_delete_listener.
    + destruct Hadm as (-> & Hp & Hl). by apply vs_delete_pool.
    + destruct Hadm as (-> & Hm). by apply vs_delete_member.
    + destruct Hadm as (-> & Hn & Hname & Hpool). apply answers_fields; [done|]. intros f _.
      destruct (vs_replace_members poolID (genLoadBalancerMembers (pn_NodePort f) nodeList) w)
        as (l & w' & Hl & Ha); [done|by apply nodes_tokens|].
      apply answers_bind; [by exists l, w'|]. intros l' w2 Hl'. rewrite Hl in Hl'.
      injection Hl' as <- <-. apply answers_lift. eexists. by apply mapMembers_Ok.
    + destruct Hadm as (-> & Hname & Hpool & Hfree). apply answers_fields; [done|]. intros f _.
      apply answers_bind; [by apply answers_lift, vs_patch|]. intros p w' [= Hp <-].
      apply answers_bind; [|intros; apply answers_ret]. by eapply vs_update_pool.
    + subst. destruct (vs_get w) as (x & w' & Hx & _).
      apply answers_bind; [by exists x, w'|intros; apply answers_ret].
    + subst. apply answers_bind; [apply vs_list_listeners|intros; apply answers_ret].
    + subst. apply answers_bind; [apply vs_list_pools|]. intros l w' Hl.
      apply ce_list_pools in Hl as [Hs Hl]. rewrite (Hl l), <- Hs by done.
      by apply gen2_pools_answer.
  - intros w lb w' Hrun. apply bind_Ok in Hrun as (x & w1 & Hx & [= <- _]).
    destruct (vs_get w) as (x' & w2 & Hx' & Hsh). rewrite Hx in Hx'. by injection Hx' as <- _.
  - exact vs_ready.
Qed.
End serves.
