(* ===== verification/StoreVpc.v ===== *)
(** * StoreVpc: a VPC service that stores one load balancer

    The client [VpcV1] instantiated by a concrete world that satisfies
    [Gen2Effects.VpcV1Effects] and [Serving.VpcV1Serves], for the examples of
    theorems about what creations and updates achieve.  Requests for another
    load balancer are not found; a request that would break a uniqueness rule of
    the service is refused.  It is not a model of any code of the repository. *)
From S2P Require Import Prelude GoStrings Kube VpcTypes VpcConfig VpcUpdates UpdateSpec UpdatePlan.
From S2P Require Import VpcSdk VpcLbaas LbaasProps VpcSdkGen2 Gen2Props LbEffects Gen2Effects Serving.

Open Scope go_scope.

Lemma pred_lt {n} (i : fin n) : pred (fin_to_nat i) < n.
Proof. pose proof (fin_to_nat_lt i). lia. Qed.

(** The load balancer, how many waits it is not ready for, and the time. *)
Record StoreVpc := {
  store_part : dsig client_wf;
  store_busy : fin 15;
  store_time : Z;
}.

Definition store_id : string := "lb-1".
Definition store_state (w : StoreVpc) : ClientState := proj1_sig (store_part w).

(** After a change the load balancer is not ready for two waits. *)
Definition two : fin 15 := 2%fin.

(** Carry a request out, or refuse it. *)
Definition commit {A} (lbID : string) (f : ClientState → A * ClientState) : M StoreVpc A := λ w,
  if decide (lbID = store_id) then
    let '(a, v) := f (store_state w) in
    match decide (client_wf v) with
    | left H => (Ok a, {| store_part := dexist v H; store_busy := two; store_time := store_time w |})
    | right _ => (Err (ErrorString "conflict"), w)
    end
  else (Err (ErrorString "not found"), w).
Definition query {A} (lbID : string) (f : ClientState → A) : M StoreVpc A := λ w,
  if decide (lbID = store_id) then (Ok (f (store_state w)), w) else (Err (ErrorString "not found"), w).

(** A new ID is longer than all IDs in use. *)
Fixpoint stars (n : nat) : string := match n with O => "" | S n => String "x" (stars n) end.
Definition ids (v : ClientState) : list string :=
  (SafePointerString ∘ sl_ID <$> cs_listeners v) ++
  (cs_pools v ≫= λ e, SafePointerString (spl_ID e.1) :: (SafePointerString ∘ sm_ID <$> e.2)).
Definition new_id (v : ClientState) (k : nat) : string :=
  stars (S k + max_list (String.length <$> ids v)).

Definition make_listener (proto : ListenerPrototype) (v : ClientState)
    : sdk_LoadBalancerListener * ClientState :=
  let l := {| sl_ConnectionLimit := Some (lp_ConnectionLimit proto);
              sl_DefaultPool := Some {| r_ID := Some (lp_DefaultPool proto); r_Name := None |};
              sl_ID := Some (new_id v 0); sl_Port := Some (lp_Port proto);
              sl_Protocol := Some (lp_Protocol proto);
              sl_ProvisioningStatus := Some "active" |} in
  (l, {| cs_listeners := cs_listeners v ++ [l]; cs_pools := cs_pools v |}).

Definition make_member (id : string) (proto : MemberPrototype) : sdk_LoadBalancerPoolMember :=
  {| sm_Health := Some "unknown"; sm_ID := Some id; sm_Port := Some (mp_Port proto);
     sm_ProvisioningStatus := Some "active";
     sm_Target := Some (LoadBalancerPoolMemberTarget (Some (mp_Address proto)) None);
     sm_Weight := Some 50%Z |}.
Definition make_members (id : nat → string) (protos : list MemberPrototype)
    : list sdk_LoadBalancerPoolMember :=
  imap (λ j, make_member (id j)) protos.

Definition make_monitor (proto : HealthMonitorPrototype) : sdk_HealthMonitor :=
  {| shm_Delay := Some (hp_Delay proto); shm_MaxRetries := Some (hp_MaxRetries proto);
     shm_Port := Some (hp_Port proto); shm_Timeout := Some (hp_Timeout proto);
     shm_Type := Some (hp_Type proto); shm_URLPath := hp_URLPath proto |}.

Definition make_pool (proto : PoolPrototype) (v : ClientState)
    : sdk_LoadBalancerPool * ClientState :=
  let pool := {| spl_Algorithm := Some (pp_Algorithm proto);
                 spl_HealthMonitor := Some (make_monitor (pp_HealthMonitor proto));
                 spl_ID := Some (new_id v 0); spl_Members := [];
                 spl_Name := Some (pp_Name proto); spl_Protocol := Some (pp_Protocol proto);
                 spl_ProvisioningStatus := Some "active";
                 spl_ProxyProtocol := Some (default "disabled" (pp_ProxyProtocol proto));
                 spl_SessionPersistence := None |} in
  (pool, {| cs_listeners := cs_listeners v;
            cs_pools := cs_pools v ++ [(pool, make_members (new_id v ∘ S) (pp_Members proto))] |}).

Definition delete_listener (i : string) (v : ClientState) : unit * ClientState :=
  (tt, {| cs_listeners := filter (λ l, sl_ID l ≠ Some i) (cs_listeners v);
          cs_pools := cs_pools v |}).
Definition delete_pool (i : string) (v : ClientState) : unit * ClientState :=
  (tt, {| cs_listeners := cs_listeners v;
          cs_pools := filter (λ e : PoolEntry, spl_ID e.1 ≠ Some i) (cs_pools v) |}).

(** Change the pool with the ID [i]. *)
Definition change_pool {A} (i : string) (g : PoolEntry → PoolEntry) (a : A) (v : ClientState)
    : A * ClientState :=
  (a, {| cs_listeners := cs_listeners v;
         cs_pools := (λ e : PoolEntry, if decide (spl_ID e.1 = Some i) then g e else e)
                       <$> cs_pools v |}).

Definition patch_pool (patch : LoadBalancerPoolPatch) (x : sdk_LoadBalancerPool)
    : sdk_LoadBalancerPool :=
  {| spl_Algorithm := spl_Algorithm x;
     spl_HealthMonitor := Some (make_monitor (pt_HealthMonitor patch));
     spl_ID := spl_ID x; spl_Members := spl_Members x; spl_Name := Some (pt_Name patch);
     spl_Protocol := spl_Protocol x; spl_ProvisioningStatus := spl_ProvisioningStatus x;
     spl_ProxyProtocol := match pt_ProxyProtocol patch with
                          | Some p => Some p
                          | None => spl_ProxyProtocol x
                          end;
     spl_SessionPersistence := spl_SessionPersistence x |}.

Definition show_lb (v : ClientState) : sdk_LoadBalancer :=
  {| slb_CreatedAt := None; slb_Hostname := Some "lb-1.example.com"; slb_ID := Some store_id;
     slb_IsPublic := Some true; slb_Listeners := []; slb_Name := Some "kube-cluster-1";
     slb_OperatingStatus := Some "online";
     slb_Pools := (λ e : PoolEntry, {| r_ID := spl_ID e.1; r_Name := spl_Name e.1 |})
                    <$> cs_pools v;
     slb_PrivateIps := []; slb_Profile := None; slb_ProvisioningStatus := Some "active";
     slb_PublicIps := []; slb_ResourceGroup := None; slb_Subnets := [] |}.

(** The store holds one load balancer, which is there when it has a part. *)
Definition nothing : ClientState := {| cs_listeners := []; cs_pools := [] |}.
Definition present (v : ClientState) : bool :=
  match cs_listeners v, cs_pools v with [], [] => false | _, _ => true end.

(** What is shown of the load balancer in a world. *)
Definition show (w : StoreVpc) : sdk_LoadBalancer :=
  let lb := show_lb (store_state w) in
  if decide (fin_to_nat (store_busy w) = 0) then lb
  else {| slb_CreatedAt := slb_CreatedAt lb; slb_Hostname := slb_Hostname lb; slb_ID := slb_ID lb;
          slb_IsPublic := slb_IsPublic lb; slb_Listeners := slb_Listeners lb;
          slb_Name := slb_Name lb; slb_OperatingStatus := slb_OperatingStatus lb;
          slb_Pools := slb_Pools lb; slb_PrivateIps := slb_PrivateIps lb;
          slb_Profile := slb_Profile lb; slb_ProvisioningStatus := Some "update_pending";
          slb_PublicIps := slb_PublicIps lb; slb_ResourceGroup := slb_ResourceGroup lb;
          slb_Subnets := slb_Subnets lb |}.

Definition make_lb (o : CreateLoadBalancerOptions) : sdk_LoadBalancer * ClientState :=
  let v := fold_left (λ v proto, (make_pool proto v).2) (co_Pools o) nothing in
  let v := fold_left (λ v proto, (make_listener proto v).2) (co_Listeners o) v in
  (show_lb v, v).

Definition store_subnet : sdk_Subnet :=
  {| ss_AvailableIpv4AddressCount := Some 200%Z; ss_CreatedAt := None; ss_ID := Some "s1";
     ss_IPVersion := Some "ipv4"; ss_Ipv4CIDRBlock := Some "10.0.0.0/24"; ss_Name := Some "net-a";
     ss_NetworkACL := None; ss_PublicGateway := None; ss_ResourceGroup := None;
     ss_Status := Some "available"; ss_TotalIpv4AddressCount := Some 256%Z;
     ss_VPC := Some {| r_ID := Some "v1"; r_Name := Some "v" |}; ss_Zone := Some (Some "z1") |}.

Definition StoreClient : VpcV1 StoreVpc LoadBalancerPoolPatch := {|
  cl_AsPatch := Ok;
  cl_CreateLoadBalancer o w :=
    if present (store_state w) then (Err (ErrorString "quota exceeded"), w)
    else commit store_id (λ _, make_lb o) w;
  cl_CreateLoadBalancerListener lbID proto := commit lbID (make_listener proto);
  cl_CreateLoadBalancerPool lbID proto := commit lbID (make_pool proto);
  cl_CreateLoadBalancerPoolMember lbID i proto := commit lbID (λ v,
    let m := make_member (new_id v 0) proto in change_pool i (λ e, (e.1, e.2 ++ [m])) m v);
  cl_DeleteLoadBalancer _ := fail (ErrorString "not allowed");
  cl_DeleteLoadBalancerListener lbID i := commit lbID (delete_listener i);
  cl_DeleteLoadBalancerPool lbID i := commit lbID (delete_pool i);
  cl_DeleteLoadBalancerPoolMember lbID i memberID := commit lbID
    (change_pool i (λ e, (e.1, filter (λ m, sm_ID m ≠ Some memberID) e.2)) tt);
  cl_GetLoadBalancer lbID w :=
    if decide (lbID = store_id) then (Ok (show w), w) else (Err (ErrorString "not found"), w);
  cl_GetSubnet _ := fail (ErrorString "not found");
  cl_ListLoadBalancers _ := query store_id (λ v,
    {| pg_Items := if present v then [show_lb v] else []; pg_Next := None |});
  cl_ListLoadBalancerListeners lbID := query lbID (λ v, cs_listeners v);
  cl_ListLoadBalancerPools lbID := query lbID (λ v, (cs_pools v).*1);
  cl_ListLoadBalancerPoolMembers lbID i := query lbID (λ v,
    match List.find (λ e : PoolEntry, bool_decide (spl_ID e.1 = Some i)) (cs_pools v) with
    | Some e => e.2
    | None => []
    end);
  cl_ListSubnets _ := query store_id (λ _,
    {| pg_Items := [store_subnet]; pg_Next := None |});
  cl_ReplaceLoadBalancerPoolMembers lbID i protos := commit lbID (λ v,
    let ms := make_members (new_id v) protos in change_pool i (λ e, (e.1, ms)) ms v);
  cl_UpdateLoadBalancerPool lbID i patch := commit lbID
    (change_pool i (λ e, (patch_pool patch e.1, e.2)) no_pool);
|}.

#[export] Instance StoreClock : Clock StoreVpc := {|
  time_Now w := (store_time w, w);
  time_Sleep ns w :=
    {| store_part := store_part w; store_busy := nat_to_fin (pred_lt (store_busy w));
       store_time := store_time w + ns |};
|}.

(** ** It behaves as documented *)

Lemma commit_Ok {A} lbID (f : ClientState → A * ClientState) w a w' :
  commit lbID f w = (Ok a, w') → store_state w' = (f (store_state w)).2.
Proof.
  unfold commit. case_decide; [|done]. destruct (f (store_state w)) as [b v].
  destruct (decide _) as [Hv|]; [|done]. by intros [= _ <-].
Qed.
Lemma query_Ok {A} lbID (f : ClientState → A) w x w' :
  query lbID f w = (x, w') → w' = w ∧ (∀ a, x = Ok a → a = f (store_state w)).
Proof. unfold query. case_decide; intros [= <- <-]; split; congruence. Qed.

Lemma change_pool_changed {A} i g (a : A) v (R : PoolEntry → PoolEntry → Prop) :
  (∀ e, R e (g e)) → pool_changed i R v (change_pool i g a v).2.
Proof.
  intros Hg. split; [done|]. cbn. apply Forall2_fmap_r, Forall_Forall2_diag, Forall_forall.
  intros e _. cbn. destruct (decide (spl_ID e.1 = Some i)); [apply Hg|done].
Qed.

Lemma make_members_stored id protos : Forall2 member_stored protos (make_members id protos).
Proof.
  revert id. induction protos as [|proto protos IH]; intros id; [constructor|].
  cbn. constructor; [split; [done|]; by exists None|apply (IH (id ∘ S))].
Qed.

Lemma make_monitor_stored proto x :
  spl_HealthMonitor x = Some (make_monitor proto) → monitor_stored proto x.
Proof. intros Hx. by exists (make_monitor proto). Qed.

Lemma store_wf (w : StoreVpc) : client_wf (store_state w).
Proof. destruct w as [[v Hv] n t]. exact (bool_decide_unpack _ Hv). Qed.

(** Pools have distinct IDs, since the SDK sees distinct IDs. *)
Lemma entry_ids (w : StoreVpc) :
  NoDup ((λ e : PoolEntry, spl_ID e.1) <$> cs_pools (store_state w)).
Proof.
  destruct (store_wf w) as [_ _ Hwf]. apply lw_pool_ids in Hwf. cbn in Hwf.
  rewrite <- list_fmap_compose in Hwf. apply (NoDup_fmap_1 SafePointerString).
  by rewrite <- list_fmap_compose.
Qed.

#[export] Instance StoreClient_effects : VpcV1Effects StoreClient store_id store_state.
Proof.
  split; cbn [StoreClient cl_CreateLoadBalancerListener
    cl_DeleteLoadBalancerListener cl_CreateLoadBalancerPool cl_DeleteLoadBalancerPool
    cl_CreateLoadBalancerPoolMember cl_DeleteLoadBalancerPoolMember
    cl_ReplaceLoadBalancerPoolMembers cl_UpdateLoadBalancerPool cl_AsPatch cl_GetLoadBalancer
    cl_GetSubnet cl_ListLoadBalancers cl_ListSubnets cl_ListLoadBalancerListeners
    cl_ListLoadBalancerPools cl_ListLoadBalancerPoolMembers].
  - intros proto w x w' ->%commit_Ok. by exists (make_listener proto (store_state w)).1.
  - by intros i w x w' ->%commit_Ok.
  - intros proto w x w' ->%commit_Ok. eexists. split; [|done].
    split_and!; [done|by apply make_monitor_stored|done|apply make_members_stored].
  - by intros i w x w' ->%commit_Ok.
  - intros i proto w x w' ->%commit_Ok. apply change_pool_changed. intros e. eexists.
    split; [|done]. split; [done|]. by exists None.
  - intros i memberID w x w' ->%commit_Ok. by apply change_pool_changed.
  - intros i protos w x w' ->%commit_Ok. apply change_pool_changed. intros e. eexists.
    split; [apply make_members_stored|done].
  - intros i patch p w x w' [= <-] ->%commit_Ok. apply change_pool_changed. intros e.
    split_and!; try done. by apply make_monitor_stored.
  - intros i w x w'. case_decide; by intros [= _ <-].
  - by intros i w x w' [= _ <-].
  - by intros start w x w' [-> _]%query_Ok.
  - by intros start w x w' [-> _]%query_Ok.
  - intros i w x w' [-> Hx]%query_Ok. split; [done|]. intros l _. apply Hx.
  - intros i w x w' [-> Hx]%query_Ok. split; [done|]. intros l _. apply Hx.
  - intros i poolID w x w' [-> Hx]%query_Ok. split; [done|]. intros l e _ Hl He Hid.
    rewrite (Hx l Hl).
    destruct (List.find _ _) as [e'|] eqn:Hf.
    + apply find_some in Hf as [Hin Hid'%bool_decide_eq_true]. apply list_elem_of_In in Hin.
      f_equal. by apply (NoDup_key (λ e : PoolEntry, spl_ID e.1) (cs_pools (store_state w))); [apply entry_ids| |done|congruence].
    + eapply find_none in Hf; [|by apply list_elem_of_In]. cbn in Hf.
      by apply bool_decide_eq_false in Hf.
  - done.
  - done.
  - apply store_wf.
Qed.

(** A load balancer by its ID; all but one have nothing. *)
Definition stored_at (lbID : string) : StoreVpc → ClientState :=
  if decide (lbID = store_id) then store_state else λ _, nothing.

Lemma commit_other {A} lbID (f : ClientState → A * ClientState) w a w' :
  lbID ≠ store_id → commit lbID f w ≠ (Ok a, w').
Proof. intros Hid. unfold commit. by rewrite decide_False. Qed.
Lemma query_other {A} lbID (f : ClientState → A) w a w' :
  lbID ≠ store_id → query lbID f w ≠ (Ok a, w').
Proof. intros Hid. unfold query. by rewrite decide_False. Qed.

#[export] Instance StoreClient_effects_at lbID : VpcV1Effects StoreClient lbID (stored_at lbID).
Proof.
  unfold stored_at. destruct (decide (lbID = store_id)) as [->|Hid]; [apply StoreClient_effects|].
  split; intros; try done; try (split; [done|]); intros; subst.
  1-2: match goal with H : _ = (Ok _, _) |- _ => by destruct (commit_other _ _ _ _ _ Hid H) end.
  1-2: match goal with H : _ = (Ok _, _) |- _ => by destruct (query_other _ _ _ _ _ Hid H) end.
  - by match goal with H : _ ∈ cs_pools nothing |- _ => apply elem_of_nil in H end.
  - by_decision.
Qed.

(** The Gen2 SDK over the store, and a cloud that uses it. *)
Definition StoreSdk : CloudVpcSdk StoreVpc := VpcSdkGen2 (VpcV2 := StoreClient) "group" Ok 2.

#[export] Instance StoreSdk_identity : SdkIdentity StoreSdk.
Proof.
  intros lbID w lb w' Hget. apply bind_Ok in Hget as (x & w1 & Hx & [= <- _]).
  cbn in Hx. case_decide as Hid; [|done]. injection Hx as <- _. subst. unfold show. by case_decide.
Qed.
#[export] Instance StoreSdk_effects : SdkEffects StoreSdk store_id (λ w, map_state (store_state w)).
Proof. apply gen2_effects. Qed.

(** ** It serves *)

Lemma stars_length n : String.length (stars n) = n.
Proof. induction n as [|n IH]; cbn; congruence. Qed.
Lemma stars_token n : token (stars (S n)).
Proof.
  assert (∀ t, space_len (String "x" t) = 0) as Hx by by intros [|c1 [|c2 t]].
  split; [done|]. induction n as [|n IH]; [reflexivity|].
  change (stars (S (S n))) with (String "x" (stars (S n))).
  cbn [no_space]. rewrite Hx. exact IH.
Qed.

Lemma new_id_fresh v k i : i ∈ ids v → new_id v k ≠ i.
Proof.
  intros Hi Heq. apply (f_equal String.length) in Heq. unfold new_id in Heq.
  rewrite stars_length in Heq.
  pose proof (max_list_elem_of_le (String.length i) (String.length <$> ids v)
    (list_elem_of_fmap_2 _ _ _ Hi)). lia.
Qed.
Lemma new_id_inj v k j : new_id v k = new_id v j → k = j.
Proof.
  intros Heq. apply (f_equal String.length) in Heq. unfold new_id in Heq.
  rewrite !stars_length in Heq. lia.
Qed.

(** The IDs the SDK sees. *)
Lemma listener_id_used v x : x ∈ lst_ID <$> ls_listeners (map_state v) → x ∈ ids v.
Proof.
  cbn. rewrite <- list_fmap_compose. intros Hx. apply elem_of_app. by left.
Qed.
Lemma pool_id_used v x : x ∈ pool_ID <$> ls_pools (map_state v) → x ∈ ids v.
Proof.
  cbn. rewrite <- list_fmap_compose. intros (e & -> & He)%list_elem_of_fmap.
  apply elem_of_app. right. apply list_elem_of_bind. exists e. split; [left|done].
Qed.
Lemma member_id_used v e m : e ∈ cs_pools v → m ∈ e.2 → SafePointerString (sm_ID m) ∈ ids v.
Proof.
  intros He Hm. apply elem_of_app. right. apply list_elem_of_bind. exists e. split; [|done].
  right. by apply (list_elem_of_fmap_2 (SafePointerString ∘ sm_ID)).
Qed.

(** Members made for tokens. *)
Lemma make_members_ok v k protos :
  Forall (λ m, token (mp_Address m)) protos →
  let ms := make_members (λ j, new_id v (k + j)) protos in
  Forall (λ m, is_Some (sm_ID m) ∧ has_address m) ms ∧ Forall wf_member (map_member <$> ms) ∧
  NoDup (mem_ID <$> (map_member <$> ms)) ∧
  ∀ x, x ∈ mem_ID <$> (map_member <$> ms) → ∃ j, k ≤ j ∧ x = new_id v j.
Proof.
  intros Hp. cbn zeta. unfold make_members. revert k.
  induction Hp as [|proto protos Ht Hp IH]; intros k.
  { split_and!; try constructor. by intros x ?%not_elem_of_nil. }
  specialize (IH (S k)) as (H1 & H2 & H3 & H4). cbn [imap].
  assert (imap ((λ j, make_member (new_id v (k + j))) ∘ S) protos
    = imap (λ j, make_member (new_id v (S k + j))) protos) as ->.
  { apply imap_ext. intros j x _. cbn. by rewrite Nat.add_succ_r. }
  split_and!.
  - constructor; [by split; [eexists|]|done].
  - cbn [fmap list_fmap]. constructor; [|done]. split; [apply stars_token|done].
  - cbn [fmap list_fmap]. constructor; [|done]. intros (j & Hj & Hx)%H4.
    apply new_id_inj in Hx. lia.
  - cbn [fmap list_fmap]. intros x [->|(j & ? & ->)%H4]%elem_of_cons.
    + exists (k + 0). split; [lia|done].
    + exists j. split; [lia|done].
Qed.

(** Adding, removing and changing what is stored. *)
Lemma Forall_snoc {A} (P : A → Prop) l x : Forall P l → P x → Forall P (l ++ [x]).
Proof. intros Hl Hx. apply Forall_app_2; [done|by constructor]. Qed.
Lemma Forall_sub {A} (P : A → Prop) l1 l2 : Forall P l2 → l1 `sublist_of` l2 → Forall P l1.
Proof. rewrite !Forall_forall. intros Hl Hsub x Hx. by eapply Hl, elem_of_sublist. Qed.
Lemma NoDup_snoc {A} (l : list A) x : NoDup l → x ∉ l → NoDup (l ++ [x]).
Proof.
  intros Hl Hx. apply NoDup_app. split_and!; [done| |apply NoDup_singleton].
  by intros y Hy ->%list_elem_of_singleton.
Qed.

Lemma wf_add_listener v l :
  client_wf v → is_Some (sl_ID l) → wf_listener (mapLoadBalancerListener l) →
  SafePointerString (sl_ID l) ∉ ids v →
  client_wf {| cs_listeners := cs_listeners v ++ [l]; cs_pools := cs_pools v |}.
Proof.
  intros [Hl Hp [H1 H2 H3 H4 H5 H6]] Hid Hwf Hfresh. split; [by apply Forall_snoc|done|].
  split; try done; cbn; rewrite fmap_app.
  - by apply Forall_snoc.
  - rewrite fmap_app. apply NoDup_snoc; [done|]. intros Hx. by apply Hfresh, listener_id_used.
Qed.

Lemma wf_add_pool v e :
  client_wf v → entry_wf e → wf_pool (map_entry e) → NoDup (mem_ID <$> pool_Members (map_entry e)) →
  SafePointerString (spl_ID e.1) ∉ ids v →
  (∀ pool, pool ∈ ls_pools (map_state v) → pool_Name pool ≠ pool_Name (map_entry e)) →
  client_wf {| cs_listeners := cs_listeners v; cs_pools := cs_pools v ++ [e] |}.
Proof.
  intros [Hl Hp [H1 H2 H3 H4 H5 H6]] He Hwf Hms Hfresh Hname.
  split; [done|by apply Forall_snoc|].
  split; try done; cbn; rewrite fmap_app.
  - by apply Forall_snoc.
  - rewrite fmap_app. apply NoDup_snoc; [done|]. intros Hx. by apply Hfresh, pool_id_used.
  - rewrite fmap_app. apply NoDup_snoc; [done|].
    intros (pool & Hn & Hpool)%list_elem_of_fmap. by eapply Hname.
  - by apply Forall_snoc.
Qed.

Lemma wf_remove v ls ps :
  client_wf v → ls `sublist_of` cs_listeners v → ps `sublist_of` cs_pools v →
  client_wf {| cs_listeners := ls; cs_pools := ps |}.
Proof.
  intros [Hl Hp [H1 H2 H3 H4 H5 H6]] Hls Hps.
  split; [by eapply Forall_sub|by eapply Forall_sub|].
  split; cbn in *.
  - by apply (Forall_sub _ _ _ H1), fmap_sublist.
  - by apply (Forall_sub _ _ _ H2), fmap_sublist.
  - by apply (sublist_NoDup _ _ H3), fmap_sublist, fmap_sublist.
  - by apply (sublist_NoDup _ _ H4), fmap_sublist, fmap_sublist.
  - by apply (sublist_NoDup _ _ H5), fmap_sublist, fmap_sublist.
  - by apply (Forall_sub _ _ _ H6), fmap_sublist.
Qed.

(** The pools are changed one by one: their IDs stay. *)
Lemma wf_change {A} i g (a : A) v :
  client_wf v →
  (∀ e, e ∈ cs_pools v → spl_ID e.1 = Some i →
     spl_ID (g e).1 = spl_ID e.1 ∧ entry_wf (g e) ∧ wf_pool (map_entry (g e)) ∧
     NoDup (mem_ID <$> pool_Members (map_entry (g e))) ∧
     (pool_Name (map_entry (g e)) = pool_Name (map_entry e) ∨
      ∀ e', e' ∈ cs_pools v → pool_Name (map_entry e') = pool_Name (map_entry (g e)) → 
            spl_ID e'.1 = Some i)) →
  client_wf (change_pool i g a v).2.
Proof.
  intros [Hl Hp [H1 H2 H3 H4 H5 H6]] Hg. cbn in *. rewrite Forall_fmap in H2, H6.
  set (h := λ e : PoolEntry, if decide (spl_ID e.1 = Some i) then g e else e).
  assert (∀ e, e ∈ cs_pools v → spl_ID (h e).1 = spl_ID e.1 ∧ entry_wf (h e) ∧
    wf_pool (map_entry (h e)) ∧ NoDup (mem_ID <$> pool_Members (map_entry (h e)))) as Hh.
  { intros e He. unfold h. case_decide as Hi; [destruct (Hg e He Hi) as (?&?&?&?&_); done|].
    rewrite Forall_forall in Hp, H2, H6. split_and!; [done|by apply Hp|by apply H2|by apply H6]. }
  split; [done|cbn; apply Forall_fmap, Forall_forall; intros e He; by apply Hh|].
  split; cbn; rewrite <- ?list_fmap_compose in *; try done.
  - apply Forall_fmap, Forall_forall. intros e He. by apply Hh.
  - erewrite list_fmap_ext; [exact H4|]. intros k e He%list_elem_of_lookup_2.
    change (SafePointerString (spl_ID (h e).1) = SafePointerString (spl_ID e.1)).
    by destruct (Hh e He) as [-> _].
  - assert (∀ x y, x ∈ cs_pools v → y ∈ cs_pools v → pool_Name (map_entry x) = pool_Name (map_entry y) →
      x = y) as Hinj by (intros x y; by apply (NoDup_key (pool_Name ∘ map_entry) (cs_pools v))).
    assert (∀ x y, x ∈ cs_pools v → y ∈ cs_pools v → spl_ID x.1 = Some i → spl_ID y.1 ≠ Some i →
      pool_Name (map_entry (g x)) ≠ pool_Name (map_entry y)) as Hdiff.
    { intros x y Hx Hy Hix Hiy Heq. destruct (Hg x Hx Hix) as (_ & _ & _ & _ & [Hn|Hn]).
      - apply Hiy. rewrite <- (Hinj x y); [done..|]. by transitivity (pool_Name (map_entry (g x))).
      - by apply Hiy, Hn. }
    apply NoDup_fmap_2_strong; [|by eapply NoDup_fmap_1].
    intros x y Hx Hy Heq. change (pool_Name (map_entry (h x)) = pool_Name (map_entry (h y))) in Heq.
    unfold h in Heq. case_decide as Hix; case_decide as Hiy.
    + apply (NoDup_key (pool_ID ∘ map_entry) (cs_pools v)); [done..|]. cbn. by rewrite Hix, Hiy.
    + by destruct (Hdiff x y).
    + by destruct (Hdiff y x).
    + by apply Hinj.
  - apply Forall_fmap, Forall_forall. intros e He. by apply Hh.
Qed.

(** A pool's members, as the SDK sees them. *)
Definition members_ok (ms : list sdk_LoadBalancerPoolMember) : Prop :=
  Forall (λ m, is_Some (sm_ID m) ∧ has_address m) ms ∧ Forall wf_member (map_member <$> ms) ∧
  NoDup (mem_ID <$> (map_member <$> ms)).

Lemma stored_members v e : client_wf v → e ∈ cs_pools v → members_ok e.2 ∧ token (pool_ID (map_entry e)).
Proof.
  intros [_ Hp [_ H2 _ _ _ H6]] He. rewrite Forall_forall in Hp. pose proof (Hp e He) as Hwf.
  rewrite Forall_forall in H2, H6. assert (map_entry e ∈ ls_pools (map_state v)) as Hin
    by by apply list_elem_of_fmap_2.
  destruct (H2 _ Hin) as [Ht Hms]. specialize (H6 _ Hin). rewrite map_entry_wf in Hms, H6 by done.
  split; [|done]. split; [apply Hwf|]. by split.
Qed.
Lemma members_change e ms :
  is_Some (spl_ID e.1) → token (pool_ID (map_entry e)) → members_ok ms →
  entry_wf (e.1, ms) ∧ wf_pool (map_entry (e.1, ms)) ∧
  NoDup (mem_ID <$> pool_Members (map_entry (e.1, ms))).
Proof.
  intros Hid Ht (H1 & H2 & H3). assert (entry_wf (e.1, ms)) as Hwf by done.
  rewrite map_entry_wf by done. by split.
Qed.

(** What is made for a request keeps the rules. *)
Lemma make_listener_wf proto v : client_wf v → client_wf (make_listener proto v).2.
Proof.
  intros Hv. apply wf_add_listener; [done|by eexists|split; [apply stars_token|done]|].
  intros Hin. by apply (new_id_fresh v 0) in Hin.
Qed.
Lemma make_pool_wf proto v :
  client_wf v → Forall (λ m, token (mp_Address m)) (pp_Members proto) →
  (∀ pool, pool ∈ ls_pools (map_state v) → pool_Name pool ≠ pp_Name proto) →
  client_wf (make_pool proto v).2.
Proof.
  intros Hv Hms Hname. destruct (make_members_ok v 1 _ Hms) as (H1 & H2 & H3 & _).
  set (e := ((make_pool proto v).1, make_members (new_id v ∘ S) (pp_Members proto)) : PoolEntry).
  destruct (members_change e e.2) as (He & Hwf & Hnd); [by eexists|apply stars_token|done|].
  apply wf_add_pool; [done..| |exact Hname]. intros Hin. by apply (new_id_fresh v 0) in Hin.
Qed.

Lemma commit_answers {A} (f : ClientState → A * ClientState) w :
  client_wf (f (store_state w)).2 → answers (commit store_id f) w.
Proof.
  intros Hf. unfold answers, commit. rewrite decide_True by done. destruct (f (store_state w)) as [a v].
  destruct (decide (client_wf v)) as [H|H]; [by eexists _, _|done].
Qed.
Lemma commit_answer {A} (f : ClientState → A * ClientState) w :
  client_wf (f (store_state w)).2 → ∃ w', commit store_id f w = (Ok (f (store_state w)).1, w').
Proof.
  intros (a & w' & Ha)%commit_answers. exists w'. rewrite Ha. unfold commit in Ha.
  rewrite decide_True in Ha by done. destruct (f (store_state w)) as [x v].
  destruct (decide (client_wf v)) as [H|H]; [by injection Ha as <- _|done].
Qed.

(** The members of the pool [i] become [ms], which may depend on those it has. *)
Lemma store_members {A} i (f : list sdk_LoadBalancerPoolMember → list sdk_LoadBalancerPoolMember)
    (a : A) (w : StoreVpc) :
  (∀ e, e ∈ cs_pools (store_state w) → members_ok e.2 → members_ok (f e.2)) →
  client_wf (change_pool i (λ e : PoolEntry, (e.1, f e.2)) a (store_state w)).2.
Proof.
  intros Hf. pose proof (store_wf w) as Hwf. apply wf_change; [done|]. intros e He Hi.
  destruct (stored_members _ e Hwf He) as [Hms Ht]. split; [done|].
  destruct (members_change e (f e.2)) as (? & ? & ?); [by eexists|done|by apply Hf|].
  split_and!; [done..|by left].
Qed.

(** A member with a fresh ID. *)
Lemma store_create_member i proto w :
  token (mp_Address proto) →
  ∃ x w', cl_CreateLoadBalancerPoolMember (VpcV1 := StoreClient) store_id i proto w = (Ok x, w') ∧
          has_address x.
Proof.
  intros Ht. destruct (make_members_ok (store_state w) 0 [proto]) as (H1 & H2 & H3 & _);
    [by constructor|].
  edestruct (commit_answer (λ v, let m := make_member (new_id v 0) proto in
    change_pool i (λ e : PoolEntry, (e.1, e.2 ++ [m])) m v) w) as (w' & Hw).
  { apply (store_members i (λ ms, ms ++ [_])). intros e He (K1 & K2 & K3).
    split_and!; [by apply Forall_app|rewrite fmap_app; by apply Forall_app|].
    rewrite !fmap_app. apply NoDup_snoc; [done|].
    intros (x & Hx & (m & -> & Hm)%list_elem_of_fmap)%list_elem_of_fmap.
    rewrite Forall_forall in K1. destruct (K1 m Hm) as [_ Ha]. rewrite (map_member_ID m Ha) in Hx.
    apply (new_id_fresh (store_state w) 0 (SafePointerString (sm_ID m))); [by eapply member_id_used|exact Hx]. }
  eexists _, w'. split; [exact Hw|done].
Qed.

(** A pool keeps its name, or gets one no other pool has. *)
Lemma store_update_pool i patch (w : StoreVpc) :
  (∀ pool, pool ∈ ls_pools (map_state (store_state w)) → pool_Name pool = pt_Name patch → pool_ID pool = i) →
  answers (cl_UpdateLoadBalancerPool (VpcV1 := StoreClient) store_id i patch) w.
Proof.
  intros Hname. apply commit_answers, wf_change; [apply store_wf|].
  intros e He Hi. destruct (stored_members _ e (store_wf w) He) as [Hms Ht]. split; [done|].
  destruct (members_change (patch_pool patch e.1, e.2) e.2) as (? & ? & ?); [by eexists|done|done|].
  split_and!; [done..|]. right. intros e' He' Hn.
  assert (pool_ID (map_entry e') = i) as Hid.
  { apply Hname; [by apply list_elem_of_fmap_2|exact Hn]. }
  destruct (store_wf w) as [_ Hp _]. rewrite Forall_forall in Hp.
  destruct (Hp e' He') as [[j Hj] _]. cbn in Hid. rewrite Hj in Hid. cbn in Hid. by subst j.
Qed.

Definition store_timing : Timing StoreVpc :=
  {| tm_busy w := fin_to_nat (store_busy w); tm_clock := store_time |}.

Lemma store_gets_ready :
  GetsReady (x ← cl_GetLoadBalancer (VpcV1 := StoreClient) store_id; mret (mapLoadBalancer x))
    store_timing.
Proof.
  split.
  - intros w. pose proof (fin_to_nat_lt (store_busy w)). cbn. lia.
  - intros w lb w' Hget. apply bind_Ok in Hget as (x & w1 & [= <- <-] & [= <- <-]).
    split; [|unfold slack; lia]. intros Hb. unfold show. by rewrite decide_True.
  - intros w. cbn. unfold slack. lia.
  - intros w. cbn. rewrite fin_to_nat_to_fin. unfold slack. lia.
Qed.

#[export] Instance StoreClient_serves : VpcV1Serves StoreClient store_id store_state.
Proof.
  split; cbn [StoreClient cl_CreateLoadBalancerListener
    cl_DeleteLoadBalancerListener cl_CreateLoadBalancerPool cl_DeleteLoadBalancerPool
    cl_CreateLoadBalancerPoolMember cl_DeleteLoadBalancerPoolMember
    cl_ReplaceLoadBalancerPoolMembers cl_UpdateLoadBalancerPool cl_AsPatch cl_GetLoadBalancer
    cl_ListLoadBalancerListeners cl_ListLoadBalancerPools cl_ListLoadBalancerPoolMembers].
  - intros patch. by eexists.
  - intros proto w _ _. apply commit_answers, make_listener_wf, store_wf.
  - intros i w _. apply commit_answers, (wf_remove (store_state w)); [apply store_wf|apply sublist_filter|done].
  - intros proto w Hms Hname. apply commit_answers, make_pool_wf; [apply store_wf|done..].
  - intros i w _ _. apply commit_answers, (wf_remove (store_state w)); [apply store_wf|done|apply sublist_filter].
  - intros i proto w _. apply store_create_member.
  - intros i memberID w _. apply commit_answers.
    apply (store_members i (filter (λ m, sm_ID m ≠ Some memberID))). intros e He (K1 & K2 & K3).
    split_and!.
    + by apply (Forall_sub _ _ _ K1), sublist_filter.
    + by apply (Forall_sub _ _ _ K2), fmap_sublist, sublist_filter.
    + by apply (sublist_NoDup _ _ K3), fmap_sublist, fmap_sublist, sublist_filter.
  - intros i protos w _ Hms. destruct (make_members_ok (store_state w) 0 _ Hms) as (H1 & H2 & H3 & _).
    edestruct (commit_answer (λ v, let ms := make_members (new_id v) protos in
      change_pool i (λ e : PoolEntry, (e.1, ms)) ms v) w) as (w' & Hw).
    { by apply (store_members i (λ _, make_members (new_id (store_state w)) protos)). }
    eexists _, w'. split; [exact Hw|]. eapply Forall_impl; [exact H1|]. by intros m [_ ?].
  - intros i patch p w [= <-] _. apply store_update_pool.
  - intros w. exists (show w), w. split; [done|].
    unfold shows, show. case_decide; cbn; by rewrite <- !list_fmap_compose.
  - exists store_timing. apply store_gets_ready.
  - intros w. by eexists _, _.
  - intros w. by eexists _, _.
  - intros w i _. by eexists _, _.
Qed.

#[export] Instance StoreSdk_serves : SdkServes StoreSdk store_id (λ w, map_state (store_state w)).
Proof. apply gen2_serves. intros w. by eexists _, w. Qed.

(** Stored objects, for examples. *)
Definition stored_listener (id : string) (port : Z) : sdk_LoadBalancerListener :=
  {| sl_ConnectionLimit := None; sl_DefaultPool := None; sl_ID := Some id; sl_Port := Some port;
     sl_Protocol := Some "tcp"; sl_ProvisioningStatus := Some "active" |}.
Definition stored_member (id address : string) (port : Z) : sdk_LoadBalancerPoolMember :=
  {| sm_Health := Some "ok"; sm_ID := Some id; sm_Port := Some port;
     sm_ProvisioningStatus := Some "active";
     sm_Target := Some (LoadBalancerPoolMemberTarget (Some address) None); sm_Weight := None |}.
Definition stored_pool (id name : string) (members : list sdk_LoadBalancerPoolMember) : PoolEntry :=
  ({| spl_Algorithm := Some "round_robin"; spl_HealthMonitor := None; spl_ID := Some id;
      spl_Members := []; spl_Name := Some name; spl_Protocol := Some "tcp";
      spl_ProvisioningStatus := Some "active"; spl_ProxyProtocol := Some "disabled";
      spl_SessionPersistence := None |}, members).

(** One listener and pool to delete, a pool on an old node port, and a pool
    with one member too many and one too few. *)
Definition example_store_state : ClientState :=
  {| cs_listeners := [stored_listener "l1" 443; stored_listener "l2" 80];
     cs_pools :=
       [stored_pool "p1" "tcp-443-30443" [];
        stored_pool "p2" "tcp-80-30303" [stored_member "m1" "10.0.0.9" 30303];
        stored_pool "p3" "tcp-81-30304"
          [stored_member "m1" "10.0.0.1" 30304; stored_member "m2" "10.0.0.9" 30304]] |}.
Lemma example_store_wf : client_wf example_store_state.
Proof. by_decision. Qed.
Definition example_store : StoreVpc :=
  {| store_part := dexist example_store_state example_store_wf; store_busy := 0%fin;
     store_time := 0 |}.
