(* ===== verification/Convergence.v ===== *)
(** * Convergence: an update brings the load balancer in line with the service

    The plan of UpdatePlan, performed on a load balancer whose service does what
    it is asked ([LbEffects.SdkEffects]), ends in the state the plan was made
    for: everything is [in_sync], and the next plan is empty - except that a pool
    created by the plan lacks the proxy protocol, as the request that creates it
    does not carry it; that is [caught_up].  The listeners and
    the pools are followed separately; a pool is followed by the updates with
    its ID, which step 8 merges independently of all others. *)
From S2P Require Import Prelude GoStrings Kube VpcTypes VpcConfig VpcUpdates UpdateSpec UpdatePlan.
From S2P Require Import VpcSdk StaticVpc VpcLbaas LbaasProps VpcSdkGen2 Gen2Props LbEffects Gen2Effects StoreVpc.

Open Scope go_scope.

(** ** Runs of a plan, part by part *)

Section parts.
Context (lbID : string) (nodeList : list string) (pools : list VpcLoadBalancerPool)
  (options : ServiceOptions).
Local Abbreviation act := (act lbID nodeList pools options).
Local Abbreviation acts := (acts lbID nodeList pools options).

Definition is_create (a : Action) : bool :=
  match a with CreatePool _ | CreateListener _ => true | _ => false end.

(** *** Listeners *)

Lemma act_listeners a s s' :
  act a s s' →
  match a with
  | CreateListener n => ∃ l, listener_for n l ∧ ls_listeners s' = ls_listeners s ++ [l]
  | DeleteListener _ i => ls_listeners s' = filter (λ l, lst_ID l ≠ i) (ls_listeners s)
  | _ => ls_listeners s' = ls_listeners s
  end.
Proof.
  intros (lb & req & _ & Hreq & Heff).
  destruct a; cbn in Hreq.
  1: repeat (case_match; try done); simplify_eq; destruct Heff as (l & ? & ->); eauto.
  7: destruct (List.find _ _); [|done]; cbn in Hreq; simplify_eq; by destruct Heff.
  all: simplify_eq; cbn in Heff;
    first [by destruct Heff as (? & _ & ->)|by subst s'|by destruct Heff].
Qed.

Lemma acts_listeners_from l s s' x :
  acts l s s' → x ∈ ls_listeners s' →
  (x ∈ ls_listeners s ∧ ∀ n, DeleteListener n (lst_ID x) ∉ l) ∨
  ∃ n, CreateListener n ∈ l ∧ listener_for n x.
Proof.
  revert s. induction l as [|a l IH]; intros s; cbn [LbEffects.acts].
  { intros -> Hx. left. split; [done|]. intros n. apply not_elem_of_nil. }
  intros (s1 & Ha%act_listeners & Hl) Hx.
  destruct (IH s1 Hl Hx) as [[Hx1 Hno]|(n & Hn & Hx1)].
  2: { right. exists n. split; [by right|done]. }
  assert ((x ∈ ls_listeners s ∧ ∀ n, DeleteListener n (lst_ID x) ≠ a) ∨
          ∃ n, a = CreateListener n ∧ listener_for n x) as [[Hs Hna]|(n & -> & Hn)].
  { destruct a; try (left; rewrite <- Ha; by split).
    - destruct Ha as (y & Hy & Ha). rewrite Ha in Hx1.
      apply elem_of_app in Hx1 as [?|Hx1]; [by left|].
      apply list_elem_of_singleton in Hx1 as ->. right. eauto.
    - rewrite Ha in Hx1. apply list_elem_of_filter in Hx1 as [Hi ?]. left. split; [done|].
      congruence. }
  - left. split; [done|]. intros n [?|?]%elem_of_cons; [by eapply Hna|by eapply Hno].
  - right. exists n. split; [left|done].
Qed.

Lemma acts_listeners_keep l s s' x :
  acts l s s' → x ∈ ls_listeners s → (∀ n, DeleteListener n (lst_ID x) ∉ l) →
  x ∈ ls_listeners s'.
Proof.
  revert s. induction l as [|a l IH]; intros s; cbn [LbEffects.acts]; [by intros ->|].
  intros (s1 & Ha%act_listeners & Hl) Hx Hno.
  apply (IH s1); [done| |intros n Hn; apply (Hno n); by right].
  destruct a; rewrite ?Ha; try done.
  - destruct Ha as (y & _ & ->). apply elem_of_app. by left.
  - apply list_elem_of_filter. split; [|done]. intros Hi. eapply Hno. rewrite Hi. left.
Qed.

Lemma acts_listeners_new l1 n l2 s s' :
  acts (l1 ++ CreateListener n :: l2) s s' → (∀ a, a ∈ l2 → is_create a = true) →
  ∃ x, x ∈ ls_listeners s' ∧ listener_for n x.
Proof.
  intros (s1 & _ & s2 & (x & Hx & Hs)%act_listeners & Hl2)%acts_app Hc.
  exists x. split; [|done]. eapply acts_listeners_keep; [done| |by intros n' ?%Hc].
  rewrite Hs. apply elem_of_app. right. by left.
Qed.

(** *** Pools *)

(** What the update [a] does to a pool. *)
Definition pool_act (a : Action) (x y : VpcLoadBalancerPool) : Prop :=
  ∃ lb req, request_of lb nodeList pools options a = Some req ∧ pool_effect req x y.

Fixpoint pool_acts (l : list Action) (x y : VpcLoadBalancerPool) : Prop :=
  match l with
  | [] => y = x
  | a :: l => ∃ z, pool_act a x z ∧ pool_acts l z y
  end.

Lemma pool_acts_app l1 l2 x y :
  pool_acts (l1 ++ l2) x y ↔ ∃ z, pool_acts l1 x z ∧ pool_acts l2 z y.
Proof.
  revert x. induction l1 as [|a l1 IH]; intros x; cbn; [naive_solver|].
  setoid_rewrite IH. naive_solver.
Qed.

Lemma pool_effect_ID req x y : pool_effect req x y → pool_ID y = pool_ID x.
Proof.
  destruct req; cbn; try by intros ->.
  all: case_decide; [|by intros ->].
  - by intros (m & _ & ->).
  - by intros ->.
  - by intros (m & _ & ->).
  - by intros (f & _ & ? & _).
Qed.

Lemma pool_act_other a x y :
  pool_act a x y → action_pool_id a ≠ pool_ID x → y = x.
Proof.
  intros (lb & req & Hreq & Heff) Hi.
  destruct a; cbn in Hreq, Hi.
  1: by repeat (case_match; try done); simplify_eq.
  7: destruct (List.find _ _) as [p|] eqn:Hf; [|done]; cbn in Hreq; simplify_eq;
     apply find_some in Hf as [_ Hf%bool_decide_eq_true].
  all: simplify_eq; cbn in Heff; try done; by rewrite decide_False in Heff by congruence.
Qed.

(** Only the updates with the ID of the pool matter. *)
Lemma pool_acts_filter l x y :
  pool_acts l x y → pool_acts (filter (λ a, action_pool_id a = pool_ID x) l) x y.
Proof.
  revert x. induction l as [|a l IH]; intros x; cbn [pool_acts]; [done|].
  intros (z & Ha & Hl%IH). assert (pool_ID z = pool_ID x) as Hz.
  { destruct Ha as (? & ? & _ & ?). by eapply pool_effect_ID. }
  rewrite Hz in Hl. rewrite filter_cons. case_decide as Hi; [by exists z|].
  by apply pool_act_other in Ha as ->.
Qed.

Lemma act_pools a s s' :
  act a s s' → is_create a = false →
  match a with
  | DeletePool _ i => ls_pools s' = filter (λ x, pool_ID x ≠ i) (ls_pools s) ∧
                      ∀ x, pool_act a x x
  | _ => Forall2 (pool_act a) (ls_pools s) (ls_pools s')
  end.
Proof.
  intros (lb & req & _ & Hreq & Heff) Hc.
  assert (∀ req, request_of lb nodeList pools options a = Some req →
    Forall2 (pool_effect req) (ls_pools s) (ls_pools s') →
    Forall2 (pool_act a) (ls_pools s) (ls_pools s')) as Hlift.
  { intros r Hr Hall. eapply Forall2_impl; [exact Hall|]. intros x y ?. by exists lb, r. }
  destruct a; try done; cbn in Hreq.
  - simplify_eq. destruct Heff. by eapply Hlift.
  - simplify_eq. cbn in Heff. subst s'. apply (Hlift (RDeleteListener (lb_ID lb) listenerID)); [done|].
    cbn. apply Forall_Forall2_diag, Forall_forall. done.
  - simplify_eq. cbn in Heff. subst s'. split; [done|]. intros x. by eexists lb, _.
  - simplify_eq. destruct Heff. by eapply Hlift.
  - simplify_eq. destruct Heff. by eapply Hlift.
  - destruct (List.find _ _) as [p|] eqn:Hf; [|done]. cbn in Hreq. simplify_eq.
    destruct Heff. eapply Hlift; [|done]. cbn. by rewrite Hf.
Qed.
Lemma act_pools_from a s s' y :
  act a s s' → is_create a = false → y ∈ ls_pools s' →
  ∃ x, x ∈ ls_pools s ∧ (∀ n, a ≠ DeletePool n (pool_ID x)) ∧ pool_act a x y.
Proof.
  intros Ha Hc Hy. apply act_pools in Ha; [|done].
  destruct a; try done.
  3: { destruct Ha as [Ha Hx]. rewrite Ha in Hy. apply list_elem_of_filter in Hy as [Hi Hy].
       exists y. split_and!; [done|congruence|apply Hx]. }
  all: apply list_elem_of_lookup in Hy as (k & Hy);
       eapply Forall2_lookup_r in Ha as (x & Hx & Hxy); [|exact Hy];
       exists x; split_and!; [by eapply list_elem_of_lookup_2|done|done].
Qed.

Lemma act_pools_to a s s' x :
  act a s s' → is_create a = false → x ∈ ls_pools s → (∀ n, a ≠ DeletePool n (pool_ID x)) →
  ∃ y, y ∈ ls_pools s' ∧ pool_act a x y.
Proof.
  intros Ha Hc Hx Hno. apply act_pools in Ha; [|done].
  destruct a; try done.
  3: { destruct Ha as [Ha Hid]. exists x. split; [|apply Hid]. rewrite Ha.
       apply list_elem_of_filter. split; [|done]. intros Hi. eapply Hno. by rewrite Hi. }
  all: apply list_elem_of_lookup in Hx as (k & Hx);
       eapply Forall2_lookup_l in Ha as (y & Hy & Hxy); [|exact Hx];
       exists y; split; [by eapply list_elem_of_lookup_2|done].
Qed.

Lemma pool_act_ID a x y : pool_act a x y → pool_ID y = pool_ID x.
Proof. intros (? & ? & _ & ?). by eapply pool_effect_ID. Qed.

Lemma acts_pools_from l s s' y :
  acts l s s' → (∀ a, a ∈ l → is_create a = false) → y ∈ ls_pools s' →
  ∃ x, x ∈ ls_pools s ∧ (∀ n, DeletePool n (pool_ID x) ∉ l) ∧ pool_acts l x y.
Proof.
  revert s. induction l as [|a l IH]; intros s; cbn [LbEffects.acts].
  { intros -> _ Hy. exists y. split_and!; [done| |done]. intros n. apply not_elem_of_nil. }
  intros (s1 & Ha & Hl) Hc Hy.
  destruct (IH s1 Hl) as (z & Hz & Hno & Hzy); [intros b Hb; apply Hc; by right|done|].
  eapply act_pools_from in Ha as (x & Hx & Hna & Hxz); [|apply Hc; left|exact Hz].
  exists x. split_and!; [done| |by exists z].
  rewrite (pool_act_ID _ _ _ Hxz) in Hno.
  intros n [Heq|?]%elem_of_cons; [by eapply Hna|by eapply Hno].
Qed.

Lemma acts_pools_to l s s' x :
  acts l s s' → (∀ a, a ∈ l → is_create a = false) → x ∈ ls_pools s →
  (∀ n, DeletePool n (pool_ID x) ∉ l) → ∃ y, y ∈ ls_pools s' ∧ pool_acts l x y.
Proof.
  revert s x. induction l as [|a l IH]; intros s x; cbn [LbEffects.acts].
  { intros -> _ Hx _. by exists x. }
  intros (s1 & Ha & Hl) Hc Hx Hno.
  eapply act_pools_to in Ha as (z & Hz & Hxz); [|apply Hc; left|exact Hx|].
  2: { intros n ->. eapply Hno. left. }
  destruct (IH s1 z Hl) as (y & Hy & Hzy); [intros b Hb; apply Hc; by right|done| |].
  { intros n Hn. rewrite (pool_act_ID _ _ _ Hxz) in Hn. eapply Hno. by right. }
  exists y. split; [done|]. by exists z.
Qed.

(** Creating adds pools at the end. *)
Lemma act_create a s s' :
  act a s s' → is_create a = true →
  match a with
  | CreatePool n => ∃ y, pool_created n nodeList options y ∧ ls_pools s' = ls_pools s ++ [y]
  | _ => ls_pools s' = ls_pools s
  end.
Proof.
  intros (lb & req & _ & Hreq & Heff) Hc. destruct a; try done; cbn in Hreq.
  - repeat (case_match; try done); simplify_eq. by destruct Heff as (? & _ & ->).
  - simplify_eq. destruct Heff as (y & ? & ->). by exists y.
Qed.

Lemma acts_create l s s' :
  acts l s s' → (∀ a, a ∈ l → is_create a = true) →
  (∀ y, y ∈ ls_pools s → y ∈ ls_pools s') ∧
  (∀ n, CreatePool n ∈ l → ∃ y, y ∈ ls_pools s' ∧ pool_created n nodeList options y) ∧
  (∀ y, y ∈ ls_pools s' →
     y ∈ ls_pools s ∨ ∃ n, CreatePool n ∈ l ∧ pool_created n nodeList options y).
Proof.
  revert s. induction l as [|a l IH]; intros s; cbn [LbEffects.acts].
  { intros -> _. split_and!; [done|by intros n ?%not_elem_of_nil|by left]. }
  intros (s1 & Ha & Hl) Hc. apply act_create in Ha; [|apply Hc; left].
  destruct (IH s1 Hl) as (H1 & H2 & H3); [intros b Hb; apply Hc; by right|].
  assert ((∀ y, y ∈ ls_pools s → y ∈ ls_pools s1) ∧
    (∀ n, a = CreatePool n → ∃ y, y ∈ ls_pools s1 ∧ pool_created n nodeList options y) ∧
    (∀ y, y ∈ ls_pools s1 →
      y ∈ ls_pools s ∨ ∃ n, a = CreatePool n ∧ pool_created n nodeList options y)) as (K1 & K2 & K3).
  { destruct a as [n|n| | | | | |]; try (rewrite Ha; split_and!; [done|done|by left]).
    destruct Ha as (z & Hz & ->). split_and!.
    - intros y Hy. apply elem_of_app. by left.
    - intros ? [= <-]. exists z. split; [apply elem_of_app; right; left|done].
    - intros y [?| ->%list_elem_of_singleton]%elem_of_app; [by left|]. right. eauto. }
  split_and!.
  - auto.
  - intros n [Heq|Hn]%elem_of_cons; [|by apply H2]. destruct (K2 n) as (y & ? & ?); [done|]. eauto.
  - intros y [Hy|(n & ? & ?)]%H3; [|right; exists n; split; [by right|done]].
    destruct (K3 y Hy) as [?|(n & -> & ?)]; [by left|]. right. exists n. split; [left|done].
Qed.
End parts.

(** ** Being up to date *)

(** A pool serves [p]. *)
Definition port_has_pool (pools : list VpcLoadBalancerPool) (p : ServicePort) : Prop :=
  ∃ pool f, pool ∈ pools ∧ extractFieldsFromPoolName (pool_Name pool) = Ok f ∧
            isServicePortEqualPoolName p f = true.

(** A service that wants the proxy protocol has its pools already. *)
Definition no_new_proxy_pool (service : Service) (pools : list VpcLoadBalancerPool) : Prop :=
  isProxyProtocol (getServiceOptions (Some service)) = false ∨
  ∀ p, p ∈ spec_Ports (svc_Spec service) → port_has_pool pools p.

(** The pool is in sync with [p] but for its proxy protocol, which is off. *)
Definition unproxied (service : Service) (nodeList : list string) (p : ServicePort) (v : View) : Prop :=
  pool_Name v.1 = genLoadBalancerPoolName p ∧
  monitor_good service p (pool_HealthMonitor v.1) ∧ pool_ProxyProtocol v.1 = "disabled" ∧
  (∀ m, m ∈ pool_Members v.1 →
     mem_TargetIPAddress m ∈ nodeList ∧ mem_Port m = sp_NodePort p) ∧
  (∀ node, node ∈ nodeList → ∃ m, m ∈ pool_Members v.1 ∧
     mem_TargetIPAddress m = node ∧ mem_Port m = sp_NodePort p).

(** Everything is in sync, but that pools created for ports that had none among
    [pools] may lack the proxy protocol the service asks for. *)
Definition in_sync_but_new (service : Service) (nodeList : list string)
    (pools : list VpcLoadBalancerPool) (listeners : list VpcLoadBalancerListener)
    (views : list View) : Prop :=
  let ports := spec_Ports (svc_Spec service) in
  (∀ l, l ∈ listeners → listener_live service l) ∧
  (∀ v, v ∈ views → ∃ p, p ∈ ports ∧
     (pool_in_sync service nodeList p v ∨
      isProxyProtocol (getServiceOptions (Some service)) = true ∧ ¬ port_has_pool pools p ∧
      unproxied service nodeList p v)) ∧
  (∀ p, p ∈ ports →
     (∃ v, v ∈ views ∧ isServicePortEqualPoolName p v.2 = true) ∧
     (∃ l, l ∈ listeners ∧ isServicePortEqualListener p l = true)).

(** The load balancer is in sync with the service and the nodes. *)
Definition up_to_date (service : Service) (nodeList : list string) (s : LbState) : Prop :=
  ∃ views, parse_pools (ls_pools s) = Ok views ∧ in_sync service nodeList (ls_listeners s) views.

(** [s'] is what an update of [s] leads to. *)
Definition caught_up (service : Service) (nodeList : list string) (s s' : LbState) : Prop :=
  ∃ views, parse_pools (ls_pools s') = Ok views ∧
           in_sync_but_new service nodeList (ls_pools s) (ls_listeners s') views.

(** The exception is only for new pools, and there are none the next time. *)
Lemma caught_up_synced service nodeList s s' :
  caught_up service nodeList s s' → no_new_proxy_pool service (ls_pools s) →
  up_to_date service nodeList s'.
Proof.
  intros (views & Hviews & Hl & Hv & Hp) Hno. exists views. split; [done|]. split_and!; [done| |done].
  intros v (p & Hp' & [?|(Hproxy & Hhas & _)])%Hv; [by exists p|].
  destruct Hno as [?|Hall]; [congruence|]. by destruct Hhas; apply Hall.
Qed.
Lemma caught_up_has_pools service nodeList s s' p :
  caught_up service nodeList s s' → p ∈ spec_Ports (svc_Spec service) → port_has_pool (ls_pools s') p.
Proof.
  intros (views & Hviews & _ & _ & Hports) Hp. destruct (Hports p Hp) as [(v & Hv & Hm) _].
  pose proof (parse_pools_Ok _ _ Hviews) as [Heq Hparsed]. exists v.1, v.2.
  split_and!; [|by apply (proj1 (Forall_forall _ _) Hparsed)|done].
  rewrite <- Heq. by apply list_elem_of_fmap_2.
Qed.
Lemma caught_up_no_new service nodeList s s' :
  caught_up service nodeList s s' → no_new_proxy_pool service (ls_pools s').
Proof. intros Hu. right. intros p Hp. by eapply caught_up_has_pools. Qed.

(** ** One pool *)

Section pool.
Context (service : Service) (nodeList : list string)
  (listeners : list VpcLoadBalancerListener) (views : list View).
Let ports := spec_Ports (svc_Spec service).
Let options := getServiceOptions (Some service).
Let pools := mark_pool service <$> views.
Context (Hports : Forall tcp_port ports) (Hunique : unique_ports service)
  (Hparsed : Forall parsed views) (Hids : NoDup (pool_ID <$> views.*1))
  (Hnames : NoDup (pool_Name <$> views.*1))
  (Hne : Forall (λ v : View, pool_ID v.1 ≠ "") views)
  (Hmembers : Forall (λ v : View, NoDup (mem_ID <$> pool_Members v.1)) views).
Local Abbreviation pool_act := (pool_act nodeList pools options).
Local Abbreviation pool_acts := (pool_acts nodeList pools options).

(** The plan is the merged body followed by the creations. *)
Definition spec_body : list Action :=
  delete_listeners service listeners ++
  delete_pools service views ++
  (filter (stable service) views ≫= delete_members nodeList) ++
  (filter (live service) views ≫= update_pool service) ++
  (filter (stable service) views ≫= create_members nodeList).
Definition spec_creates : list Action :=
  ports ≫= λ p, create_pool views p ++ create_listener listeners p.

Lemma spec_creates_create a : a ∈ spec_creates → is_create a = true.
Proof.
  intros (p & Ha & Hp)%list_elem_of_bind.
  by eapply elem_of_create in Ha as [[-> _]|[-> _]].
Qed.

Lemma spec_plan_split : spec_plan service nodeList listeners views = coalesce spec_body ++ spec_creates.
Proof.
  unfold spec_plan. rewrite <- coalesce_app.
  - unfold spec_updates, spec_body, spec_creates. fold ports. by rewrite <- !(assoc_L (++)).
  - intros a Ha%spec_creates_create. by destruct a.
Qed.

(** What the body is made of. *)
Lemma elem_of_body a :
  a ∈ spec_body →
  (∃ l, l ∈ listeners ∧ ¬ listener_live service l ∧
        a = DeleteListener (listener_label l) (lst_ID l)) ∨
  (∃ v, v ∈ views ∧ ¬ live service v ∧ a = DeletePool (pool_Name v.1) (pool_ID v.1)) ∨
  (∃ v, v ∈ views ∧ stable service v ∧ is_member_action a = true ∧
        action_pool a = pool_Name v.1 ∧ action_pool_id a = pool_ID v.1) ∨
  (∃ v, v ∈ views ∧ live service v ∧ a ∈ update_pool service v).
Proof.
  unfold spec_body. rewrite !elem_of_app. intros [Ha|[Ha|[Ha|[Ha|Ha]]]].
  - apply list_elem_of_fmap in Ha as (l & -> & [? ?]%list_elem_of_filter). left. eauto.
  - apply list_elem_of_fmap in Ha as (v & -> & [? ?]%list_elem_of_filter). right; left. eauto.
  - apply list_elem_of_bind in Ha as (v & (m & -> & _)%list_elem_of_fmap & [? ?]%list_elem_of_filter).
    right; right; left. by exists v.
  - apply list_elem_of_bind in Ha as (v & ? & [? ?]%list_elem_of_filter).
    right; right; right. eauto.
  - apply list_elem_of_bind in Ha as (v & (m & -> & _)%list_elem_of_fmap & [? ?]%list_elem_of_filter).
    right; right; left. by exists v.
Qed.

Lemma update_pool_other v a :
  a ∈ update_pool service v → is_member_action a = false ∧ action_pool_id a = pool_ID v.1 ∧
  is_create a = false.
Proof. by intros (p & _ & [[-> _]|[-> _]])%elem_of_update_pool. Qed.

Lemma body_no_create a : a ∈ coalesce spec_body → is_create a = false.
Proof.
  intros [[Ha _]|(b & _ & _ & _ & ->)]%elem_of_coalesce_go; [|done].
  apply elem_of_body in Ha as [(l & _ & _ & ->)|[(v & _ & _ & ->)|[(v & _ & _ & ? & _)|(v & _ & _ & Ha)]]];
    try done.
  - by destruct a.
  - by eapply update_pool_other.
Qed.

Lemma views_NoDup : NoDup views.
Proof. apply (NoDup_fmap_1 (λ v : View, pool_ID v.1)). by rewrite <- list_fmap_compose in Hids. Qed.

Section one.
Context (v : View) (Hv : v ∈ views) (Hlive : live service v).
Local Abbreviation i := (pool_ID v.1).
Local Abbreviation n := (pool_Name v.1).

Lemma same_ID u : u ∈ views → pool_ID u.1 = i ↔ u = v.
Proof. intros Hu. split; [by eapply same_pool|by intros ->]. Qed.
Lemma same_Name u : u ∈ views → pool_Name u.1 = n ↔ u = v.
Proof.
  intros Hu. split; [|by intros ->]. apply (NoDup_key (λ v : View, pool_Name v.1) views); try done.
  by rewrite <- list_fmap_compose in Hnames.
Qed.

Definition deletes : list Action := if decide (stable service v) then delete_members nodeList v else [].
Definition adds : list Action := if decide (stable service v) then create_members nodeList v else [].

Lemma filter_views_bind (P : View → Prop) `{∀ u, Decision (P u)} (g : View → list Action) :
  (∀ u a, a ∈ g u → action_pool_id a = pool_ID u.1) →
  filter (λ a, action_pool_id a = i) (filter P views ≫= g) = if decide (P v) then g v else [].
Proof.
  intros Hg.
  destruct (filter_bind_one (λ a, action_pool_id a = i) g (filter P views) v) as [H1 H2].
  - apply NoDup_filter, views_NoDup.
  - intros u a [_ Hu]%list_elem_of_filter Ha. rewrite (Hg u a Ha). by apply same_ID.
  - case_decide; [apply H1|apply H2]; rewrite list_elem_of_filter; tauto.
Qed.

Lemma body_of_pool :
  filter (λ a, action_pool_id a = i) spec_body = deletes ++ update_pool service v ++ adds.
Proof.
  rewrite Forall_forall in Hne. unfold spec_body. rewrite !filter_app.
  rewrite (filter_none _ (delete_listeners _ _)), (filter_none _ (delete_pools _ _)).
  - rewrite !filter_views_bind, (decide_True _ _ Hlive); [done|..].
    + by intros u a (m & -> & _)%list_elem_of_fmap.
    + intros u a Ha. by eapply update_pool_other.
    + by intros u a (m & -> & _)%list_elem_of_fmap.
  - intros a (u & -> & [Hd Hu]%list_elem_of_filter)%list_elem_of_fmap Hi.
    apply same_ID in Hi; [|done]. by subst u.
  - intros a (l & -> & _)%list_elem_of_fmap Hi. cbn in Hi. by eapply (Hne v).
Qed.

Lemma body_names a :
  a ∈ spec_body → is_member_action a = true → action_pool a = n ↔ action_pool_id a = i.
Proof.
  intros [(l & _ & _ & ->)|[(u & _ & _ & ->)|[(u & Hu & _ & _ & -> & ->)|(u & _ & _ & Ha)]]]%elem_of_body Hm;
    try done.
  - by rewrite same_ID, same_Name.
  - apply update_pool_other in Ha as [? _]. congruence.
Qed.

Lemma busy_pool : n ∈ busy_pools spec_body ↔ 1 < length (deletes ++ adds).
Proof.
  rewrite elem_of_busy. f_equiv. f_equal. unfold member_updates.
  transitivity (filter (λ a, is_member_action a = true)
                  (filter (λ a, action_pool_id a = i) spec_body)).
  - rewrite list_filter_filter. apply filter_ext_in. intros a Ha.
    split; intros [? ?]; (split; [done|]); by apply body_names.
  - rewrite body_of_pool, !filter_app, (filter_none _ (update_pool _ _)).
    + cbn. f_equal; apply filter_all; unfold deletes, adds; intros a; case_decide;
        try (by intros ?%not_elem_of_nil); by intros (? & -> & _)%list_elem_of_fmap.
    + intros a [Ha _]%update_pool_other. congruence.
Qed.
Definition pool_plan : list Action :=
  filter (λ a, action_pool_id a = i) (coalesce spec_body).

Lemma deletes_adds_name a :
  a ∈ deletes ++ adds → stable service v ∧ is_member_action a = true ∧ action_pool a = n ∧
  action_pool_id a = i.
Proof.
  intros [Ha|Ha]%elem_of_app; unfold deletes, adds in Ha; case_decide;
    try (by apply not_elem_of_nil in Ha); by apply list_elem_of_fmap in Ha as (m & -> & _).
Qed.

(** The updates of the pool: its own, with at most one member update, or with
    all member updates traded for a replacement. *)
Lemma pool_plan_shape :
  (pool_plan = deletes ++ update_pool service v ++ adds ∧ length (deletes ++ adds) ≤ 1) ∨
  (stable service v ∧
   (pool_plan = ReplacePoolMembers n i :: update_pool service v ∨
    pool_plan = update_pool service v ++ [ReplacePoolMembers n i])).
Proof.
  unfold pool_plan, coalesce.
  rewrite (coalesce_go_pool i n), body_of_pool by apply body_names.
  assert (∀ a, a ∈ update_pool service v → is_member_action a = false) as Hupd
    by by intros a [? _]%update_pool_other.
  destruct (decide (n ∈ busy_pools spec_body)) as [Hb|Hb].
  - right. pose proof (proj1 busy_pool Hb) as Hlen.
    assert (∃ a, a ∈ deletes ++ adds) as (a & Ha).
    { destruct (deletes ++ adds) as [|a l]; [cbn in Hlen; lia|]. exists a. left. }
    split; [by eapply deletes_adds_name|].
    apply coalesce_go_one; [done|lia| |done].
    intros b Hb'. by apply deletes_adds_name in Hb' as (_ & ? & ? & ?).
  - left. split; [|rewrite busy_pool in Hb; lia].
    apply coalesce_go_others_id. intros a Ha Hma. 
    replace (action_pool a) with n; [done|]. symmetry. apply deletes_adds_name.
    rewrite !elem_of_app in *. destruct Ha as [?|[Ha|?]]; auto. apply Hupd in Ha. congruence.
Qed.
(** *** Members *)

Context (p : ServicePort) (Hp : p ∈ ports) (Hm : isServicePortEqualPoolName p v.2 = true).
Local Abbreviation canon := (genLoadBalancerPoolName p).

(** The members are the nodes, on the node port. *)
Definition served (ms : list VpcLoadBalancerPoolMember) : Prop :=
  (∀ m, m ∈ ms → mem_TargetIPAddress m ∈ nodeList ∧ mem_Port m = sp_NodePort p) ∧
  (∀ node, node ∈ nodeList → ∃ m, m ∈ ms ∧ mem_TargetIPAddress m = node ∧
                                   mem_Port m = sp_NodePort p).

Lemma canon_fields : extractFieldsFromPoolName canon = Ok (port_fields p).
Proof.
  destruct (proj1 (Forall_forall _ _) Hports p Hp) as [Hproto ?].
  apply extract_gen_pool_name; [|done]. left. by rewrite Hproto.
Qed.

Lemma name_fields : extractFieldsFromPoolName n = Ok v.2.
Proof. by apply (proj1 (Forall_forall _ _) Hparsed). Qed.

Lemma stable_node_port : stable service v → pn_NodePort v.2 = sp_NodePort p.
Proof.
  intros [_ Hc]. unfold nodePortChanged in Hc.
  apply existsb_false in Hc. pose proof (proj1 (Forall_forall _ _) Hc p Hp) as Hx. cbn in Hx.
  rewrite Hm in Hx. cbn in Hx. apply bool_decide_eq_false in Hx. by apply dec_stable.
Qed.

Lemma canon_stable : n = canon → stable service v.
Proof.
  intros Hn. by eapply in_sync_stable, good_name_fields.
Qed.

(** The names under which the updates of the pool address it. *)
Definition our_name (m : string) : Prop := m = canon ∨ (m = n ∧ stable service v).

Lemma our_name_port m f :
  our_name m → extractFieldsFromPoolName m = Ok f → pn_NodePort f = sp_NodePort p.
Proof.
  intros [-> |[-> Hs]] Hf.
  - rewrite canon_fields in Hf. by injection Hf as <-.
  - rewrite name_fields in Hf. injection Hf as <-. by apply stable_node_port.
Qed.

Lemma members_for_served m ms : our_name m → members_for m nodeList ms → served ms.
Proof.
  intros Ho (f & Hf & Heq). pose proof (our_name_port _ _ Ho Hf) as Hnp. rewrite Hnp in Heq. split.
  - intros x Hx.
    assert ((mem_TargetIPAddress x, mem_Port x) ∈ (λ node, (node, sp_NodePort p)) <$> nodeList) as Hin.
    { rewrite <- Heq. by apply (list_elem_of_fmap_2 (λ m, (mem_TargetIPAddress m, mem_Port m))). }
    by apply list_elem_of_fmap in Hin as (node & [= -> ->] & ?).
  - intros node Hnode.
    assert ((node, sp_NodePort p)
      ∈ (λ m, (mem_TargetIPAddress m, mem_Port m)) <$> ms) as Hin.
    { rewrite Heq. by apply (list_elem_of_fmap_2 (λ node, (node, sp_NodePort p))). }
    apply list_elem_of_fmap in Hin as (x & [= -> ->] & ?). eauto.
Qed.

Lemma act_replace m x y :
  pool_act (ReplacePoolMembers m i) x y → pool_ID x = i → our_name m →
  served (pool_Members y) ∧ ∃ ms, y = set_pool_Members ms x.
Proof.
  intros (lb & req & [= <-] & Heff) Hx Ho. cbn in Heff. rewrite decide_True in Heff by done.
  destruct Heff as (ms & Hms & ->). split; [by eapply members_for_served|eauto].
Qed.

Lemma act_add node x y :
  pool_act (CreatePoolMember n i node) x y → pool_ID x = i → stable service v →
  ∃ m, mem_TargetIPAddress m = node ∧ mem_Port m = sp_NodePort p ∧
       y = set_pool_Members (pool_Members x ++ [m]) x.
Proof.
  intros (lb & req & [= <-] & Heff) Hx Hs. cbn in Heff. rewrite decide_True in Heff by done.
  destruct Heff as (m & (f & Hf & Heq) & ->). exists m. cbn in Heq. injection Heq as H1 H2.
  split_and!; [done| |done]. rewrite H2. eapply our_name_port; [|done]. by right.
Qed.

Lemma act_delete m' i' t x y :
  pool_act (DeletePoolMember m' i i' t) x y → pool_ID x = i →
  y = set_pool_Members (filter (λ m, mem_ID m ≠ i') (pool_Members x)) x.
Proof.
  intros (lb & req & [= <-] & Heff) Hx. cbn in Heff. by rewrite decide_True in Heff.
Qed.

Definition good_member (m : VpcLoadBalancerPoolMember) : Prop :=
  mem_TargetIPAddress m ∈ nodeList ∧ mem_Port m = sp_NodePort p.
Definition serves (ms : list VpcLoadBalancerPoolMember) (node : string) : Prop :=
  ∃ m, m ∈ ms ∧ mem_TargetIPAddress m = node ∧ mem_Port m = sp_NodePort p.

Lemma member_good_iff m : stable service v → member_good nodeList v m ↔ good_member m.
Proof. intros Hs. unfold member_good, good_member. by rewrite stable_node_port. Qed.
Lemma node_served_iff node :
  stable service v → node_served v node ↔ serves (pool_Members v.1) node.
Proof.
  intros Hs. unfold node_served, serves. by rewrite Exists_exists, stable_node_port.
Qed.

(** What the members are like when there is nothing, or one thing, to do. *)
Lemma no_deletes : stable service v → deletes = [] → ∀ m, m ∈ pool_Members v.1 → good_member m.
Proof.
  intros Hs Hd m Hin. unfold deletes in Hd. rewrite decide_True in Hd by done.
  apply member_good_iff; [done|]. by apply (proj1 (fmap_filter_nil _ _ _) Hd).
Qed.
Lemma no_adds : stable service v → adds = [] → ∀ node, node ∈ nodeList → serves (pool_Members v.1) node.
Proof.
  intros Hs Hd node Hin. unfold adds in Hd. rewrite decide_True in Hd by done.
  apply node_served_iff; [done|]. by apply (proj1 (fmap_filter_nil _ _ _) Hd).
Qed.
Lemma one_delete d :
  stable service v → deletes = [d] →
  ∃ m t, m ∈ pool_Members v.1 ∧ d = DeletePoolMember n i (mem_ID m) t ∧ ¬ good_member m ∧
    ∀ x, x ∈ pool_Members v.1 → x = m ∨ good_member x.
Proof.
  intros Hs Hd. unfold deletes in Hd. rewrite decide_True in Hd by done.
  unfold delete_members in Hd. destruct (filter _ _) as [|m [|]] eqn:Hf; try done.
  injection Hd as <-. exists m, (mem_TargetIPAddress m).
  assert (m ∈ filter (λ m, ¬ member_good nodeList v m) (pool_Members v.1))
    as [Hbad Hin]%list_elem_of_filter by (rewrite Hf; left).
  rewrite member_good_iff in Hbad by done. split_and!; [done..|].
  intros x Hx. destruct (decide (member_good nodeList v x)) as [Hg|Hg].
  - right. by apply member_good_iff.
  - left. apply list_elem_of_singleton. rewrite <- Hf. by apply list_elem_of_filter.
Qed.
Lemma one_add a :
  stable service v → adds = [a] →
  ∃ node, a = CreatePoolMember n i node ∧ node ∈ nodeList ∧
    ∀ node', node' ∈ nodeList → node' = node ∨ serves (pool_Members v.1) node'.
Proof.
  intros Hs Ha. unfold adds in Ha. rewrite decide_True in Ha by done.
  unfold create_members in Ha. destruct (filter _ _) as [|node [|]] eqn:Hf; try done.
  injection Ha as <-. exists node.
  assert (node ∈ filter (λ node, ¬ node_served v node) nodeList)
    as [_ Hin]%list_elem_of_filter by (rewrite Hf; left).
  split_and!; [done..|]. intros x Hx. destruct (decide (node_served v x)) as [Hg|Hg].
  - right. by apply node_served_iff.
  - left. apply list_elem_of_singleton. rewrite <- Hf. by apply list_elem_of_filter.
Qed.

(** *** The update of the pool itself *)

Lemma update_pool_eq :
  update_pool service v =
  (if decide (pool_good service p v.1) then [] else [UpdatePool canon i]) ++
  (if decide (n = canon) then [] else [ReplacePoolMembers canon i]).
Proof. unfold update_pool. by erewrite find_match. Qed.

Lemma mark_pool_ID u : pool_ID (mark_pool service u) = pool_ID u.1.
Proof. unfold mark_pool. by case_decide. Qed.

Lemma act_update x y :
  pool_act (UpdatePool canon i) x y → pool_ID x = i → pool_patched canon v.1 options x y.
Proof.
  intros (lb & req & Hreq & Heff) Hx. cbn in Hreq.
  destruct (List.find _ _) as [q|] eqn:Hf; [|done]. cbn in Hreq. simplify_eq.
  apply find_some in Hf as [Hin Hq%bool_decide_eq_true].
  apply list_elem_of_In, list_elem_of_fmap in Hin as (u & -> & Hu).
  rewrite mark_pool_ID in Hq. apply same_ID in Hq; [|done]. subst u.
  rewrite mark_live in Heff by done. cbn in Heff. by rewrite decide_True in Heff.
Qed.

(** All but the members. *)
Definition same_head (x y : VpcLoadBalancerPool) : Prop :=
  pool_ID y = pool_ID x ∧ pool_Name y = pool_Name x ∧
  pool_HealthMonitor y = pool_HealthMonitor x ∧ pool_ProxyProtocol y = pool_ProxyProtocol x.

Lemma same_head_good x y : same_head x y → pool_good service p x → pool_good service p y.
Proof. intros (_ & Hn & Hh & Hpr) (? & ? & ?). unfold pool_good. by rewrite Hn, Hh, Hpr. Qed.
Lemma same_head_set ms x : same_head x (set_pool_Members ms x).
Proof. done. Qed.
#[local] Instance same_head_trans : Transitive same_head.
Proof. intros x y z (?&?&?&?) (?&?&?&?). repeat split; congruence. Qed.

Lemma update_effect x y :
  pool_acts (update_pool service v) x y → same_head v.1 x →
  pool_ID y = i ∧ pool_good service p y ∧
  (served (pool_Members y) ∨ (pool_Members y = pool_Members x ∧ n = canon)).
Proof.
  rewrite update_pool_eq. intros (z & Hz & Hy)%pool_acts_app Hx.
  assert (pool_ID z = i ∧ pool_good service p z ∧ pool_Members z = pool_Members x) as (Hi & Hg & Hms).
  { clear Hy. case_decide as Hgood; cbn [Convergence.pool_acts] in Hz.
    - subst z. split_and!; [apply Hx|by eapply same_head_good|done].
    - destruct Hz as (z' & (f & Hf & Hi & Hms & Hname & Hmon & Hproxy)%act_update & ->); [|apply Hx].
      rewrite canon_fields in Hf. injection Hf as <-.
      split_and!; [rewrite Hi; apply Hx| |done].
      apply (patch_good _ _ v.1); [done|apply Hmon|apply Hmon|].
      rewrite Hproxy. f_equal. apply Hx. }
  case_decide as Hn; cbn [Convergence.pool_acts] in Hy.
  - subst y. rewrite Hms. auto.
  - destruct Hy as (y' & Hy & ->). apply act_replace in Hy as [Hs (ms & ->)]; [|done|by left].
    split_and!; [done|by apply (same_head_good z _ (same_head_set ms z))|by left].
Qed.

(** The plan brings the pool in line with its port. *)
Lemma pool_converges y :
  pool_acts pool_plan v.1 y → pool_good service p y ∧ served (pool_Members y).
Proof.
  assert (same_head v.1 v.1) as Hrefl by done.
  intros Hrun. destruct pool_plan_shape as [[Hplan Hlen]|[Hs [Hplan|Hplan]]]; rewrite Hplan in Hrun.
  - rewrite length_app in Hlen.
    destruct (decide (stable service v)) as [Hs|Hs].
    2: { unfold deletes, adds in Hrun. rewrite !decide_False, app_nil_r in Hrun by done.
         apply update_effect in Hrun as (_ & ? & [?|[_ ?%canon_stable]]); done. }
    destruct deletes as [|d [|d2 ds]] eqn:Hd, adds as [|a [|a2 l]] eqn:Ha; cbn in Hlen; try lia;
      cbn [app] in Hrun.
    + rewrite app_nil_r in Hrun. apply update_effect in Hrun as (_ & ? & [?|[-> _]]); [done| |done].
      split; [done|]. split; [by apply no_deletes|by apply no_adds].
    + apply pool_acts_app in Hrun as (z & (Hi & Hg & Hms)%update_effect & (y' & Hy & ->)); [|done].
      apply one_add in Ha as (node & -> & Hnode & Hothers); [|done].
      apply act_add in Hy as (m & Hm1 & Hm2 & ->); [|done..].
      split; [by apply (same_head_good z)|]. cbn. split.
      * intros x [Hx| ->%list_elem_of_singleton]%elem_of_app; [|by rewrite Hm1].
        destruct Hms as [[Hgood _]|[Hms _]]; [by apply Hgood|].
        rewrite Hms in Hx. by apply no_deletes.
      * intros node' Hnode'. destruct Hms as [[_ Hsv]|[Hms _]].
        -- destruct (Hsv node' Hnode') as (x & ? & ?). exists x. rewrite elem_of_app. tauto.
        -- rewrite Hms. destruct (Hothers node' Hnode') as [->|(x & ? & ?)].
           ++ exists m. split_and!; [|done..]. apply elem_of_app. right. left.
           ++ exists x. rewrite elem_of_app. tauto.
    + rewrite app_nil_r in Hrun. destruct Hrun as (z & Hz & Hrun).
      apply one_delete in Hd as (m & t & Hin & -> & Hbad & Hothers); [|done].
      apply act_delete in Hz as ->; [|done].
      apply update_effect in Hrun as (_ & ? & [?|[-> _]]); [done| |by apply same_head_set].
      split; [done|]. cbn. split.
      * intros x [Hne' Hx]%list_elem_of_filter. destruct (Hothers x Hx) as [->|?]; done.
      * intros node Hnode. destruct (no_adds Hs Ha node Hnode) as (x & Hx & <- & Hport).
        exists x. split_and!; [|done..]. apply list_elem_of_filter. split; [|done].
        intros Heq. apply Hbad. replace m with x; [by split|].
        apply (NoDup_key mem_ID (pool_Members v.1)); [|done..].
        by apply (proj1 (Forall_forall _ _) Hmembers).
  - destruct Hrun as (z & (Hsv & ms & ->)%act_replace & Hrun); [|done|by right].
    apply update_effect in Hrun as (_ & ? & [?|[-> _]]); done.
  - apply pool_acts_app in Hrun as (z & (Hi & Hg & _)%update_effect & (y' & Hy & ->)); [|done].
    apply act_replace in Hy as [Hsv (ms & ->)]; [|done|by right].
    split; [by apply (same_head_good z)|done].
Qed.
End one.

(** ** The whole load balancer *)

(** Some view serves [p]. *)
Definition viewed (p : ServicePort) : Prop :=
  ∃ v, v ∈ views ∧ isServicePortEqualPoolName p v.2 = true.

Lemma port_name_fields p :
  p ∈ ports → extractFieldsFromPoolName (genLoadBalancerPoolName p) = Ok (port_fields p).
Proof.
  intros Hp. destruct (proj1 (Forall_forall _ _) Hports p Hp) as [Hproto ?].
  apply extract_gen_pool_name; [|done]. left. by rewrite Hproto.
Qed.

(** The members requested for a pool are the nodes, on the node port. *)
Lemma members_for_exact p ms :
  p ∈ ports → members_for (genLoadBalancerPoolName p) nodeList ms →
  (∀ m, m ∈ ms → mem_TargetIPAddress m ∈ nodeList ∧ mem_Port m = sp_NodePort p) ∧
  (∀ node, node ∈ nodeList →
     ∃ m, m ∈ ms ∧ mem_TargetIPAddress m = node ∧ mem_Port m = sp_NodePort p).
Proof.
  intros Hp (f & Hf & Hms). rewrite port_name_fields in Hf by done. injection Hf as <-. split.
  - intros m Hm. assert ((mem_TargetIPAddress m, mem_Port m)
      ∈ (λ node, (node, pn_NodePort (port_fields p))) <$> nodeList) as Hin.
    { rewrite <- Hms. by apply (list_elem_of_fmap_2 (λ m, (mem_TargetIPAddress m, mem_Port m))). }
    by apply list_elem_of_fmap in Hin as (node & [= -> ->] & ?).
  - intros node Hnode. assert ((node, sp_NodePort p)
      ∈ (λ m, (mem_TargetIPAddress m, mem_Port m)) <$> ms) as Hin.
    { rewrite Hms. by apply (list_elem_of_fmap_2 (λ node, (node, sp_NodePort p))). }
    apply list_elem_of_fmap in Hin as (x & [= -> ->] & ?). by exists x.
Qed.

(** A created pool is as its port asks, but for the proxy protocol: it gets
    none, whatever the service asks for. *)
Lemma created_pool p y f :
  p ∈ ports → CreatePool (genLoadBalancerPoolName p) ∈ spec_creates →
  pool_created (genLoadBalancerPoolName p) nodeList options y →
  pool_in_sync service nodeList p (y, f) ∨
  isProxyProtocol options = true ∧ ¬ viewed p ∧ unproxied service nodeList p (y, f).
Proof.
  intros Hp Hc (f' & Hf & Hname & Hmon & Hpr & Hms).
  rewrite port_name_fields in Hf by done. injection Hf as <-.
  assert (monitor_good service p (pool_HealthMonitor y)) as Hmonitor.
  { destruct Hmon as [Ht Hport]. by apply health_monitor_good. }
  pose proof (members_for_exact p (pool_Members y) Hp Hms) as [Hms1 Hms2].
  destruct (isProxyProtocol options) eqn:Hproxy; [right|left].
  2: { split; [split_and!|]; [done..| |done]. unfold proxy_good. fold options. cbn [fst].
       by rewrite Hpr, Hproxy. }
  split_and!; [done| |split_and!; done].
  - intros (v & Hv & Hm). apply list_elem_of_bind in Hc as (q & Hc & Hq).
    eapply elem_of_create in Hc as [[[= Hn] Hno]|[[=] _]].
    apply (gen_name_inj service Hports Hunique) in Hn as <-; [|done..]. by rewrite Hno in Hm.
Qed.

(** A port that has no pool, or no listener, gets one. *)
Lemma create_pool_in p :
  p ∈ ports → (∀ v, v ∈ views → isServicePortEqualPoolName p v.2 = false) →
  CreatePool (genLoadBalancerPoolName p) ∈ spec_creates.
Proof.
  intros Hp Hno. apply list_elem_of_bind. exists p. split; [|done].
  apply (elem_of_create listeners views p). by left.
Qed.
Lemma create_listener_in p :
  p ∈ ports → (∀ l, l ∈ listeners → isServicePortEqualListener p l = false) →
  CreateListener (genLoadBalancerPoolName p) ∈ spec_creates.
Proof.
  intros Hp Hno. apply list_elem_of_bind. exists p. split; [|done].
  apply (elem_of_create listeners views p). by right.
Qed.

Lemma listener_for_port p l :
  p ∈ ports → listener_for (genLoadBalancerPoolName p) l → isServicePortEqualListener p l = true.
Proof.
  intros Hp (f & Hf & Hport & Hproto). rewrite port_name_fields in Hf by done.
  injection Hf as <-. unfold isServicePortEqualListener. rewrite Hport, Hproto. cbn.
  rewrite bool_decide_eq_true_2 by done.
  by destruct (proj1 (Forall_forall _ _) Hports p Hp) as [-> _].
Qed.

Section whole.
Context (lbID : string) (s s' : LbState)
  (Hs_listeners : ls_listeners s = listeners) (Hs_pools : ls_pools s = views.*1)
  (Hlistener_ids : NoDup (lst_ID <$> listeners))
  (Hrun : acts lbID nodeList pools options (spec_plan service nodeList listeners views) s s').

Lemma created_name a :
  a ∈ spec_creates → ∃ p, p ∈ ports ∧
    (a = CreatePool (genLoadBalancerPoolName p) ∨ a = CreateListener (genLoadBalancerPoolName p)).
Proof.
  intros (p & Ha & Hp)%list_elem_of_bind. exists p. split; [done|].
  eapply elem_of_create in Ha as [[-> _]|[-> _]]; auto.
Qed.

Lemma elem_of_plan_delete_listener m j :
  DeleteListener m j ∈ spec_plan service nodeList listeners views →
  ∃ l, l ∈ listeners ∧ ¬ listener_live service l ∧ m = listener_label l ∧ j = lst_ID l.
Proof.
  rewrite spec_plan_split. intros [Ha|Ha%spec_creates_create]%elem_of_app; [|done].
  apply elem_of_coalesce_go in Ha as [[Ha _]|(b & _ & _ & _ & [=])].
  apply elem_of_body in Ha
    as [(l & ? & ? & [= -> ->])|[(v & _ & _ & [=])|[(v & _ & _ & [=] & _)|(v & _ & _ & Ha)]]].
  - by exists l.
  - by apply elem_of_update_pool in Ha as (p & _ & [[[=] _]|[[=] _]]).
Qed.

(** Every listener serves a port afterwards, and every port has a listener. *)
Lemma listeners_converge :
  (∀ l, l ∈ ls_listeners s' → listener_live service l) ∧
  (∀ p, p ∈ ports → ∃ l, l ∈ ls_listeners s' ∧ isServicePortEqualListener p l = true).
Proof.
  split.
  - intros l Hl. eapply acts_listeners_from in Hl as [[Hl Hno]|(m & Hm & Hl)]; [| |exact Hrun].
    + rewrite Hs_listeners in Hl. destruct (decide (listener_live service l)) as [|Hdead]; [done|].
      exfalso. eapply Hno, elem_of_spec_plan_other; [done|].
      apply elem_of_spec_updates. left. by exists l.
    + rewrite spec_plan_split in Hm. apply elem_of_app in Hm as [Hm%body_no_create|Hm]; [done|].
      apply created_name in Hm as (p & Hp & [[=]|[= ->]]). exists p. split; [done|].
      by apply listener_for_port.
  - intros p Hp. destruct (decide (Exists (λ l, isServicePortEqualListener p l = true) listeners))
      as [(l & Hl & Heq)%Exists_exists|He].
    + exists l. split; [|done]. eapply acts_listeners_keep; [exact Hrun|by rewrite Hs_listeners|].
      intros m (l' & Hl' & Hdead & _ & Hi)%elem_of_plan_delete_listener.
      apply Hdead. exists p. split; [done|]. replace l' with l; [done|].
      by apply (NoDup_key lst_ID listeners).
    + assert (CreateListener (genLoadBalancerPoolName p) ∈ spec_creates) as Hc.
      { apply create_listener_in; [done|]. intros l Hl.
        destruct (isServicePortEqualListener p l) eqn:Heq; [|done].
        exfalso. apply He, Exists_exists. by exists l. }
      apply list_elem_of_split in Hc as (l1 & l2 & Hsplit). pose proof Hrun as Hrun'.
      rewrite spec_plan_split, Hsplit, (assoc_L (++)) in Hrun'.
      apply acts_listeners_new in Hrun' as (l & Hl & Hfor).
      * exists l. split; [done|]. by apply listener_for_port.
      * intros a Ha. apply spec_creates_create. rewrite Hsplit. apply elem_of_app. right. by right.
Qed.

(** Every pool is in sync with a port afterwards, or new and without the proxy
    protocol, and every port has a pool. *)
Definition settled_pool (p : ServicePort) (v : View) : Prop :=
  pool_in_sync service nodeList p v ∨
  isProxyProtocol options = true ∧ ¬ viewed p ∧ unproxied service nodeList p v.

Lemma pools_converge :
  (∀ y, y ∈ ls_pools s' → ∃ p, p ∈ ports ∧ ∀ f, settled_pool p (y, f)) ∧
  (∀ p, p ∈ ports → ∃ y, y ∈ ls_pools s' ∧ pool_Name y = genLoadBalancerPoolName p).
Proof.
  pose proof Hrun as Hrun'. rewrite spec_plan_split in Hrun'.
  apply acts_app in Hrun' as (s1 & Hbody & Hcreate).
  pose proof (acts_create _ _ _ _ _ _ _ Hcreate spec_creates_create) as (Hkeep & Hnew & Hfrom).
  split.
  - intros y [Hy|(m & Hm & Hy)]%Hfrom.
    + eapply acts_pools_from in Hy as (x & Hx & Hno & Hxy); [|exact Hbody|exact body_no_create].
      rewrite Hs_pools in Hx. apply list_elem_of_fmap in Hx as (v & -> & Hv).
      destruct (decide (live service v)) as [Hlive|Hdead].
      2: { exfalso. eapply Hno, (elem_of_coalesce_other _ (DeletePool (pool_Name v.1) (pool_ID v.1))); [done|].
           unfold spec_body. rewrite !elem_of_app. right. left.
           apply list_elem_of_fmap. exists v. split; [done|]. by apply list_elem_of_filter. }
      destruct Hlive as (p & Hp & Hm). exists p. split; [done|]. intros f. left.
      apply pool_acts_filter in Hxy.
      eapply pool_converges in Hxy as [Hg Hs]; [|done| |done|done]; [|by exists p].
      by split.
    + apply created_name in Hm as Hm'. destruct Hm' as (p & Hp & [[= ->]|[=]]).
      exists p. split; [done|]. intros f. by apply created_pool.
  - intros p Hp. destruct (decide (Exists (λ v : View, isServicePortEqualPoolName p v.2 = true) views))
      as [(v & Hv & Hm)%Exists_exists|He].
    + assert (live service v) as Hlive by by exists p.
      destruct (acts_pools_to _ _ _ _ _ s s1 v.1 Hbody body_no_create) as (y & Hy & Hvy).
      { rewrite Hs_pools. by apply list_elem_of_fmap_2. }
      { intros m Hm'. assert (DeletePool m (pool_ID v.1)
          ∈ spec_plan service nodeList listeners views) as Hin
          by (rewrite spec_plan_split; apply elem_of_app; by left).
        revert Hin. by apply live_not_deleted. }
      exists y. split; [by apply Hkeep|]. apply pool_acts_filter in Hvy.
      by eapply pool_converges in Hvy as [[? _] _].
    + destruct (Hnew (genLoadBalancerPoolName p)) as (y & Hy & (f & _ & Hn & _)).
      { apply create_pool_in; [done|]. intros v Hv.
        destruct (isServicePortEqualPoolName p v.2) eqn:Heq; [|done].
        exfalso. apply He, Exists_exists. by exists v. }
      by exists y.
Qed.

Lemma parse_pools_all pools0 :
  (∀ y, y ∈ pools0 → is_Ok (extractFieldsFromPoolName (pool_Name y))) →
  ∃ views, parse_pools pools0 = Ok views.
Proof.
  induction pools0 as [|y l IH]; intros Hall; [by eexists|]. rewrite parse_pools_unfold.
  destruct (Hall y) as [f ->]; [left|]. cbn [mbind outcome_bind].
  destruct IH as [vs ->]; [intros z Hz; apply Hall; by right|]. by eexists.
Qed.

Lemma plan_converges :
  ∃ views', parse_pools (ls_pools s') = Ok views' ∧
            in_sync_but_new service nodeList (ls_pools s) (ls_listeners s') views'.
Proof.
  destruct pools_converge as [Hfrom Hto].
  destruct listeners_converge as [Hl1 Hl2].
  destruct (parse_pools_all (ls_pools s')) as [views' Hviews].
  { intros y (p & Hp & Hy)%Hfrom.
    assert (pool_Name y = genLoadBalancerPoolName p) as Hn
      by by destruct (Hy (port_fields p)) as [[[? _] _]|(_ & _ & ? & _)].
    rewrite Hn, port_name_fields by done. by eexists. }
  exists views'. split; [done|]. pose proof (parse_pools_Ok _ _ Hviews) as [Heq Hpar].
  rewrite <- Heq in Hfrom, Hto. split_and!; [done| |].
  - intros v Hv. destruct (Hfrom v.1) as (p & Hp & Hy); [by apply list_elem_of_fmap_2|].
    exists p. split; [done|]. destruct v as [y f].
    destruct (Hy f) as [?|(? & Hno & ?)]; [by left|right; split_and!; [done| |done]].
    intros (pool & f' & Hin & Hf' & Hm). apply Hno. rewrite Hs_pools in Hin.
    apply list_elem_of_fmap in Hin as (v & -> & Hv0). exists v. split; [done|].
    pose proof (proj1 (Forall_forall _ _) Hparsed v Hv0) as Hpv. unfold parsed in Hpv. congruence.
  - intros p Hp. split; [|by apply Hl2]. destruct (Hto p Hp) as (y & Hy & Hn).
    apply list_elem_of_fmap in Hy as (v & -> & Hv). exists v. split; [done|].
    pose proof (proj1 (Forall_forall _ _) Hpar v Hv) as Hf. unfold parsed in Hf.
    rewrite Hn, port_name_fields in Hf by done. injection Hf as <-.
    apply isServicePortEqualPoolName_self. by apply (proj1 (Forall_forall _ _) Hports).
Qed.
End whole.
End pool.

(** ** UpdateLoadBalancer *)

Section update.
Context {W : Type} `{!Clock W} `{!MapIteration} (c : CloudVpc W) (lb : VpcLoadBalancer)
  (state : W → LbState) `{!SdkEffects (cv_Sdk c) (lb_ID lb) state} `{!SdkIdentity (cv_Sdk c)}
  (service : Service) (nodes : list Node).
Let options := getServiceOptions (Some service).
Let nodeList := getNodeIDs (selectNodes service options nodes).
Context (Hvalid : Forall valid_port (spec_Ports (svc_Spec service)))
  (Htoken : Forall token nodeList).

Lemma UpdateLoadBalancer_moves :
  moves (state := state) (UpdateLoadBalancer c (Some lb) (Some service) (Some nodes))
    (λ _ s s', lb_wf s ∧ Forall tcp_port (spec_Ports (svc_Spec service)) ∧
       ∃ views, parse_pools (ls_pools s) = Ok views ∧
         acts (lb_ID lb) nodeList (mark_pool service <$> views) options
              (spec_plan service nodeList (ls_listeners s) views) s s').
Proof.
  unfold UpdateLoadBalancer. apply moves_if; [apply moves_fail|].
  apply moves_lift_cases. intros opts Hopts.
  destruct (validateService_cases service) as [[Htcp Hv]|[[e Hv] _]];
    rewrite Hv in Hopts; [|done].
  assert (opts = getServiceOptions (Some service)) as -> by congruence. fold options.
  apply moves_lift_cases. intros [] _.
  eapply moves_bind; [apply (moves_call RListSubnets _ eq_refl); by intros ??? Heq; exact Heq|].
  intros subnets. apply moves_draw_bind. intros d. apply moves_lift_cases. intros [] _.
  apply moves_if; [apply moves_fail|].
  eapply moves_bind; [apply (moves_listeners (lbID := lb_ID lb))|]. intros listeners.
  eapply moves_bind; [apply (moves_pools (lbID := lb_ID lb))|]. intros pools.
  destruct (decide (Forall wf_listener listeners ∧ Forall wf_pool pools)) as [[Hwl Hwp]|Hn].
  2: { intros e a e' _ s (-> & _ & Hwf) s0 (-> & <- & _). exfalso. apply Hn.
       split; [apply Hwf|apply Hwf]. }
  assert (Forall tcp_port (spec_Ports (svc_Spec service))) as Hports.
  { apply Forall_forall. intros p Hp. rewrite Forall_forall in Htcp, Hvalid. split; auto. }
  apply moves_written_bind. apply moves_lift_cases. intros [upd pools'] Hplan.
  pose proof (parse_pools_no_panic pools) as Hnp.
  destruct (parse_pools pools) as [views|e|why] eqn:Hviews; [| |done].
  2: { unfold planUpdates in Hplan. by rewrite (collect_fails _ _ _ _ e) in Hplan. }
  assert (WfInput listeners pools service nodeList) as Hwf by done.
  rewrite (plan_refines _ _ _ _ views) in Hplan by done. injection Hplan as <- <-.
  eapply moves_mono.
  { apply processUpdates_moves; [done|done| |done]. apply wf_coalesce.
    by eapply wf_spec_updates. }
  intros lb' s s' Hacts s1 (-> & -> & Hwfs) s0 (-> & <- & _) s2 ->.
  split_and!; [done..|]. by exists views.
Qed.

Lemma update_converges e lb' e' :
  unique_ports service →
  UpdateLoadBalancer c (Some lb) (Some service) (Some nodes) e = (Ok lb', e') →
  caught_up service nodeList (state (env_world e)) (state (env_world e')).
Proof.
  intros Hunique Hrun. set (s := state (env_world e)) in *.
  apply UpdateLoadBalancer_moves in Hrun as (Hwf & Hports & views & Hviews & Hacts).
  pose proof (parse_pools_Ok _ _ Hviews) as [Heq Hparsed]. destruct Hwf.
  eapply plan_converges in Hacts; try done.
  - by rewrite Heq.
  - by rewrite Heq.
  - rewrite <- Heq, Forall_fmap in lw_pools. eapply Forall_impl; [exact lw_pools|].
    by intros v [[? _] _].
  - by rewrite <- Heq, Forall_fmap in lw_member_ids.
Qed.

(** What is up to date needs no update. *)
Lemma up_to_date_nothing w :
  unique_ports service → Forall tcp_port (spec_Ports (svc_Spec service)) →
  up_to_date service nodeList (state w) →
  ∃ pools', planUpdates (ls_listeners (state w)) (ls_pools (state w)) service nodeList
            = Ok ([], pools').
Proof.
  intros Hunique Hports (views & Hviews & Hsync).
  pose proof (@effect_wf _ _ _ _ _ SdkEffects0 w) as Hwf.
  assert (WfInput (ls_listeners (state w)) (ls_pools (state w)) service nodeList) as Hin
    by (split; [apply Hwf|apply Hwf|done|done]).
  exists (mark_pool service <$> views). rewrite (plan_refines _ _ _ _ views) by done.
  do 2 f_equal. replace (spec_plan _ _ _ _) with (@nil Action); [done|].
  symmetry. apply coalesce_nil_iff. apply spec_updates_nil; [done|done| |done].
  by eapply parse_pools_Ok.
Qed.
End update.

(** ** Properties *)

(** An update that succeeds has converged.  Over any SDK whose successful
    requests have their effects on the load balancer, and whose service keeps
    identifiers and pool names unique, a successful UpdateLoadBalancer leaves
    the load balancer in sync with the service and the selected nodes - every
    listener serves a port, every pool serves a port under its canonical name
    with the right health monitor, proxy protocol and exactly the nodes as
    members, every port has a pool and a listener - and the next plan is empty.
    The one exception is a service that asks for the proxy protocol and has a
    port without a pool: the new pool is created without it, which the next
    update makes up for. *)
Theorem UpdateLoadBalancer_converges {W} `{!Clock W} `{!MapIteration} (c : CloudVpc W) state lb
    service nodes e lb' e' :
  SdkEffects (cv_Sdk c) (lb_ID lb) state → SdkIdentity (cv_Sdk c) →
  let nodeList := getNodeIDs (selectNodes service (getServiceOptions (Some service)) nodes) in
  Forall valid_port (spec_Ports (svc_Spec service)) → unique_ports service →
  Forall token nodeList →
  UpdateLoadBalancer c (Some lb) (Some service) (Some nodes) e = (Ok lb', e') →
  let s' := state (env_world e') in
  caught_up service nodeList (state (env_world e)) s' ∧
  (no_new_proxy_pool service (ls_pools (state (env_world e))) →
   ∃ pools', planUpdates (ls_listeners s') (ls_pools s') service nodeList = Ok ([], pools')).
Proof.
  intros ? ? nodeList Hvalid Hu Htoken Hrun s'.
  assert (caught_up service nodeList (state (env_world e)) s') as Hup by by eapply update_converges.
  split; [done|]. intros Hproxy.
  apply (UpdateLoadBalancer_moves c lb state service nodes Hvalid Htoken) in Hrun as (_ & Hports & _).
  eapply up_to_date_nothing; try done. by eapply caught_up_synced.
Qed.

(** The update of the example store deletes a listener and a pool, renames a
    pool, changes members of another and creates a listener. *)
Lemma UpdateLoadBalancer_converges_witness :
  let service := example_service "u" [(80, 30500); (81, 30304)]%Z ∅ in
  let nodes := [example_node "n1" "10.0.0.1" "z1"; example_node "n2" "10.0.0.2" "z2"] in
  let lb := mapLoadBalancer (show_lb example_store_state) in
  let c := {| cv_Config := example_config; cv_Sdk := StoreSdk; cv_Recorder := true |} in
  let e := {| env_world := example_store; env_events := []; env_draws := 0 |} in
  ∃ e', snd (UpdateLoadBalancer (H := key_order) c (Some lb) (Some service) (Some nodes) e) = e' ∧
    let s' := map_state (store_state (env_world e')) in
    length (ls_listeners s') = 2 ∧ length (ls_pools s') = 2 ∧
    ∃ pools', planUpdates (ls_listeners s') (ls_pools s') service ["10.0.0.1"; "10.0.0.2"]
              = Ok ([], pools').
Proof.
  intros service nodes lb c e.
  destruct (UpdateLoadBalancer (H := key_order) c (Some lb) (Some service) (Some nodes) e)
    as [r e'] eqn:Hrun.
  assert (r = (UpdateLoadBalancer (H := key_order) c (Some lb) (Some service) (Some nodes) e).1)
    as Hr by by rewrite Hrun.
  assert (e' = (UpdateLoadBalancer (H := key_order) c (Some lb) (Some service) (Some nodes) e).2)
    as He by by rewrite Hrun.
  destruct r as [lb'| |].
  2-3: exfalso; vm_compute in Hr; discriminate Hr.
  exists e'. split; [done|]. cbn zeta.
  split; [rewrite He; by vm_compute|]. split; [rewrite He; by vm_compute|].
  refine (proj2 (UpdateLoadBalancer_converges (H := key_order) c _ lb service nodes e lb' e'
    StoreSdk_effects StoreSdk_identity _ _ _ Hrun) _); [by_decision..|by left].
Defined.

(** C34: the Gen2 SDK has the effects the update logic relies on.  Over a client
    that behaves as documented - a request that succeeds stores its template,
    removes, replaces or patches what it names and nothing else, and lists
    answer with what is stored - the requests of the SDK have the effects of
    [LbEffects], its two lists, the pools with the members read for each, are
    the listeners and pools of the load balancer, and reads change nothing. *)
Theorem VpcSdkGen2_effects {W Patch} `{!Clock W} (client : VpcV1 W Patch) lbID state
    resourceGroupID url_start fuel :
  VpcV1Effects client lbID state →
  SdkEffects (VpcSdkGen2 resourceGroupID url_start fuel) lbID (λ w, map_state (state w)).
Proof. intros ?. by apply gen2_effects. Qed.

Lemma VpcSdkGen2_effects_witness :
  SdkEffects StoreSdk store_id (λ w, map_state (store_state w)).
Proof. exact (VpcSdkGen2_effects StoreClient store_id store_state "group" Ok 2 StoreClient_effects). Defined.
