(* ===== verification/Progress.v ===== *)
(** * Progress: an update of a load balancer that is served succeeds

    [LbEffects.SdkEffects] says what requests have changed when they were
    answered; [Serving.SdkServes] adds that those the service admits are
    answered, and that the load balancer gets ready while it is waited for.
    Every request of the plan is admissible when its turn comes, so the run
    reaches the end of the plan; Convergence says where that is: in sync, except
    that pools created by the update lack the proxy protocol, which the next
    update sets.  The states in between can be served in turn, which Resume
    uses. *)
From S2P Require Import Prelude GoStrings Kube VpcTypes VpcConfig VpcUpdates UpdateSpec UpdatePlan.
From S2P Require Import VpcSdk StaticVpc VpcLbaas LbaasProps VpcSdkGen2 Gen2Props LbEffects Gen2Effects Serving.
From S2P Require Import StoreVpc Convergence.

Open Scope go_scope.

(** ** The processing loop *)

Section serve.
Context {W : Type} `{!Clock W} (c : CloudVpc W) (lbID : string) (state : W → LbState)
  `{!SdkEffects (cv_Sdk c) lbID state} `{!SdkIdentity (cv_Sdk c)}
  `{!SdkServes (cv_Sdk c) lbID state}.
Context (nodeList : list string) (pools : list VpcLoadBalancerPool) (options : ServiceOptions).
Local Abbreviation acts := (acts lbID nodeList pools options).

Lemma sdk_serves r e :
  admissible lbID r (state (env_world e)) →
  ∃ a e', sdk (sdk_call (cv_Sdk c) r) e = (Ok a, e').
Proof.
  intros (a & w & Hr)%(serves_admissible (SdkServes := SdkServes0)). unfold sdk.
  exists a. eexists. by rewrite Hr.
Qed.

Lemma processUpdate_serves lb a req e :
  wf_action a → request_of lb nodeList pools options a = Some req →
  admissible lbID req (state (env_world e)) →
  ∃ e', processUpdate c lb (render a) nodeList pools options e = (Ok tt, e').
Proof.
  intros Ha Hreq (ans & e' & He)%sdk_serves.
  destruct (processUpdate_request nodeList pools options c lb a Ha) as [err Hrun].
  exists e'. rewrite Hrun, Hreq. unfold mbind, M_bind. by rewrite He.
Qed.

(** Reading the load balancer, or the clock, changes nothing of it. *)
Lemma get_serves tm e :
  GetsReady (@sdk_GetLoadBalancer W (cv_Sdk c) lbID) tm →
  ∃ lb e', sdk (@sdk_GetLoadBalancer W (cv_Sdk c) lbID) e = (Ok lb, e') ∧ lb_ID lb = lbID ∧
    state (env_world e') = state (env_world e) ∧ shows lb (state (env_world e')) ∧
    (tm_busy tm (env_world e) = 0 → IsReady lb = true) ∧
    tm_busy tm (env_world e') ≤ tm_busy tm (env_world e) ∧
    (tm_clock tm (env_world e') ≤ tm_clock tm (env_world e) + slack)%Z.
Proof.
  intros Htm. destruct (serves_admissible (SdkServes := SdkServes0) (RGetLoadBalancer lbID)
    (env_world e) eq_refl) as (lb & w & Hget). cbn [sdk_call answer] in Hget, lb.
  exists lb, (set_world w e). unfold sdk. rewrite Hget. split; [done|].
  pose proof (effect_request (SdkEffects := SdkEffects0) (RGetLoadBalancer lbID) _ _ _ eq_refl Hget)
    as Hs. change (state w = state (env_world e)) in Hs.
  destruct (gr_get _ _ _ Hget) as (Hr & Hb & Hc). split_and!; try done.
  - by apply sdk_identity in Hget.
  - change (env_world (set_world w e)) with w. rewrite Hs.
    by apply (serves_shows (SdkServes := SdkServes0)) in Hget.
Qed.

Lemma now_serves tm e :
  GetsReady (@sdk_GetLoadBalancer W (cv_Sdk c) lbID) tm →
  ∃ e', now e = (Ok (tm_clock tm (env_world e)), e') ∧
    state (env_world e') = state (env_world e) ∧
    tm_busy tm (env_world e') ≤ tm_busy tm (env_world e) ∧
    (tm_clock tm (env_world e') ≤ tm_clock tm (env_world e) + slack)%Z.
Proof.
  intros Htm. exists (set_world (time_Now (env_world e)).2 e). unfold now.
  destruct (gr_now (GetsReady := Htm) (env_world e)) as (Ht & Hb & Hc).
  pose proof (effect_now (SdkEffects := SdkEffects0) (env_world e)) as Hs.
  destruct (time_Now (env_world e)) as [t w]. cbn in *. by subst t.
Qed.

(** Waiting for a load balancer that is busy for less rounds than are left. *)
Lemma wait_serves tm n start lb e :
  GetsReady (@sdk_GetLoadBalancer W (cv_Sdk c) lbID) tm →
  lb_ID lb = lbID → shows lb (state (env_world e)) →
  1 ≤ n ≤ 15 → IsReady lb = true ∨ 2 ≤ n ∧ tm_busy tm (env_world e) < n →
  (tm_clock tm (env_world e) ≤
     start + (15 - Z.of_nat n) * (second * minSleepTime + 4 * slack) + slack)%Z →
  ∃ lb' e', wait_loop c n lbID start minSleepTime maxWaitTime lb e = (Ok lb', e') ∧
    lb_ID lb' = lbID ∧ state (env_world e') = state (env_world e) ∧
    shows lb' (state (env_world e')).
Proof.
  intros Htm. revert lb e. induction n as [|n IH]; intros lb e Hid Hshow Hn Hbusy Hclock; [lia|].
  cbn [wait_loop]. destruct (now_serves tm e Htm) as (e1 & Hn1 & Hs1 & Hb1 & Hc1). run_bind Hn1.
  destruct (IsReady lb) eqn:Hready.
  { exists lb, e1. split_and!; [done..|]. by rewrite Hs1. }
  destruct Hbusy as [?|[Hn2 Hbusy]]; [done|].
  destruct (now_serves tm e1 Htm) as (e2 & Hn2' & Hs2 & Hb2 & Hc2). run_bind Hn2'.
  rewrite (proj2 (Z.ltb_ge _ _)) by (unfold second, minSleepTime, slack, maxWaitTime in *; lia).
  set (e3 := set_world (time_Sleep (second * minSleepTime) (env_world e2)) e2).
  change (set_world (time_Sleep (wrap64 _) _) e2) with e3.
  destruct (gr_sleep (GetsReady := Htm) (env_world e2)) as [Hb3 Hc3].
  pose proof (effect_sleep (SdkEffects := SdkEffects0) (second * minSleepTime) (env_world e2)) as Hs3.
  change (time_Sleep _ _) with (env_world e3) in Hb3, Hc3, Hs3.
  destruct (get_serves tm e3 Htm) as (lb' & e4 & Hget & Hid' & Hs4 & Hshow' & Hr & Hb4 & Hc4).
  rewrite Hget. destruct (IH lb' e4) as (lb2 & e5 & Hrun & Hid2 & Hs5 & Hshow2); [done|done|lia| |lia|].
  - destruct (decide (tm_busy tm (env_world e3) = 0)); [left; auto|right; lia].
  - exists lb2, e5. split_and!; [done|done|congruence|done].
Qed.

Lemma refresh_serves lb e :
  lb_ID lb = lbID →
  ∃ lb' e', refreshLoadBalancer c lb e = (Ok lb', e') ∧ lb_ID lb' = lbID ∧
    state (env_world e') = state (env_world e) ∧ shows lb' (state (env_world e')).
Proof.
  intros Hid. destruct (serves_ready (SdkServes := SdkServes0)) as [tm Htm].
  destruct (get_serves tm e Htm) as (lb1 & e1 & Hget & Hid1 & Hs1 & Hshow1 & Hr & Hb1 & _).
  unfold refreshLoadBalancer. rewrite Hid. run_bind Hget.
  destruct (IsReady lb1) eqn:Hready; cbn [negb]; [by exists lb1, e1|].
  destruct (now_serves tm e1 Htm) as (e2 & Hn2 & Hs2 & Hb2 & Hc2).
  unfold WaitLoadBalancerReady. run_bind Hn2. rewrite bool_decide_eq_false_2 by done. rewrite Hid1.
  pose proof (gr_bound (GetsReady := Htm) (env_world e1)).
  destruct (wait_serves tm 15 (tm_clock tm (env_world e1)) lb1 e2 Htm)
    as (lb' & e' & Hrun & Hid' & Hs' & Hshow'); [done|by rewrite Hs2|lia|right; lia|lia|].
  exists lb', e'. split_and!; [done|done|congruence|done].
Qed.

Context (plan : list Action) (s0 : LbState) (Hwf : Forall wf_action plan).
Context (Hprogress : ∀ l1 a l2 s lb, plan = l1 ++ a :: l2 → acts l1 s0 s → lb_wf s →
  lb_ID lb = lbID → shows lb s →
  ∃ req, request_of lb nodeList pools options a = Some req ∧ admissible lbID req s).

Lemma processUpdates_serves l1 l2 first lb e :
  plan = l1 ++ l2 → acts l1 s0 (state (env_world e)) → lb_ID lb = lbID →
  (first = true → shows lb (state (env_world e))) →
  ∃ lb' e', processUpdates c first lb (render <$> l2) nodeList pools options e = (Ok lb', e').
Proof.
  revert l1 first lb e. induction l2 as [|a l2 IH]; intros l1 first lb e Hplan Hacts Hid Hshow.
  { by eexists _, _. }
  cbn [fmap list_fmap processUpdates].
  assert (∃ lb1 e1, (if first then mret lb else refreshLoadBalancer c lb) e = (Ok lb1, e1) ∧
    lb_ID lb1 = lbID ∧ state (env_world e1) = state (env_world e) ∧
    shows lb1 (state (env_world e1))) as (lb1 & e1 & Hr & Hid1 & Hs1 & Hshow1).
  { destruct first; [exists lb, e; split_and!; auto|by apply refresh_serves]. }
  run_bind Hr. rewrite <- Hs1 in Hacts.
  pose proof (@effect_wf _ _ _ _ _ SdkEffects0 (env_world e1)) as Hwf1.
  destruct (Hprogress l1 a l2 _ lb1 Hplan Hacts Hwf1 Hid1 Hshow1) as (req & Hreq & Hadm).
  assert (wf_action a) as Ha.
  { apply (proj1 (Forall_forall _ _) Hwf). rewrite Hplan. apply elem_of_app. right. left. }
  destruct (processUpdate_serves lb1 a req e1 Ha Hreq Hadm) as [e2 Hp].
  pose proof (processUpdate_moves lbID nodeList pools options c lb1 a Ha Hid1 e1 tt e2 Hp) as Hact.
  run_bind Hp. apply (IH (l1 ++ [a])); [by rewrite <- (assoc_L (++))| |done|done].
  apply acts_app. exists (state (env_world e1)). split; [done|]. by exists (state (env_world e2)).
Qed.
End serve.

(** ** Runs and names *)

Section names.
Context (lbID : string) (nodeList : list string) (pools : list VpcLoadBalancerPool)
  (options : ServiceOptions).
Local Abbreviation pool_acts := (pool_acts nodeList pools options).

Lemma pool_acts_ID l x z : pool_acts l x z → pool_ID z = pool_ID x.
Proof.
  revert x. induction l as [|a l IH]; intros x; cbn [Convergence.pool_acts]; [by intros ->|].
  intros (y & Hxy & Hyz). rewrite (IH y Hyz). by eapply pool_act_ID.
Qed.

(** Only an update of the pool renames it. *)
Lemma pool_acts_name l x z :
  pool_acts l x z →
  pool_Name z = pool_Name x ∨ UpdatePool (pool_Name z) (pool_ID x) ∈ l.
Proof.
  revert x. induction l as [|a l IH]; intros x; cbn [Convergence.pool_acts].
  { intros ->. by left. }
  intros (y & Hxy & Hyz). pose proof (pool_act_ID _ _ _ _ _ _ Hxy) as Hid.
  destruct (IH y Hyz) as [Hz|Hz]; [|rewrite Hid in Hz; right; by right].
  destruct Hxy as (lb & req & Hreq & Heff). rewrite Hz. clear Hyz Hz IH.
  destruct a; cbn in Hreq.
  1: repeat (case_match; try done); simplify_eq; cbn in Heff; subst y; by left.
  7: destruct (List.find _ pools) as [p|] eqn:Hf; [|done]; cbn in Hreq; simplify_eq;
     apply find_some in Hf as [_ Hf%bool_decide_eq_true]; cbn in Heff; case_decide as Hi;
     [|subst y; by left]; destruct Heff as (f & _ & _ & _ & Hn & _); right;
     cbn in Hn; rewrite Hn, Hi, Hf; left.
  all: simplify_eq; cbn in Heff; try (subst y; by left); case_decide; try (subst y; by left);
    first [by destruct Heff as (? & _ & ->); left|by subst y; left].
Qed.
End names.

(** What is deleted, once each. *)
Definition del_key (a : Action) : option (bool * string) :=
  match a with
  | DeleteListener _ i => Some (true, i)
  | DeletePool _ i => Some (false, i)
  | _ => None
  end.

Lemma coalesce_del_key l : omap del_key (coalesce l) = omap del_key l.
Proof.
  unfold coalesce. generalize (busy_pools l) (@nil string). intros busy seen. revert seen.
  induction l as [|a l IH]; intros seen; [done|]. cbn [coalesce_go].
  destruct (is_member_action a && bool_decide (action_pool a ∈ busy)) eqn:Hb.
  - apply andb_true_iff in Hb as [Hm _]. assert (del_key a = None) as Ha by by destruct a.
    cbn. rewrite Ha. case_decide; [apply IH|]. cbn. apply IH.
  - cbn. by rewrite IH.
Qed.

Lemma omap_none {A B} (f : A → option B) (l : list A) : (∀ x, x ∈ l → f x = None) → omap f l = [].
Proof.
  induction l as [|x l IH]; intros Hl; [done|]. cbn. rewrite (Hl x ltac:(left)).
  apply IH. intros y Hy. apply Hl. by right.
Qed.
Lemma omap_fmap_some {A B C} (g : A → B) (f : B → option C) (h : A → C) (l : list A) :
  (∀ x, f (g x) = Some (h x)) → omap f (g <$> l) = h <$> l.
Proof. intros Hf. induction l as [|x l IH]; [done|]. cbn. by rewrite Hf, IH. Qed.

(** No two pools serve one port, and no listener that stays uses a pool that
    goes. *)
Definition one_each (service : Service) (views : list View) : Prop := ∀ u v p,
  u ∈ views → v ∈ views → p ∈ spec_Ports (svc_Spec service) →
  isServicePortEqualPoolName p u.2 = true → isServicePortEqualPoolName p v.2 = true → u = v.
Definition none_dangling (service : Service) (listeners : list VpcLoadBalancerListener)
    (views : list View) : Prop := ∀ l v,
  l ∈ listeners → listener_live service l → v ∈ views → ¬ live service v →
  ref_ID (lst_DefaultPool l) ≠ pool_ID v.1.

(** ** The plan is admissible throughout *)

Section plan.
Context (service : Service) (nodeList : list string)
  (listeners : list VpcLoadBalancerListener) (views : list View).
Let ports := spec_Ports (svc_Spec service).
Let options := getServiceOptions (Some service).
Let pools := mark_pool service <$> views.
Context (Hports : Forall tcp_port ports) (Hunique : unique_ports service)
  (Hparsed : Forall parsed views) (Hids : NoDup (pool_ID <$> views.*1))
  (Hnames : NoDup (pool_Name <$> views.*1))
  (Hne : Forall (λ v : View, pool_ID v.1 ≠ "") views)
  (Hmembers : Forall (λ v : View, NoDup (mem_ID <$> pool_Members v.1)) views)
  (Hlistener_ids : NoDup (lst_ID <$> listeners)) (Hnodes : Forall token nodeList).
Context (Hone : one_each service views) (Hdefault : none_dangling service listeners views).
Context (lbID : string) (s : LbState)
  (Hs_listeners : ls_listeners s = listeners) (Hs_pools : ls_pools s = views.*1).
Local Abbreviation acts := (acts lbID nodeList pools options).
Local Abbreviation body := (spec_body service nodeList listeners views).
Local Abbreviation creates := (spec_creates service listeners views).
Local Abbreviation plan := (spec_plan service nodeList listeners views).

(** *** What the body leaves *)

(** A delete is made once. *)
Lemma delete_once l1 a l2 key :
  coalesce body = l1 ++ a :: l2 → del_key a = Some key → key ∉ omap del_key l1.
Proof.
  intros Hb Ha. assert (NoDup (omap del_key (coalesce body))) as Hd.
  { rewrite coalesce_del_key. unfold spec_body. rewrite !omap_app.
    unfold delete_listeners, delete_pools.
    rewrite (omap_fmap_some _ _ (λ l, (true, lst_ID l))) by done.
    rewrite (omap_fmap_some _ _ (λ v : View, (false, pool_ID v.1))) by done.
    rewrite (omap_none _ (filter (stable service) views ≫= delete_members nodeList)),
      (omap_none _ (_ ≫= update_pool service)), (omap_none _ (_ ≫= create_members nodeList)),
      !app_nil_r.
    - apply NoDup_app. split_and!.
      + rewrite (list_fmap_compose lst_ID (pair true)). apply NoDup_fmap; [by intros ?? [=]|].
        apply (sublist_NoDup _ _ Hlistener_ids), fmap_sublist, sublist_filter.
      + intros k (l & -> & _)%list_elem_of_fmap (v & [=] & _)%list_elem_of_fmap.
      + rewrite (list_fmap_compose (λ v : View, pool_ID v.1) (pair false)).
        apply NoDup_fmap; [by intros ?? [=]|]. rewrite <- list_fmap_compose in Hids.
        apply (sublist_NoDup _ _ Hids), fmap_sublist, sublist_filter.
    - by intros x (v & (m & -> & _)%list_elem_of_fmap & _)%list_elem_of_bind.
    - intros x (v & (p & _ & [[-> _]|[-> _]])%elem_of_update_pool & _)%list_elem_of_bind; done.
    - by intros x (v & (m & -> & _)%list_elem_of_fmap & _)%list_elem_of_bind. }
  rewrite Hb, omap_app in Hd. cbn in Hd. rewrite Ha in Hd.
  apply NoDup_app in Hd as (_ & Hd & _). intros Hin. by eapply Hd, list_elem_of_here.
Qed.

Lemma body_in_plan a : a ∈ coalesce body → a ∈ plan.
Proof. intros Ha. rewrite spec_plan_split. apply elem_of_app. by left. Qed.

Section prefix.
Context (l : list Action) (Hl : ∀ a, a ∈ l → a ∈ coalesce body)
  (s1 : LbState) (Hacts : acts l s s1).

Lemma prefix_no_create a : a ∈ l → is_create a = false.
Proof. intros Ha%Hl. by eapply body_no_create. Qed.

Lemma prefix_pool_from y :
  y ∈ ls_pools s1 → ∃ v, v ∈ views ∧ pool_acts nodeList pools options l v.1 y.
Proof.
  intros Hy. eapply acts_pools_from in Hy as (x & Hx & _ & Hxy);
    [|exact Hacts|exact prefix_no_create].
  rewrite Hs_pools in Hx. apply list_elem_of_fmap in Hx as (v & -> & Hv). by exists v.
Qed.

Lemma prefix_pool_to v :
  v ∈ views → (∀ n, DeletePool n (pool_ID v.1) ∉ l) →
  ∃ y, y ∈ ls_pools s1 ∧ pool_acts nodeList pools options l v.1 y ∧ pool_ID y = pool_ID v.1.
Proof.
  intros Hv Hno. destruct (acts_pools_to _ _ _ _ _ _ _ v.1 Hacts prefix_no_create) as (y & Hy & Hxy).
  - rewrite Hs_pools. by apply list_elem_of_fmap_2.
  - exact Hno.
  - exists y. split_and!; [done..|]. by eapply pool_acts_ID.
Qed.

Lemma prefix_live_pool v :
  v ∈ views → live service v →
  ∃ y, y ∈ ls_pools s1 ∧ pool_acts nodeList pools options l v.1 y ∧ pool_ID y = pool_ID v.1.
Proof.
  intros Hv Hlive. apply prefix_pool_to; [done|]. intros n Hn%Hl%body_in_plan.
  revert Hn. by apply live_not_deleted.
Qed.

(** A pool with the name of a port is the one that serves the port. *)
Lemma prefix_port_name y p :
  y ∈ ls_pools s1 → p ∈ ports → pool_Name y = genLoadBalancerPoolName p →
  ∃ v, v ∈ views ∧ isServicePortEqualPoolName p v.2 = true ∧ pool_ID y = pool_ID v.1.
Proof.
  intros Hy Hp Hn. destruct (prefix_pool_from y Hy) as (v & Hv & Hvy).
  pose proof (pool_acts_ID _ _ _ _ _ _ Hvy) as Hid.
  exists v. split_and!; [done| |done].
  apply pool_acts_name in Hvy as [Hname|Hupd].
  - rewrite Hname in Hn. eapply good_name_fields in Hn; [|done..]. rewrite Hn.
    by eapply isServicePortEqualPoolName_self, port_tcp.
  - rewrite Hn in Hupd. apply Hl, body_in_plan, elem_of_spec_plan in Hupd
      as [Hupd|(u & _ & _ & [=])].
    apply elem_of_spec_updates in Hupd
      as [(?&?&?&[=])|[(?&?&?&[=])|[(u&?&?&[(?&?&?&[=])|(?&?&?&[=])])|[(u&Hu&Hlive&Hb)|(q&?&Hb)]]]].
    2: by apply elem_of_create in Hb as [[[=] _]|[[=] _]].
    apply elem_of_update_pool in Hb as (q & Hq & [[[= Hname Hi] _]|[[=] _]]).
    apply find_some in Hq as [Hq%list_elem_of_In Hmatch].
    eapply (gen_name_inj service Hports Hunique) in Hname; [|done..]. subst q.
    eapply same_pool in Hi; [|done..]. by subst u.
Qed.
End prefix.

(** *** The requests of the body *)

(** Listeners that serve no port are gone before anything else is done. *)
Lemma dead_deleted l1 a l2 l :
  plan = l1 ++ a :: l2 → 1 ≤ rank a → l ∈ listeners → ¬ listener_live service l →
  DeleteListener (listener_label l) (lst_ID l) ∈ l1.
Proof.
  intros Hplan Ha Hl Hdead.
  assert (DeleteListener (listener_label l) (lst_ID l) ∈ plan) as Hd.
  { apply elem_of_spec_plan_other; [done|]. apply elem_of_spec_updates. left. by exists l. }
  rewrite Hplan in Hd.
  apply elem_of_app in Hd as [?|[Heq|Hin]%elem_of_cons]; [done| |]; exfalso.
  - subst a. cbn in Ha. lia.
  - pose proof (spec_plan_sorted service nodeList listeners views Hports Hunique) as Hsort.
    rewrite Hplan in Hsort. eapply sorted_after in Hsort as [Hr _]; [|exact Hin].
    cbn in Hr. lia.
Qed.

Section step.
Context (l1 : list Action) (a : Action) (l2 : list Action) (s1 : LbState) (lb : VpcLoadBalancer)
  (Hsplit : coalesce body = l1 ++ a :: l2) (Hacts : acts l1 s s1) (Hlb : lb_ID lb = lbID).

Lemma step_sub b : b ∈ l1 → b ∈ coalesce body.
Proof. intros Hb. rewrite Hsplit. apply elem_of_app. by left. Qed.
Lemma step_plan : plan = l1 ++ a :: (l2 ++ creates).
Proof. by rewrite spec_plan_split, Hsplit, <- (assoc_L (++)). Qed.

Lemma admit_delete_listener l n :
  a = DeleteListener n (lst_ID l) → l ∈ listeners →
  admissible lbID (RDeleteListener (lb_ID lb) (lst_ID l)) s1.
Proof.
  intros Ha Hl. split; [done|]. exists l. split; [|done].
  eapply acts_listeners_keep; [exact Hacts|by rewrite Hs_listeners|]. intros m Hm.
  eapply (delete_once l1 a l2 (true, lst_ID l)); [done|by rewrite Ha|].
  apply list_elem_of_omap. by exists (DeleteListener m (lst_ID l)).
Qed.

Lemma admit_delete_pool v n :
  a = DeletePool n (pool_ID v.1) → v ∈ views → ¬ live service v →
  admissible lbID (RDeletePool (lb_ID lb) (pool_ID v.1)) s1.
Proof.
  intros Ha Hv Hdead. split; [done|]. split.
  - destruct (prefix_pool_to l1 step_sub s1 Hacts v Hv) as (y & Hy & _ & Hid); [|by exists y].
    intros m Hm. eapply (delete_once l1 a l2 (false, pool_ID v.1)); [done|by rewrite Ha|].
    apply list_elem_of_omap. by exists (DeletePool m (pool_ID v.1)).
  - intros l Hl. eapply acts_listeners_from in Hl as [[Hl Hno]|(m & Hm & _)]; [| |exact Hacts].
    + rewrite Hs_listeners in Hl. destruct (decide (listener_live service l)) as [Hlive|Hdeadl].
      * by apply Hdefault.
      * exfalso. eapply Hno, (dead_deleted l1 a _ l step_plan); [subst a; cbn; lia|done..].
    + by apply (prefix_no_create l1 step_sub) in Hm.
Qed.

(** Requests on a pool that stays. *)
Lemma live_has_pool v : v ∈ views → live service v → has_pool (pool_ID v.1) s1.
Proof.
  intros Hv Hlive. destruct (prefix_live_pool l1 step_sub s1 Hacts v Hv Hlive) as (y & Hy & _ & Hi).
  by exists y.
Qed.

Lemma view_name_Ok v : v ∈ views → is_Ok (extractFieldsFromPoolName (pool_Name v.1)).
Proof. intros Hv. exists v.2. by apply (proj1 (Forall_forall _ _) Hparsed). Qed.
Lemma port_name_Ok p : p ∈ ports → is_Ok (extractFieldsFromPoolName (genLoadBalancerPoolName p)).
Proof. intros Hp. eexists. by eapply port_name_fields. Qed.

Lemma admit_delete_member v m t n :
  a = DeletePoolMember n (pool_ID v.1) (mem_ID m) t → v ∈ views → stable service v →
  m ∈ pool_Members v.1 →
  admissible lbID (RDeletePoolMember (lb_ID lb) (pool_ID v.1) (mem_ID m)) s1.
Proof.
  intros Ha Hv Hst Hm. split; [done|].
  destruct (prefix_live_pool l1 step_sub s1 Hacts v Hv (proj1 Hst)) as (y & Hy & Hvy & Hi).
  exists y, m. split_and!; [done..| |done].
  apply pool_acts_filter in Hvy.
  assert (filter (λ b, action_pool_id b = pool_ID v.1) l1 = []) as Hnil; [|rewrite Hnil in Hvy; cbn in Hvy; by subst y].
  assert (filter (λ b, action_pool_id b = pool_ID v.1) (coalesce body)
    = filter (λ b, action_pool_id b = pool_ID v.1) l1 ++ a :: filter (λ b, action_pool_id b = pool_ID v.1) l2) as Hf.
  { rewrite Hsplit, filter_app, filter_cons, decide_True by by rewrite Ha. done. }
  change (filter (λ b, action_pool_id b = pool_ID v.1) (coalesce body))
    with (pool_plan service nodeList listeners views v) in Hf.
  assert (∀ b, b ∈ update_pool service v → b ≠ a) as Hupd.
  { intros b [Hb _]%update_pool_other ->. by rewrite Ha in Hb. }
  assert (∀ b, b ∈ adds service nodeList v → b ≠ a) as Hadd.
  { unfold adds. case_decide; [|by intros b ?%not_elem_of_nil].
    intros b (x & -> & _)%list_elem_of_fmap. by rewrite Ha. }
  assert (a ∈ pool_plan service nodeList listeners views v) as Hin
    by (rewrite Hf; apply elem_of_app; right; left).
  destruct (pool_plan_shape service nodeList listeners views Hids Hnames Hne v Hv (proj1 Hst))
    as [[Hshape Hlen]|[_ [Hshape|Hshape]]]; rewrite Hshape in Hf, Hin.
  - destruct (filter _ l1) as [|b r]; [done|]. exfalso. rewrite !elem_of_app in Hin.
    destruct Hin as [Hin|[Hin|Hin]]; [|by eapply Hupd|by eapply Hadd].
    rewrite length_app in Hlen. destruct (deletes _ _ _) as [|d [|]]; cbn in Hlen; [|..|lia].
    { by apply not_elem_of_nil in Hin. }
    destruct (adds _ _ _); cbn in Hlen; [|lia]. injection Hf as _ Hf.
    rewrite app_nil_r in Hf. apply (Hupd a); [|done]. rewrite Hf.
    apply elem_of_app. right. left.
  - exfalso. apply elem_of_cons in Hin as [Hin|Hin]; [by rewrite Ha in Hin|by eapply Hupd].
  - exfalso. apply elem_of_app in Hin as [Hin|Hin%list_elem_of_singleton];
      [by eapply Hupd|by rewrite Ha in Hin].
Qed.

(** *** The body as a whole *)

Lemma view_of_pool v : v ∈ views → live service v →
  List.find (λ pool, bool_decide (pool_ID pool = pool_ID v.1)) pools = Some v.1.
Proof.
  intros Hv Hlive. destruct (List.find _ pools) as [x|] eqn:Hf.
  - apply find_some in Hf as [Hx%list_elem_of_In Hi%bool_decide_eq_true].
    apply list_elem_of_fmap in Hx as (u & -> & Hu). rewrite mark_pool_ID in Hi.
    eapply same_pool in Hi as ->; [|done..]. unfold mark_pool. by rewrite decide_True.
  - exfalso. assert (v.1 ∈ pools) as Hin.
    { apply list_elem_of_fmap. exists v. split; [|done]. unfold mark_pool. by rewrite decide_True. }
    apply list_elem_of_In, (find_none _ _ Hf) in Hin. by apply bool_decide_eq_false in Hin.
Qed.

Lemma step_admissible :
  ∃ req, request_of lb nodeList pools options a = Some req ∧ admissible lbID req s1.
Proof.
  assert (a ∈ coalesce body) as Hin by (rewrite Hsplit; apply elem_of_app; right; left).
  pose proof (body_no_create service nodeList listeners views a Hin) as Hno.
  apply body_in_plan, elem_of_spec_plan in Hin as [Hin|(v & Hv & Hst & Ha)].
  2: { rewrite Ha. eexists. split; [done|]. split_and!; [done..|by apply view_name_Ok|].
       apply live_has_pool; [done|apply Hst]. }
  apply elem_of_spec_updates in Hin
    as [(l&Hl&Hd&Ha)|[(v&Hv&Hd&Ha)|[(v&Hv&Hst&[(m&Hm&_&Ha)|(n&Hn&_&Ha)])|[(v&Hv&Hlive&Hb)|(q&?&Hb)]]]].
  - rewrite Ha. eexists. split; [done|]. by eapply admit_delete_listener.
  - rewrite Ha. eexists. split; [done|]. by eapply admit_delete_pool.
  - rewrite Ha. eexists. split; [done|]. by eapply admit_delete_member.
  - rewrite Ha. eexists. split; [done|]. split_and!; [done| |by apply view_name_Ok|].
    + by apply (proj1 (Forall_forall _ _) Hnodes).
    + apply live_has_pool; [done|apply Hst].
  - apply elem_of_update_pool in Hb as (p & Hp & [[Ha _]|[Ha _]]);
      apply find_some in Hp as [Hp%list_elem_of_In Hm]; rewrite Ha.
    + eexists. cbn [request_of]. rewrite view_of_pool by done. split; [done|].
      split_and!; [done|by apply port_name_Ok|by apply live_has_pool|].
      intros y Hy Hn. eapply (prefix_port_name l1 step_sub s1 Hacts) in Hn as (u & Hu & Hmu & ->);
        [|done..]. by rewrite (Hone u v p).
    + eexists. split; [done|]. split_and!; [done..|by apply port_name_Ok|by apply live_has_pool].
  - apply elem_of_create in Hb as [[-> _]|[-> _]]; done.
Qed.
End step.

(** *** The requests that create *)

Lemma creates_NoDup : NoDup creates.
Proof.
  unfold spec_creates. apply NoDup_bind.
  - intros p q b Hp Hq Hb1 Hb2. apply (gen_name_inj service Hports Hunique); [done..|].
    apply elem_of_create in Hb1. apply elem_of_create in Hb2.
    destruct Hb1 as [[-> _]|[-> _]], Hb2 as [[[=] _]|[[=] _]]; done.
  - intros p _. unfold create_pool, create_listener.
    repeat case_decide; repeat constructor; rewrite ?list_elem_of_singleton;
      by try apply not_elem_of_nil.
  - by eapply NoDup_fmap_1.
Qed.

(** After the body, the pool of a port has the name of the port. *)
Lemma port_pool_named v p sb :
  acts (coalesce body) s sb → v ∈ views → p ∈ ports → isServicePortEqualPoolName p v.2 = true →
  ∃ y, y ∈ ls_pools sb ∧ pool_Name y = genLoadBalancerPoolName p.
Proof.
  intros Hacts Hv Hp Hm. assert (live service v) as Hlive by by exists p.
  destruct (prefix_live_pool (coalesce body) (λ _ Ha, Ha) sb Hacts v Hv Hlive) as (y & Hy & Hvy & _).
  exists y. split; [done|]. apply pool_acts_filter in Hvy.
  by eapply pool_converges in Hvy as [[? _] _].
Qed.

Section create.
Context (k1 : list Action) (a : Action) (k2 : list Action) (s1 : LbState) (lb : VpcLoadBalancer)
  (Hsplit : creates = k1 ++ a :: k2) (Hacts : acts (coalesce body ++ k1) s s1)
  (Hwf : lb_wf s1) (Hlb : lb_ID lb = lbID) (Hshows : shows lb s1).

Lemma create_once : a ∉ k1.
Proof.
  pose proof creates_NoDup as Hd. rewrite Hsplit in Hd.
  apply NoDup_app in Hd as (_ & Hd & _). intros Hin. by eapply Hd, list_elem_of_here.
Qed.
Lemma create_sub b : b ∈ k1 → b ∈ creates.
Proof. intros Hb. rewrite Hsplit. apply elem_of_app. by left. Qed.

Lemma admit_create_pool p :
  a = CreatePool (genLoadBalancerPoolName p) → p ∈ ports →
  (∀ v, v ∈ views → isServicePortEqualPoolName p v.2 = false) →
  admissible lbID (RCreatePool (lb_ID lb) (genLoadBalancerPoolName p) nodeList options) s1.
Proof.
  intros Ha Hp Hno. split_and!; [done..|by apply port_name_Ok|]. intros y Hy Hn.
  apply acts_app in Hacts as (sb & Hbody & Hk).
  apply acts_create in Hk as (_ & _ & Hfrom); [|by intros b ?%create_sub; eapply spec_creates_create].
  destruct (Hfrom y Hy) as [Hyb|(n & Hn1 & (f & _ & Hname & _))].
  - eapply (prefix_port_name (coalesce body) (λ _ H, H) sb Hbody) in Hn as (v & Hv & Hm & _);
      [|done..]. by rewrite Hno in Hm.
  - cbn in Hname. apply create_once. rewrite Ha, <- Hn, Hname. done.
Qed.

(** The pool of a new listener is there. *)
Lemma listener_pool p :
  a = CreateListener (genLoadBalancerPoolName p) → p ∈ ports →
  ∃ y, y ∈ ls_pools s1 ∧ pool_Name y = genLoadBalancerPoolName p.
Proof.
  intros Ha Hp. apply acts_app in Hacts as (sb & Hbody & Hk).
  apply acts_create in Hk as (Hkeep & Hnew & _); [|by intros b ?%create_sub; eapply spec_creates_create].
  destruct (decide (Exists (λ v : View, isServicePortEqualPoolName p v.2 = true) views))
    as [(v & Hv & Hm)%Exists_exists|Hno].
  - destruct (port_pool_named v p sb Hbody Hv Hp Hm) as (y & Hy & Hn). exists y. auto.
  - assert (CreatePool (genLoadBalancerPoolName p) ∈ creates) as Hc.
    { apply create_pool_in; [done|]. intros v Hv.
      destruct (isServicePortEqualPoolName p v.2) eqn:Hm; [|done].
      exfalso. apply Hno, Exists_exists. by exists v. }
    destruct (Hnew (genLoadBalancerPoolName p)) as (y & Hy & (f & _ & Hn & _)); [|by exists y].
    rewrite Hsplit in Hc.
    apply elem_of_app in Hc as [?|[Heq|Hin]%elem_of_cons]; [done|by rewrite Ha in Heq|].
    pose proof (spec_plan_sorted service nodeList listeners views Hports Hunique) as Hsort.
    rewrite spec_plan_split, Hsplit, (assoc_L (++)) in Hsort.
    eapply sorted_after in Hsort as [_ Hb]; [|exact Hin]. by destruct (Hb _ Ha).
Qed.

Lemma admit_create_listener p :
  a = CreateListener (genLoadBalancerPoolName p) → p ∈ ports →
  (∀ l, l ∈ listeners → isServicePortEqualListener p l = false) →
  ∃ req, request_of lb nodeList pools options a = Some req ∧ admissible lbID req s1.
Proof.
  intros Ha Hp Hno. destruct (listener_pool p Ha Hp) as (y & Hy & Hn). rewrite Ha. cbn [request_of].
  assert ((pool_ID y, pool_Name y) ∈ (λ r, (ref_ID r, ref_Name r)) <$> lb_Pools lb) as Href.
  { rewrite Hshows. by apply (list_elem_of_fmap_2 (λ pool, (pool_ID pool, pool_Name pool))). }
  apply list_elem_of_fmap in Href as (r0 & [= _ Hr0] & Hr0in).
  destruct (List.find _ (lb_Pools lb)) as [r|] eqn:Hf.
  2: { apply list_elem_of_In, (find_none _ _ Hf), bool_decide_eq_false in Hr0in. congruence. }
  apply find_some in Hf as [Hr%list_elem_of_In Hrn%bool_decide_eq_true].
  assert (has_pool (ref_ID r) s1 ∧ ref_ID r ≠ "") as [Hpool Hid].
  { assert ((ref_ID r, ref_Name r) ∈ (λ pool, (pool_ID pool, pool_Name pool)) <$> ls_pools s1) as Hz.
    { rewrite <- Hshows. by apply (list_elem_of_fmap_2 (λ r, (ref_ID r, ref_Name r))). }
    apply list_elem_of_fmap in Hz as (z & [= Hz _] & Hzin). split; [by exists z|].
    rewrite Hz. by destruct (proj1 (Forall_forall _ _) (lw_pools _ Hwf) z Hzin) as [[? _] _]. }
  rewrite decide_False by done. eexists. split; [done|]. split_and!; [done..|].
  exists (port_fields p). split; [by apply (port_name_fields service Hports)|]. intros l Hl Hport.
  eapply acts_listeners_from in Hl as [[Hl Hkept]|(n & Hn1 & (f & Hf & Hfp & _))]; [| |exact Hacts].
  - rewrite Hs_listeners in Hl. destruct (decide (listener_live service l)) as [(q & Hq & Hm)|Hdead].
    + assert (q = p) as ->.
      { apply (unique_port service); [done..|]. apply andb_true_iff in Hm as [Hm _].
        apply bool_decide_eq_true in Hm. cbn in Hport. congruence. }
      by rewrite Hno in Hm.
    + apply (Hkept (listener_label l)), (dead_deleted _ a k2); [|subst a; cbn; lia|done..].
      by rewrite spec_plan_split, Hsplit, (assoc_L (++)).
  - apply elem_of_app in Hn1 as [Hn1|Hn1]; [by apply body_no_create in Hn1|].
    pose proof Hn1 as Hn2. eapply create_sub, created_name in Hn2 as (q & Hq & [[=]|[= ->]]).
    rewrite (port_name_fields service Hports) in Hf by done. injection Hf as <-.
    assert (q = p) as ->.
    { apply (unique_port service); [done..|]. cbn in *. congruence. }
    apply create_once. by rewrite Ha.
Qed.

Lemma create_admissible :
  ∃ req, request_of lb nodeList pools options a = Some req ∧ admissible lbID req s1.
Proof.
  assert (a ∈ creates) as Hin by (rewrite Hsplit; apply elem_of_app; right; left).
  apply list_elem_of_bind in Hin as (p & Hin & Hp).
  apply elem_of_create in Hin as [[Ha Hno]|[Ha Hno]]; [|by apply (admit_create_listener p)].
  rewrite Ha. eexists. split; [done|]. by apply admit_create_pool.
Qed.
End create.

(** Whatever is next in the plan, the service admits it. *)
Lemma plan_admissible l1 a l2 s1 lb :
  plan = l1 ++ a :: l2 → acts l1 s s1 → lb_wf s1 → lb_ID lb = lbID → shows lb s1 →
  ∃ req, request_of lb nodeList pools options a = Some req ∧ admissible lbID req s1.
Proof.
  intros Hplan Hacts Hwf Hlb Hshows. rewrite spec_plan_split in Hplan.
  apply app_eq_inv in Hplan as [(k & Hk1 & Hk2)|(k & Hk1 & Hk2)].
  - destruct k as [|b k].
    + rewrite app_nil_r in Hk1. subst l1. 
      apply (create_admissible [] a l2); [done|by rewrite app_nil_r|done..].
    + injection Hk2 as <- ->. by eapply step_admissible.
  - subst l1. by eapply create_admissible.
Qed.

(** *** In between *)

(** Where the pool [y] of a state in between comes from: it serves what a pool
    serves that was there before, or it was created for a port without one. *)
Definition comes_from (l : list Action) (y : VpcLoadBalancerPool) (f : VpcPoolNameFields) : Prop :=
  (∃ v, v ∈ views ∧ pool_ID y = pool_ID v.1 ∧ (∀ n, DeletePool n (pool_ID v.1) ∉ l) ∧
     ∀ p, p ∈ ports → isServicePortEqualPoolName p f = isServicePortEqualPoolName p v.2) ∨
  (∃ p, p ∈ ports ∧ pool_Name y = genLoadBalancerPoolName p ∧ f = port_fields p ∧
     CreatePool (genLoadBalancerPoolName p) ∈ l ∧
     ∀ v, v ∈ views → isServicePortEqualPoolName p v.2 = false).

(** The fields of a pool that kept or got its name. *)
Lemma renamed_fields l v y :
  (∀ a, a ∈ l → a ∈ coalesce body) → v ∈ views → pool_acts nodeList pools options l v.1 y →
  ∃ f, extractFieldsFromPoolName (pool_Name y) = Ok f ∧
    ∀ p, p ∈ ports → isServicePortEqualPoolName p f = isServicePortEqualPoolName p v.2.
Proof.
  intros Hl Hv Hvy. apply pool_acts_name in Hvy as [Hname|Hupd].
  { rewrite Hname. exists v.2. split; [|done]. by apply (proj1 (Forall_forall _ _) Hparsed). }
  apply Hl, body_in_plan, elem_of_spec_plan in Hupd as [Hupd|(u & _ & _ & [=])].
  apply elem_of_spec_updates in Hupd
    as [(?&?&?&[=])|[(?&?&?&[=])|[(u&?&?&[(?&?&?&[=])|(?&?&?&[=])])|[(u&Hu&Hlive&Hb)|(q&?&Hb)]]]].
  2: by apply elem_of_create in Hb as [[[=] _]|[[=] _]].
  apply elem_of_update_pool in Hb as (q & Hq & [[[= Hname Hi] _]|[[=] _]]).
  apply find_some in Hq as [Hq%list_elem_of_In Hm]. eapply same_pool in Hi; [|done..]. subst u.
  rewrite Hname. exists (port_fields q). split; [by apply (port_name_fields service Hports)|].
  intros p Hp. pose proof (isServicePortEqualPoolName_self q (port_tcp service Hports q Hq)) as Hself.
  destruct (decide (p = q)) as [->|Hpq]; [by rewrite Hself, Hm|].
  destruct (isServicePortEqualPoolName p v.2) eqn:Hpv.
  - destruct Hpq. by eapply match_unique.
  - apply not_true_iff_false. intros Hpf. apply Hpq, (unique_port service); [done..|].
    apply andb_true_iff in Hpf as [Hpf _]. apply bool_decide_eq_true in Hpf. by rewrite <- Hpf.
Qed.

(** An initial part of the plan is one of the body and one of the creations. *)
Lemma plan_prefix l1 l2 :
  plan = l1 ++ l2 →
  ∃ b k, l1 = b ++ k ∧ (∀ a, a ∈ b → a ∈ coalesce body) ∧ (∀ a, a ∈ k → a ∈ creates) ∧
         (k ≠ [] → b = coalesce body).
Proof.
  rewrite spec_plan_split. intros Hplan. apply app_eq_inv in Hplan as [(k & Hk1 & Hk2)|(k & Hk1 & Hk2)].
  - exists l1, []. rewrite app_nil_r. split_and!; [done| |by intros a ?%not_elem_of_nil|done].
    intros a Ha. rewrite Hk1. apply elem_of_app. by left.
  - exists (coalesce body), k. split_and!; [done|done| |done].
    intros a Ha. rewrite Hk2. apply elem_of_app. by left.
Qed.

Section between.
Context (l1 l2 : list Action) (s1 : LbState) (Hplan : plan = l1 ++ l2) (Hacts : acts l1 s s1).

Lemma between_from y :
  y ∈ ls_pools s1 →
  ∃ f, extractFieldsFromPoolName (pool_Name y) = Ok f ∧ comes_from l1 y f.
Proof.
  intros Hy. destruct (plan_prefix l1 l2 Hplan) as (b & k & Hbk & Hb & Hk & _).
  pose proof Hacts as Hrun. rewrite Hbk in Hrun. apply acts_app in Hrun as (sb & Hbody & Hcreate).
  apply acts_create in Hcreate as (_ & _ & Hfrom);
    [|intros a Ha; eapply spec_creates_create; by apply Hk].
  destruct (Hfrom y Hy) as [Hyb|(n & Hn & (f & Hf & Hname & _))].
  - eapply acts_pools_from in Hyb as (x & Hx & Hno & Hxy); [|exact Hbody|by eapply prefix_no_create].
    rewrite Hs_pools in Hx. apply list_elem_of_fmap in Hx as (v & -> & Hv).
    destruct (renamed_fields b v y Hb Hv Hxy) as (f & Hf & Hsame). exists f. split; [done|]. left.
    exists v. split_and!; [done|by eapply pool_acts_ID| |done].
    intros n. rewrite Hbk. intros [?|Hin%Hk]%elem_of_app; [by eapply Hno|].
    by apply spec_creates_create in Hin.
  - pose proof (Hk _ Hn) as Hc. apply list_elem_of_bind in Hc as (p & Hc & Hp).
    apply elem_of_create in Hc as [[[= ->] Hfree]|[[=] _]]. cbn in Hname.
    rewrite Hname. exists (port_fields p). split; [by apply (port_name_fields service Hports)|].
    right. exists p. split_and!; [done..| |done]. rewrite Hbk. apply elem_of_app. by right.
Qed.

(** A port that had a pool has one. *)
Lemma between_port_pool v p :
  v ∈ views → p ∈ ports → isServicePortEqualPoolName p v.2 = true →
  ∃ y f, y ∈ ls_pools s1 ∧ extractFieldsFromPoolName (pool_Name y) = Ok f ∧
         isServicePortEqualPoolName p f = true.
Proof.
  intros Hv Hp Hm. destruct (plan_prefix l1 l2 Hplan) as (b & k & Hbk & Hb & Hk & _).
  pose proof Hacts as Hrun. rewrite Hbk in Hrun. apply acts_app in Hrun as (sb & Hbody & Hcreate).
  apply acts_create in Hcreate as (Hkeep & _ & _);
    [|intros a Ha; eapply spec_creates_create; by apply Hk].
  destruct (prefix_live_pool b Hb sb Hbody v Hv) as (y & Hy & Hvy & _); [by exists p|].
  destruct (renamed_fields b v y Hb Hv Hvy) as (f & Hf & Hsame). exists y, f.
  split_and!; [by apply Hkeep|done|by rewrite Hsame].
Qed.

Lemma between_dangling l y f :
  l ∈ ls_listeners s1 → listener_live service l → comes_from l1 y f →
  (∀ p, p ∈ ports → isServicePortEqualPoolName p f = false) →
  ref_ID (lst_DefaultPool l) ≠ pool_ID y.
Proof.
  intros Hl Hlive [(v & Hv & Hid & Hkept & Hsame)|(p & Hp & _ & -> & _)] Hdead.
  2: { specialize (Hdead p Hp).
       by rewrite (isServicePortEqualPoolName_self p (port_tcp service Hports p Hp)) in Hdead. }
  assert (¬ live service v) as Hdeadv.
  { intros (p & Hp & Hm). rewrite <- Hsame in Hm by done. by rewrite Hdead in Hm. }
  rewrite Hid. eapply acts_listeners_from in Hl as [[Hl _]|(n & Hn & _)]; [| |exact Hacts].
  { rewrite Hs_listeners in Hl. by apply Hdefault. }
  exfalso. destruct (plan_prefix l1 l2 Hplan) as (b & k & Hbk & Hb & Hk & Hall).
  rewrite Hbk in Hn. apply elem_of_app in Hn as [Hn|Hn]; [by apply (prefix_no_create b Hb) in Hn|].
  eapply (Hkept (pool_Name v.1)). rewrite Hbk, (Hall ltac:(by intros ->; apply not_elem_of_nil in Hn)).
  apply elem_of_app. left. apply (elem_of_coalesce_other _ (DeletePool (pool_Name v.1) (pool_ID v.1))); [done|].
  unfold spec_body. rewrite !elem_of_app. right. left.
  apply list_elem_of_fmap. exists v. split; [done|]. by apply list_elem_of_filter.
Qed.

Lemma between_one y z f g p :
  lb_wf s1 → y ∈ ls_pools s1 → z ∈ ls_pools s1 → comes_from l1 y f → comes_from l1 z g →
  p ∈ ports → isServicePortEqualPoolName p f = true → isServicePortEqualPoolName p g = true → y = z.
Proof.
  intros Hwf Hy Hz Hfy Hfz Hp Hmf Hmg.
  assert (∀ q, q ∈ ports → isServicePortEqualPoolName p (port_fields q) = true → p = q) as Hport.
  { intros q Hq Hm. apply (unique_port service); [done..|]. apply andb_true_iff in Hm as [Hm _].
    apply bool_decide_eq_true in Hm. by rewrite <- Hm. }
  destruct Hfy as [(u & Hu & Hidu & _ & Hsu)|(q & Hq & Hnq & -> & _ & Hfreeq)],
    Hfz as [(v & Hv & Hidv & _ & Hsv)|(r & Hr & Hnr & -> & _ & Hfreer)].
  - rewrite Hsu in Hmf by done. rewrite Hsv in Hmg by done.
    rewrite (Hone u v p Hu Hv Hp Hmf Hmg) in Hidu.
    apply (NoDup_key pool_ID (ls_pools s1)); [apply Hwf|done|done|congruence].
  - apply Hport in Hmg as <-; [|done]. rewrite Hsu in Hmf by done. by rewrite Hfreer in Hmf.
  - apply Hport in Hmf as <-; [|done]. rewrite Hsv in Hmg by done. by rewrite Hfreeq in Hmg.
  - apply Hport in Hmf as <-; [|done]. apply Hport in Hmg as <-; [|done].
    apply (NoDup_key pool_Name (ls_pools s1)); [apply Hwf|done|done|congruence].
Qed.
End between.
End plan.

(** ** UpdateLoadBalancer *)

(** Pools with well-formed names of which at most one serves each port, and
    listeners that do not use a pool that has to go. *)
Definition servable (service : Service) (s : LbState) : Prop :=
  ∃ views, parse_pools (ls_pools s) = Ok views ∧
    NoDup ((λ v : View, pn_Port v.2) <$> filter (live service) views) ∧
    Forall (λ l, Forall (λ v : View, ref_ID (lst_DefaultPool l) ≠ pool_ID v.1)
                        (filter (λ v, ¬ live service v) views))
           (filter (listener_live service) (ls_listeners s)).

Lemma servable_views service s views :
  Forall tcp_port (spec_Ports (svc_Spec service)) → unique_ports service →
  NoDup (pool_ID <$> ls_pools s) → parse_pools (ls_pools s) = Ok views →
  servable service s ↔ one_each service views ∧ none_dangling service (ls_listeners s) views.
Proof.
  intros Hports Hunique Hids Hviews. pose proof (parse_pools_Ok _ _ Hviews) as [Heq Hparsed].
  split.
  - intros (views' & Hviews' & Hone & Hdefault). rewrite Hviews in Hviews'. injection Hviews' as <-.
    rewrite Forall_forall in Hdefault. split.
    + intros u v p Hu Hv Hp Hmu Hmv.
      apply (NoDup_key _ _ _ _ Hone); [apply list_elem_of_filter; split; [by exists p|done]..|].
      apply (match_port service views Hports Hparsed) in Hmu as [_ ->]; [|done..].
      by apply (match_port service views Hports Hparsed) in Hmv as [_ ->].
    + intros l v Hl Hlive Hv Hdead. specialize (Hdefault l ltac:(by apply list_elem_of_filter)).
      rewrite Forall_forall in Hdefault. by apply Hdefault, list_elem_of_filter.
  - intros [Hone Hdefault]. exists views. split; [done|]. split.
    + apply NoDup_fmap_2_strong.
      2: { rewrite <- Heq in Hids. by apply NoDup_filter, (NoDup_fmap_1 fst), (NoDup_fmap_1 pool_ID). }
      intros u v [(p & Hp & Hmu) Hu]%list_elem_of_filter [(q & Hq & Hmv) Hv]%list_elem_of_filter Hport.
      apply (Hone u v p); [done..|]. apply (match_port service views Hports Hparsed); [done..|].
      apply (match_port service views Hports Hparsed) in Hmu as [_ Hmu]; [|done..].
      apply (match_port service views Hports Hparsed) in Hmv as [Hmv _]; [|done..].
      split; congruence.
    + apply Forall_forall. intros l [Hlive Hl]%list_elem_of_filter. apply Forall_forall.
      intros v [Hdead Hv]%list_elem_of_filter. by apply Hdefault.
Qed.

(** What an update leads to can be updated again. *)
Lemma caught_up_servable service nodeList s s' :
  Forall tcp_port (spec_Ports (svc_Spec service)) → unique_ports service → lb_wf s' →
  caught_up service nodeList s s' → servable service s'.
Proof.
  intros Hports Hunique Hwf (views & Hviews & _ & Hv & _).
  pose proof (parse_pools_Ok _ _ Hviews) as [Heq Hparsed].
  assert (∀ v, v ∈ views → ∃ p, p ∈ spec_Ports (svc_Spec service) ∧
    pool_Name v.1 = genLoadBalancerPoolName p ∧ isServicePortEqualPoolName p v.2 = true) as Hname.
  { intros v Hin. destruct (Hv v Hin) as (p & Hp & Hs). exists p.
    assert (pool_Name v.1 = genLoadBalancerPoolName p) as Hn
      by by destruct Hs as [[[? _] _]|(_ & _ & ? & _)].
    split_and!; [done..|].
    rewrite (good_name_fields service views Hports Hparsed p v Hp Hin Hn).
    by apply isServicePortEqualPoolName_self, (proj1 (Forall_forall _ _) Hports). }
  apply (servable_views service s' views Hports Hunique (lw_pool_ids _ Hwf) Hviews). split.
  - intros u v p Hu Hin Hp Hmu Hmv.
    destruct (Hname u Hu) as (q & Hq & Hnu & Hqu), (Hname v Hin) as (r & Hr & Hnv & Hrv).
    assert (q = p) as -> by by eapply (match_unique service views Hports Hunique Hparsed _ _ u).
    assert (r = p) as -> by by eapply (match_unique service views Hports Hunique Hparsed _ _ v).
    assert (NoDup ((λ v : View, pool_Name v.1) <$> views)) as Hnd.
    { pose proof (lw_pool_names _ Hwf) as Hnd. by rewrite <- Heq, <- list_fmap_compose in Hnd. }
    apply (NoDup_key (λ v : View, pool_Name v.1) views); [done..|congruence].
  - intros l v _ _ Hin Hdead. destruct Hdead. destruct (Hname v Hin) as (p & Hp & _ & Hm). by exists p.
Qed.

(** A load balancer that is ready and shows its pools, a service whose type and
    subnets are those of the load balancer, and nodes. *)
Record fit (service : Service) (nodes : list Node) (lb : VpcLoadBalancer) (s : LbState)
    : Prop := {
  up_ready : IsReady lb = true;
  up_shows : shows lb s;
  up_protocols : Forall (λ p, sp_Protocol p = ProtocolTCP) (spec_Ports (svc_Spec service));
  up_public : isPublic (getServiceOptions (Some service)) = lb_IsPublic lb;
  up_subnets : getServiceSubnets service = "";
  up_nodes : selectNodes service (getServiceOptions (Some service)) nodes ≠ [];
}.

(** What the update finds. *)
Definition updatable (service : Service) (nodes : list Node) (lb : VpcLoadBalancer) (s : LbState)
    : Prop := fit service nodes lb s ∧ servable service s.

Section update.
Context {W : Type} `{!Clock W} `{!MapIteration} (c : CloudVpc W) (lb : VpcLoadBalancer)
  (state : W → LbState) `{!SdkEffects (cv_Sdk c) (lb_ID lb) state} `{!SdkIdentity (cv_Sdk c)}
  `{!SdkServes (cv_Sdk c) (lb_ID lb) state} (service : Service) (nodes : list Node).
Let options := getServiceOptions (Some service).
Let nodeList := getNodeIDs (selectNodes service options nodes).
Context (Hvalid : Forall valid_port (spec_Ports (svc_Spec service)))
  (Hunique : unique_ports service) (Htoken : Forall token nodeList).

(** The plan of an updatable load balancer is carried out. *)
Lemma plan_serves e views :
  parse_pools (ls_pools (state (env_world e))) = Ok views →
  updatable service nodes lb (state (env_world e)) →
  ∃ lb' e', processUpdates c true lb
    (render <$> spec_plan service nodeList (ls_listeners (state (env_world e))) views)
    nodeList (mark_pool service <$> views) options e = (Ok lb', e').
Proof.
  intros Hviews [[? Hshows Hprot _ _ _] Hserv].
  set (s := state (env_world e)) in *.
  pose proof (@effect_wf _ _ _ _ _ SdkEffects0 (env_world e)) as Hwf. fold s in Hwf.
  assert (Forall tcp_port (spec_Ports (svc_Spec service))) as Hports.
  { rewrite Forall_forall in Hprot, Hvalid. apply Forall_forall. intros p Hp. split; auto. }
  pose proof (parse_pools_Ok _ _ Hviews) as [Heq Hparsed].
  assert (ls_pools s = views.*1) as Hs by (symmetry; exact Heq).
  destruct Hwf as [Hwl Hwp Hli Hpi Hpn Hmi].
  apply (servable_views service s views Hports Hunique Hpi Hviews) in Hserv as [Hone Hdefault].
  rewrite <- Heq in Hwp, Hpi, Hpn, Hmi. eapply (processUpdates_serves c (lb_ID lb) state nodeList (mark_pool service <$> views) options
    (spec_plan service nodeList (ls_listeners s) views) s) with (l1 := []); try done.
  - apply wf_coalesce. eapply (wf_spec_updates _ _ _ (ls_pools s)); [|exact Hviews].
    split; try done. by rewrite <- Heq.
  - intros l1 a l2 s1 lb1 Hplan Hacts Hwf1 Hid Hsh.
    eapply plan_admissible; try done.
    + rewrite Forall_fmap in Hwp. eapply Forall_impl; [exact Hwp|]. by intros v [[? _] _].
    + by rewrite Forall_fmap in Hmi.
Qed.

(** A request that only reads is answered and changes nothing. *)
Lemma read_serves r e :
  admissible (lb_ID lb) r (state (env_world e)) → concerns (lb_ID lb) r →
  (∀ s s', effect r s s' → s' = s) →
  ∃ a e', sdk (sdk_call (cv_Sdk c) r) e = (Ok a, e') ∧ state (env_world e') = state (env_world e) ∧
          sdk_call (cv_Sdk c) r (env_world e) = (Ok a, env_world e').
Proof.
  intros (a & w & Hr)%(serves_admissible (SdkServes := SdkServes0)) Hc Hread.
  exists a, (set_world w e). unfold sdk. rewrite Hr. split_and!; [done| |done].
  apply Hread, (effect_request (SdkEffects := SdkEffects0) r _ a); done.
Qed.

Lemma update_serves e :
  updatable service nodes lb (state (env_world e)) →
  ∃ lb' e', UpdateLoadBalancer c (Some lb) (Some service) (Some nodes) e = (Ok lb', e').
Proof.
  intros Hup. pose proof Hup as [[Hready _ Hprot Hpublic Hsubnets Hnodes] (views & Hviews & _)].
  assert (validateServiceTypeNotUpdated options lb = Ok tt) as Htype.
  { unfold validateServiceTypeNotUpdated. rewrite bool_decide_eq_false_2; [done|]. by intros []. }
  assert (∀ d subnets, validateServiceSubnetsNotUpdated d service lb subnets = Ok tt) as Hsame.
  { intros d subnets. unfold validateServiceSubnetsNotUpdated. by rewrite Hsubnets. }
  assert (validateService service = Ok options) as Hv
    by by destruct (validateService_cases service) as [[_ ?]|[_ ?]].
  unfold UpdateLoadBalancer. rewrite Hready. cbn [negb].
  rewrite (run_Ok _ _ e options e) by (unfold lift; by rewrite Hv).
  rewrite (run_Ok _ _ e tt e) by (unfold lift; by rewrite Htype).
  destruct (read_serves RListSubnets e) as (subnets & e1 & Hr1 & Hs1 & _);
    [done|done|by intros ??|].
  rewrite (run_Ok _ _ e subnets e1 Hr1).
  set (e2 := {| env_world := env_world e1; env_events := env_events e1;
                env_draws := S (env_draws e1) |}).
  rewrite (run_Ok _ _ e1 (env_draws e1) e2) by done.
  rewrite (run_Ok _ _ e2 tt e2) by (unfold lift; by rewrite Hsame).
  rewrite bool_decide_eq_false_2 by (intros Hl%length_zero_iff_nil; done).
  destruct (read_serves (RListListeners (lb_ID lb)) e2) as (ls & e3 & Hr3 & Hs3 & Hl3);
    [done|done|by intros ??|].
  rewrite (run_Ok _ _ e2 ls e3 Hr3).
  destruct (read_serves (RListPools (lb_ID lb)) e3) as (ps & e4 & Hr4 & Hs4 & Hp4);
    [done|done|by intros ??|].
  rewrite (run_Ok _ _ e3 ps e4 Hr4).
  set (e5 := set_world (@sdk_written _ (cv_Sdk c) (renamedPools (spec_Ports (svc_Spec service)) ps)
                          (env_world e4)) e4).
  rewrite (run_Ok (written _ _) _ e4 tt e5) by done.
  assert (state (env_world e5) = state (env_world e4)) as Hs5
    by apply (effect_written (SdkEffects := SdkEffects0)).
  apply (effect_listeners (SdkEffects := SdkEffects0)) in Hl3.
  apply (effect_pools (SdkEffects := SdkEffects0)) in Hp4.
  change (env_world e2) with (env_world e1) in *.
  assert (state (env_world e4) = state (env_world e)) as Hs by congruence.
  assert (state (env_world e5) = state (env_world e)) as Hs' by congruence.
  rewrite Hl3, Hp4, Hs3, Hs1, <- Hs'.
  rewrite <- Hs' in Hup, Hviews.
  pose proof (@effect_wf _ _ _ _ _ SdkEffects0 (env_world e5)) as Hwf.
  assert (WfInput (ls_listeners (state (env_world e5))) (ls_pools (state (env_world e5)))
    service nodeList) as Hin.
  { split; [apply Hwf|apply Hwf| |done]. rewrite Forall_forall in Hprot, Hvalid.
    apply Forall_forall. intros p Hp. split; auto. }
  rewrite (plan_refines _ _ _ _ views) by done. by apply plan_serves.
Qed.
End update.

(** The update of what an update led to leaves everything in sync. *)
Lemma update_again {W} `{!Clock W} `{!MapIteration} (c : CloudVpc W) lb state service nodes s e :
  SdkEffects (cv_Sdk c) (lb_ID lb) state → SdkIdentity (cv_Sdk c) →
  SdkServes (cv_Sdk c) (lb_ID lb) state →
  let nodeList := getNodeIDs (selectNodes service (getServiceOptions (Some service)) nodes) in
  Forall valid_port (spec_Ports (svc_Spec service)) → unique_ports service →
  Forall token nodeList → caught_up service nodeList s (state (env_world e)) →
  fit service nodes lb (state (env_world e)) →
  ∃ lb' e', UpdateLoadBalancer c (Some lb) (Some service) (Some nodes) e = (Ok lb', e') ∧
            up_to_date service nodeList (state (env_world e')).
Proof.
  intros Heff Hident Hserves nodeList Hvalid Hunique Htoken Hcaught Hfit.
  assert (Forall tcp_port (spec_Ports (svc_Spec service))) as Hports.
  { pose proof (up_protocols _ _ _ _ Hfit) as Hprot. rewrite Forall_forall in Hprot, Hvalid.
    apply Forall_forall. intros p Hp. split; auto. }
  destruct (update_serves c lb state service nodes Hvalid Hunique Htoken e) as (lb' & e' & Hrun).
  { split; [done|]. eapply caught_up_servable; try done. apply (effect_wf (SdkEffects := Heff)). }
  exists lb', e'. split; [done|].
  assert (caught_up service nodeList (state (env_world e)) (state (env_world e'))) as Hagain
    by by eapply (update_converges c lb state service nodes).
  eapply caught_up_synced; [exact Hagain|by eapply caught_up_no_new].
Qed.

(** ** Properties *)

(** C1: an update that is served reaches its goal.  Over an SDK whose requests
    have their effects, with a service that answers every request its rules
    admit - unique pool names and listener ports, nothing missing, no pool
    deleted under a listener - and that is busy after a request for at most
    fourteen waits of eight seconds, UpdateLoadBalancer succeeds on every
    updatable load balancer, and leaves it in sync with the service and the
    selected nodes, except that a pool it created for a port that had none
    lacks the proxy protocol if the service asks for it (the Gen2 SDK does not
    pass it on).  So it is in sync unless the service asks for the proxy
    protocol and had a port without a pool ([no_new_proxy_pool]); and in any
    case the next update, of a load balancer still in that state and fit for
    it, succeeds as well and leaves it in sync. *)
Theorem UpdateLoadBalancer_succeeds {W} `{!Clock W} `{!MapIteration} (c : CloudVpc W) state lb
    service nodes e :
  SdkEffects (cv_Sdk c) (lb_ID lb) state → SdkIdentity (cv_Sdk c) →
  SdkServes (cv_Sdk c) (lb_ID lb) state →
  let nodeList := getNodeIDs (selectNodes service (getServiceOptions (Some service)) nodes) in
  Forall valid_port (spec_Ports (svc_Spec service)) → unique_ports service →
  Forall token nodeList → updatable service nodes lb (state (env_world e)) →
  ∃ lb' e', UpdateLoadBalancer c (Some lb) (Some service) (Some nodes) e = (Ok lb', e') ∧
    let s := state (env_world e) in let s' := state (env_world e') in
    caught_up service nodeList s s' ∧
    (no_new_proxy_pool service (ls_pools s) → up_to_date service nodeList s') ∧
    ∀ lb2 e2, lb_ID lb2 = lb_ID lb → state (env_world e2) = s' → fit service nodes lb2 s' →
      ∃ lb3 e3, UpdateLoadBalancer c (Some lb2) (Some service) (Some nodes) e2 = (Ok lb3, e3) ∧
                up_to_date service nodeList (state (env_world e3)).
Proof.
  intros ? ? ? nodeList Hvalid Hunique Htoken Hup.
  destruct (update_serves c lb state service nodes Hvalid Hunique Htoken e Hup) as (lb' & e' & Hrun).
  exists lb', e'. split; [done|]. cbn zeta.
  assert (caught_up service nodeList (state (env_world e)) (state (env_world e'))) as Hcaught
    by by eapply (update_converges c lb state service nodes).
  split; [done|]. split; [by apply caught_up_synced|]. intros lb2 e2 Hid Hs2 Hfit.
  rewrite <- Hs2 in Hcaught, Hfit.
  eapply update_again; try done; by rewrite Hid.
Qed.

Lemma UpdateLoadBalancer_succeeds_witness :
  let service := example_service "u" [(80, 30500); (81, 30304)]%Z ∅ in
  let nodes := [example_node "n1" "10.0.0.1" "z1"; example_node "n2" "10.0.0.2" "z2"] in
  let lb := mapLoadBalancer (show_lb example_store_state) in
  let c := {| cv_Config := example_config; cv_Sdk := StoreSdk; cv_Recorder := true |} in
  let e := {| env_world := example_store; env_events := []; env_draws := 0 |} in
  ∃ lb' e', UpdateLoadBalancer (H := key_order) c (Some lb) (Some service) (Some nodes) e
            = (Ok lb', e') ∧
    ∃ views, parse_pools (ls_pools (map_state (store_state (env_world e')))) = Ok views ∧
      in_sync service ["10.0.0.1"; "10.0.0.2"]
        (ls_listeners (map_state (store_state (env_world e')))) views.
Proof.
  intros service nodes lb c e. set (s := map_state example_store_state).
  destruct (parse_pools (ls_pools s)) as [views| |] eqn:Hviews.
  2-3: exfalso; vm_compute in Hviews; discriminate Hviews.
  assert (views = default [] (match parse_pools (ls_pools s) with Ok l => Some l | _ => None end))
    as Heq by by rewrite Hviews.
  destruct (UpdateLoadBalancer_succeeds (H := key_order) c _ lb service nodes e
    StoreSdk_effects StoreSdk_identity StoreSdk_serves) as (lb' & e' & Hrun & _ & Hsync & _);
    [by_decision..| |exists lb', e'; split; [exact Hrun|exact (Hsync (or_introl eq_refl))]].
  split.
  { split; [reflexivity|vm_compute; reflexivity|by_decision|reflexivity|reflexivity|discriminate]. }
  exists views. split; [exact Hviews|]. rewrite Heq. split; by_decision.
Defined.
