(* ===== verification/Resume.v ===== *)
(** * Resume: an update that failed can be taken up again

    A request may be refused, or a wait may time out, after an initial part of
    the plan was performed.  The state in between is still one that an update
    can serve, whatever plan the next call makes: so failed calls, with whatever
    nodes, never leave a load balancer that a later call cannot finish. *)
From S2P Require Import Prelude GoStrings Kube VpcTypes VpcConfig VpcUpdates UpdateSpec UpdatePlan.
From S2P Require Import VpcSdk StaticVpc VpcLbaas LbaasProps VpcSdkGen2 Gen2Props LbEffects Gen2Effects Serving.
From S2P Require Import StoreVpc Convergence Progress.

Open Scope go_scope.

(** ** The states in between *)

Lemma partial_servable service nodeList lbID s views l1 l2 s1 :
  Forall tcp_port (spec_Ports (svc_Spec service)) → unique_ports service →
  lb_wf s → lb_wf s1 → parse_pools (ls_pools s) = Ok views → servable service s →
  spec_plan service nodeList (ls_listeners s) views = l1 ++ l2 →
  acts lbID nodeList (mark_pool service <$> views) (getServiceOptions (Some service)) l1 s s1 →
  servable service s1 ∧
  (no_new_proxy_pool service (ls_pools s) → no_new_proxy_pool service (ls_pools s1)).
Proof.
  intros Hports Hunique Hwf Hwf1 Hviews Hserv Hplan Hacts.
  apply (servable_views service s views Hports Hunique (lw_pool_ids _ Hwf) Hviews) in Hserv
    as [Hone Hdefault].
  pose proof (parse_pools_Ok _ _ Hviews) as [Heq Hparsed].
  assert (NoDup (pool_ID <$> views.*1)) as Hids by by rewrite Heq; apply Hwf.
  assert (∀ y, y ∈ ls_pools s1 → ∃ f, extractFieldsFromPoolName (pool_Name y) = Ok f ∧
    comes_from service views l1 y f) as Hfrom.
  { intros y Hy. by eapply between_from. }
  destruct (parse_pools_all (ls_pools s1)) as [views1 Hviews1].
  { intros y (f & Hf & _)%Hfrom. by exists f. }
  pose proof (parse_pools_Ok _ _ Hviews1) as [Heq1 Hparsed1].
  assert (∀ v, v ∈ views1 → v.1 ∈ ls_pools s1 ∧ comes_from service views l1 v.1 v.2) as Hview.
  { intros v Hv. assert (v.1 ∈ ls_pools s1) as Hin by by rewrite <- Heq1; apply list_elem_of_fmap_2.
    split; [done|]. destruct (Hfrom v.1 Hin) as (f & Hf & Hc).
    pose proof (proj1 (Forall_forall _ _) Hparsed1 v Hv) as Hf'. unfold parsed in Hf'.
    rewrite Hf in Hf'. by injection Hf' as ->. }
  split.
  - apply (servable_views service s1 views1 Hports Hunique (lw_pool_ids _ Hwf1) Hviews1). split.
    + intros u v p Hu Hv Hp Hmu Hmv. destruct (Hview u Hu) as [Hu1 Hcu], (Hview v Hv) as [Hv1 Hcv].
      apply (NoDup_key fst views1); [rewrite Heq1; eapply NoDup_fmap_1; apply Hwf1|done|done|].
      by eapply between_one.
    + intros l v Hl Hlive Hv Hdead. destruct (Hview v Hv) as [_ Hc].
      eapply between_dangling; try done. intros p Hp. apply not_true_iff_false. intros Hm.
      apply Hdead. by exists p.
  - intros [?|Hall]; [by left|]. right. intros p Hp.
    destruct (Hall p Hp) as (pool & f & Hpool & Hf & Hm). rewrite <- Heq in Hpool.
    apply list_elem_of_fmap in Hpool as (v & -> & Hv).
    pose proof (proj1 (Forall_forall _ _) Hparsed v Hv) as Hf'. unfold parsed in Hf'.
    rewrite Hf in Hf'. injection Hf' as ->.
    by eapply (between_port_pool service) with (views := views) (v := v).
Qed.

(** ** Calls that fail *)

(** A request that is not answered has changed nothing. *)
Class SdkAtomic {W} (s : CloudVpcSdk W) (lbID : string) (state : W → LbState) : Prop :=
  atomic_request : ∀ r w o w', concerns lbID r → sdk_call s r w = (o, w') → ¬ is_Ok o →
    state w' = state w.

Section reaches.
Context {W : Type} `{!Clock W} (c : CloudVpc W) (lbID : string) (state : W → LbState)
  `{!SdkEffects (cv_Sdk c) lbID state} `{!SdkIdentity (cv_Sdk c)}
  `{!SdkAtomic (cv_Sdk c) lbID state}.

(** However [m] ends, the load balancer is as before. *)
Local Abbreviation stays := (keeps (λ e : Env W, state (env_world e))).

Lemma stays_draw : stays draw.
Proof. by intros e r e' [= _ <-]. Qed.
Lemma stays_now : stays now.
Proof.
  intros e r e'. unfold now. pose proof (effect_now (SdkEffects := SdkEffects0) (env_world e)) as Hn.
  destruct (time_Now _) as [t w]. by intros [= _ <-].
Qed.
Lemma stays_sleep ns : stays (sleep ns).
Proof. intros e r e' [= _ <-]. apply (effect_sleep (SdkEffects := SdkEffects0)). Qed.

Lemma stays_written pools : stays (written (cv_Sdk c) pools).
Proof. intros e r e' [= _ <-]. apply (effect_written (SdkEffects := SdkEffects0)). Qed.

(** Only an answered request changes the load balancer. *)
Lemma request_reaches r e o e' :
  concerns lbID r → sdk (sdk_call (cv_Sdk c) r) e = (o, e') →
  (is_Ok o ∧ effect r (state (env_world e)) (state (env_world e'))) ∨
  state (env_world e') = state (env_world e).
Proof.
  intros Hc. unfold sdk. destruct (sdk_call _ r (env_world e)) as [o' w] eqn:Hr.
  intros [= -> <-]. destruct o as [a|err|why].
  - left. split; [by eexists|]. exact (effect_request (SdkEffects := SdkEffects0) r _ a w Hc Hr).
  - right. apply (SdkAtomic0 r _ _ _ Hc Hr). by intros [? ?].
  - right. apply (SdkAtomic0 r _ _ _ Hc Hr). by intros [? ?].
Qed.
Lemma stays_read r : is_write r = false → stays (sdk (sdk_call (cv_Sdk c) r)).
Proof.
  intros Hr e o e' Hrun. assert (concerns lbID r) as Hc by by destruct r.
  apply (request_reaches r e o e' Hc) in Hrun as [[_ Heff]|?]; [|done]. by destruct r.
Qed.

Lemma stays_refresh lb : stays (refreshLoadBalancer c lb).
Proof.
  unfold refreshLoadBalancer. apply keeps_bind; [by apply (stays_read (RGetLoadBalancer _))|].
  intros lb1. destruct (negb _); [|apply keeps_ret]. unfold WaitLoadBalancerReady.
  apply keeps_bind; [apply stays_now|]. intros start. case_bool_decide; [apply keeps_lift|].
  generalize (lb_ID lb1) as i. intros i. revert lb1. induction (Z.to_nat _) as [|n IH]; intros lb1;
    cbn [wait_loop]; [apply keeps_fail|].
  apply keeps_bind; [apply stays_now|]. intros _. destruct (IsReady lb1); [apply keeps_ret|].
  apply keeps_bind; [apply stays_now|]. intros t. case_match; [apply keeps_fail|].
  apply keeps_bind; [apply stays_sleep|]. intros _.
  apply keeps_bind; [by apply (stays_read (RGetLoadBalancer _))|]. intros lb2. apply IH.
Qed.

Lemma processUpdate_reaches lb a nodeList pools options e r e' :
  wf_action a → lb_ID lb = lbID →
  processUpdate c lb (render a) nodeList pools options e = (r, e') →
  (r = Ok tt ∧ act lbID nodeList pools options a (state (env_world e)) (state (env_world e'))) ∨
  (¬ is_Ok r ∧ state (env_world e') = state (env_world e)).
Proof.
  intros Ha Hid Hrun. destruct r as [[]|err|why].
  { left. split; [done|]. by eapply (processUpdate_moves lbID nodeList pools options c). }
  1-2: right; split; [by intros [? ?]|].
  1-2: destruct (processUpdate_request nodeList pools options c lb a Ha) as [err' Heq];
    rewrite Heq in Hrun; destruct (request_of lb nodeList pools options a) as [req|] eqn:Hreq;
    [|by injection Hrun as _ <-];
    pose proof (request_concerns nodeList pools options lb a req Hreq) as Hc; rewrite Hid in Hc;
    apply bind_cases in Hrun as [(x & e1 & _ & Hrun)|(o & Ho & Hno)]; [done|];
    by apply (request_reaches req _ _ _ Hc) in Ho as [[? _]|?].
Qed.

(** However a run ends, it has performed an initial part of the updates. *)
Lemma processUpdates_reaches nodeList pools options l first lb e r e' :
  Forall wf_action l → lb_ID lb = lbID →
  processUpdates c first lb (render <$> l) nodeList pools options e = (r, e') →
  ∃ l1 l2, l = l1 ++ l2 ∧
    acts lbID nodeList pools options l1 (state (env_world e)) (state (env_world e')).
Proof.
  intros Hwf. revert first lb e. induction Hwf as [|a l Ha Hl IH]; intros first lb e Hid.
  { intros [= _ <-]. by exists [], []. }
  cbn [fmap list_fmap processUpdates].
  assert (∀ e r e1, (if first then mret lb else refreshLoadBalancer c lb) e = (r, e1) →
    state (env_world e1) = state (env_world e)) as Hstays.
  { intros e0 r0 e1. destruct first; [by intros [= _ <-]|apply stays_refresh]. }
  intros [(lb1 & e1 & Hlb & Hrun)|(o & Ho & _)]%bind_cases.
  2: { exists [], (a :: l). split; [done|]. by apply Hstays in Ho. }
  pose proof (Hstays _ _ _ Hlb) as Hs1. rewrite <- Hs1.
  assert (lb_ID lb1 = lbID) as Hid1.
  { destruct first; [by injection Hlb as <- _|].
    by apply (refresh_moves lbID c lb Hid (state := state)) in Hlb as [_ ?]. }
  apply bind_cases in Hrun as [(x & e2 & Hp & Hrun)|(o & Ho & Hno)].
  - apply processUpdate_reaches in Hp as [[_ Hact]|[Hno _]]; [|by destruct Hno; eexists|done..].
    destruct (IH false lb1 e2 Hid1 Hrun) as (l1 & l2 & -> & Hacts). exists (a :: l1), l2.
    split; [done|]. by exists (state (env_world e2)).
  - apply processUpdate_reaches in Ho as [[-> _]|[_ Hs2]]; [by destruct Hno; eexists| |done..].
    by exists [], (a :: l).
Qed.

Lemma UpdateLoadBalancer_reaches `{!MapIteration} lb service nodes e r e' :
  let options := getServiceOptions (Some service) in
  let nodeList := getNodeIDs (selectNodes service options nodes) in
  lb_ID lb = lbID → Forall valid_port (spec_Ports (svc_Spec service)) → Forall token nodeList →
  UpdateLoadBalancer c (Some lb) (Some service) (Some nodes) e = (r, e') →
  let s := state (env_world e) in let s' := state (env_world e') in
  s' = s ∨
  (Forall tcp_port (spec_Ports (svc_Spec service)) ∧ ∃ views l1 l2,
     parse_pools (ls_pools s) = Ok views ∧
     spec_plan service nodeList (ls_listeners s) views = l1 ++ l2 ∧
     acts lbID nodeList (mark_pool service <$> views) options l1 s s').
Proof.
  intros options nodeList Hid Hvalid Htoken Hrun s s'. subst s s'. unfold UpdateLoadBalancer in Hrun.
  destruct (negb _); [by left; injection Hrun as _ <-|].
  apply (bind_keeps (λ e : Env W, state (env_world e))) in Hrun as [?|(opts & e1 & [= Hv <-] & _ & Hrun)]; [by left| |apply keeps_lift].
  destruct (validateService_cases service) as [[Htcp Hok]|[[err Herr] _]]; [|by rewrite Herr in Hv].
  rewrite Hok in Hv. injection Hv as <-. fold options in Hrun.
  apply (bind_keeps (λ e : Env W, state (env_world e))) in Hrun as [?|([] & e2 & [= _ <-] & _ & Hrun)]; [by left| |apply keeps_lift].
  apply (bind_keeps (λ e : Env W, state (env_world e))) in Hrun as [?|(subnets & e3 & _ & Hs3 & Hrun)];
    [by left| |by apply (stays_read RListSubnets)].
  apply (bind_keeps (λ e : Env W, state (env_world e))) in Hrun as [?|(d & e4 & _ & Hs4 & Hrun)]; [left; congruence| |apply stays_draw].
  apply (bind_keeps (λ e : Env W, state (env_world e))) in Hrun as [?|([] & e5 & [= _ <-] & _ & Hrun)]; [left; congruence| |apply keeps_lift].
  destruct (bool_decide _); [left; injection Hrun as _ <-; congruence|].
  apply (bind_keeps (λ e : Env W, state (env_world e))) in Hrun as [?|(ls & e6 & Hls & Hs6 & Hrun)];
    [left; congruence| |by apply (stays_read (RListListeners _))].
  apply (bind_keeps (λ e : Env W, state (env_world e))) in Hrun as [?|(ps & e7 & Hps & Hs7 & Hrun)];
    [left; congruence| |by apply (stays_read (RListPools _))].
  apply (bind_keeps (λ e : Env W, state (env_world e))) in Hrun as [?|([] & e8 & _ & Hs8 & Hrun)];
    [left; congruence| |apply stays_written].
  apply (bind_keeps (λ e : Env W, state (env_world e))) in Hrun as [?|([upd pools'] & e9 & [= Hplan <-] & _ & Hrun)];
    [left; congruence| |apply keeps_lift].
  rewrite Hid in Hls, Hps. unfold sdk in Hls, Hps.
  destruct (sdk_ListLoadBalancerListeners lbID (env_world e4)) as [o6 w6] eqn:Ho6.
  injection Hls as -> _. apply (effect_listeners (SdkEffects := SdkEffects0)) in Ho6.
  destruct (sdk_ListLoadBalancerPools lbID (env_world e6)) as [o7 w7] eqn:Ho7.
  injection Hps as -> _. apply (effect_pools (SdkEffects := SdkEffects0)) in Ho7.
  replace (state (env_world e4)) with (state (env_world e)) in Ho6 by congruence.
  replace (state (env_world e6)) with (state (env_world e)) in Ho7 by congruence. subst ls ps.
  set (s := state (env_world e)) in *.
  pose proof (@effect_wf _ _ _ _ _ SdkEffects0 (env_world e) : lb_wf s) as Hwf.
  assert (Forall tcp_port (spec_Ports (svc_Spec service))) as Hports.
  { apply Forall_forall. intros p Hp. rewrite Forall_forall in Htcp, Hvalid. split; auto. }
  right. split; [done|]. pose proof (parse_pools_no_panic (ls_pools s)) as Hnp.
  destruct (parse_pools (ls_pools s)) as [views|err|why] eqn:Hviews; [| |done].
  2: { unfold planUpdates in Hplan. by rewrite (collect_fails _ _ _ _ err) in Hplan. }
  assert (WfInput (ls_listeners s) (ls_pools s) service nodeList) as Hin
    by (split; [apply Hwf|apply Hwf|done|done]).
  rewrite (plan_refines _ _ _ _ views) in Hplan by done. injection Hplan as <- <-.
  apply (processUpdates_reaches _ _ _ _ _ _ _ _ _ ltac:(by eapply wf_coalesce, wf_spec_updates) Hid)
    in Hrun as (l1 & l2 & Hsplit & Hacts).
  exists views, l1, l2. split_and!; [done..|].
  replace (state (env_world e8)) with s in Hacts by (subst s; congruence). done.
Qed.
End reaches.

(** ** The Gen2 SDK *)

(** A client whose requests change nothing when they are not answered, and
    which answers a change of members with their addresses. *)
Class VpcV1Atomic {W Patch} (client : VpcV1 W Patch) (lbID : string) (state : W → ClientState)
    : Prop := {
  va_create_listener : ∀ proto w o w', cl_CreateLoadBalancerListener lbID proto w = (o, w') →
    ¬ is_Ok o → state w' = state w;
  va_delete_listener : ∀ i w o w', cl_DeleteLoadBalancerListener lbID i w = (o, w') →
    ¬ is_Ok o → state w' = state w;
  va_create_pool : ∀ proto w o w', cl_CreateLoadBalancerPool lbID proto w = (o, w') →
    ¬ is_Ok o → state w' = state w;
  va_delete_pool : ∀ i w o w', cl_DeleteLoadBalancerPool lbID i w = (o, w') →
    ¬ is_Ok o → state w' = state w;
  va_create_member : ∀ i proto w o w', cl_CreateLoadBalancerPoolMember lbID i proto w = (o, w') →
    match o with Ok m => has_address m | _ => state w' = state w end;
  va_delete_member : ∀ i memberID w o w',
    cl_DeleteLoadBalancerPoolMember lbID i memberID w = (o, w') → ¬ is_Ok o → state w' = state w;
  va_replace_members : ∀ i protos w o w',
    cl_ReplaceLoadBalancerPoolMembers lbID i protos w = (o, w') →
    match o with Ok l => Forall has_address l | _ => state w' = state w end;
  va_update_pool : ∀ i p w o w', cl_UpdateLoadBalancerPool lbID i p w = (o, w') →
    ¬ is_Ok o → state w' = state w;
}.

Section gen2.
Context {W Patch : Type} `{!Clock W} {client : VpcV1 W Patch} {lbID : string}
  {state : W → ClientState} `{!VpcV1Effects client lbID state} `{!VpcV1Atomic client lbID state}
  (resourceGroupID : string) (url_start : string → outcome string) (fuel : nat).
Let gen2 := VpcSdkGen2 resourceGroupID url_start fuel.

Lemma keeps_listPages {A B} n (list_page : option string → M W (sdk_Page A)) (f : A → B) start acc :
  (∀ start, keeps state (list_page start)) → keeps state (listPages url_start n list_page f start acc).
Proof.
  intros Hpage. revert start acc. induction n as [|n IH]; intros start acc; [apply keeps_lift|].
  cbn [listPages]. apply keeps_bind; [apply Hpage|]. intros page.
  destruct (pg_Next page) as [[href|]|]; [|apply keeps_ret..].
  apply keeps_bind; [apply keeps_lift|]. intros next. apply IH.
Qed.

Lemma keeps_members i poolID : keeps state (Gen2_ListLoadBalancerPoolMembers i poolID).
Proof.
  apply keeps_bind; [|intros; apply keeps_lift]. intros w o w' Hl. by apply ce_list_members in Hl as [? _].
Qed.

(** Reading changes nothing, answered or not. *)
Lemma gen2_read_keeps r : is_write r = false → keeps state (sdk_call gen2 r).
Proof.
  intros Hr. destruct r; try done; cbn [sdk_call].
  - apply keeps_bind; [|intros; apply keeps_ret]. intros w o w'. apply ce_get.
  - apply keeps_bind; [|intros; apply keeps_ret]. intros w o w'. apply ce_get_subnet.
  - apply keeps_listPages. intros start w o w'. apply ce_list.
  - apply keeps_bind; [|intros; apply keeps_ret]. intros w o w' Hl.
    by apply ce_list_listeners in Hl as [? _].
  - apply keeps_bind.
    { intros w o w' Hl. by apply ce_list_pools in Hl as [? _]. }
    intros l. apply keeps_forM. intros acc item.
    apply keeps_bind; [apply keeps_members|intros; apply keeps_ret].
  - apply keeps_members.
  - apply keeps_listPages. intros start w o w'. apply ce_list_subnets.
Qed.

(** A request made of one call of the client, whose answer is converted. *)
Lemma call_atomic {A B C} (o : outcome A) (m : A → M W B) (k : B → M W C) w r w' :
  (∀ a w r w', m a w = (r, w') → ¬ is_Ok r → state w' = state w) →
  (∀ a w b w', m a w = (Ok b, w') → ∃ c, k b w' = (Ok c, w')) →
  (x ← lift o; y ← m x; k y) w = (r, w') → ¬ is_Ok r → state w' = state w.
Proof.
  intros Hm Hk [(a & w1 & [= -> ->] & Hrun)|(r' & [= _ ->] & _)]%bind_cases Hr; [|done].
  apply bind_cases in Hrun as [(b & w2 & Hb & Hrun)|(r' & Hb & Hno)]; [|by eapply Hm].
  destruct (Hk _ _ _ _ Hb) as [x Hx]. rewrite Hx in Hrun. injection Hrun as <- _.
  destruct Hr. by eexists.
Qed.

Lemma gen2_atomic : SdkAtomic gen2 lbID (λ w, map_state (state w)).
Proof.
  intros r w o w' Hc Hrun Ho. f_equal. destruct (is_write r) eqn:Hwrite.
  2: { by eapply gen2_read_keeps. }
  destruct r; try done; cbn [concerns] in Hc; try subst; cbn [sdk_call] in Hrun.
  - eapply call_atomic; [intros ????|by intros; eexists|exact Hrun|done]. apply va_create_listener.
  - eapply call_atomic; [intros ????|by intros; eexists|exact Hrun|done]. apply va_create_pool.
  - eapply call_atomic; [intros ????|intros ????|exact Hrun|done].
    + intros Hm%va_create_member Hno. destruct r; [|done..]. destruct Hno. by eexists.
    + intros Hm%va_create_member. eexists. unfold lift. by rewrite map_member_Ok.
  - by eapply va_delete_listener.
  - by eapply va_delete_pool.
  - by eapply va_delete_member.
  - eapply call_atomic; [intros ????|intros ????|exact Hrun|done].
    + intros Hm%va_replace_members Hno. destruct r; [|done..]. destruct Hno. by eexists.
    + intros Hm%va_replace_members. eexists. unfold lift. by rewrite mapMembers_Ok.
  - unfold Gen2_UpdateLoadBalancerPool in Hrun.
    apply bind_cases in Hrun as [(f & w1 & [= _ ->] & Hrun)|(r' & [= _ ->] & _)]; [|done].
    eapply call_atomic; [intros ????|by intros; eexists|exact Hrun|done]. apply va_update_pool.
Qed.
End gen2.

(** ** Properties *)

(** A call of UpdateLoadBalancer with any nodes, however it ended. *)
Definition attempted {W} `{!Clock W} `{!MapIteration} (c : CloudVpc W) (lbID : string)
    (service : Service) (e e' : Env W) : Prop :=
  ∃ lb nodes r, lb_ID lb = lbID ∧
    Forall token (getNodeIDs (selectNodes service (getServiceOptions (Some service)) nodes)) ∧
    UpdateLoadBalancer c (Some lb) (Some service) (Some nodes) e = (r, e').

Lemma attempted_servable {W} `{!Clock W} `{!MapIteration} (c : CloudVpc W) lbID state service e e' :
  SdkEffects (cv_Sdk c) lbID state → SdkIdentity (cv_Sdk c) → SdkAtomic (cv_Sdk c) lbID state →
  Forall valid_port (spec_Ports (svc_Spec service)) → unique_ports service →
  attempted c lbID service e e' →
  let s := state (env_world e) in let s' := state (env_world e') in
  servable service s →
  servable service s' ∧
  (no_new_proxy_pool service (ls_pools s) → no_new_proxy_pool service (ls_pools s')).
Proof.
  intros Heff Hident Hatomic Hvalid Hunique (lb & nodes & r & Hid & Htoken & Hrun) s s' Hserv.
  apply (UpdateLoadBalancer_reaches c lbID state) in Hrun
    as [Hs|(Hports & views & l1 & l2 & Hviews & Hplan & Hacts)]; [| |done..].
  { unfold s'. by rewrite Hs. }
  pose proof (@effect_wf _ _ _ _ _ Heff) as Hwf.
  exact (partial_servable _ _ _ _ _ _ _ _ Hports Hunique (Hwf _) (Hwf _) Hviews Hserv Hplan Hacts).
Qed.

(** C3: an update that failed can be taken up again.  Let an SDK refuse or lose
    requests at will, as long as a request that is not answered has changed
    nothing ([SdkAtomic]; a request that is carried out and whose answer is lost
    is not covered).  After any number of calls of UpdateLoadBalancer over it,
    with any nodes and however each of them ended, the state is still servable:
    pool names parse, no two pools serve one port, no listener that stays uses
    a pool that goes.  So the first call over an SDK that serves succeeds, and
    leaves the load balancer in sync with the service and its selected nodes up
    to the proxy protocol of pools this very call created: fully in sync if the
    service does not ask for the proxy protocol, or its ports had pools at the
    start or when this call began ([no_new_proxy_pool]), and in any case after
    the next update. *)
Theorem UpdateLoadBalancer_resumes {W} `{!Clock W} `{!MapIteration} (c c' : CloudVpc W) state lb
    service nodes e e1 :
  SdkEffects (cv_Sdk c) (lb_ID lb) state → SdkIdentity (cv_Sdk c) →
  SdkAtomic (cv_Sdk c) (lb_ID lb) state →
  SdkEffects (cv_Sdk c') (lb_ID lb) state → SdkIdentity (cv_Sdk c') →
  SdkServes (cv_Sdk c') (lb_ID lb) state →
  let nodeList := getNodeIDs (selectNodes service (getServiceOptions (Some service)) nodes) in
  Forall valid_port (spec_Ports (svc_Spec service)) → unique_ports service →
  Forall token nodeList →
  let s := state (env_world e) in let s1 := state (env_world e1) in
  servable service s → rtc (attempted c (lb_ID lb) service) e e1 → fit service nodes lb s1 →
  servable service s1 ∧
  ∃ lb' e', UpdateLoadBalancer c' (Some lb) (Some service) (Some nodes) e1 = (Ok lb', e') ∧
    let s' := state (env_world e') in
    caught_up service nodeList s1 s' ∧
    (no_new_proxy_pool service (ls_pools s) ∨ no_new_proxy_pool service (ls_pools s1) →
     up_to_date service nodeList s') ∧
    ∀ lb2 e2, lb_ID lb2 = lb_ID lb → state (env_world e2) = s' → fit service nodes lb2 s' →
      ∃ lb3 e3, UpdateLoadBalancer c' (Some lb2) (Some service) (Some nodes) e2 = (Ok lb3, e3) ∧
                up_to_date service nodeList (state (env_world e3)).
Proof.
  intros Heff Hident Hatomic Heff' Hident' Hserves nodeList Hvalid Hunique Htoken s s1 Hserv Hruns Hfit.
  assert (servable service s1 ∧
    (no_new_proxy_pool service (ls_pools s) → no_new_proxy_pool service (ls_pools s1)))
    as [Hserv1 Hproxy1].
  { clear Hfit. subst s s1. induction Hruns as [e|e e2 e1 Hrun _ IH]; [done|].
    destruct (attempted_servable c (lb_ID lb) state service e e2) as [Hserv2 ?]; try done.
    destruct (IH Hserv2). auto. }
  split; [done|].
  destruct (update_serves c' lb state service nodes Hvalid Hunique Htoken e1) as (lb' & e' & Hrun);
    [done|]. exists lb', e'. split; [done|]. cbn zeta.
  assert (caught_up service nodeList s1 (state (env_world e'))) as Hcaught
    by by eapply (update_converges c' lb state service nodes).
  split; [done|]. split.
  { intros Hproxy. eapply caught_up_synced; [done|]. destruct Hproxy; auto. }
  intros lb2 e2 Hid Hs2 Hfit2. rewrite <- Hs2 in Hcaught, Hfit2.
  eapply update_again; try done; by rewrite Hid.
Qed.

(** *** A store that creates no listener *)

Lemma commit_fails {A} lbID (f : ClientState → A * ClientState) w o w' :
  commit lbID f w = (o, w') → ¬ is_Ok o → w' = w.
Proof.
  unfold commit. case_decide; [|by intros [= _ <-]]. destruct (f (store_state w)) as [b v].
  destruct (decide (client_wf v)); [|by intros [= _ <-]]. intros [= <- _] []. by eexists.
Qed.

Ltac refused :=
  match goal with H : commit _ _ _ = _ |- _ =>
    rewrite (commit_fails _ _ _ _ _ H ltac:(by intros [? ?]))
  end.

#[export] Instance StoreClient_atomic : VpcV1Atomic StoreClient store_id store_state.
Proof.
  split; cbn [StoreClient cl_CreateLoadBalancerListener cl_DeleteLoadBalancerListener
    cl_CreateLoadBalancerPool cl_DeleteLoadBalancerPool cl_CreateLoadBalancerPoolMember
    cl_DeleteLoadBalancerPoolMember cl_ReplaceLoadBalancerPoolMembers cl_UpdateLoadBalancerPool].
  all: intros;
    try match goal with H : commit _ _ _ = (?o, _), Hn : ¬ is_Ok ?o |- _ =>
      by rewrite (commit_fails _ _ _ _ _ H Hn) end.
  - destruct o as [m|err|why]; [|by refused..].
    unfold commit, change_pool in *. rewrite decide_True in * by done.
    case_match; [|done].
    by simplify_eq.
  - destruct o as [m|err|why]; [|by refused..].
    unfold commit, change_pool in *. rewrite decide_True in * by done.
    case_match; [|done].
    simplify_eq. apply Forall_forall. by intros m' (? & ? & -> & _)%elem_of_lookup_imap.
Qed.

#[export] Instance StoreSdk_atomic : SdkAtomic StoreSdk store_id (λ w, map_state (store_state w)).
Proof. apply gen2_atomic. Qed.

(** The Gen2 SDK over the store, when it refuses every new listener. *)
Definition FlakySdk : CloudVpcSdk StoreVpc := {|
  sdk_CreateLoadBalancer := @sdk_CreateLoadBalancer _ StoreSdk;
  sdk_CreateLoadBalancerListener _ _ _ := fail (ErrorString "internal error");
  sdk_CreateLoadBalancerPool := @sdk_CreateLoadBalancerPool _ StoreSdk;
  sdk_CreateLoadBalancerPoolMember := @sdk_CreateLoadBalancerPoolMember _ StoreSdk;
  sdk_DeleteLoadBalancer := @sdk_DeleteLoadBalancer _ StoreSdk;
  sdk_DeleteLoadBalancerListener := @sdk_DeleteLoadBalancerListener _ StoreSdk;
  sdk_DeleteLoadBalancerPool := @sdk_DeleteLoadBalancerPool _ StoreSdk;
  sdk_DeleteLoadBalancerPoolMember := @sdk_DeleteLoadBalancerPoolMember _ StoreSdk;
  sdk_GetLoadBalancer := @sdk_GetLoadBalancer _ StoreSdk;
  sdk_GetSubnet := @sdk_GetSubnet _ StoreSdk;
  sdk_ListLoadBalancers := @sdk_ListLoadBalancers _ StoreSdk;
  sdk_ListLoadBalancerListeners := @sdk_ListLoadBalancerListeners _ StoreSdk;
  sdk_ListLoadBalancerPools := @sdk_ListLoadBalancerPools _ StoreSdk;
  sdk_ListLoadBalancerPoolMembers := @sdk_ListLoadBalancerPoolMembers _ StoreSdk;
  sdk_ListSubnets := @sdk_ListSubnets _ StoreSdk;
  sdk_ReplaceLoadBalancerPoolMembers := @sdk_ReplaceLoadBalancerPoolMembers _ StoreSdk;
  sdk_UpdateLoadBalancerPool := @sdk_UpdateLoadBalancerPool _ StoreSdk;
  sdk_written _ w := w;
|}.

#[export] Instance FlakySdk_identity : SdkIdentity FlakySdk.
Proof. exact StoreSdk_identity. Qed.
#[export] Instance FlakySdk_effects : SdkEffects FlakySdk store_id (λ w, map_state (store_state w)).
Proof.
  destruct StoreSdk_effects as [Hr Hl Hp Hn Hs Hwr Hw]. split; [|done..].
  intros r w a w' Hc. destruct r; try exact (Hr _ _ _ _ Hc). done.
Qed.
#[export] Instance FlakySdk_atomic : SdkAtomic FlakySdk store_id (λ w, map_state (store_state w)).
Proof.
  intros r w o w' Hc. destruct r; try exact (StoreSdk_atomic _ _ _ _ Hc). by intros [= _ <-].
Qed.

(** The first call deletes a listener and a pool, changes two pools, and is then
    refused the new listener; the second call creates it. *)
Lemma UpdateLoadBalancer_resumes_witness :
  let service := example_service "u" [(80, 30500); (81, 30304)]%Z ∅ in
  let nodes := [example_node "n1" "10.0.0.1" "z1"; example_node "n2" "10.0.0.2" "z2"] in
  let lb := mapLoadBalancer (show_lb example_store_state) in
  let flaky := {| cv_Config := example_config; cv_Sdk := FlakySdk; cv_Recorder := true |} in
  let c := {| cv_Config := example_config; cv_Sdk := StoreSdk; cv_Recorder := true |} in
  let e := {| env_world := example_store; env_events := []; env_draws := 0 |} in
  let run := UpdateLoadBalancer (H := key_order) flaky (Some lb) (Some service) (Some nodes) e in
  let lb1 := mapLoadBalancer (show_lb (store_state (env_world run.2))) in
  run.1 = Err (ErrorString "internal error") ∧
  length (ls_pools (map_state (store_state (env_world run.2)))) = 2 ∧
  ∃ lb' e', UpdateLoadBalancer (H := key_order) c (Some lb1) (Some service) (Some nodes) run.2
            = (Ok lb', e') ∧
    ∃ views, parse_pools (ls_pools (map_state (store_state (env_world e')))) = Ok views ∧
      in_sync service ["10.0.0.1"; "10.0.0.2"]
        (ls_listeners (map_state (store_state (env_world e')))) views.
Proof.
  intros service nodes lb flaky c e run lb1.
  split; [vm_compute; reflexivity|]. split; [vm_compute; reflexivity|].
  set (s := map_state example_store_state).
  destruct (parse_pools (ls_pools s)) as [views| |] eqn:Hviews.
  2-3: exfalso; vm_compute in Hviews; discriminate Hviews.
  assert (views = default [] (match parse_pools (ls_pools s) with Ok l => Some l | _ => None end))
    as Heq by by rewrite Hviews.
  destruct (UpdateLoadBalancer_resumes (H := key_order) flaky c (λ w, map_state (store_state w)) lb1
    service nodes e run.2 FlakySdk_effects FlakySdk_identity FlakySdk_atomic
    StoreSdk_effects StoreSdk_identity StoreSdk_serves) as (_ & lb' & e' & Hrun & _ & Hsync & _);
    [by_decision..| | | |
     exists lb', e'; split; [exact Hrun|exact (Hsync (or_introl (or_introl eq_refl)))]].
  - exists views. split; [exact Hviews|]. rewrite Heq. split; by_decision.
  - apply rtc_once. exists lb, nodes, run.1. split; [reflexivity|]. split; [by_decision|].
    apply surjective_pairing.
  - split; [reflexivity|vm_compute; reflexivity|by_decision|reflexivity|reflexivity|discriminate].
Defined.
