(* ===== verification/Footprint.v ===== *)
(** * Footprint: which requests a program can make

    [uses P m] says that whatever relation between worlds the requests in [P]
    keep - and the clock, and what callers write - the program [m] keeps,
    however it ends.  One lemma per operation of the provider then bounds what
    the operation can do to anything: a load balancer that is not its own, the
    list of load balancers, the number of those with a name. *)
From S2P Require Import Prelude GoStrings Kube VpcTypes VpcConfig VpcUpdates VpcSdk VpcLbaas.
From S2P Require Import VpcProvider LbEffects.

Open Scope go_scope.

(** The relation holds across everything but the requests outside [P]. *)
Record allows {W} `{!Clock W} (s : CloudVpcSdk W) (P : Request → Prop) (R : W → W → Prop)
    : Prop := {
  al_refl : ∀ w, R w w;
  al_trans : ∀ w1 w2 w3, R w1 w2 → R w2 w3 → R w1 w3;
  al_call : ∀ r w o w', P r → sdk_call s r w = (o, w') → R w w';
  al_now : ∀ w, R w (time_Now w).2;
  al_sleep : ∀ ns w, R w (time_Sleep ns w);
  al_written : ∀ pools w, R w (@sdk_written W s pools w);
}.

Definition uses {W A} `{!Clock W} (s : CloudVpcSdk W) (P : Request → Prop) (m : M (Env W) A)
    : Prop :=
  ∀ R, allows s P R → ∀ e o e', m e = (o, e') → R (env_world e) (env_world e').

(** ** Programs *)

Section uses.
Context {W : Type} `{!Clock W} (s : CloudVpcSdk W).
Implicit Types (P : Request → Prop).

Lemma allows_mono P P' (R : W → W → Prop) :
  (∀ r, P r → P' r) → allows s P' R → allows s P R.
Proof. intros HP [? ? Hcall ? ? ?]. split; try done. intros r w o w' Hr. apply Hcall; auto. Qed.
Lemma uses_mono {A} P P' (m : M (Env W) A) : uses s P m → (∀ r, P r → P' r) → uses s P' m.
Proof. intros Hm HP R HR. apply Hm. by eapply allows_mono. Qed.

Lemma uses_same {A} P (m : M (Env W) A) :
  (∀ e, env_world (m e).2 = env_world e) → uses s P m.
Proof.
  intros Hm R HR e o e' He. specialize (Hm e). rewrite He in Hm. cbn in Hm. rewrite Hm.
  apply HR.
Qed.
Lemma uses_ret {A} P (a : A) : uses s P (mret a).
Proof. by apply uses_same. Qed.
Lemma uses_lift {A} P (o : outcome A) : uses s P (lift o).
Proof. by apply uses_same. Qed.
Lemma uses_fail {A} P err : uses s P (fail (A := A) err).
Proof. by apply uses_same. Qed.
Lemma uses_draw P : uses s P draw.
Proof. by apply uses_same. Qed.
Lemma uses_event P ev : uses s P (record_event ev).
Proof. by apply uses_same. Qed.
Lemma uses_now P : uses s P now.
Proof.
  intros R HR e o e'. unfold now. pose proof (al_now _ _ _ HR (env_world e)) as Hn.
  destruct (time_Now _) as [t w]. by intros [= _ <-].
Qed.
Lemma uses_sleep P ns : uses s P (sleep ns).
Proof. intros R HR e o e' [= _ <-]. apply (al_sleep _ _ _ HR). Qed.
Lemma uses_written P pools : uses s P (written s pools).
Proof. intros R HR e o e' [= _ <-]. apply (al_written _ _ _ HR). Qed.
Lemma uses_call P r : P r → uses s P (sdk (sdk_call s r)).
Proof.
  intros Hr R HR e o e'. unfold sdk. destruct (sdk_call s r (env_world e)) as [o' w] eqn:Hc.
  intros [= _ <-]. by eapply (al_call _ _ _ HR).
Qed.

(** The rest of a program may depend on how its first part ended. *)
Lemma uses_bind_run {A B} P (m : M (Env W) A) (f : A → M (Env W) B) :
  uses s P m → (∀ e a e', m e = (Ok a, e') → uses s P (f a)) → uses s P (m ≫= f).
Proof.
  intros Hm Hf R HR e o e' [(a & e1 & Ha & Hr)|(r & Hr & _)]%bind_cases.
  - apply (al_trans _ _ _ HR _ (env_world e1)); [by eapply Hm|]. by eapply (Hf _ _ _ Ha).
  - by eapply Hm.
Qed.
Lemma uses_bind {A B} P (m : M (Env W) A) (f : A → M (Env W) B) :
  uses s P m → (∀ a, uses s P (f a)) → uses s P (m ≫= f).
Proof. intros Hm Hf. by apply uses_bind_run. Qed.
Lemma uses_attempt {A} P (m : M (Env W) A) : uses s P m → uses s P (attempt m).
Proof.
  intros Hm R HR e o e'. unfold attempt. destruct (m e) as [[a|err|why] e1] eqn:He;
    intros [= _ <-]; by eapply Hm.
Qed.
Lemma uses_forM {A B} P (f : A → B → M (Env W) A) acc l :
  (∀ acc x, uses s P (f acc x)) → uses s P (forM f acc l).
Proof.
  intros Hf. revert acc. induction l as [|x l IH]; intros acc; [apply uses_ret|].
  cbn [forM]. by apply uses_bind.
Qed.
End uses.

Create HintDb footprint.
#[export] Hint Resolve uses_ret uses_lift uses_fail uses_draw uses_event uses_now uses_sleep
  uses_written uses_attempt uses_forM : footprint.

(** The request behind a method call. *)
Ltac uses_sdk_call :=
  match goal with
  | |- uses ?s ?P (sdk (sdk_CreateLoadBalancer ?n ?l ?p ?k ?o)) =>
      apply (uses_call s P (RCreateLoadBalancer n l p k o))
  | |- uses ?s ?P (sdk (sdk_CreateLoadBalancerListener ?a ?b ?d)) =>
      apply (uses_call s P (RCreateListener a b d))
  | |- uses ?s ?P (sdk (sdk_CreateLoadBalancerPool ?a ?b ?l ?o)) =>
      apply (uses_call s P (RCreatePool a b l o))
  | |- uses ?s ?P (sdk (sdk_CreateLoadBalancerPoolMember ?a ?b ?d ?n)) =>
      apply (uses_call s P (RCreatePoolMember a b d n))
  | |- uses ?s ?P (sdk (sdk_DeleteLoadBalancer ?a)) =>
      apply (uses_call s P (RDeleteLoadBalancer a))
  | |- uses ?s ?P (sdk (sdk_DeleteLoadBalancerListener ?a ?b)) =>
      apply (uses_call s P (RDeleteListener a b))
  | |- uses ?s ?P (sdk (sdk_DeleteLoadBalancerPool ?a ?b)) =>
      apply (uses_call s P (RDeletePool a b))
  | |- uses ?s ?P (sdk (sdk_DeleteLoadBalancerPoolMember ?a ?b ?d)) =>
      apply (uses_call s P (RDeletePoolMember a b d))
  | |- uses ?s ?P (sdk (sdk_ReplaceLoadBalancerPoolMembers ?a ?b ?d ?l)) =>
      apply (uses_call s P (RReplacePoolMembers a b d l))
  | |- uses ?s ?P (sdk (sdk_UpdateLoadBalancerPool ?a ?b ?p ?o)) =>
      apply (uses_call s P (RUpdatePool a b p o))
  | |- uses ?s ?P (sdk (sdk_GetLoadBalancer ?a)) => apply (uses_call s P (RGetLoadBalancer a))
  | |- uses ?s ?P (sdk sdk_ListLoadBalancers) => apply (uses_call s P RListLoadBalancers)
  | |- uses ?s ?P (sdk (sdk_ListLoadBalancerListeners ?a)) =>
      apply (uses_call s P (RListListeners a))
  | |- uses ?s ?P (sdk (sdk_ListLoadBalancerPools ?a)) => apply (uses_call s P (RListPools a))
  | |- uses ?s ?P (sdk sdk_ListSubnets) => apply (uses_call s P RListSubnets)
  end.

(** Take a program apart, down to its calls; what is left are parts that are
    not known to the hints, and requests that are not plainly in the set. *)
Ltac footprint :=
  cbn zeta;
  first
    [ solve [eauto 2 with footprint]
    | uses_sdk_call; try done
    | apply uses_bind; [footprint|intros ?; footprint]
    | apply uses_attempt; footprint
    | match goal with
      | |- uses _ _ (match ?x with _ => _ end) => destruct x; footprint
      end
    | idtac ].

(** ** The operations *)

Definition no_creation (r : Request) : Prop :=
  match r with RCreateLoadBalancer _ _ _ _ _ => False | _ => True end.

Lemma reads_concern i r : is_write r = false → concerns i r.
Proof. by destruct r. Qed.
Lemma concerns_no_creation i r : concerns i r → no_creation r.
Proof. by destruct r. Qed.

Section operations.
Context {W : Type} `{!Clock W} (c : CloudVpc W).
Let s := cv_Sdk c.
Implicit Types (P : Request → Prop).

Lemma FindLoadBalancer_uses lbName service :
  uses s (λ r, is_write r = false) (FindLoadBalancer c lbName service).
Proof. unfold FindLoadBalancer. footprint. Qed.

Lemma fail_with_event_uses {A} P service reason lbName text :
  uses s P (fail_with_event (A := A) c service reason lbName text).
Proof. unfold fail_with_event, recordServiceWarningEvent. footprint. Qed.
Lemma recordServiceNormalEvent_uses P service lbName text :
  uses s P (recordServiceNormalEvent c service lbName text).
Proof. unfold recordServiceNormalEvent. footprint. Qed.
Lemma recordServiceWarningEvent_uses P service reason lbName text :
  uses s P (recordServiceWarningEvent c service reason lbName text).
Proof. unfold recordServiceWarningEvent. footprint. Qed.

(** A line of an update makes requests about its load balancer only, whatever
    the line is. *)
Lemma processUpdate_uses lb update nodeList pools options :
  uses s (concerns (lb_ID lb)) (processUpdate c lb update nodeList pools options).
Proof.
  unfold processUpdate, createLoadBalancerListener, createLoadBalancerPool,
    createLoadBalancerPoolMember, deleteLoadBalancerListener, deleteLoadBalancerPool,
    deleteLoadBalancerPoolMember, updateLoadBalancerPool, replaceLoadBalancerPoolMembers.
  footprint.
Qed.

Context `{!SdkIdentity (cv_Sdk c)}.

Lemma get_same_ID i e lb e' :
  sdk (@sdk_GetLoadBalancer _ (cv_Sdk c) i) e = (Ok lb, e') → lb_ID lb = i.
Proof.
  unfold sdk. destruct (sdk_GetLoadBalancer i (env_world e)) as [o w] eqn:Hg.
  intros [= -> _]. exact (sdk_identity _ _ _ _ Hg).
Qed.
Lemma wait_loop_same_ID n i start ms mw lb e lb' e' :
  lb_ID lb = i → wait_loop c n i start ms mw lb e = (Ok lb', e') → lb_ID lb' = i.
Proof.
  revert lb e. induction n as [|n IH]; intros lb e Hid; cbn [wait_loop]; [done|].
  intros (t0 & e1 & _ & Hrun)%bind_Ok. destruct (IsReady lb); [by injection Hrun as <- _|].
  apply bind_Ok in Hrun as (t & e2 & _ & Hrun). case_match; [done|].
  apply bind_Ok in Hrun as ([] & e3 & _ & Hrun).
  apply bind_Ok in Hrun as (lb1 & e4 & Hget & Hrun). apply get_same_ID in Hget.
  by eapply IH.
Qed.
Lemma refresh_same_ID lb e lb' e' :
  refreshLoadBalancer c lb e = (Ok lb', e') → lb_ID lb' = lb_ID lb.
Proof.
  intros (lb1 & e1 & Hget%get_same_ID & Hrun)%bind_Ok.
  destruct (negb _); [|by injection Hrun as <- _]. unfold WaitLoadBalancerReady in Hrun.
  apply bind_Ok in Hrun as (start & e2 & _ & Hrun). case_bool_decide; [done|].
  by apply wait_loop_same_ID in Hrun as ->.
Qed.
Lemma wait_loop_uses n i start ms mw lb :
  uses s (λ r, is_write r = false) (wait_loop c n i start ms mw lb).
Proof.
  revert lb. induction n as [|n IH]; intros lb; cbn [wait_loop]; [apply uses_fail|].
  footprint.
Qed.
Lemma refresh_uses lb : uses s (λ r, is_write r = false) (refreshLoadBalancer c lb).
Proof.
  pose proof wait_loop_uses. unfold refreshLoadBalancer, WaitLoadBalancerReady. footprint.
Qed.

Lemma processUpdates_uses first lb updates nodeList pools options :
  uses s (concerns (lb_ID lb)) (processUpdates c first lb updates nodeList pools options).
Proof.
  generalize (eq_refl (lb_ID lb)). generalize (lb_ID lb) at 1 3. intros i Hi.
  revert first lb Hi. induction updates as [|u updates IH]; intros first lb Hi;
    cbn [processUpdates]; [apply uses_ret|].
  apply uses_bind_run.
  { destruct first; [apply uses_ret|]. eapply uses_mono; [apply refresh_uses|apply reads_concern]. }
  intros e lb1 e' Hrun. assert (lb_ID lb1 = i) as Hid.
  { destruct first; [by injection Hrun as <- _|]. apply refresh_same_ID in Hrun. congruence. }
  apply uses_bind; [rewrite <- Hid; apply processUpdate_uses|]. intros _. by apply IH.
Qed.

Lemma UpdateLoadBalancer_uses `{!MapIteration} lb service nodes :
  uses s (concerns (lb_ID lb)) (UpdateLoadBalancer c (Some lb) service nodes).
Proof. unfold UpdateLoadBalancer. footprint. all: apply processUpdates_uses. Qed.

Lemma ensureExisting_uses `{!MapIteration} lbName service nodes lb :
  uses s (concerns (lb_ID lb)) (ensureExisting c lbName service nodes lb).
Proof.
  unfold ensureExisting. footprint; try apply fail_with_event_uses. apply UpdateLoadBalancer_uses.
Qed.

(** *** Nothing but EnsureLoadBalancer creates *)

Lemma EnsureLoadBalancerUpdated_uses `{!MapIteration} lbName service nodes :
  uses s no_creation (EnsureLoadBalancerUpdated c lbName service nodes).
Proof.
  unfold EnsureLoadBalancerUpdated. footprint; try apply fail_with_event_uses.
  - eapply uses_mono; [apply FindLoadBalancer_uses|by intros []].
  - eapply uses_mono; [apply UpdateLoadBalancer_uses|apply concerns_no_creation].
Qed.
Lemma EnsureLoadBalancerDeleted_uses lbName service :
  uses s no_creation (EnsureLoadBalancerDeleted c lbName service).
Proof.
  unfold EnsureLoadBalancerDeleted, DeleteLoadBalancer. footprint; try apply fail_with_event_uses.
  eapply uses_mono; [apply FindLoadBalancer_uses|by intros []].
Qed.
Lemma GetLoadBalancer_uses lbName service :
  uses s no_creation (GetLoadBalancer c lbName service).
Proof.
  unfold GetLoadBalancer. footprint; try apply fail_with_event_uses.
  eapply uses_mono; [apply FindLoadBalancer_uses|by intros []].
Qed.
Lemma MonitorLoadBalancers_uses `{!MapIteration} services status :
  uses s no_creation (MonitorLoadBalancers c services status).
Proof.
  unfold MonitorLoadBalancers. destruct services as [services|]; [|apply uses_ret].
  apply uses_bind.
  - unfold GatherLoadBalancers. footprint. apply uses_forM. intros _ [name lb].
    unfold deleteStale, DeleteLoadBalancer. footprint.
  - intros [[lbMap vpcMap]|err]; [|apply uses_ret]. apply uses_bind; [apply uses_draw|].
    intros d. apply uses_forM. intros status' [name service]. unfold monitorService.
    footprint; try apply recordServiceWarningEvent_uses; try apply recordServiceNormalEvent_uses.
Qed.
End operations.
