(* ===== verification/EnsureProps.v ===== *)
(** * EnsureProps: EnsureLoadBalancer from call to call

    The controller calls EnsureLoadBalancer again and again with the service and
    the nodes it knows.  On a served load balancer that is found, a call
    succeeds and leaves it in sync, up to the proxy protocol of pools it
    created, which the next call sets; once it is in sync, the calls after it
    change nothing. *)
From S2P Require Import Prelude GoStrings Kube VpcTypes VpcConfig VpcUpdates UpdateSpec UpdatePlan.
From S2P Require Import VpcSdk StaticVpc VpcLbaas LbaasProps VpcProvider VpcSdkGen2 Gen2Props.
From S2P Require Import LbEffects Gen2Effects Serving StoreVpc Convergence Progress.

Open Scope go_scope.

(** A successful call of either operation that brings a load balancer up to
    date. *)
Definition ensured {W} `{!Clock W} `{!MapIteration} (c : CloudVpc W) (lbName : string)
    (service : Service) (nodes : list Node) (e e' : Env W) : Prop :=
  (∃ status, EnsureLoadBalancer c lbName service (Some nodes) e = (Ok status, e')) ∨
  EnsureLoadBalancerUpdated c lbName service (Some nodes) e = (Ok tt, e').

Section ensure.
Context {W : Type} `{!Clock W} `{!MapIteration} (c : CloudVpc W) (lb : VpcLoadBalancer)
  (state : W → LbState) `{!SdkEffects (cv_Sdk c) (lb_ID lb) state} `{!SdkIdentity (cv_Sdk c)}
  (lbName : string) (service : Service) (nodes : list Node).
Let options := getServiceOptions (Some service).
Let nodeList := getNodeIDs (selectNodes service options nodes).
Context (Hvalid : Forall valid_port (spec_Ports (svc_Spec service)))
  (Hunique : unique_ports service) (Htoken : Forall token nodeList).
Implicit Types (e : Env W).

(** Finding the load balancer changes nothing. *)
Lemma find_keeps e r e' :
  FindLoadBalancer c lbName (Some service) e = (Ok r, e') →
  state (env_world e') = state (env_world e).
Proof.
  unfold FindLoadBalancer. case_bool_decide; [done|].
  intros (lbs & e1 & Hlist & [= _ <-])%bind_Ok. unfold sdk in Hlist.
  destruct (sdk_ListLoadBalancers _) as [o w] eqn:Ho. injection Hlist as -> <-.
  exact (effect_request (SdkEffects := SdkEffects0) RListLoadBalancers _ _ _ eq_refl Ho).
Qed.

Lemma fail_with_event_fails {A} reason text e (a : A) e' :
  fail_with_event c service reason lbName text e ≠ (Ok a, e').
Proof. by intros (err & e1 & _ & Hf)%bind_Ok. Qed.

Lemma ensured_finds e e' :
  ensured c lbName service nodes e e' →
  ∃ found e1, FindLoadBalancer c lbName (Some service) e = (Ok found, e1).
Proof.
  intros [[status Hrun]|Hrun]; apply bind_Ok in Hrun as ([found|err] & e1 & Hfind & Hrun);
    try (by apply fail_with_event_fails in Hrun); unfold attempt in Hfind;
    destruct (FindLoadBalancer _ _ _ _) as [[x|x|x] e2]; try done; by eexists _, _.
Qed.

(** With a load balancer that is found, both operations are its update. *)
Lemma ensured_update lb1 e e1 e' :
  FindLoadBalancer c lbName (Some service) e = (Ok (Some lb1), e1) →
  ensured c lbName service nodes e e' →
  IsReady lb1 = true ∧
  ∃ lb', UpdateLoadBalancer c (Some lb1) (Some service) (Some nodes) e1 = (Ok lb', e').
Proof.
  intros Hfind Hrun. assert (attempt (FindLoadBalancer c lbName (Some service)) e
    = (Ok (inl (Some lb1)), e1)) as Ha by by unfold attempt; rewrite Hfind.
  destruct Hrun as [[status Hrun]|Hrun].
  all: unfold EnsureLoadBalancer, EnsureLoadBalancerUpdated, ensureExisting in Hrun;
    rewrite (run_Ok _ _ _ _ _ Ha) in Hrun;
    destruct (IsReady lb1); cbn [negb] in Hrun; [|by apply fail_with_event_fails in Hrun];
    split; [done|]; apply bind_Ok in Hrun as ([lb'|err] & e2 & Hu & Hrun);
    [|by apply fail_with_event_fails in Hrun];
    injection Hrun; intros; subst; unfold attempt in Hu;
    destruct (UpdateLoadBalancer _ _ _ _ e1) as [[x|x|x] e3]; try done;
    injection Hu as -> ->; by exists lb'.
Qed.

Lemma update_ensured lb1 lb' e e1 e' :
  FindLoadBalancer c lbName (Some service) e = (Ok (Some lb1), e1) → IsReady lb1 = true →
  UpdateLoadBalancer c (Some lb1) (Some service) (Some nodes) e1 = (Ok lb', e') →
  EnsureLoadBalancer c lbName service (Some nodes) e = (Ok (GetLoadBalancerStatus service lb'), e') ∧
  EnsureLoadBalancerUpdated c lbName service (Some nodes) e = (Ok tt, e').
Proof.
  intros Hfind Hready Hu. assert (attempt (FindLoadBalancer c lbName (Some service)) e
    = (Ok (inl (Some lb1)), e1)) as Ha by by unfold attempt; rewrite Hfind.
  assert (attempt (UpdateLoadBalancer c (Some lb1) (Some service) (Some nodes)) e1
    = (Ok (inl lb'), e')) as Hb by by unfold attempt; rewrite Hu.
  unfold EnsureLoadBalancer, EnsureLoadBalancerUpdated, ensureExisting.
  rewrite !(run_Ok _ _ _ _ _ Ha), Hready. cbn [negb]. by rewrite !(run_Ok _ _ _ _ _ Hb).
Qed.

(** An update of what is in sync changes nothing. *)
Lemma in_sync_kept lb1 e lb' e' views :
  lb_ID lb1 = lb_ID lb → parse_pools (ls_pools (state (env_world e))) = Ok views →
  in_sync service nodeList (ls_listeners (state (env_world e))) views →
  UpdateLoadBalancer c (Some lb1) (Some service) (Some nodes) e = (Ok lb', e') →
  state (env_world e') = state (env_world e).
Proof.
  intros Hid Hviews Hsync Hrun. assert (SdkEffects (cv_Sdk c) (lb_ID lb1) state) by by rewrite Hid.
  eapply (UpdateLoadBalancer_moves c lb1 state service nodes Hvalid Htoken) in Hrun
    as (_ & Hports & views' & Hviews' & Hacts).
  rewrite Hviews in Hviews'. injection Hviews' as <-.
  pose proof (parse_pools_Ok _ _ Hviews) as [_ Hparsed].
  unfold spec_plan in Hacts. rewrite (proj2 (spec_updates_nil service nodeList _ _ Hports Hunique
    Hparsed)) in Hacts by done. done.
Qed.

(** What is in sync stays as it is. *)
Lemma ensured_kept e lb1 e1 e' views :
  lb_ID lb1 = lb_ID lb → FindLoadBalancer c lbName (Some service) e = (Ok (Some lb1), e1) →
  parse_pools (ls_pools (state (env_world e))) = Ok views →
  in_sync service nodeList (ls_listeners (state (env_world e))) views →
  ensured c lbName service nodes e e' → state (env_world e') = state (env_world e).
Proof.
  intros Hid Hfind Hviews Hsync Hens. pose proof (find_keeps _ _ _ Hfind) as Hs1.
  apply (ensured_update _ _ _ _ Hfind) in Hens as [_ (lb' & Hrun)].
  rewrite <- Hs1 in Hviews, Hsync |- *. by eapply in_sync_kept.
Qed.

(** A successful call brings the load balancer up to date, as far as an update
    does. *)
Lemma ensured_caught_up lb1 e e1 e' :
  lb_ID lb1 = lb_ID lb → FindLoadBalancer c lbName (Some service) e = (Ok (Some lb1), e1) →
  ensured c lbName service nodes e e' →
  caught_up service nodeList (state (env_world e)) (state (env_world e')).
Proof.
  intros Hid Hfind Hens. rewrite <- (find_keeps _ _ _ Hfind).
  apply (ensured_update _ _ _ _ Hfind) in Hens as [_ (lb' & Hrun)].
  assert (SdkEffects (cv_Sdk c) (lb_ID lb1) state) by by rewrite Hid.
  by eapply (update_converges c lb1 state service nodes).
Qed.
End ensure.

(** ** Properties *)

(** C2: EnsureLoadBalancer, and EnsureLoadBalancerUpdated, on a load balancer
    that is found, served and updatable: both succeed.  Whenever one of them
    has, the load balancer is in sync with the service and the selected nodes
    up to the proxy protocol of pools the call created: fully in sync unless
    the service asks for the proxy protocol and had a port without a pool
    ([no_new_proxy_pool]; the Gen2 SDK creates pools without it).  Every later
    successful call of either that finds the load balancer as the first call
    left it leaves it in sync, and unchanged if it was. *)
Theorem EnsureLoadBalancer_settles {W} `{!Clock W} `{!MapIteration} (c : CloudVpc W) state lb
    lbName service nodes e e1 :
  SdkEffects (cv_Sdk c) (lb_ID lb) state → SdkIdentity (cv_Sdk c) →
  SdkServes (cv_Sdk c) (lb_ID lb) state →
  let nodeList := getNodeIDs (selectNodes service (getServiceOptions (Some service)) nodes) in
  Forall valid_port (spec_Ports (svc_Spec service)) → unique_ports service → Forall token nodeList →
  FindLoadBalancer c lbName (Some service) e = (Ok (Some lb), e1) →
  let s := state (env_world e) in
  updatable service nodes lb s →
  (∃ status e', EnsureLoadBalancer c lbName service (Some nodes) e = (Ok status, e')) ∧
  (∃ e', EnsureLoadBalancerUpdated c lbName service (Some nodes) e = (Ok tt, e')) ∧
  ∀ e', ensured c lbName service nodes e e' →
    let s' := state (env_world e') in
    caught_up service nodeList s s' ∧
    (no_new_proxy_pool service (ls_pools s) → up_to_date service nodeList s') ∧
    ∀ e2 lb2 e3 e4,
      state (env_world e2) = s' → lb_ID lb2 = lb_ID lb →
      FindLoadBalancer c lbName (Some service) e2 = (Ok (Some lb2), e3) →
      ensured c lbName service nodes e2 e4 →
      up_to_date service nodeList (state (env_world e4)) ∧
      (up_to_date service nodeList s' → state (env_world e4) = s').
Proof.
  intros Heff Hident Hserves nodeList Hvalid Hunique Htoken Hfind s Hup.
  pose proof (find_keeps c lb state lbName service e _ e1 Hfind) as Hs1.
  unfold s in Hup. rewrite <- Hs1 in Hup.
  destruct (update_serves c lb state service nodes Hvalid Hunique Htoken e1 Hup) as (lb1 & e1' & Hu).
  destruct (update_ensured c lbName service nodes lb lb1 e e1 e1' Hfind (up_ready _ _ _ _ (proj1 Hup)) Hu)
    as [H1 H2].
  split; [by eexists _, _|]. split; [by eexists|]. intros e' Hens. cbn zeta.
  pose proof (ensured_caught_up c lb state lbName service nodes Hvalid Hunique Htoken lb _ _ _
    eq_refl Hfind Hens) as Hcaught.
  split; [done|]. split; [by apply caught_up_synced|].
  intros e2 lb2 e3 e4 He2 Hid Hfind2 Hens2. rewrite <- He2 in Hcaught |- *. split.
  - eapply caught_up_synced; [|by eapply caught_up_no_new].
    by eapply (ensured_caught_up c lb state lbName service nodes).
  - intros (views & Hviews & Hsync). by eapply (ensured_kept c lb state lbName service nodes).
Qed.

Lemma EnsureLoadBalancer_settles_witness :
  let service := example_service "u" [(80, 30500); (81, 30304)]%Z ∅ in
  let nodes := [example_node "n1" "10.0.0.1" "z1"; example_node "n2" "10.0.0.2" "z2"] in
  let lb := mapLoadBalancer (show_lb example_store_state) in
  let c := {| cv_Config := example_config; cv_Sdk := StoreSdk; cv_Recorder := true |} in
  let e := {| env_world := example_store; env_events := []; env_draws := 0 |} in
  ∃ status e', EnsureLoadBalancer (H := key_order) c (lb_Name lb) service (Some nodes) e
               = (Ok status, e') ∧
    ∃ views, parse_pools (ls_pools (map_state (store_state (env_world e')))) = Ok views ∧
      in_sync service ["10.0.0.1"; "10.0.0.2"]
        (ls_listeners (map_state (store_state (env_world e')))) views.
Proof.
  intros service nodes lb c e. set (s := map_state example_store_state).
  destruct (parse_pools (ls_pools s)) as [views| |] eqn:Hviews.
  2-3: exfalso; vm_compute in Hviews; discriminate Hviews.
  assert (views = default [] (match parse_pools (ls_pools s) with Ok l => Some l | _ => None end))
    as Heq by by rewrite Hviews.
  destruct (EnsureLoadBalancer_settles (H := key_order) c _ lb (lb_Name lb) service nodes e e
    StoreSdk_effects StoreSdk_identity StoreSdk_serves) as ((status & e' & Hrun) & _ & Hsync).
  1-3: by_decision.
  1: reflexivity.
  - split.
    { split; [reflexivity|vm_compute; reflexivity|by_decision|reflexivity|reflexivity|discriminate]. }
    exists views. split; [exact Hviews|]. rewrite Heq. split; by_decision.
  - exists status, e'. split; [exact Hrun|].
    destruct (Hsync e') as (_ & Hdate & _); [left; by exists status|].
    exact (Hdate (or_introl eq_refl)).
Defined.
