(* ===== verification/CreateOnce.v ===== *)
(** * CreateOnce: a load balancer is created once

    The service controller repeats a call of EnsureLoadBalancer that failed.
    The VPC service may have created the load balancer all the same: the answer
    was lost, or came too late.  Every call looks the name up before it creates,
    so there is never a second load balancer with the name. *)
From S2P Require Import Prelude GoStrings Kube VpcTypes VpcConfig VpcUpdates UpdateSpec UpdatePlan.
From S2P Require Import VpcSdk StaticVpc VpcLbaas LbaasProps VpcProvider LbEffects Footprint.

Open Scope go_scope.

(** [named] counts the load balancers with the name [name].  Only a request to
    create one makes it grow, and by one, whether it is answered or not; a list
    that is answered shows one if there still is one. *)
Definition creates (name : string) (r : Request) : nat :=
  match r with
  | RCreateLoadBalancer n _ _ _ _ => if decide (n = name) then 1 else 0
  | _ => 0
  end.

Class SdkNamed {W} `{!Clock W} (s : CloudVpcSdk W) (name : string) (named : W → nat) : Prop := {
  named_call : ∀ r w o w', sdk_call s r w = (o, w') → named w' ≤ named w + creates name r;
  named_listed : ∀ w l w', @sdk_ListLoadBalancers W s w = (Ok l, w') →
    named w' > 0 → ∃ lb, lb ∈ l ∧ lb_Name lb = name;
  named_now : ∀ w, named (time_Now w).2 ≤ named w;
  named_sleep : ∀ ns w, named (time_Sleep ns w) ≤ named w;
  named_written : ∀ pools w, named (@sdk_written W s pools w) ≤ named w;
}.

(** A call of the service controller or of the monitor. *)
Inductive ControllerOp :=
  | OpEnsure (lbName : string) (service : Service) (nodes : option (list Node))
  | OpEnsureUpdated (lbName : string) (service : Service) (nodes : option (list Node))
  | OpEnsureDeleted (lbName : string) (service : Service)
  | OpGet (lbName : string) (service : Service)
  | OpMonitor (services : option (list Service)) (status : gmap string string).

Section once.
Context {W : Type} `{!Clock W} `{!MapIteration} (c : CloudVpc W).
Implicit Types (e : Env W).

(** What it leaves, however it ends. *)
Definition run_op e (op : ControllerOp) : Env W :=
  match op with
  | OpEnsure lbName service nodes => (EnsureLoadBalancer c lbName service nodes e).2
  | OpEnsureUpdated lbName service nodes => (EnsureLoadBalancerUpdated c lbName service nodes e).2
  | OpEnsureDeleted lbName service => (EnsureLoadBalancerDeleted c lbName service e).2
  | OpGet lbName service => (GetLoadBalancer c lbName service e).2
  | OpMonitor services status => (MonitorLoadBalancers c services status e).2
  end.

(** The program reads, and then ends or makes one request to create. *)
Definition reads_then_creates {A} (lbName : string) (m : M (Env W) A) : Prop := ∀ e o e',
  m e = (o, e') →
  ∃ w1, (∀ R, allows (cv_Sdk c) (λ r, is_write r = false) R → R (env_world e) w1) ∧
    (env_world e' = w1 ∨ ∃ nodeList poolList subnetList options o',
       sdk_call (cv_Sdk c) (RCreateLoadBalancer lbName nodeList poolList subnetList options) w1
       = (o', env_world e')).

Lemma only_reads {A} lbName (m : M (Env W) A) :
  uses (cv_Sdk c) (λ r, is_write r = false) m → reads_then_creates lbName m.
Proof.
  intros Hm e o e' Hrun. exists (env_world e'). split; [|by left]. intros R HR. by eapply Hm.
Qed.
Lemma reads_bind {A B} lbName (m : M (Env W) A) (f : A → M (Env W) B) :
  uses (cv_Sdk c) (λ r, is_write r = false) m → (∀ a, reads_then_creates lbName (f a)) →
  reads_then_creates lbName (m ≫= f).
Proof.
  intros Hm Hf e o e' [(a & e1 & Ha & Hrun)|(o' & Ho & _)]%bind_cases.
  - destruct (Hf a e1 o e' Hrun) as (w1 & Hreads & Hlast). exists w1. split; [|done].
    intros R HR. apply (al_trans _ _ _ HR _ (env_world e1)); [by eapply Hm|by apply Hreads].
  - by apply (only_reads lbName m Hm e o').
Qed.

Lemma CreateLoadBalancer_once lbName service nodes :
  reads_then_creates lbName (CreateLoadBalancer c lbName service nodes).
Proof.
  unfold CreateLoadBalancer.
  destruct service as [service|]; [|apply only_reads, uses_fail].
  destruct nodes as [nodes|]; [|apply only_reads, uses_fail].
  case_bool_decide; [apply only_reads, uses_fail|].
  apply reads_bind; [apply uses_lift|]. intros options.
  apply reads_bind; [by apply (uses_call _ _ RListSubnets)|]. intros subnets. cbn zeta.
  destruct (filterSubnetsByName _ _) as [|first rest]; [apply only_reads, uses_fail|].
  apply reads_bind; [footprint|]. intros subnetList.
  case_bool_decide; [apply only_reads, uses_fail|].
  apply reads_bind; [apply uses_lift|]. intros poolList e o e'. unfold sdk.
  destruct (sdk_CreateLoadBalancer _ _ _ _ _ _) as [o' w'] eqn:Hrun. intros [= _ <-].
  exists (env_world e). split; [intros R HR; apply (al_refl _ _ _ HR)|]. right.
  by exists (getNodeIDs (selectNodes service options nodes)), poolList, subnetList, options, o'.
Qed.

Context `{!SdkIdentity (cv_Sdk c)} (name : string) (named : W → nat)
  `{!SdkNamed (cv_Sdk c) name named}.

Lemma named_allows P :
  (∀ r, P r → creates name r = 0) →
  allows (cv_Sdk c) P (λ w w', named w' ≤ named w).
Proof.
  intros HP. destruct SdkNamed0 as [Hcall _ Hnow Hsleep Hwritten]. split; [done| |..|done|done|done].
  - intros w1 w2 w3 H1 H2. lia.
  - intros r w o w' Hr Hrun. apply Hcall in Hrun. rewrite HP in Hrun by done. lia.
Qed.

Lemma uses_named {A} P (m : M (Env W) A) e :
  uses (cv_Sdk c) P m → (∀ r, P r → creates name r = 0) →
  named (env_world (m e).2) ≤ named (env_world e).
Proof.
  intros Hm HP. destruct (m e) as [o e'] eqn:Hrun. by apply (Hm _ (named_allows P HP) e o).
Qed.

(** A name that is found is not created. *)
Lemma find_named service e found e1 :
  FindLoadBalancer c name service e = (Ok found, e1) → found ≠ None ∨ named (env_world e1) = 0.
Proof.
  unfold FindLoadBalancer. case_bool_decide; [done|].
  intros (lbs & e2 & Hlist & [= <- <-])%bind_Ok. unfold sdk in Hlist.
  destruct (sdk_ListLoadBalancers (env_world e)) as [o w] eqn:Hl. injection Hlist as -> <-.
  destruct (decide (named w = 0)) as [?|Hn]; [by right|]. left.
  destruct (named_listed _ _ _ Hl) as (lb & Hlb & Hname); [cbn; lia|].
  destruct (List.find _ lbs) as [lb'|] eqn:Hf; [done|].
  eapply find_none in Hf; [|by apply list_elem_of_In]. rewrite Hname in Hf.
  rewrite (bool_decide_eq_true_2 (name = name)) in Hf by done.
  by rewrite orb_true_r in Hf.
Qed.

Lemma creates_concern i r : concerns i r → creates name r = 0.
Proof. by destruct r. Qed.
Lemma creates_read r : is_write r = false → creates name r = 0.
Proof. by destruct r. Qed.
Lemma creates_no_creation r : no_creation r → creates name r = 0.
Proof. by destruct r. Qed.

(** After a creation of a name that was not found there is at most one. *)
Lemma create_named lbName service nodes e :
  (lbName = name → named (env_world e) = 0) → named (env_world e) ≤ 1 →
  named (env_world (CreateLoadBalancer c lbName service nodes e).2) ≤ 1.
Proof.
  intros Hnone Hone. destruct (CreateLoadBalancer _ _ _ _ e) as [o e'] eqn:Hrun. cbn [snd].
  destruct (CreateLoadBalancer_once _ _ _ _ _ _ Hrun) as (w1 & Hreads & Hlast).
  pose proof (Hreads _ (named_allows _ creates_read)) as Hw1. cbn beta in Hw1.
  destruct Hlast as [->|(nodeList & poolList & subnetList & options & o' & Hc)]; [lia|].
  apply (named_call (SdkNamed := SdkNamed0)) in Hc. cbn [creates] in Hc.
  destruct (decide (lbName = name)) as [Heq|]; [specialize (Hnone Heq)|]; lia.
Qed.

Lemma ensure_named lbName service nodes e :
  named (env_world e) ≤ 1 →
  named (env_world (EnsureLoadBalancer c lbName service nodes e).2) ≤ 1.
Proof.
  intros Hone. unfold EnsureLoadBalancer.
  pose proof (uses_named _ _ e (FindLoadBalancer_uses c lbName (Some service)) creates_read) as Hfind.
  assert (∀ A reason text e2 (m : M (Env W) A), m = fail_with_event c service reason lbName text →
    named (env_world e2) ≤ 1 → named (env_world (m e2).2) ≤ 1) as Hfail.
  { intros A reason text e2 m -> H2.
    pose proof (uses_named _ _ e2 (fail_with_event_uses c (λ _, False) service reason lbName text) ltac:(done)
      : named (env_world (fail_with_event (A := A) c service reason lbName text e2).2) ≤ _). lia. }
  assert (∀ lb e2, named (env_world e2) ≤ 1 →
    named (env_world (ensureExisting c lbName service nodes lb e2).2) ≤ 1) as Hexisting.
  { intros lb e2 H2. pose proof (uses_named _ _ e2 (ensureExisting_uses c lbName service nodes lb)
      (creates_concern (lb_ID lb))). lia. }
  unfold mbind at 1, M_bind at 1, attempt at 1.
  destruct (FindLoadBalancer c lbName (Some service) e) as [[[lb|]|err|why] e1] eqn:Hf; cbn [snd] in Hfind.
  - apply Hexisting. lia.
  - assert (lbName = name → named (env_world e1) = 0) as Hnone.
    { intros ->. by apply find_named in Hf as [?|?]. }
    pose proof (create_named lbName (Some service) nodes e1 Hnone ltac:(lia)) as Hcreate.
    unfold mbind at 1, M_bind at 1, attempt at 1.
    destruct (CreateLoadBalancer _ _ _ _ e1) as [[lb|err|why] e2]; cbn [snd] in Hcreate |- *; [|by eapply Hfail|done].
    destruct (IsReady lb || negb (IsNLB lb)); [done|by apply Hexisting].
  - eapply Hfail; [done|lia].
  - cbn [snd]. lia.
Qed.

Lemma run_op_named e op : named (env_world e) ≤ 1 → named (env_world (run_op e op)) ≤ 1.
Proof.
  intros Hone.
  assert (∀ A (m : M (Env W) A), uses (cv_Sdk c) no_creation m → named (env_world (m e).2) ≤ 1) as Hm.
  { intros A m Hu. pose proof (uses_named _ _ e Hu creates_no_creation). lia. }
  destruct op; cbn [run_op]; [by apply ensure_named|apply Hm..].
  - by apply EnsureLoadBalancerUpdated_uses.
  - by apply EnsureLoadBalancerDeleted_uses.
  - by apply GetLoadBalancer_uses.
  - by apply MonitorLoadBalancers_uses.
Qed.
End once.

(** ** Properties *)

(** C7: there is never a second load balancer with a name.  Let requests be
    refused, answered, or carried out with the answer lost, and let load
    balancers vanish at any time; as long as nobody else creates load balancers
    of this name, there is at most one after any sequence of calls of the
    provider - EnsureLoadBalancer, EnsureLoadBalancerUpdated,
    EnsureLoadBalancerDeleted, GetLoadBalancer and rounds of the monitor, for
    this or any other name, however each of them ends. *)
Theorem one_load_balancer {W} `{!Clock W} `{!MapIteration} (c : CloudVpc W) name named ops e :
  SdkIdentity (cv_Sdk c) → SdkNamed (cv_Sdk c) name named →
  named (env_world e) ≤ 1 → named (env_world (foldl (run_op c) e ops)) ≤ 1.
Proof.
  intros Hident Hnamed. revert e. induction ops as [|op ops IH]; intros e Hone; [done|].
  apply IH. by apply (run_op_named c name).
Qed.

(** *** A service that loses answers *)

(** The load balancers there are; every second creation is answered. *)
Record LossyVpc := { lv_lbs : list VpcLoadBalancer; lv_answers : bool }.

Definition lossy_create (name : string) : M LossyVpc VpcLoadBalancer := λ w,
  let lb := example_lb ("id-" +:+ name) name "online" "active" [] [] in
  (if lv_answers w then Ok lb else Err (ErrorString "timeout"),
   {| lv_lbs := lv_lbs w ++ [lb]; lv_answers := negb (lv_answers w) |}).

Definition LossySdk : CloudVpcSdk LossyVpc := {|
  sdk_CreateLoadBalancer name _ _ _ _ := lossy_create name;
  sdk_CreateLoadBalancerListener _ _ _ := fail (ErrorString "internal error");
  sdk_CreateLoadBalancerPool _ _ _ _ := fail (ErrorString "internal error");
  sdk_CreateLoadBalancerPoolMember _ _ _ _ := fail (ErrorString "internal error");
  sdk_DeleteLoadBalancer i w :=
    (Ok tt, {| lv_lbs := filter (λ lb, lb_ID lb ≠ i) (lv_lbs w); lv_answers := lv_answers w |});
  sdk_DeleteLoadBalancerListener _ _ := fail (ErrorString "internal error");
  sdk_DeleteLoadBalancerPool _ _ := fail (ErrorString "internal error");
  sdk_DeleteLoadBalancerPoolMember _ _ _ := fail (ErrorString "internal error");
  sdk_GetLoadBalancer i w :=
    (match List.find (λ lb, bool_decide (lb_ID lb = i)) (lv_lbs w) with
     | Some lb => Ok lb
     | None => Err (ErrorString "not found")
     end, w);
  sdk_GetSubnet _ := fail (ErrorString "not found");
  sdk_ListLoadBalancers w := (Ok (lv_lbs w), w);
  sdk_ListLoadBalancerListeners _ := mret [];
  sdk_ListLoadBalancerPools _ := mret [];
  sdk_ListLoadBalancerPoolMembers _ _ := mret [];
  sdk_ListSubnets := mret (st_subnets example_world);
  sdk_ReplaceLoadBalancerPoolMembers _ _ _ _ := fail (ErrorString "internal error");
  sdk_UpdateLoadBalancerPool _ _ _ _ := fail (ErrorString "internal error");
  sdk_written _ w := w;
|}.
#[export] Instance LossyClock : Clock LossyVpc := {|
  time_Now w := (0%Z, w);
  time_Sleep _ w := w;
|}.

Definition lossy_named (name : string) (w : LossyVpc) : nat :=
  length (filter (λ lb, lb_Name lb = name) (lv_lbs w)).

#[export] Instance LossySdk_identity : SdkIdentity LossySdk.
Proof.
  intros i w lb w'. cbn. destruct (List.find _ _) as [lb'|] eqn:Hf; [|done].
  intros [= <- _]. by apply find_some in Hf as [_ ?%bool_decide_eq_true].
Qed.
#[export] Instance LossySdk_named name : SdkNamed LossySdk name (lossy_named name).
Proof.
  split; [| |done..].
  - intros r w o w'. unfold lossy_named. destruct r; cbn; intros [= _ <-]; cbn; try lia.
    + rewrite filter_app, filter_cons, filter_nil, length_app. cbn [lb_Name example_lb].
      destruct (decide (lbName = name)); cbn; lia.
    + assert (length (filter (λ lb, lb_Name lb = name) (filter (λ lb, lb_ID lb ≠ lbID) (lv_lbs w)))
        ≤ length (filter (λ lb, lb_Name lb = name) (lv_lbs w))); [|lia].
      rewrite list_filter_filter. rewrite (list_filter_iff _ (λ lb, lb_ID lb ≠ lbID ∧ lb_Name lb = name)) by tauto.
      rewrite <- list_filter_filter. apply sublist_length, sublist_filter.
  - intros w l w' [= <- <-] Hn. unfold lossy_named in Hn.
    destruct (filter _ (lv_lbs w)) as [|lb rest] eqn:Hf; [cbn in Hn; lia|].
    assert (lb ∈ filter (λ lb, lb_Name lb = name) (lv_lbs w)) as Hin by (rewrite Hf; left).
    apply list_elem_of_filter in Hin as [Hname Hin]. by exists lb.
Qed.

(** The first call is told of a timeout, the second finds what it created. *)
Lemma one_load_balancer_witness :
  let service := example_service "u" [(80, 30303)]%Z ∅ in
  let nodes := [example_node "n1" "10.0.0.1" "z1"] in
  let c := {| cv_Config := example_config; cv_Sdk := LossySdk; cv_Recorder := true |} in
  let e := {| env_world := {| lv_lbs := []; lv_answers := false |}; env_events := [];
              env_draws := 0 |} in
  let op := OpEnsure "kube-cluster-u" service (Some nodes) in
  let e1 := run_op (H := key_order) c e op in
  is_Err (EnsureLoadBalancer (H := key_order) c "kube-cluster-u" service (Some nodes) e).1 ∧
  lossy_named "kube-cluster-u" (env_world e1) = 1 ∧
  lossy_named "kube-cluster-u" (env_world (run_op (H := key_order) c e1 op)) ≤ 1.
Proof.
  intros service nodes c e op e1. split; [vm_compute; by eexists|]. split; [vm_compute; reflexivity|].
  apply (one_load_balancer (H := key_order) c "kube-cluster-u" (lossy_named "kube-cluster-u")
    [op; op] e LossySdk_identity (LossySdk_named _)).
  vm_compute. lia.
Defined.
