(* ===== verification/Services.v ===== *)
(** * Services: several services, each with its load balancer

    The controller serves many services, and Kubernetes calls it again for a
    service whose call failed.  Two things must then hold.  A call for one
    service leaves the load balancers of the others alone, so that each of them
    reaches its goal whatever becomes of the rest.  And a load balancer is
    created once: also when the answer to the creation was lost, the next call
    finds it. *)
From S2P Require Import Prelude GoStrings Kube VpcTypes VpcConfig VpcUpdates UpdateSpec UpdatePlan.
From S2P Require Import VpcSdk StaticVpc VpcLbaas LbaasProps VpcProvider VpcSdkGen2 Gen2Props.
From S2P Require Import LbEffects Gen2Effects Serving StoreVpc Convergence Progress Resume.
From S2P Require Import Footprint EnsureProps.

Open Scope go_scope.

(** ** What requests about a load balancer leave alone *)

(** However a request about [i], or a read, ends, [view] is as before. *)
Class SdkView {W T} `{!Clock W} (s : CloudVpcSdk W) (i : string) (view : W → T) : Prop := {
  view_request : ∀ r w o w', concerns i r → sdk_call s r w = (o, w') → view w' = view w;
  view_now : ∀ w, view (time_Now w).2 = view w;
  view_sleep : ∀ ns w, view (time_Sleep ns w) = view w;
  view_written : ∀ pools w, view (@sdk_written W s pools w) = view w;
}.

Lemma uses_keeps {W T A} `{!Clock W} (s : CloudVpcSdk W) i (view : W → T) (m : M (Env W) A) :
  SdkView s i view → uses s (concerns i) m → keeps (λ e, view (env_world e)) m.
Proof.
  intros Hv Hm e r e' Hrun. apply (Hm (λ w w', view w' = view w)) in Hrun; [done|]. split.
  - done.
  - intros w1 w2 w3 H1 H2. congruence.
  - apply view_request.
  - apply view_now.
  - apply view_sleep.
  - apply view_written.
Qed.

(** What tells load balancers apart in a list. *)
Definition lb_key (lb : VpcLoadBalancer) : string * string * string :=
  (lb_ID lb, lb_Name lb, lb_Hostname lb).
Definition key_matches (nameID : string) (k : string * string * string) : bool :=
  bool_decide (nameID = k.1.1) || bool_decide (nameID = k.1.2) || bool_decide (nameID = k.2).

(** The list of load balancers is [entries], and changing one of them does not
    change the list. *)
Class SdkListing {W} `{!Clock W} (s : CloudVpcSdk W) (entries : W → list (string * string * string))
    : Prop := {
  listing_view : ∀ i, SdkView s i entries;
  listing_answer : ∀ w l w', @sdk_ListLoadBalancers W s w = (Ok l, w') → lb_key <$> l = entries w;
}.

(** Load balancers are stored apart. *)
Class SdkApart {W} `{!Clock W} (s : CloudVpcSdk W) (state : string → W → LbState) : Prop :=
  apart_view : ∀ i j, i ≠ j → SdkView s i (state j).

(** The ID of the load balancer that FindLoadBalancer finds. *)
Definition entry_for (name : string) (l : list (string * string * string)) : option string :=
  (λ k, k.1.1) <$> List.find (key_matches name) l.

Lemma find_keys name lbs :
  (lb_ID <$> List.find (λ lb, bool_decide (name = lb_ID lb) || bool_decide (name = lb_Name lb) ||
                              bool_decide (name = lb_Hostname lb)) lbs)
  = entry_for name (lb_key <$> lbs).
Proof.
  unfold entry_for. induction lbs as [|lb lbs IH]; [done|]. cbn [List.find fmap list_fmap].
  change (key_matches name (lb_key lb)) with (bool_decide (name = lb_ID lb) ||
    bool_decide (name = lb_Name lb) || bool_decide (name = lb_Hostname lb)).
  by destruct (_ || _ || _).
Qed.

(** ** A call for a service *)

Section calls.
Context {W : Type} `{!Clock W} `{!MapIteration} (c : CloudVpc W) (state : string → W → LbState)
  (entries : W → list (string * string * string))
  `{!∀ i, SdkEffects (cv_Sdk c) i (state i)} `{!SdkIdentity (cv_Sdk c)}
  `{!∀ i, SdkAtomic (cv_Sdk c) i (state i)} `{!SdkApart (cv_Sdk c) state}
  `{!SdkListing (cv_Sdk c) entries}.
Implicit Types (e : Env W).

Lemma find_entry name service e r e' :
  FindLoadBalancer c name service e = (Ok r, e') →
  lb_ID <$> r = entry_for name (entries (env_world e)).
Proof.
  unfold FindLoadBalancer. case_bool_decide; [done|].
  intros (lbs & e1 & Hlist & [= <- _])%bind_Ok. unfold sdk in Hlist.
  destruct (sdk_ListLoadBalancers (env_world e)) as [o w] eqn:Hl. injection Hlist as -> _.
  rewrite <- (listing_answer (SdkListing := SdkListing0) _ _ _ Hl). apply find_keys.
Qed.

(** Whatever a call of EnsureLoadBalancer or EnsureLoadBalancerUpdated does. *)
Definition called (lbName : string) (service : Service) (nodes : list Node) (ok : bool) e e' : Prop :=
  (∃ r, EnsureLoadBalancer c lbName service (Some nodes) e = (r, e') ∧ (ok = true ↔ is_Ok r)) ∨
  (∃ r, EnsureLoadBalancerUpdated c lbName service (Some nodes) e = (r, e') ∧ (ok = true ↔ is_Ok r)).

Lemma fail_with_event_world {A} service reason lbName text e (r : outcome A) e' :
  fail_with_event c service reason lbName text e = (r, e') →
  ¬ is_Ok r ∧ env_world e' = env_world e.
Proof.
  unfold fail_with_event, recordServiceWarningEvent. destruct (cv_Recorder c); intros [= <- <-];
    (split; [by intros [? ?]|done]).
Qed.

(** What both operations do with the load balancer they find. *)
Lemma update_part {A} lbName service nodes lb reason text (text' : error → string)
    (k : VpcLoadBalancer → A) e (r : outcome A) e' :
  (if negb (IsReady lb) then fail_with_event c service reason lbName text
   else
     r ← attempt (UpdateLoadBalancer c (Some lb) (Some service) (Some nodes));
     match r with
     | inr err => fail_with_event c service reason lbName (text' err)
     | inl lb => mret (k lb)
     end) e = (r, e') →
  (¬ is_Ok r ∧ env_world e' = env_world e) ∨
  ∃ r0 e2, UpdateLoadBalancer c (Some lb) (Some service) (Some nodes) e = (r0, e2) ∧
           env_world e' = env_world e2 ∧ (is_Ok r ↔ is_Ok r0).
Proof.
  destruct (negb _); [by intros ?%fail_with_event_world; left|]. intros Hrun. right.
  unfold attempt, mbind, M_bind in Hrun.
  destruct (UpdateLoadBalancer _ _ _ _ e) as [[lb1|err|why] e2]; eexists _, e2.
  - injection Hrun as <- <-. split_and!; [done..|split; intros _; by eexists].
  - apply fail_with_event_world in Hrun as [Hno Hw]. split_and!; [done..|].
    split; [done|by intros [? ?]].
  - injection Hrun as <- <-. split_and!; [done..|]. by split; intros [? ?].
Qed.

(** With its load balancer in the list, a call fails before it does anything,
    or is an update of it. *)
Lemma called_cases lbName service nodes ok i e e' :
  called lbName service nodes ok e e' → entry_for lbName (entries (env_world e)) = Some i →
  ∃ r0 e1, FindLoadBalancer c lbName (Some service) e = (r0, e1) ∧
    ((ok = false ∧ env_world e' = env_world e1) ∨
     ∃ lb r e2, lb_ID lb = i ∧ r0 = Ok (Some lb) ∧
       UpdateLoadBalancer c (Some lb) (Some service) (Some nodes) e1 = (r, e2) ∧
       env_world e' = env_world e2 ∧ (ok = true ↔ is_Ok r)).
Proof.
  intros Hcall Hentry.
  destruct (FindLoadBalancer c lbName (Some service) e) as [r0 e1] eqn:Hfind.
  exists r0, e1. split; [done|].
  assert (∀ A (r : outcome A), (ok = true ↔ is_Ok r) → ¬ is_Ok r → ok = false) as Hfalse.
  { intros A r Hok Hno. destruct ok; tauto. }
  destruct Hcall as [(r & Hrun & Hok)|(r & Hrun & Hok)];
    unfold EnsureLoadBalancer, EnsureLoadBalancerUpdated, attempt in Hrun;
    unfold mbind at 1, M_bind at 1 in Hrun; rewrite Hfind in Hrun;
    destruct r0 as [[lb|]|err|why];
    try (pose proof (find_entry _ _ _ _ _ Hfind) as Hid; rewrite Hentry in Hid; injection Hid as Hid || done).
  all: try (injection Hrun as <- <-; left; split; [eapply Hfalse; [exact Hok|]; by intros [? ?]|done]).
  all: try (apply fail_with_event_world in Hrun as [Hno Hw]; left; split; [by eapply Hfalse|done]).
  all: apply update_part in Hrun as [[Hno Hw]|(r' & e2 & Hu & Hw & Hiff)];
    [left; split; [by eapply Hfalse|done]|].
  all: right; exists lb, r', e2; split_and!; [done..|tauto].
Qed.

(** A service and the nodes it is to reach. *)
Definition lb_name (x : Service * list Node) : string :=
  GenerateLoadBalancerName x.1 (cfg_ClusterID (cv_Config c)).
Definition node_list (x : Service * list Node) : list string :=
  getNodeIDs (selectNodes x.1 (getServiceOptions (Some x.1)) x.2).

Record wanted (x : Service * list Node) : Prop := {
  wn_ports : Forall valid_port (spec_Ports (svc_Spec x.1));
  wn_unique : unique_ports x.1;
  wn_nodes : Forall token (node_list x);
}.

(** An update would not create a pool that ought to have the proxy protocol. *)
Definition proxy_ready (x : Service * list Node) (s : LbState) : Prop :=
  no_new_proxy_pool x.1 (ls_pools s).
Definition synced (x : Service * list Node) (s : LbState) : Prop :=
  ∃ views, parse_pools (ls_pools s) = Ok views ∧
           in_sync x.1 (node_list x) (ls_listeners s) views.

Lemma find_stays i name service e r e' :
  FindLoadBalancer c name service e = (r, e') →
  state i (env_world e') = state i (env_world e).
Proof.
  revert e r e'. change (keeps (λ e, state i (env_world e)) (FindLoadBalancer c name service)).
  unfold FindLoadBalancer. case_bool_decide; [apply keeps_fail|].
  apply keeps_bind; [|intros; apply keeps_ret]. by apply (stays_read c i (state i) RListLoadBalancers).
Qed.

Lemma called_step x ok i e e' :
  wanted x → called (lb_name x) x.1 x.2 ok e e' →
  entry_for (lb_name x) (entries (env_world e)) = Some i →
  servable x.1 (state i (env_world e)) →
  entries (env_world e') = entries (env_world e) ∧
  (∀ j, j ≠ i → state j (env_world e') = state j (env_world e)) ∧
  servable x.1 (state i (env_world e')) ∧
  (proxy_ready x (state i (env_world e)) ∨ ok = true → proxy_ready x (state i (env_world e'))) ∧
  (ok = true ∧ proxy_ready x (state i (env_world e)) ∨ synced x (state i (env_world e)) →
   synced x (state i (env_world e'))).
Proof.
  intros [Hvalid Hunique Htoken] Hcall Hentry Hserv.
  destruct (called_cases _ _ _ _ _ _ _ Hcall Hentry) as (r0 & e1 & Hfind & Hrest).
  pose proof (find_stays i _ _ _ _ _ Hfind) as Hi1.
  assert (∀ j, j ≠ i → state j (env_world e1) = state j (env_world e)) as Hj1
    by (intros j _; by eapply find_stays).
  assert (entries (env_world e1) = entries (env_world e)) as He1.
  { eapply (uses_keeps _ i entries); [apply (listing_view (SdkListing := SdkListing0))| |exact Hfind].
    eapply uses_mono; [apply FindLoadBalancer_uses|apply reads_concern]. }
  destruct Hrest as [[-> Hw]|(lb & r & e2 & Hid & -> & Hrun & Hw & Hok)]; rewrite Hw.
  { rewrite Hi1. split_and!; [done..| |]; [by intros [?|]|by intros [[? _]|?]]. }
  pose proof (UpdateLoadBalancer_uses c lb (Some x.1) (Some x.2)) as Huses. rewrite Hid in Huses.
  assert (entries (env_world e2) = entries (env_world e)) as He2.
  { rewrite <- He1. eapply (uses_keeps _ i entries); [apply (listing_view (SdkListing := SdkListing0))|exact Huses|exact Hrun]. }
  assert (∀ j, j ≠ i → state j (env_world e2) = state j (env_world e)) as Hj2.
  { intros j Hj. rewrite <- (Hj1 j) by done.
    eapply (uses_keeps _ i (state j)); [by apply (SdkApart0 i j)|exact Huses|exact Hrun]. }
  rewrite <- Hi1 in Hserv |- *.
  destruct (attempted_servable c i (state i) x.1 e1 e2) as [Hserv2 Hproxy2]; try done; try apply _.
  { by exists lb, x.2, r. }
  assert (ok = true → caught_up x.1 (node_list x) (state i (env_world e1)) (state i (env_world e2)))
    as Hcaught.
  { intros [lb' ->]%Hok. rewrite <- Hid in *.
    by eapply (update_converges c lb (state (lb_ID lb)) x.1 x.2). }
  split_and!; [done..| |].
  { intros [?|?%Hcaught]; [by apply Hproxy2|by eapply caught_up_no_new]. }
  intros [[Hc%Hcaught Hproxy]|(views & Hviews & Hsync)].
  - by eapply caught_up_synced.
  - assert (state i (env_world e2) = state i (env_world e1)) as ->; [|by exists views].
    eapply (UpdateLoadBalancer_reaches c i (state i)) in Hrun
      as [Hs|(Hports & views' & l1 & l2 & Hviews' & Hplan & Hacts)]; [done| |done..].
    rewrite Hviews in Hviews'. injection Hviews' as <-.
    pose proof (parse_pools_Ok _ _ Hviews) as [_ Hparsed]. unfold spec_plan in Hplan.
    rewrite (proj2 (spec_updates_nil x.1 (node_list x) _ _ Hports Hunique Hparsed)) in Hplan by done.
    destruct l1; [done|]. done.
Qed.

(** Any number of calls for the services [xs], and which of them succeeded. *)
Fixpoint calls_made (l : list ((Service * list Node) * bool)) e e' : Prop :=
  match l with
  | [] => e' = e
  | (x, ok) :: l => ∃ e1, called (lb_name x) x.1 x.2 ok e e1 ∧ calls_made l e1 e'
  end.
End calls.

(** ** Properties *)

(** C4: services do not get into each other's way, and failures do not matter
    in the end.  Let every one of the services have its load balancer already,
    listed under its name and servable - pool names parse, no two pools serve
    one port, no listener that stays uses a pool that goes - and let
    EnsureLoadBalancer and EnsureLoadBalancerUpdated be called for these
    services any number of times, in any order and however each call ends, over
    an SDK that may refuse any request, as long as a request that is not
    answered has changed nothing ([SdkAtomic]).  Afterwards every load balancer
    is still listed and servable.  It is in sync with its service if it was
    before, or if two calls for the service have succeeded, or one has and the
    service does not ask for the proxy protocol or had a pool for every port
    ([proxy_ready]; otherwise the first success creates pools without the proxy
    protocol): neither the calls for other services nor failed calls for
    itself, before or after, have put it out of sync. *)
Theorem services_converge {W} `{!Clock W} `{!MapIteration} (c : CloudVpc W) state entries
    (xs : list (Service * list Node)) calls e e' :
  (∀ i, SdkEffects (cv_Sdk c) i (state i)) → SdkIdentity (cv_Sdk c) →
  (∀ i, SdkAtomic (cv_Sdk c) i (state i)) → SdkApart (cv_Sdk c) state →
  SdkListing (cv_Sdk c) entries →
  let found x w := entry_for (lb_name c x) (entries w) in
  (∀ x, x ∈ xs → wanted x ∧ ∃ i, found x (env_world e) = Some i ∧
                   servable x.1 (state i (env_world e))) →
  (∀ x y, x ∈ xs → y ∈ xs → found x (env_world e) = found y (env_world e) → x = y) →
  Forall (λ call, call.1 ∈ xs) calls → calls_made c calls e e' →
  ∀ x, x ∈ xs → ∃ i, found x (env_world e) = Some i ∧ found x (env_world e') = Some i ∧
    let s := state i (env_world e) in let s' := state i (env_world e') in
    servable x.1 s' ∧ (proxy_ready x s ∨ (x, true) ∈ calls → proxy_ready x s') ∧
    (synced x s ∨ ((x, true) ∈ calls ∧ proxy_ready x s) ∨ [(x, true); (x, true)] `sublist_of` calls →
     synced x s').
Proof.
  intros Heff Hident Hatomic Hapart Hlist found Hxs Hdiff Hcalls. revert e Hxs Hdiff.
  induction Hcalls as [|[y ok] calls Hy Hcalls IH]; intros e Hxs Hdiff.
  { intros -> x Hx. destruct (Hxs x Hx) as (_ & i & Hi & Hserv). exists i. cbn zeta.
    split_and!; [done..| |].
    - by intros [?|?%elem_of_nil].
    - intros [?|[[?%elem_of_nil _]|Hsub]]; [done..|by inversion Hsub]. }
  intros (e1 & Hcall & Hrest) x Hx. cbn in Hy.
  destruct (Hxs y Hy) as (Hwanted & iy & Hiy & Hservy).
  destruct (called_step c state entries y ok iy e e1)
    as (Hentries & Hothers & Hservy1 & Hreadyy & Hsyncy); [done..|].
  assert (∀ z w, found z w = entry_for (lb_name c z) (entries w)) as Hfound by done.
  assert (∀ z, found z (env_world e1) = found z (env_world e)) as Hsame
    by (intros z; by rewrite !Hfound, Hentries).
  assert (∀ z i, z ∈ xs → found z (env_world e) = Some i → i ≠ iy ∨ z = y) as Hcase.
  { intros z i Hz Hi. destruct (decide (i = iy)) as [->|]; [right|by left].
    apply Hdiff; [done..|]. congruence. }
  destruct (Hxs x Hx) as (_ & ix & Hix & Hservx).
  destruct (IH e1) with (x := x) as (i & Hi & Hi' & Hserv & Hready & Hsync); [| |done..|].
  - intros z Hz. destruct (Hxs z Hz) as (Hw & iz & Hiz & Hservz). split; [done|]. exists iz.
    rewrite Hsame. split; [done|].
    destruct (Hcase z iz Hz Hiz) as [Hne| ->]; [by rewrite Hothers|]. congruence.
  - intros z1 z2. rewrite !Hsame. auto.
  - rewrite Hsame in Hi. exists i. assert (i = ix) as -> by congruence. cbn zeta.
    assert (∀ R : LbState → Prop, (x = y → R (state iy (env_world e)) → R (state iy (env_world e1))) →
      R (state ix (env_world e)) → R (state ix (env_world e1))) as Hkeep.
    { intros R HR Hc. destruct (Hcase x ix Hx Hix) as [Hne| ->]; [by rewrite Hothers|].
      replace ix with iy in * by congruence. by apply HR. }
    assert (proxy_ready x (state ix (env_world e)) → proxy_ready x (state ix (env_world e1))) as Hr1.
    { apply Hkeep. intros ->. auto. }
    assert (synced x (state ix (env_world e)) → synced x (state ix (env_world e1))) as Hs1.
    { apply Hkeep. intros ->. auto. }
    assert ((x, true) = (y, ok) → proxy_ready x (state ix (env_world e1)) ∧
      (proxy_ready x (state ix (env_world e)) → synced x (state ix (env_world e1)))) as Hnow.
    { intros [= -> <-]. replace ix with iy in * by congruence. auto. }
    split_and!; [done..| |].
    + intros [Hc|[Hc%Hnow|Hc]%elem_of_cons]; apply Hready; [left; auto|left; apply Hc|by right].
    + intros [Hc|[[[Hc%Hnow|Hc]%elem_of_cons Hp]|Hc]]; apply Hsync.
      * left. auto.
      * left. by apply Hc.
      * right. left. auto.
      * apply sublist_cons_r in Hc. destruct Hc as [Hc|(l & Heq & Hl)]; [by right; right|].
        assert ((x, true) = (y, ok) ∧ l = [(x, true)]) as [Hc ->] by by injection Heq as -> -> <-.
        right. left. split; [|by apply Hnow].
        eapply elem_of_sublist; [|exact Hl]. left.
Qed.
