(* ===== verification/Gen2Services.v ===== *)
(** * Gen2Services: the Gen2 SDK keeps load balancers apart

    What Services asks of an SDK about several load balancers, from what the
    client documents: a request about a load balancer, answered or not, leaves
    the others and the list alone, and the pages of a list make up the list. *)
From S2P Require Import Prelude GoStrings Kube VpcTypes VpcConfig VpcUpdates VpcSdk VpcSdkGen2.
From S2P Require Import Gen2Props LbEffects Gen2Effects StoreVpc Resume Services.

Open Scope go_scope.

(** However a request about [i], or a read, ends, [view] is as before. *)
Class VpcV1View {W Patch T} `{!Clock W} (client : VpcV1 W Patch) (i : string) (view : W → T)
    : Prop := {
  vv_create_listener : ∀ proto, keeps view (cl_CreateLoadBalancerListener i proto);
  vv_delete_listener : ∀ a, keeps view (cl_DeleteLoadBalancerListener i a);
  vv_create_pool : ∀ proto, keeps view (cl_CreateLoadBalancerPool i proto);
  vv_delete_pool : ∀ a, keeps view (cl_DeleteLoadBalancerPool i a);
  vv_create_member : ∀ a proto, keeps view (cl_CreateLoadBalancerPoolMember i a proto);
  vv_delete_member : ∀ a b, keeps view (cl_DeleteLoadBalancerPoolMember i a b);
  vv_replace_members : ∀ a l, keeps view (cl_ReplaceLoadBalancerPoolMembers i a l);
  vv_update_pool : ∀ a p, keeps view (cl_UpdateLoadBalancerPool i a p);
  vv_get : ∀ j, keeps view (cl_GetLoadBalancer j);
  vv_get_subnet : ∀ j, keeps view (cl_GetSubnet j);
  vv_list : ∀ start, keeps view (cl_ListLoadBalancers start);
  vv_list_subnets : ∀ start, keeps view (cl_ListSubnets start);
  vv_list_listeners : ∀ j, keeps view (cl_ListLoadBalancerListeners j);
  vv_list_pools : ∀ j, keeps view (cl_ListLoadBalancerPools j);
  vv_list_members : ∀ j a, keeps view (cl_ListLoadBalancerPoolMembers j a);
  vv_now : ∀ w, view (time_Now w).2 = view w;
  vv_sleep : ∀ ns w, view (time_Sleep ns w) = view w;
}.

(** [remaining w start] is what is left of the list from a page on. *)
Class VpcV1Listing {W Patch} `{!Clock W} (client : VpcV1 W Patch)
    (url_start : string → outcome string)
    (remaining : W → option string → list (string * string * string)) : Prop := {
  vl_view : ∀ i, VpcV1View client i remaining;
  vl_page : ∀ start w page w', cl_ListLoadBalancers start w = (Ok page, w') →
    remaining w start = (lb_key ∘ mapLoadBalancer <$> pg_Items page) ++
      match pg_Next page with
      | Some (Some href) =>
          match url_start href with Ok next => remaining w (Some next) | _ => [] end
      | _ => []
      end;
}.

Section gen2.
Context {W Patch : Type} `{!Clock W} {client : VpcV1 W Patch}
  (resourceGroupID : string) (url_start : string → outcome string) (fuel : nat).
Let gen2 := VpcSdkGen2 resourceGroupID url_start fuel.

Lemma keeps_call {T A B C} (view : W → T) (o : outcome A) (m : A → M W B) (k : B → M W C) :
  (∀ a, keeps view (m a)) → (∀ b, keeps view (k b)) → keeps view (x ← lift o; y ← m x; k y).
Proof. intros Hm Hk. apply keeps_bind; [apply keeps_lift|]. intros a. by apply keeps_bind. Qed.

Lemma keeps_pages {T A B} (view : W → T) n (list_page : option string → M W (sdk_Page A))
    (f : A → B) start acc :
  (∀ start, keeps view (list_page start)) → keeps view (listPages url_start n list_page f start acc).
Proof.
  intros Hpage. revert start acc. induction n as [|n IH]; intros start acc; [apply keeps_lift|].
  cbn [listPages]. apply keeps_bind; [apply Hpage|]. intros page.
  destruct (pg_Next page) as [[href|]|]; [|apply keeps_ret..].
  apply keeps_bind; [apply keeps_lift|]. intros next. apply IH.
Qed.

Lemma gen2_view {T} i (view : W → T) : VpcV1View client i view → SdkView gen2 i view.
Proof.
  intros Hv. split; [|apply vv_now|apply vv_sleep|done].
  assert (∀ j a, keeps view (Gen2_ListLoadBalancerPoolMembers j a)) as Hmembers.
  { intros j a. apply keeps_bind; [apply vv_list_members|intros; apply keeps_lift]. }
  assert (∀ r, concerns i r → keeps view (sdk_call gen2 r)) as Hr; [|by intros r w o w' Hc; apply Hr].
  intros r Hc. destruct r; try done; cbn [concerns] in Hc; try subst; cbn [sdk_call].
  - apply keeps_call; [intros; apply vv_create_listener|intros; apply keeps_ret].
  - apply keeps_call; [intros; apply vv_create_pool|intros; apply keeps_ret].
  - apply keeps_call; [intros; apply vv_create_member|intros; apply keeps_lift].
  - apply vv_delete_listener.
  - apply vv_delete_pool.
  - apply vv_delete_member.
  - apply keeps_call; [intros; apply vv_replace_members|intros; apply keeps_lift].
  - apply keeps_bind; [apply keeps_lift|]. intros f.
    apply keeps_call; [intros; apply vv_update_pool|intros; apply keeps_ret].
  - apply keeps_bind; [apply vv_get|intros; apply keeps_ret].
  - apply keeps_bind; [apply vv_get_subnet|intros; apply keeps_ret].
  - apply keeps_pages, vv_list.
  - apply keeps_bind; [apply vv_list_listeners|intros; apply keeps_ret].
  - apply keeps_bind; [apply vv_list_pools|]. intros l. apply keeps_forM. intros acc item.
    apply keeps_bind; [apply Hmembers|intros; apply keeps_ret].
  - apply Hmembers.
  - apply keeps_pages, vv_list_subnets.
Qed.

Lemma gen2_apart (state : string → W → ClientState) :
  (∀ i j, i ≠ j → VpcV1View client i (state j)) →
  SdkApart gen2 (λ i w, map_state (state i w)).
Proof.
  intros Hview i j Hij. destruct (gen2_view i (state j) (Hview i j Hij)) as [Hr Hn Hs Hw].
  split; [intros r w o w' Hc Hrun|intros w|intros ns w|intros pools w]; f_equal; [by eapply Hr|done..].
Qed.

Lemma listPages_remaining remaining n start acc w l w' :
  VpcV1Listing client url_start remaining →
  listPages url_start n cl_ListLoadBalancers mapLoadBalancer start acc w = (Ok l, w') →
  lb_key <$> l = (lb_key <$> acc) ++ remaining w start.
Proof.
  intros Hl. revert start acc w. induction n as [|n IH]; intros start acc w; [done|].
  cbn [listPages]. intros (page & w1 & Hpage & Hrun)%bind_Ok.
  rewrite (vl_page (VpcV1Listing := Hl) start w page w1 Hpage). pose proof (vv_list (VpcV1View := vl_view (VpcV1Listing := Hl) "") start w _ w1 Hpage) as Hw.
  destruct (pg_Next page) as [[href|]|];
    [|injection Hrun as <- _; by rewrite fmap_app, <- list_fmap_compose, app_nil_r..].
  apply bind_Ok in Hrun as (next & w2 & [= Hurl <-] & Hrun). rewrite Hurl.
  apply IH in Hrun. by rewrite Hrun, fmap_app, <- list_fmap_compose, <- (assoc_L (++)), Hw.
Qed.

Lemma gen2_listing remaining :
  VpcV1Listing client url_start remaining → SdkListing gen2 (λ w, remaining w None).
Proof.
  intros Hl. split.
  - intros i. destruct (gen2_view i remaining (vl_view (VpcV1Listing := Hl) i)) as [Hr Hn Hs Hw].
    split; [intros r w o w' Hc Hrun; by rewrite (Hr r w o w')|intros w; by rewrite Hn
      |intros ns w; by rewrite Hs|done].
  - intros w l w' Hrun. by apply (listPages_remaining remaining) in Hrun.
Qed.
End gen2.

(** ** Clients that keep load balancers apart *)

Lemma keeps_commit {A} i j (f : ClientState → A * ClientState) :
  i ≠ j → keeps (stored_at j) (commit i f).
Proof.
  intros Hij w o w'. unfold commit, stored_at. case_decide as Hi; [|by intros [= _ <-]].
  rewrite decide_False by congruence. done.
Qed.
Lemma keeps_query {A} j k (f : ClientState → A) : keeps (stored_at j) (query k f).
Proof. by intros w o w' [-> _]%query_Ok. Qed.

#[export] Instance StoreClient_view i j : i ≠ j → VpcV1View StoreClient i (stored_at j).
Proof.
  intros Hij. split; intros; try by apply keeps_commit.
  - intros w o w'. cbn. case_decide; by intros [= _ <-].
  - apply keeps_fail.
  - apply keeps_query.
  - apply keeps_query.
  - apply keeps_query.
  - apply keeps_query.
  - apply keeps_query.
  - unfold stored_at. by case_decide.
  - unfold stored_at. by case_decide.
Qed.
#[export] Instance StoreSdk_apart : SdkApart StoreSdk (λ i w, map_state (stored_at i w)).
Proof. apply gen2_apart. apply StoreClient_view. Qed.

#[local] Instance unit_clock : Clock unit := {| time_Now _ := (0%Z, tt); time_Sleep _ _ := tt |}.
Lemma EmptyClient_listing : VpcV1Listing EmptyClient Ok (λ _ _, []).
Proof. split; [by split|]. by intros start w page w' [= <- _]. Qed.
