(* ===== verification/TwoStores.v ===== *)
(** * TwoStores: a VPC service with two load balancers

    Two stores of StoreVpc side by side, for the examples of theorems about
    several services: requests for the first or the second load balancer go to
    its store, the list shows both, and load balancers are neither created nor
    deleted.  It is not a model of any code of the repository. *)
From S2P Require Import Prelude GoStrings Kube VpcTypes VpcConfig VpcUpdates UpdateSpec UpdatePlan.
From S2P Require Import VpcSdk StaticVpc VpcLbaas LbaasProps VpcProvider VpcSdkGen2 Gen2Props.
From S2P Require Import LbEffects Gen2Effects Serving StoreVpc Convergence Progress Resume.
From S2P Require Import Footprint Services.

Open Scope go_scope.

Definition TwoStores : Type := StoreVpc * StoreVpc.

Definition second_id : string := "lb-2".

(** Run on the store of a load balancer, which knows it as [store_id]. *)
Definition on {A} (i : string) (m : string → M StoreVpc A) : M TwoStores A := λ w,
  if decide (i = store_id) then let '(o, w1) := m store_id w.1 in (o, (w1, w.2))
  else if decide (i = second_id) then let '(o, w2) := m store_id w.2 in (o, (w.1, w2))
  else (Err (ErrorString "not found"), w).

Definition rename_lb (i name hostname : string) (lb : VpcLoadBalancer) : VpcLoadBalancer :=
  {| lb_CreatedAt := lb_CreatedAt lb; lb_Hostname := hostname; lb_ID := i;
     lb_IsPublic := lb_IsPublic lb; lb_ListenerIDs := lb_ListenerIDs lb; lb_Name := name;
     lb_OperatingStatus := lb_OperatingStatus lb; lb_Pools := lb_Pools lb;
     lb_PrivateIps := lb_PrivateIps lb; lb_ProfileFamily := lb_ProfileFamily lb;
     lb_ProvisioningStatus := lb_ProvisioningStatus lb; lb_PublicIps := lb_PublicIps lb;
     lb_ResourceGroup := lb_ResourceGroup lb; lb_Subnets := lb_Subnets lb;
     lb_VpcID := lb_VpcID lb |}.
Definition first_lb (w : TwoStores) : VpcLoadBalancer :=
  rename_lb store_id "kube-cluster-u1" "lb-1.example.com" (mapLoadBalancer (show w.1)).
Definition second_lb (w : TwoStores) : VpcLoadBalancer :=
  rename_lb second_id "kube-cluster-u2" "lb-2.example.com" (mapLoadBalancer (show w.2)).

Definition TwoSdk : CloudVpcSdk TwoStores := {|
  sdk_CreateLoadBalancer _ _ _ _ _ := fail (ErrorString "not allowed");
  sdk_CreateLoadBalancerListener i a b :=
    on i (λ j, @sdk_CreateLoadBalancerListener _ StoreSdk j a b);
  sdk_CreateLoadBalancerPool i a l o := on i (λ j, @sdk_CreateLoadBalancerPool _ StoreSdk j a l o);
  sdk_CreateLoadBalancerPoolMember i a b n :=
    on i (λ j, @sdk_CreateLoadBalancerPoolMember _ StoreSdk j a b n);
  sdk_DeleteLoadBalancer _ := fail (ErrorString "not allowed");
  sdk_DeleteLoadBalancerListener i a := on i (λ j, @sdk_DeleteLoadBalancerListener _ StoreSdk j a);
  sdk_DeleteLoadBalancerPool i a := on i (λ j, @sdk_DeleteLoadBalancerPool _ StoreSdk j a);
  sdk_DeleteLoadBalancerPoolMember i a b :=
    on i (λ j, @sdk_DeleteLoadBalancerPoolMember _ StoreSdk j a b);
  sdk_GetLoadBalancer i w :=
    if decide (i = store_id) then (Ok (first_lb w), w)
    else if decide (i = second_id) then (Ok (second_lb w), w)
    else (Err (ErrorString "not found"), w);
  sdk_GetSubnet _ := fail (ErrorString "not found");
  sdk_ListLoadBalancers w := (Ok [first_lb w; second_lb w], w);
  sdk_ListLoadBalancerListeners i := on i (λ j, @sdk_ListLoadBalancerListeners _ StoreSdk j);
  sdk_ListLoadBalancerPools i := on i (λ j, @sdk_ListLoadBalancerPools _ StoreSdk j);
  sdk_ListLoadBalancerPoolMembers i a :=
    on i (λ j, @sdk_ListLoadBalancerPoolMembers _ StoreSdk j a);
  sdk_ListSubnets := on store_id (λ _, @sdk_ListSubnets _ StoreSdk);
  sdk_ReplaceLoadBalancerPoolMembers i a b l :=
    on i (λ j, @sdk_ReplaceLoadBalancerPoolMembers _ StoreSdk j a b l);
  sdk_UpdateLoadBalancerPool i a p o := on i (λ j, @sdk_UpdateLoadBalancerPool _ StoreSdk j a p o);
  sdk_written _ w := w;
|}.

#[export] Instance TwoClock : Clock TwoStores := {|
  time_Now w := (store_time w.1, w);
  time_Sleep ns w := (time_Sleep ns w.1, time_Sleep ns w.2);
|}.

Definition two_state (i : string) (w : TwoStores) : LbState :=
  if decide (i = store_id) then map_state (store_state w.1)
  else if decide (i = second_id) then map_state (store_state w.2)
  else map_state nothing.
Definition two_entries (w : TwoStores) : list (string * string * string) :=
  [(store_id, "kube-cluster-u1", "lb-1.example.com");
   (second_id, "kube-cluster-u2", "lb-2.example.com")].

(** ** It behaves as documented *)

(** A request on the store of [i] ran on that store alone, or on none. *)
Lemma on_run {A} i (m : string → M StoreVpc A) w o w' :
  on i m w = (o, w') →
  (∃ w1 w1', m store_id w1 = (o, w1') ∧
     two_state i w = map_state (store_state w1) ∧ two_state i w' = map_state (store_state w1') ∧
     ∀ j, j ≠ i → two_state j w' = two_state j w) ∨
  (¬ is_Ok o ∧ w' = w).
Proof.
  unfold on, two_state. destruct w as [w1 w2]. cbn [fst snd].
  destruct (decide (i = store_id)) as [->|H1]; [|destruct (decide (i = second_id)) as [->|H2]].
  - destruct (m store_id w1) as [o1 w1'] eqn:Hm. intros [= -> <-]. left. exists w1, w1'.
    split_and!; [done..|]. intros j Hj. by rewrite !(decide_False (P := j = store_id)).
  - destruct (m store_id w2) as [o1 w2'] eqn:Hm. intros [= -> <-]. left. exists w2, w2'.
    split_and!; [done..|]. intros j Hj. by rewrite !(decide_False (P := j = second_id)).
  - intros [= <- <-]. right. split; [by intros [? ?]|done].
Qed.

(** What the store promises of a request is so for the same request about [i]. *)
Lemma on_request r i (m : string → M StoreVpc (answer r)) w o w' :
  concerns store_id r → m store_id = sdk_call StoreSdk r → on i m w = (o, w') →
  (∀ j, j ≠ i → two_state j w' = two_state j w) ∧
  (∀ a, o = Ok a → effect r (two_state i w) (two_state i w')) ∧
  (¬ is_Ok o → two_state i w' = two_state i w).
Proof.
  intros Hr Hm [(w1 & w1' & Hrun & -> & -> & Hj)|[Hno ->]]%on_run.
  - rewrite Hm in Hrun. split_and!; [done| |].
    + intros a ->. by eapply (effect_request (SdkEffects := StoreSdk_effects)).
    + intros Hno. by eapply StoreSdk_atomic.
  - split_and!; [done| |done]. intros a ->. destruct Hno. by eexists.
Qed.

(** A read changes nothing. *)
Lemma on_read r i (m : string → M StoreVpc (answer r)) w o w' j :
  is_write r = false → m store_id = sdk_call StoreSdk r → on i m w = (o, w') →
  two_state j w' = two_state j w.
Proof.
  intros Hr Hm Hrun. assert (concerns store_id r) as Hc by by destruct r.
  destruct (on_request r i m w o w' Hc Hm Hrun) as (Hj & Hok & Herr).
  destruct (decide (j = i)) as [->|]; [|by apply Hj]. destruct o as [a|err|why].
  - specialize (Hok a eq_refl). by destruct r.
  - apply Herr. by intros [? ?].
  - apply Herr. by intros [? ?].
Qed.

Lemma two_read r w o w' j :
  is_write r = false → sdk_call TwoSdk r w = (o, w') → two_state j w' = two_state j w.
Proof.
  destruct r; try done; intros _.
  - cbn. do 2 (case_decide; [by intros [= _ <-]|]). by intros [= _ <-].
  - by intros [= _ <-].
  - by intros [= _ <-].
  - by apply (on_read (RListListeners store_id)).
  - by apply (on_read (RListPools store_id)).
  - by apply (on_read (RListPoolMembers store_id poolID)).
  - by apply (on_read RListSubnets).
Qed.

Lemma two_request r w o w' i :
  concerns i r → is_write r = true → sdk_call TwoSdk r w = (o, w') →
  (∀ j, j ≠ i → two_state j w' = two_state j w) ∧
  (∀ a, o = Ok a → effect r (two_state i w) (two_state i w')) ∧
  (¬ is_Ok o → two_state i w' = two_state i w).
Proof.
  intros Hc Hw. destruct r; try done; cbn [concerns] in Hc; subst.
  - by apply (on_request (RCreateListener store_id poolName poolID)).
  - by apply (on_request (RCreatePool store_id poolName nodeList options)).
  - by apply (on_request (RCreatePoolMember store_id poolName poolID nodeID)).
  - by apply (on_request (RDeleteListener store_id listenerID)).
  - by apply (on_request (RDeletePool store_id poolID)).
  - by apply (on_request (RDeletePoolMember store_id poolID memberID)).
  - by apply (on_request (RReplacePoolMembers store_id poolName poolID nodeList)).
  - by apply (on_request (RUpdatePool store_id newPoolName existingPool options)).
Qed.

(** The lists are those of the store. *)
Lemma two_on_list {A} i (m : string → M StoreVpc A) (f : LbState → A) w a w' :
  (∀ w1 a w1', m store_id w1 = (Ok a, w1') → a = f (map_state (store_state w1))) →
  on i m w = (Ok a, w') → a = f (two_state i w).
Proof.
  intros Hm [(w1 & w1' & Hrun & -> & _)|[Hno _]]%on_run; [by eapply Hm|].
  destruct Hno. by eexists.
Qed.

#[export] Instance TwoSdk_effects i : SdkEffects TwoSdk i (two_state i).
Proof.
  split.
  - intros r w a w' Hc Hrun. destruct (is_write r) eqn:Hw.
    + destruct (two_request r w _ w' i Hc Hw Hrun) as (_ & Hok & _). by apply (Hok a).
    + pose proof (two_read r w _ w' i Hw Hrun) as Hs. by destruct r.
  - intros w l w'. apply two_on_list. apply (effect_listeners (SdkEffects := StoreSdk_effects)).
  - intros w l w'. apply two_on_list. apply (effect_pools (SdkEffects := StoreSdk_effects)).
  - done.
  - done.
  - done.
  - intros w. unfold two_state. case_decide; [apply (effect_wf (SdkEffects := StoreSdk_effects))|].
    case_decide; [apply (effect_wf (SdkEffects := StoreSdk_effects))|by_decision].
Qed.

#[export] Instance TwoSdk_identity : SdkIdentity TwoSdk.
Proof.
  intros i w lb w'. cbn. case_decide as H1; [by intros [= <- _]|].
  case_decide as H2; [by intros [= <- _]|done].
Qed.

#[export] Instance TwoSdk_atomic i : SdkAtomic TwoSdk i (two_state i).
Proof.
  intros r w o w' Hc Hrun Hno. destruct (is_write r) eqn:Hw; [|by eapply two_read].
  by apply (two_request r w o w' i Hc Hw Hrun).
Qed.

#[export] Instance TwoSdk_apart : SdkApart TwoSdk two_state.
Proof.
  intros i j Hij. split; [|done..]. intros r w o w' Hc Hrun.
  destruct (is_write r) eqn:Hw; [|by eapply two_read].
  by apply (two_request r w o w' i Hc Hw Hrun).
Qed.

#[export] Instance TwoSdk_listing : SdkListing TwoSdk two_entries.
Proof. split; [by split|]. by intros w l w' [= <- _]. Qed.

(** ** Two services over it *)

Lemma example_servable (x : Service * list Node) :
  match parse_pools (ls_pools (map_state example_store_state)) with
  | Ok views =>
      bool_decide (NoDup ((λ v : View, pn_Port v.2) <$> filter (live x.1) views)) &&
      bool_decide (Forall (λ l, Forall (λ v : View, ref_ID (lst_DefaultPool l) ≠ pool_ID v.1)
                                       (filter (λ v, ¬ live x.1 v) views))
                     (filter (listener_live x.1) (ls_listeners (map_state example_store_state))))
  | _ => false
  end = true → servable x.1 (map_state example_store_state).
Proof.
  intros Hd. unfold servable.
  destruct (parse_pools _) as [views| |] eqn:Hviews; [|done..]. exists views.
  apply andb_true_iff in Hd as [H1%bool_decide_eq_true H2%bool_decide_eq_true].
  by split_and!.
Qed.

(** The first service is brought in sync, called again while its load balancer
    is busy, and stays in sync while the second one is. *)
Lemma services_converge_witness :
  let nodes := [example_node "n1" "10.0.0.1" "z1"; example_node "n2" "10.0.0.2" "z2"] in
  let x1 := (example_service "u1" [(80, 30500); (81, 30304)]%Z ∅, nodes) in
  let x2 := (example_service "u2" [(80, 30303)]%Z ∅, nodes) in
  let c := {| cv_Config := example_config; cv_Sdk := TwoSdk; cv_Recorder := true |} in
  let e := {| env_world := (example_store, example_store); env_events := []; env_draws := 0 |} in
  let ensure x e := EnsureLoadBalancer (H := key_order) c (lb_name c x) x.1 (Some x.2) e in
  let e1 := (ensure x1 e).2 in let e2 := (ensure x1 e1).2 in let e3 := (ensure x2 e2).2 in
  is_Err (ensure x1 e1).1 ∧
  synced x1 (two_state store_id (env_world e3)) ∧ synced x2 (two_state second_id (env_world e3)).
Proof.
  intros nodes x1 x2 c e ensure e1 e2 e3.
  assert (∀ x, x ∈ [x1; x2] → wanted x ∧ ∃ i,
    entry_for (lb_name c x) (two_entries (env_world e)) = Some i ∧
    servable x.1 (two_state i (env_world e))) as Hxs.
  { apply Forall_forall. apply Forall_cons. split; [|apply Forall_singleton].
    all: (split; [split; by_decision|]).
    - exists store_id. split; [reflexivity|].
      apply example_servable. vm_compute; reflexivity.
    - exists second_id. split; [reflexivity|].
      apply example_servable. vm_compute; reflexivity. }
  split; [vm_compute; by eexists|].
  assert (∀ x y, x ∈ [x1; x2] → y ∈ [x1; x2] →
    entry_for (lb_name c x) (two_entries (env_world e))
    = entry_for (lb_name c y) (two_entries (env_world e)) → x = y) as Hdiff.
  { intros x y Hx Hy Heq. rewrite !elem_of_cons in Hx, Hy.
    destruct Hx as [->|[->|[]%elem_of_nil]], Hy as [->|[->|[]%elem_of_nil]]; try reflexivity;
      exfalso; vm_compute in Heq; discriminate Heq. }
  assert (calls_made (H := key_order) c [(x1, true); (x1, false); (x2, true)] e e3) as Hcalls.
  { exists e1. split; [|exists e2; split; [|exists e3; split; [|reflexivity]]]; left;
      (eexists; split; [apply surjective_pairing|]);
      (split; [intros Ht; first [discriminate Ht|vm_compute; by eexists]
              |intros [? Ho]; vm_compute in Ho; first [reflexivity|discriminate Ho]]). }
  pose proof (services_converge (H := key_order) c two_state two_entries [x1; x2]
    [(x1, true); (x1, false); (x2, true)] e e3
    TwoSdk_effects TwoSdk_identity TwoSdk_atomic TwoSdk_apart TwoSdk_listing Hxs Hdiff
    ltac:(by_decision) Hcalls) as H.
  split.
  - destruct (H x1) as (i & Hi & _ & _ & _ & Hs); [by_decision|].
    assert (Some i = Some store_id) as [= ->] by (rewrite <- Hi; reflexivity).
    apply Hs. right. left. split; [by_decision|by left].
  - destruct (H x2) as (i & Hi & _ & _ & _ & Hs); [by_decision|].
    assert (Some i = Some second_id) as [= ->] by (rewrite <- Hi; reflexivity).
    apply Hs. right. left. split; [by_decision|by left].
Defined.
