(* ===== verification/Creation.v ===== *)
(** * Creation: a created load balancer is the one the service asks for

    [created] says what the VPC service stores for a request to create a load
    balancer, [SdkCreates] that an SDK has this effect, [VpcV1Creates] what the
    client promises for it; the Gen2 SDK passes it on.  What EnsureLoadBalancer
    creates is then in sync with the service, so that the calls that follow
    have nothing to change. *)
From S2P Require Import Prelude GoStrings Kube VpcTypes VpcConfig VpcUpdates UpdateSpec UpdatePlan.
From S2P Require Import VpcSdk StaticVpc VpcLbaas LbaasProps VpcProvider VpcSdkGen2 Gen2Props.
From S2P Require Import LbEffects Gen2Effects Serving StoreVpc Convergence Progress EnsureProps.

Open Scope go_scope.

(** ** The effect of a creation *)

(** Each listener of a new load balancer is a TCP listener. *)
Definition listener_made (name : string) (l : VpcLoadBalancerListener) : Prop :=
  ∃ f, extractFieldsFromPoolName name = Ok f ∧
       lst_Port l = pn_Port f ∧ lst_Protocol l = LoadBalancerProtocolTCP.

(** The pool that is stored for the template of [createOptionsStep]. *)
Definition pool_made (nodes : list string) (options : ServiceOptions) (name : string)
    (pool : VpcLoadBalancerPool) : Prop :=
  ∃ f, extractFieldsFromPoolName name = Ok f ∧
       let template := new_pool nodes options name f in
       pool_Name pool = pp_Name template ∧
       monitored (pp_HealthMonitor template) pool ∧
       Some (pool_ProxyProtocol pool) = pp_ProxyProtocol template ∧
       members_for name nodes (pool_Members pool).

(** The service may keep them in any order. *)
Definition matched {A B} (R : A → B → Prop) (l : list A) (k : list B) : Prop :=
  ∃ k', k' ≡ₚ k ∧ Forall2 R l k'.

Definition created (names nodes : list string) (options : ServiceOptions) (s : LbState) : Prop :=
  matched listener_made names (ls_listeners s) ∧
  matched (pool_made nodes options) names (ls_pools s).

(** The state of the load balancer that is answered. *)
Class SdkCreates {W} (s : CloudVpcSdk W) (state : string → W → LbState) : Prop :=
  creates_made : ∀ n nodes names subnets options w lb w',
    sdk_call s (RCreateLoadBalancer n nodes names subnets options) w = (Ok lb, w') →
    created names nodes options (state (lb_ID lb) w').

Lemma Forall2_elems {A B} (R : A → B → Prop) l k :
  Forall2 R l k → (∀ x, x ∈ l → ∃ y, y ∈ k ∧ R x y) ∧ (∀ y, y ∈ k → ∃ x, x ∈ l ∧ R x y).
Proof.
  induction 1 as [|x y l k Hxy _ [IH1 IH2]]; split; intros z Hz.
  1-2: by apply elem_of_nil in Hz.
  - apply elem_of_cons in Hz as [->|(w & Hw & ?)%IH1]; [exists y|exists w]; set_solver.
  - apply elem_of_cons in Hz as [->|(w & Hw & ?)%IH2]; [exists x|exists w]; set_solver.
Qed.

Lemma matched_elems {A B} (R : A → B → Prop) l k :
  matched R l k → (∀ x, x ∈ l → ∃ y, y ∈ k ∧ R x y) ∧ (∀ y, y ∈ k → ∃ x, x ∈ l ∧ R x y).
Proof. intros (k' & Hk & HR). setoid_rewrite <- Hk. by apply Forall2_elems. Qed.

Section sync.
Context (service : Service) (nodeList : list string)
  (Hports : Forall tcp_port (spec_Ports (svc_Spec service))).
Let ports := spec_Ports (svc_Spec service).

Lemma listener_made_port p l :
  p ∈ ports → listener_made (genLoadBalancerPoolName p) l → isServicePortEqualListener p l = true.
Proof.
  intros Hp (f & Hf & Hport & Hproto). apply (listener_for_port service Hports); [done|].
  exists f. split_and!; [done..|]. rewrite Hproto.
  rewrite (port_name_fields service Hports) in Hf by done. injection Hf as <-.
  unfold port_fields. by destruct (proj1 (Forall_forall _ _) Hports p Hp) as [-> _].
Qed.

Lemma pool_made_in_sync p pool :
  p ∈ ports →
  pool_made nodeList (getServiceOptions (Some service)) (genLoadBalancerPoolName p) pool →
  pool_in_sync service nodeList p (pool, port_fields p).
Proof.
  intros Hp (f & Hf & Hname & Hmon & Hpr & Hms).
  rewrite (port_name_fields service Hports) in Hf by done. injection Hf as <-.
  split; [split_and!|].
  - done.
  - destruct Hmon. by apply health_monitor_good.
  - by injection Hpr.
  - by apply (members_for_exact service nodeList Hports).
Qed.

Lemma created_all_in_sync s :
  created (genLoadBalancerPoolName <$> ports) nodeList (getServiceOptions (Some service)) s →
  ∃ views, parse_pools (ls_pools s) = Ok views ∧ in_sync service nodeList (ls_listeners s) views.
Proof.
  intros [[Hl1 Hl2]%matched_elems [Hp1 Hp2]%matched_elems].
  assert (∀ pool, pool ∈ ls_pools s → ∃ p, p ∈ ports ∧
    pool_made nodeList (getServiceOptions (Some service)) (genLoadBalancerPoolName p) pool) as Hpools.
  { intros pool (n & (p & -> & Hp)%list_elem_of_fmap & Hm)%Hp2. by exists p. }
  destruct (parse_pools_all (ls_pools s)) as [views Hviews].
  { intros pool (p & _ & f & Hf & Hname & _)%Hpools. rewrite Hname. by exists f. }
  exists views. split; [done|]. pose proof (parse_pools_Ok _ _ Hviews) as [Heq Hpar].
  rewrite <- Heq in Hp1, Hpools. rewrite Forall_forall in Hpar.
  assert (∀ v p, v ∈ views → p ∈ ports →
    pool_made nodeList (getServiceOptions (Some service)) (genLoadBalancerPoolName p) v.1 →
    v.2 = port_fields p) as Hfields.
  { intros v p Hv Hp (f & _ & Hname & _). specialize (Hpar v Hv). unfold parsed in Hpar.
    rewrite Hname in Hpar. cbn in Hpar. rewrite (port_name_fields service Hports) in Hpar by done.
    by injection Hpar. }
  split_and!.
  - intros l (n & (p & -> & Hp)%list_elem_of_fmap & Hm)%Hl2. exists p. split; [done|].
    by apply listener_made_port.
  - intros v Hv. destruct (Hpools v.1) as (p & Hp & Hm); [by apply list_elem_of_fmap_2|].
    exists p. split; [done|]. pose proof (Hfields v p Hv Hp Hm) as Hf. destruct v as [pool f].
    cbn in Hm, Hf. subst f. by apply pool_made_in_sync.
  - intros p Hp. split.
    + destruct (Hp1 (genLoadBalancerPoolName p)) as (pool & Hpool & Hm); [by apply list_elem_of_fmap_2|].
      apply list_elem_of_fmap in Hpool as (v & -> & Hv). exists v. split; [done|].
      rewrite (Hfields v p Hv Hp Hm). apply isServicePortEqualPoolName_self.
      by apply (proj1 (Forall_forall _ _) Hports).
    + destruct (Hl1 (genLoadBalancerPoolName p)) as (l & Hl & Hm); [by apply list_elem_of_fmap_2|].
      exists l. split; [done|]. by apply listener_made_port.
Qed.
End sync.

(** ** The Gen2 SDK *)

(** A client that stores the listeners and pools of a creation request. *)
Definition listener_stored (proto : ListenerPrototype) (l : sdk_LoadBalancerListener) : Prop :=
  sl_Port l = Some (lp_Port proto) ∧ sl_Protocol l = Some (lp_Protocol proto).

Class VpcV1Creates {W Patch} (client : VpcV1 W Patch) (state : string → W → ClientState) : Prop :=
  cl_creates : ∀ o w x w', cl_CreateLoadBalancer o w = (Ok x, w') →
    let s := state (SafePointerString (slb_ID x)) w' in
    matched listener_stored (co_Listeners o) (cs_listeners s) ∧
    matched pool_stored (co_Pools o) (cs_pools s).

(** The map of a pool that is stored for the template of a name. *)
Lemma pool_stored_made nodes options name f e :
  extractFieldsFromPoolName name = Ok f → entry_wf e →
  pool_stored (new_pool nodes options name f) e → pool_made nodes options name (map_entry e).
Proof.
  intros Hf He (Hname & Hmon & Hproxy & Hms). exists f. split; [done|].
  rewrite map_entry_wf by done. cbn zeta. split_and!.
  - cbn. by rewrite Hname.
  - by apply monitor_monitored.
  - cbn. by rewrite Hproxy.
  - cbn. by eapply members_stored.
Qed.

Lemma Forall2_zip {A B C D} (g : A → B → C) (P : A → B → Prop) (R : C → D → Prop) (Q : A → D → Prop) l fs k :
  (∀ n f x, P n f → R (g n f) x → x ∈ k → Q n x) →
  Forall2 P l fs → Forall2 R (zip_with g l fs) k → Forall2 Q l k.
Proof.
  intros HQ HP. revert k HQ. induction HP as [|n f l fs Hp HP IH]; intros k HQ HR; inversion HR; subst.
  { constructor. }
  constructor; [apply (HQ n f); [done|done|left]|]. apply IH; [|done].
  intros n' f' x' ???. apply (HQ n' f'); [done|done|by right].
Qed.

Lemma mapM_fields names fs :
  mapM extractFieldsFromPoolName names = Ok fs →
  Forall2 (λ n f, extractFieldsFromPoolName n = Ok f) names fs.
Proof.
  revert fs. induction names as [|n names IH]; intros fs; cbn; [by intros [= <-]|].
  destruct (extractFieldsFromPoolName n) as [f| |] eqn:Hf; [|done..]. cbn.
  destruct (mapM _ names) as [fs'| |]; [|done..]. intros [= <-]. constructor; [done|by apply IH].
Qed.

Lemma gen2_creates {W Patch} `{!Clock W} {client : VpcV1 W Patch} state
    `{!∀ i, VpcV1Effects client i (state i)} `{!VpcV1Creates client state}
    resourceGroupID url_start fuel :
  SdkCreates (VpcSdkGen2 resourceGroupID url_start fuel) (λ i w, map_state (state i w)).
Proof.
  intros n nodes names subnets options w lb w'. cbn [sdk_call sdk_CreateLoadBalancer VpcSdkGen2].
  intros (o & w1 & [= Ho ->] & Hrun)%bind_Ok.
  apply bind_Ok in Hrun as (x & w2 & Hx & [= <- ->]). unfold createOptions in Ho.
  pose proof (createOptions_loop nodes options names [] []) as Hloop.
  destruct (mapM _ names) as [fs|e|why] eqn:Hfs; [| |done]; rewrite Hloop in Ho; [|done].
  injection Ho as <-. apply mapM_fields in Hfs.
  destruct (cl_creates _ _ _ _ Hx) as [(ls & Hls & HL) (es & Hes & HE)]. cbn in HL, HE. split.
  - eexists (mapLoadBalancerListener <$> ls). cbn. split; [by rewrite Hls|].
    apply Forall2_fmap_r. eapply (Forall2_zip new_listener); [|exact Hfs|exact HL].
    intros m f l Hf [Hport Hproto] _. exists f. cbn. by rewrite Hport, Hproto.
  - eexists (map_entry <$> es). cbn. split; [by rewrite Hes|].
    apply Forall2_fmap_r. eapply (Forall2_zip (new_pool nodes options)); [|exact Hfs|exact HE].
    intros m f e Hf He Hin. apply (pool_stored_made nodes options m f e Hf); [|exact He].
    pose proof (cw_pools _ (ce_wf (lbID := SafePointerString (slb_ID x)) w')) as Hwf.
    rewrite Forall_forall in Hwf. apply Hwf. by rewrite <- Hes.
Qed.

(** The store creates what it is asked for. *)
Lemma made_pools protos v :
  let v' := fold_left (λ v proto, (make_pool proto v).2) protos v in
  ∃ es, cs_pools v' = cs_pools v ++ es ∧ Forall2 pool_stored protos es ∧
        cs_listeners v' = cs_listeners v.
Proof.
  revert v. induction protos as [|proto protos IH]; intros v; cbv zeta in *; cbn [fold_left].
  { exists []. by rewrite app_nil_r. }
  destruct (IH (make_pool proto v).2) as (es & Hp & HR & Hl). rewrite Hp, Hl.
  cbn [make_pool snd cs_pools cs_listeners]. eexists (_ :: es). rewrite <- (assoc_L (++)). split_and!; [done| |done]. constructor; [|done].
  split_and!; [done|by apply make_monitor_stored|done|apply make_members_stored].
Qed.

Lemma made_listeners protos v :
  let v' := fold_left (λ v proto, (make_listener proto v).2) protos v in
  ∃ ls, cs_listeners v' = cs_listeners v ++ ls ∧ Forall2 listener_stored protos ls ∧
        cs_pools v' = cs_pools v.
Proof.
  revert v. induction protos as [|proto protos IH]; intros v; cbv zeta in *; cbn [fold_left].
  { exists []. by rewrite app_nil_r. }
  destruct (IH (make_listener proto v).2) as (ls & Hl & HR & Hp). rewrite Hp, Hl.
  cbn [make_listener snd cs_pools cs_listeners]. eexists (_ :: ls). rewrite <- (assoc_L (++)). split_and!; [done| |done]. by constructor.
Qed.

#[export] Instance StoreClient_creates : VpcV1Creates StoreClient stored_at.
Proof.
  intros o w x w'. cbn [StoreClient cl_CreateLoadBalancer]. destruct (present _); [done|].
  intros Hc. pose proof (commit_Ok _ _ _ _ _ Hc) as Hw. unfold commit in Hc.
  rewrite decide_True in Hc by done. unfold make_lb in Hc.
  case_match; [|done]. injection Hc as <- _.
  change (stored_at (SafePointerString (slb_ID (show_lb _))) w') with (store_state w'). rewrite Hw.
  unfold make_lb. cbn [snd].
  destruct (made_pools (co_Pools o) nothing) as (es & Hp & HE & Hn).
  destruct (made_listeners (co_Listeners o)
    (fold_left (λ v proto, (make_pool proto v).2) (co_Pools o) nothing)) as (ls & Hl & HL & Hsame).
  rewrite Hl, Hsame, Hp, Hn. split; by eexists.
Qed.
#[export] Instance StoreSdk_creates : SdkCreates StoreSdk (λ i w, map_state (stored_at i w)).
Proof. apply gen2_creates; apply _. Qed.
#[export] Instance StoreSdk_effects_at lbID :
  SdkEffects StoreSdk lbID (λ w, map_state (stored_at lbID w)).
Proof. apply gen2_effects. Qed.

(** ** EnsureLoadBalancer *)

(** The request that makes a load balancer. *)
Lemma CreateLoadBalancer_request {W} `{!MapIteration} (c : CloudVpc W) lbName service nodes e lb e' :
  CreateLoadBalancer c lbName (Some service) (Some nodes) e = (Ok lb, e') →
  let options := getServiceOptions (Some service) in
  Forall (λ p, sp_Protocol p = ProtocolTCP) (spec_Ports (svc_Spec service)) ∧ ∃ w subnets,
    sdk_call (cv_Sdk c) (RCreateLoadBalancer lbName (getNodeIDs (selectNodes service options nodes))
      (genLoadBalancerPoolName <$> spec_Ports (svc_Spec service)) subnets options) w
    = (Ok lb, env_world e').
Proof.
  intros Hrun options. unfold CreateLoadBalancer in Hrun. case_bool_decide; [done|].
  apply bind_Ok in Hrun as (options' & e1 & Hv & Hrun). unfold lift in Hv.
  destruct (validateService_cases service) as [[Htcp Hok]|[[err Herr] _]]; [|by rewrite Herr in Hv].
  rewrite Hok in Hv. injection Hv as <- _. split; [done|].
  apply bind_Ok in Hrun as (subnets & e2 & _ & Hrun).
  destruct (filterSubnetsByName _ _) as [|subnet0 l]; [done|].
  apply bind_Ok in Hrun as (subnetList & e3 & _ & Hrun). fold options in Hrun.
  case_bool_decide; [done|]. apply bind_Ok in Hrun as (poolList & e4 & [= <- ->] & Hrun).
  unfold sdk in Hrun. destruct (sdk_CreateLoadBalancer _ _ _ _ _ _) as [r w] eqn:Hr.
  injection Hrun as -> <-. by exists (env_world e4), subnetList.
Qed.

Section creates.
Context {W : Type} `{!Clock W} `{!MapIteration} (c : CloudVpc W) (lbName : string)
  (service : Service) (nodes : list Node).
Let nodeList := getNodeIDs (selectNodes service (getServiceOptions (Some service)) nodes).

Lemma ensure_creates e e1 status e' :
  FindLoadBalancer c lbName (Some service) e = (Ok None, e1) →
  EnsureLoadBalancer c lbName service (Some nodes) e = (Ok status, e') →
  ∃ lb, status = GetLoadBalancerStatus service lb ∧
        CreateLoadBalancer c lbName (Some service) (Some nodes) e1 = (Ok lb, e').
Proof.
  intros Hfind Hrun. assert (attempt (FindLoadBalancer c lbName (Some service)) e
    = (Ok (inl None), e1)) as Ha by by unfold attempt; rewrite Hfind.
  unfold EnsureLoadBalancer in Hrun. rewrite (run_Ok _ _ _ _ _ Ha) in Hrun.
  apply bind_Ok in Hrun as ([lb|err] & e2 & Hc & Hrun);
    [|by apply fail_with_event_fails in Hrun].
  unfold attempt in Hc. destruct (CreateLoadBalancer _ _ _ _ e1) as [[x|x|x] e3]; try done.
  injection Hc as -> ->. exists lb. unfold ensureExisting in Hrun.
  destruct (IsReady lb); cbn [orb negb] in Hrun; [by injection Hrun as <- ->|].
  destruct (negb (IsNLB lb)); [by injection Hrun as <- ->|].
  by apply fail_with_event_fails in Hrun.
Qed.

Lemma creation_in_sync state e lb e' :
  SdkCreates (cv_Sdk c) state → Forall valid_port (spec_Ports (svc_Spec service)) →
  CreateLoadBalancer c lbName (Some service) (Some nodes) e = (Ok lb, e') →
  let s' := state (lb_ID lb) (env_world e') in
  ∃ views, parse_pools (ls_pools s') = Ok views ∧ in_sync service nodeList (ls_listeners s') views.
Proof.
  intros Hmade Hvalid (Htcp & w & subnets & Hr%Hmade)%CreateLoadBalancer_request.
  apply created_all_in_sync; [|done]. apply Forall_forall. rewrite !Forall_forall in Hvalid, Htcp.
  intros p Hp. split; auto.
Qed.
End creates.

(** ** Properties *)

(** C5: what EnsureLoadBalancer creates needs no update.  When no load balancer
    is found and the call succeeds, the load balancer whose status it answers
    is in sync with the service and the selected nodes - pools, members, health
    monitors, proxy protocol and listeners - so that every later successful
    call of EnsureLoadBalancer or EnsureLoadBalancerUpdated that finds it so
    leaves it unchanged. *)
Theorem EnsureLoadBalancer_creates {W} `{!Clock W} `{!MapIteration} (c : CloudVpc W) state lbName
    service nodes e e1 status e' :
  (∀ lbID, SdkEffects (cv_Sdk c) lbID (state lbID)) → SdkIdentity (cv_Sdk c) →
  SdkCreates (cv_Sdk c) state →
  let nodeList := getNodeIDs (selectNodes service (getServiceOptions (Some service)) nodes) in
  Forall valid_port (spec_Ports (svc_Spec service)) → unique_ports service →
  Forall token nodeList →
  FindLoadBalancer c lbName (Some service) e = (Ok None, e1) →
  EnsureLoadBalancer c lbName service (Some nodes) e = (Ok status, e') →
  ∃ lb, CreateLoadBalancer c lbName (Some service) (Some nodes) e1 = (Ok lb, e') ∧
    status = GetLoadBalancerStatus service lb ∧
    let s' := state (lb_ID lb) (env_world e') in
    (∃ views, parse_pools (ls_pools s') = Ok views ∧
              in_sync service nodeList (ls_listeners s') views) ∧
    ∀ e2 lb2 e3 e4,
      state (lb_ID lb) (env_world e2) = s' → lb_ID lb2 = lb_ID lb →
      FindLoadBalancer c lbName (Some service) e2 = (Ok (Some lb2), e3) →
      ensured c lbName service nodes e2 e4 → state (lb_ID lb) (env_world e4) = s'.
Proof.
  intros Heff Hident Hmade nodeList Hvalid Hunique Htoken Hfind Hrun.
  destruct (ensure_creates c lbName service nodes e e1 status e' Hfind Hrun) as (lb & -> & Hc).
  exists lb. split; [done|]. split; [done|].
  destruct (creation_in_sync c lbName service nodes state e1 lb e' Hmade Hvalid Hc)
    as (views & Hviews & Hsync).
  split; [by exists views|]. intros e2 lb2 e3 e4 He2 Hid Hfind2 Hens2.
  specialize (Heff (lb_ID lb)). rewrite <- He2 in Hviews, Hsync |- *.
  by eapply (ensured_kept c lb (state (lb_ID lb)) lbName service nodes).
Qed.

Definition empty_store : StoreVpc :=
  {| store_part := dexist nothing (bool_decide_unpack (client_wf nothing) I);
     store_busy := 0%fin; store_time := 0 |}.

(** A store without a load balancer, and a service with two ports that asks for
    the proxy protocol. *)
Lemma EnsureLoadBalancer_creates_witness :
  let service := example_service "u" [(80, 30500); (81, 30304)]%Z
    {["service.kubernetes.io/ibm-load-balancer-cloud-provider-enable-features" := "proxy-protocol"]} in
  let nodes := [example_node "n1" "10.0.0.1" "z1"; example_node "n2" "10.0.0.2" "z2"] in
  let c := {| cv_Config := example_config; cv_Sdk := StoreSdk; cv_Recorder := true |} in
  let e := {| env_world := empty_store; env_events := []; env_draws := 0 |} in
  ∃ status e', EnsureLoadBalancer (H := key_order) c "kube-cluster-1" service (Some nodes) e
               = (Ok status, e') ∧
    let s' := map_state (store_state (env_world e')) in
    length (ls_listeners s') = 2 ∧
    ∃ views, parse_pools (ls_pools s') = Ok views ∧
      in_sync service ["10.0.0.1"; "10.0.0.2"] (ls_listeners s') views.
Proof.
  intros service nodes c e.
  destruct (EnsureLoadBalancer (H := key_order) c "kube-cluster-1" service (Some nodes) e)
    as [r e'] eqn:Hrun.
  assert (r = (EnsureLoadBalancer (H := key_order) c "kube-cluster-1" service (Some nodes) e).1)
    as Hr by by rewrite Hrun.
  assert (e' = (EnsureLoadBalancer (H := key_order) c "kube-cluster-1" service (Some nodes) e).2)
    as He by by rewrite Hrun.
  destruct r as [status| |].
  2-3: exfalso; vm_compute in Hr; discriminate Hr.
  exists status, e'. split; [done|]. split; [rewrite He; by vm_compute|].
  destruct (EnsureLoadBalancer_creates (H := key_order) c (λ i w, map_state (stored_at i w))
    "kube-cluster-1" service nodes e e status e' _ StoreSdk_identity StoreSdk_creates)
    as (lb & _ & _ & (views & Hviews & Hsync) & _); [by_decision..|reflexivity|exact Hrun|].
  destruct (decide (lb_ID lb = store_id)) as [Hid|Hid].
  - rewrite Hid in Hviews, Hsync. exact (ex_intro _ views (conj Hviews Hsync)).
  - exfalso. destruct Hsync as (_ & _ & Hall). unfold stored_at in Hall.
    rewrite decide_False in Hall by done.
    destruct (Hall {| sp_Protocol := ProtocolTCP; sp_Port := 80; sp_NodePort := 30500 |})
      as [_ (l & Hl & _)]; [by left|by apply elem_of_nil in Hl].
Defined.
