(* ===== verification/Provision.v ===== *)
(** * Provision: a service without a load balancer gets one

    Creation says what a successful EnsureLoadBalancer has created.  Here the
    VPC service answers what its rules admit ([SdkAdmits]), and then the load
    balancer is created: for a valid service there is no other outcome. *)
From S2P Require Import Prelude GoStrings Kube VpcTypes VpcConfig VpcUpdates UpdateSpec UpdatePlan.
From S2P Require Import VpcSdk StaticVpc VpcLbaas LbaasProps VpcProvider VpcSdkGen2 Gen2Props.
From S2P Require Import LbEffects Gen2Effects Serving StoreVpc Convergence Progress EnsureProps Creation.

Open Scope go_scope.

(** ** A service that admits creations *)

(** The pools of a new load balancer have names that parse, and its listeners
    different ports. *)
Definition pool_names_ok (names : list string) : Prop :=
  ∃ fs, mapM extractFieldsFromPoolName names = Ok fs ∧ NoDup (pn_Port <$> fs).

(** [vacant n]: a load balancer with the name [n] can be created. *)
Class SdkAdmits {W} (s : CloudVpcSdk W) (vacant : string → W → Prop) : Prop := {
  admits_subnets : ∀ w, answers (@sdk_ListSubnets W s) w;
  admits_vacant : ∀ n w l w', @sdk_ListSubnets W s w = (Ok l, w') → vacant n w → vacant n w';
  admits_create : ∀ n nodes names subnets options w, vacant n w →
    Forall token nodes → pool_names_ok names →
    answers (sdk_call s (RCreateLoadBalancer n nodes names subnets options)) w;
}.

(** The same of the client. *)
Class VpcV1Admits {W Patch} (client : VpcV1 W Patch) (vacant : string → W → Prop) : Prop := {
  va_subnets_vacant : ∀ n start w o w', cl_ListSubnets start w = (o, w') →
    vacant n w → vacant n w';
  va_create : ∀ o w, vacant (co_Name o) w →
    Forall (λ p, Forall (λ m, token (mp_Address m)) (pp_Members p)) (co_Pools o) →
    NoDup (pp_Name <$> co_Pools o) → NoDup (lp_Port <$> co_Listeners o) →
    answers (cl_CreateLoadBalancer o) w;
}.

Lemma mapM_length names fs : mapM extractFieldsFromPoolName names = Ok fs → length names = length fs.
Proof. intros Hfs%mapM_fields. by apply Forall2_length in Hfs. Qed.

Lemma mapM_ports ports :
  Forall tcp_port ports →
  mapM extractFieldsFromPoolName (genLoadBalancerPoolName <$> ports) = Ok (port_fields <$> ports).
Proof.
  induction 1 as [|p ports Hp Hports IH]; [done|]. rewrite !fmap_cons. cbn [mapM].
  rewrite extract_gen_pool_name; [|left; by destruct Hp as [-> _]|by destruct Hp].
  cbn [mbind outcome_bind]. by rewrite IH.
Qed.

(** Names with different ports are different. *)
Lemma names_NoDup names fs :
  mapM extractFieldsFromPoolName names = Ok fs → NoDup (pn_Port <$> fs) → NoDup names.
Proof.
  intros Hfs%mapM_fields. induction Hfs as [|n f names fs Hn Hfs IH]; [constructor|].
  cbn [fmap list_fmap]. intros [Hport Hnd]%NoDup_cons. constructor; [|by apply IH].
  intros Hin. apply Hport. destruct (proj1 (Forall2_elems _ _ _ Hfs) n Hin) as (g & Hg & Hng).
  rewrite Hn in Hng. injection Hng as <-. by apply list_elem_of_fmap_2.
Qed.

Lemma zip_fmap_l {A B C D} (g : A → B → C) (h : C → D) (k : A → D) l fs :
  length l = length fs → (∀ a b, h (g a b) = k a) → h <$> zip_with g l fs = k <$> l.
Proof.
  intros Hlen Hh. revert fs Hlen. induction l as [|a l IH]; intros [|b fs] Hlen; try done.
  cbn. rewrite Hh. f_equal. apply IH. by injection Hlen.
Qed.
Lemma zip_fmap_r {A B C D} (g : A → B → C) (h : C → D) (k : B → D) l fs :
  length l = length fs → (∀ a b, h (g a b) = k b) → h <$> zip_with g l fs = k <$> fs.
Proof.
  intros Hlen Hh. revert fs Hlen. induction l as [|a l IH]; intros [|b fs] Hlen; try done.
  cbn. rewrite Hh. f_equal. apply IH. by injection Hlen.
Qed.

Section gen2.
Context {W Patch : Type} {client : VpcV1 W Patch} {vacant : string → W → Prop}
  `{!VpcV1Admits client vacant}
  (resourceGroupID : string) (url_start : string → outcome string) (fuel : nat).

Lemma pages_vacant {A B} n (list_page : option string → M W (sdk_Page A)) (f : A → B) start acc m w o w' :
  (∀ start w o w', list_page start w = (o, w') → vacant m w → vacant m w') →
  listPages url_start n list_page f start acc w = (o, w') → vacant m w → vacant m w'.
Proof.
  intros Hpage. revert start acc w. induction n as [|n IH]; intros start acc w.
  { by intros [= _ <-]. }
  cbn [listPages]. intros [(page & w1 & Hp & Hrun)|(r & Hp & _)]%bind_cases Hv;
    [|by eapply Hpage].
  assert (vacant m w1) as Hv1 by by eapply Hpage.
  destruct (pg_Next page) as [[href|]|]; [|by injection Hrun as _ <-..].
  apply bind_cases in Hrun as [(next & w2 & [= _ <-] & Hrun)|(r & [= _ <-] & _)]; [|done].
  by eapply IH.
Qed.

Lemma gen2_admits :
  (∀ w, answers (Gen2_ListSubnets url_start fuel) w) →
  SdkAdmits (VpcSdkGen2 resourceGroupID url_start fuel) vacant.
Proof.
  intros Hsubnets. split.
  - exact Hsubnets.
  - intros n w l w'. apply pages_vacant. intros start w1 o w2. apply va_subnets_vacant.
  - intros n nodes names subnets options w Hv Hnodes (fs & Hfs & Hports).
    cbn [sdk_call sdk_CreateLoadBalancer VpcSdkGen2].
    pose proof (createOptions_spec resourceGroupID n nodes names subnets options) as Ho.
    rewrite Hfs in Ho. pose proof (mapM_length _ _ Hfs) as Hlen.
    apply answers_bind; [apply answers_lift; rewrite Ho; by eexists|].
    intros o w' [= Ho' <-]. rewrite Ho in Ho'. injection Ho' as <-.
    apply answers_bind; [|intros; apply answers_ret]. apply va_create; cbn.
    + done.
    + apply Forall_forall. intros p Hp. apply elem_of_lookup_zip_with in Hp as (i & m & f & -> & _).
      cbn. by rewrite Forall_fmap.
    + rewrite (zip_fmap_l _ _ id), list_fmap_id by done. by eapply names_NoDup.
    + by rewrite (zip_fmap_r _ _ pn_Port).
Qed.
End gen2.

(** The store admits them. *)
Lemma made_pools_wf protos v :
  client_wf v → Forall (λ p, Forall (λ m, token (mp_Address m)) (pp_Members p)) protos →
  NoDup ((pool_Name <$> ls_pools (map_state v)) ++ (pp_Name <$> protos)) →
  client_wf (fold_left (λ v proto, (make_pool proto v).2) protos v).
Proof.
  intros Hv Hms. revert v Hv. induction Hms as [|proto protos Hm Hms IH]; intros v Hv Hnd; [done|].
  cbn [fold_left]. apply IH.
  - apply make_pool_wf; [done..|]. intros pool Hpool Heq.
    apply NoDup_app in Hnd as (_ & Hnd & _). apply (Hnd (pool_Name pool)); [by apply list_elem_of_fmap_2|].
    rewrite Heq. left.
  - cbn. cbn in Hnd. rewrite !fmap_app, <- (assoc_L (++)). exact Hnd.
Qed.
Lemma made_listeners_wf protos v :
  client_wf v → client_wf (fold_left (λ v proto, (make_listener proto v).2) protos v).
Proof.
  revert v. induction protos as [|proto protos IH]; intros v Hv; [done|].
  cbn [fold_left]. by apply IH, make_listener_wf.
Qed.

Definition store_vacant (n : string) (w : StoreVpc) : Prop := present (store_state w) = false.

#[export] Instance StoreClient_admits : VpcV1Admits StoreClient store_vacant.
Proof.
  split.
  - by intros n start w o w' [-> _]%query_Ok.
  - intros o w Hv Hms Hnames _. unfold store_vacant in Hv. unfold answers.
    cbn [StoreClient cl_CreateLoadBalancer]. rewrite Hv.
    apply commit_answers. apply made_listeners_wf, made_pools_wf; [|done..].
    exact (bool_decide_unpack (client_wf nothing) I).
Qed.
#[export] Instance StoreSdk_admits : SdkAdmits StoreSdk store_vacant.
Proof. apply gen2_admits. intros w. by eexists _, w. Qed.

(** ** EnsureLoadBalancer *)

Section provision.
Context {W : Type} `{!Clock W} `{!MapIteration} (c : CloudVpc W).

(** The subnets of a new load balancer can be chosen from the answer of
    ListSubnets: some of the configured subnets are there, and the subnets or
    the zone that the service asks for are. *)
Definition choosable (service : Service) (subnets : list VpcSubnet) : Prop :=
  let options := getServiceOptions (Some service) in
  let vpcSubnets := filterSubnetsByVpcName subnets (cfg_VpcName (cv_Config c)) in
  let clusterSubnets := filterSubnetsByName vpcSubnets (cfg_SubnetNames (cv_Config c)) in
  ∃ first rest, clusterSubnets = first :: rest ∧
    if decide (options_getServiceSubnets options ≠ "") then
      ∀ d, is_Ok (validateServiceSubnets d service (options_getServiceSubnets options)
                    (ref_ID (sub_Vpc first)) vpcSubnets)
    else if decide (getServiceZone options ≠ "") then
      ∃ s, s ∈ clusterSubnets ∧ sub_Zone s = getServiceZone options
    else True.

Lemma choose_answers {B} service first rest vpcSubnets (k : list string → M (Env W) B) e :
  let options := getServiceOptions (Some service) in
  (if decide (options_getServiceSubnets options ≠ "") then
     ∀ d, is_Ok (validateServiceSubnets d service (options_getServiceSubnets options)
                   (ref_ID (sub_Vpc first)) vpcSubnets)
   else if decide (getServiceZone options ≠ "") then
     ∃ s, s ∈ first :: rest ∧ sub_Zone s = getServiceZone options
   else True) →
  (∀ l e', env_world e' = env_world e → answers (k l) e') →
  answers
    (l ← (if bool_decide (options_getServiceSubnets options ≠ "") then
            let vpcID := ref_ID (sub_Vpc first) in
            d ← draw;
            lift (validateServiceSubnets d service (options_getServiceSubnets options) vpcID vpcSubnets)
          else if bool_decide (getServiceZone options ≠ "") then
            lift (validateServiceZone service (getServiceZone options) (first :: rest))
          else mret (getSubnetIDs (first :: rest)));
     k l) e.
Proof.
  intros options Hchoice Hk. destruct (decide (options_getServiceSubnets options ≠ "")) as [Ha|Ha].
  { rewrite bool_decide_eq_true_2 by done. destruct (Hchoice (env_draws e)) as [l Hl].
    destruct (Hk l {| env_world := env_world e; env_events := env_events e;
                      env_draws := S (env_draws e) |} eq_refl) as (b & e2 & Hb).
    exists b, e2. cbv zeta. unfold mbind, M_bind, draw, lift. by rewrite Hl. }
  rewrite bool_decide_eq_false_2 by done.
  destruct (decide (getServiceZone options ≠ "")) as [Hz|Hz].
  - rewrite bool_decide_eq_true_2 by done. destruct Hchoice as (s & Hs & Hzone).
    apply answers_bind; [|intros l e' [= _ <-]; by apply Hk]. apply answers_lift.
    unfold validateServiceZone. case_bool_decide as Hlen; [|by eexists]. exfalso.
    apply nil_length_inv, fmap_nil_inv in Hlen. apply (not_elem_of_nil s). rewrite <- Hlen.
    by apply list_elem_of_filter.
  - rewrite bool_decide_eq_false_2 by done. by apply Hk.
Qed.

Lemma create_answers vacant lbName service nodes e :
  SdkAdmits (cv_Sdk c) vacant → lbName ≠ "" →
  Forall tcp_port (spec_Ports (svc_Spec service)) → unique_ports service →
  let nodes' := selectNodes service (getServiceOptions (Some service)) nodes in
  nodes' ≠ [] → Forall token (getNodeIDs nodes') → vacant lbName (env_world e) →
  (∀ l w, @sdk_ListSubnets W (cv_Sdk c) (env_world e) = (Ok l, w) → choosable service l) →
  answers (CreateLoadBalancer c lbName (Some service) (Some nodes)) e.
Proof.
  intros Hadmits Hname Hports Hunique nodes' Hnodes Htokens Hvacant Hchoose.
  unfold CreateLoadBalancer. rewrite bool_decide_eq_false_2 by done.
  destruct (validateService_cases service) as [[_ ->]|[_ []]].
  2: { eapply Forall_impl; [exact Hports|]. by intros p []. }
  apply answers_bind; [apply answers_lift; by eexists|]. intros options e0 [= <- <-].
  destruct (admits_subnets (SdkAdmits := Hadmits) (env_world e)) as (l & w & Hl).
  apply answers_bind; [exists l, (set_world w e); unfold sdk; by rewrite Hl|].
  intros l' e1 Hl'. unfold sdk in Hl'. rewrite Hl in Hl'. injection Hl' as <- <-.
  destruct (Hchoose l w Hl) as (first & rest & Hcluster & Hchoice). cbn zeta. rewrite Hcluster.
  rewrite Hcluster in Hchoice. apply choose_answers; [exact Hchoice|]. intros subnets e2 He2.
  rewrite bool_decide_eq_false_2 by by intros ?%nil_length_inv.
  apply answers_bind; [apply answers_lift; by eexists|]. intros names e3 [= <- <-].
  pose proof (admits_vacant _ _ _ _ Hl Hvacant) as Hv. cbn in He2. rewrite <- He2 in Hv.
  destruct (admits_create (SdkAdmits := Hadmits) lbName (getNodeIDs nodes')
    (genLoadBalancerPoolName <$> spec_Ports (svc_Spec service)) subnets
    (getServiceOptions (Some service)) (env_world e2) Hv Htokens) as (lb & w3 & Hlb).
  { exists (port_fields <$> spec_Ports (svc_Spec service)). split.
    - by apply mapM_ports.
    - rewrite <- list_fmap_compose. exact Hunique. }
  exists lb, (set_world w3 e2). exact (f_equal (λ '(r, w0), (r, set_world w0 e2)) Hlb).
Qed.
End provision.

(** ** Properties *)

(** C6: a service without a load balancer gets one.  When none is found, its
    name is free, the service has TCP ports with different numbers, there are
    nodes for it and its subnets can be chosen, then over an SDK that admits
    what its rules allow the load balancer is created and is in sync with the
    service and its nodes.  EnsureLoadBalancer answers its status - except for
    a network load balancer that is not ready yet, which is an error, for the
    controller to call again. *)
Theorem EnsureLoadBalancer_provisions {W} `{!Clock W} `{!MapIteration} (c : CloudVpc W) state vacant
    lbName service nodes e e1 :
  SdkCreates (cv_Sdk c) state → SdkAdmits (cv_Sdk c) vacant →
  Forall tcp_port (spec_Ports (svc_Spec service)) → unique_ports service →
  let nodes' := selectNodes service (getServiceOptions (Some service)) nodes in
  nodes' ≠ [] → Forall token (getNodeIDs nodes') →
  FindLoadBalancer c lbName (Some service) e = (Ok None, e1) → vacant lbName (env_world e1) →
  (∀ l w, @sdk_ListSubnets W (cv_Sdk c) (env_world e1) = (Ok l, w) → choosable c service l) →
  ∃ lb e2, CreateLoadBalancer c lbName (Some service) (Some nodes) e1 = (Ok lb, e2) ∧
    (let s' := state (lb_ID lb) (env_world e2) in
     ∃ views, parse_pools (ls_pools s') = Ok views ∧
              in_sync service (getNodeIDs nodes') (ls_listeners s') views) ∧
    let run := EnsureLoadBalancer c lbName service (Some nodes) e in
    if IsReady lb || negb (IsNLB lb) then run = (Ok (GetLoadBalancerStatus service lb), e2)
    else is_Err run.1 ∧ env_world run.2 = env_world e2.
Proof.
  intros Hmade Hadmits Hports Hunique nodes' Hnodes Htokens Hfind Hvacant Hchoose.
  assert (lbName ≠ "") as Hname.
  { intros ->. unfold FindLoadBalancer in Hfind. by rewrite bool_decide_eq_true_2 in Hfind. }
  destruct (create_answers c vacant lbName service nodes e1) as (lb & e2 & Hrun); [done..|].
  exists lb, e2. split; [done|]. split.
  { apply (creation_in_sync c lbName service nodes state e1 lb e2 Hmade); [|done].
    eapply Forall_impl; [exact Hports|]. by intros p []. }
  cbv zeta. unfold EnsureLoadBalancer.
  rewrite (run_Ok _ _ e (inl None) e1) by by unfold attempt; rewrite Hfind.
  rewrite (run_Ok _ _ e1 (inl lb) e2) by by unfold attempt; rewrite Hrun.
  destruct (IsReady lb) eqn:Hready; [done|]. cbn [orb]. destruct (negb (IsNLB lb)); [done|].
  unfold ensureExisting. rewrite Hready. cbn [negb].
  unfold fail_with_event, recordServiceWarningEvent.
  destruct (cv_Recorder c); (split; [by eexists|done]).
Qed.

(** A store without a load balancer. *)
Lemma EnsureLoadBalancer_provisions_witness :
  let service := example_service "u" [(80, 30500); (81, 30304)]%Z ∅ in
  let nodes := [example_node "n1" "10.0.0.1" "z1"; example_node "n2" "10.0.0.2" "z2"] in
  let c := {| cv_Config := example_config; cv_Sdk := StoreSdk; cv_Recorder := true |} in
  let e := {| env_world := empty_store; env_events := []; env_draws := 0 |} in
  ∃ status e2, EnsureLoadBalancer (H := key_order) c "kube-cluster-u" service (Some nodes) e
               = (Ok status, e2).
Proof.
  intros service nodes c e.
  destruct (EnsureLoadBalancer_provisions (H := key_order) c (λ i w, map_state (stored_at i w))
    store_vacant "kube-cluster-u" service nodes e e StoreSdk_creates StoreSdk_admits)
    as (lb & e2 & Hc & _ & Hrun); [by_decision..|reflexivity|reflexivity| |].
  - intros l w [= <- _]. exists (mapSubnet store_subnet), [].
    split; [vm_compute; reflexivity|]. vm_compute. exact I.
  - assert (IsReady lb || negb (IsNLB lb) = true) as Hr.
    { assert (CreateLoadBalancer (H := key_order) c "kube-cluster-u" (Some service) (Some nodes) e
        = (Ok lb, e2)) as Hc' by exact Hc.
      apply (f_equal fst) in Hc'. vm_compute in Hc'. injection Hc' as <-. reflexivity. }
    rewrite Hr in Hrun. by eexists _, e2.
Defined.
