(* ===== verification/VpcCloud.v ===== *)
(** * VpcCloud: creating the cloud object (NewCloudVpc and the process-wide
    object of pkg/vpcctl/vpc_provider.go, NewCloudVpcSdk of vpc_sdk_base.go,
    NewVpcSdkGen2 and convertResourceGroupNameToID of vpc_sdk_gen2.go)

    The constructors of the two IBM clients are the class [Gen2Clients].  The
    package variable [NewVpcSdkProvider], which tests replace, is an argument;
    the program leaves it at [NewVpcSdkGen2]. *)
From S2P Require Import Prelude GoStrings Kube VpcTypes VpcConfig VpcSdk VpcProvider VpcSdkFake.
From S2P Require Import VpcSdkGen2.

(** ** The Gen2 SDK *)

(** A resource manager client: the IDs of the resource groups of an account
    with a name. *)
Record ResourceManager (W : Type) := {
  rm_ListResourceGroups (accountID name : string) : M W (list (option string));
}.
Arguments rm_ListResourceGroups {W} r accountID name : rename.

Class Gen2Clients (W Patch : Type) := {
  sdk_NewVpcV1 (apiKey tokenURL url : string) : M W (VpcV1 W Patch);
  sdk_SetTimeout (ns : Z) : VpcV1 W Patch → VpcV1 W Patch;
  rm_DefaultServiceURL : string;
  rm_NewResourceManagerV2 (url apiKey tokenURL : string) : M W (ResourceManager W);
}.

Definition set_resourceGroupID (resourceGroupID : string) (c : ConfigVpc) : ConfigVpc :=
  {| cfg_AccountID := cfg_AccountID c;
     cfg_APIKeySecret := cfg_APIKeySecret c;
     cfg_ClusterID := cfg_ClusterID c;
     cfg_EnablePrivate := cfg_EnablePrivate c;
     cfg_IamEndpointOverride := cfg_IamEndpointOverride c;
     cfg_IKSPrivateEndpointHostname := cfg_IKSPrivateEndpointHostname c;
     cfg_ProviderType := cfg_ProviderType c;
     cfg_Region := cfg_Region c;
     cfg_ResourceGroupName := cfg_ResourceGroupName c;
     cfg_RmEndpointOverride := cfg_RmEndpointOverride c;
     cfg_SubnetNames := cfg_SubnetNames c;
     cfg_WorkerAccountID := cfg_WorkerAccountID c;
     cfg_VpcName := cfg_VpcName c;
     cfg_VpcEndpointOverride := cfg_VpcEndpointOverride c;
     cfg_endpointURL := cfg_endpointURL c;
     cfg_resourceGroupID := resourceGroupID;
     cfg_tokenExchangeURL := cfg_tokenExchangeURL c |}.

Section gen2.
Context {W Patch : Type} `{!Gen2Clients W Patch}.
Context (url_start : string → outcome string) (fuel : nat).

Definition resourceManagerURL (c : ConfigVpc) : string :=
  if bool_decide (cfg_RmEndpointOverride c ≠ "") then cfg_RmEndpointOverride c
  else if contains (cfg_endpointURL c) "iaasdev.cloud.ibm.com"
  then "https://resource-controller.test.cloud.ibm.com"
  else rm_DefaultServiceURL.

(** Returns the configuration with the ID; the source writes through its
    argument. *)
Definition convertResourceGroupNameToID (c : ConfigVpc) : M W ConfigVpc :=
  r ← attempt (rm_NewResourceManagerV2 (resourceManagerURL c) (cfg_APIKeySecret c)
                 (cfg_tokenExchangeURL c));
  match r with
  | inr err =>
      fail (ErrorString ("Failed to create resource manager v2 client: " +:+ error_string err))
  | inl client =>
      r ← attempt (rm_ListResourceGroups client (cfg_AccountID c) (cfg_ResourceGroupName c));
      match r with
      | inr err => fail (ErrorString ("Failed to ListResourceGroups: " +:+ error_string err))
      | inl [resourceGroup] =>
          mret (match resourceGroup with
                | Some id => set_resourceGroupID id c
                | None => c
                end)
      | inl resources =>
          fail (ErrorString (itoa (Z.of_nat (length resources)) +:+
                             " resource groups match name: " +:+ cfg_ResourceGroupName c))
      end
  end.

(** The SDK, and the configuration it shares with the cloud object. *)
Definition NewVpcSdkGen2 (c : ConfigVpc) : M W (ConfigVpc * CloudVpcSdk W) :=
  r ← attempt (sdk_NewVpcV1 (cfg_APIKeySecret c) (cfg_tokenExchangeURL c) (cfg_endpointURL c));
  match r with
  | inr err => fail (ErrorString ("Failed to create SDK client: " +:+ error_string err))
  | inl client =>
      c ← (if bool_decide (cfg_resourceGroupID c = "")
              && bool_decide (cfg_ResourceGroupName c ≠ "")
           then convertResourceGroupNameToID c else mret c);
      let client := sdk_SetTimeout (1000000000 * 90) client in
      mret (c, @VpcSdkGen2 W Patch client (cfg_resourceGroupID c) url_start fuel)
  end.

(** The package variable, as the program leaves it. *)
Definition NewVpcSdkProvider : ConfigVpc → M W (ConfigVpc * CloudVpcSdk W) := NewVpcSdkGen2.
End gen2.

(** ** The process *)

(** The environment, [persistentCloudVpc], and whether the package variable
    [CreateUpdateChan] of package ibm holds a channel. *)
Record Process (W : Type) := {
  ps_env : Env W;
  ps_vpc : option (CloudVpc W);
  ps_chan : bool;
}.
Arguments ps_env {W} p : rename.
Arguments ps_vpc {W} p : rename.
Arguments ps_chan {W} p : rename.
Arguments Build_Process {W}.

Section process.
Context {W : Type} `{!MockHeap W}.

(** Run the cloud logic in the process. *)
Definition in_env {A} (m : M (Env W) A) : M (Process W) A := λ p,
  let '(r, e) := m (ps_env p) in
  (r, {| ps_env := e; ps_vpc := ps_vpc p; ps_chan := ps_chan p |}).

Definition GetCloudVpc : M (Process W) (option (CloudVpc W)) := gets ps_vpc.
Definition SetCloudVpc (vpc : option (CloudVpc W)) : M (Process W) unit :=
  modify (λ p, {| ps_env := ps_env p; ps_vpc := vpc; ps_chan := ps_chan p |}).
Definition ResetCloudVpc : M (Process W) unit := SetCloudVpc None.

Context (NewVpcSdkProvider : ConfigVpc → M W (ConfigVpc * CloudVpcSdk W)).

Definition NewCloudVpcSdk (c : ConfigVpc) : M W (ConfigVpc * CloudVpcSdk W) :=
  if bool_decide (cfg_ProviderType c = VpcProviderTypeGen2) then NewVpcSdkProvider c
  else if bool_decide (cfg_ProviderType c = VpcProviderTypeFake)
  then s ← NewVpcSdkFake; mret (c, s)
  else fail (ErrorString ("Invalid VPC ProviderType: " +:+ cfg_ProviderType c)).

(** Method [initialize] of CloudVpc; it works on the configuration alone. *)
Definition CloudVpc_initialize (config : ConfigVpc) : outcome ConfigVpc := config_initialize config.

(** [config] is [None] for nil; [recorder] says that there is one. *)
Definition NewCloudVpc (config : option ConfigVpc) (recorder : bool)
    : M (Process W) (CloudVpc W) :=
  match config with
  | None => fail (ErrorString "Missing cloud configuration")
  | Some config =>
      config ← lift (CloudVpc_initialize config);
      '(config, s) ← in_env (sdk (NewCloudVpcSdk config));
      let c := {| cv_Config := config; cv_Sdk := s; cv_Recorder := recorder |} in
      _ ← SetCloudVpc (Some c);
      mret c
  end.
End process.

(** ** Properties *)

(** An initialized configuration is of one of the two provider types. *)
Lemma config_cases c :
  match config_initialize c with
  | Ok c' => (cfg_ProviderType c = VpcProviderTypeFake ∧ c' = c) ∨
             (cfg_ProviderType c = VpcProviderTypeGen2 ∧
              cfg_ProviderType c' = VpcProviderTypeGen2)
  | Err _ => True
  | Panic _ => False
  end.
Proof.
  unfold config_initialize. destruct (validate c) as [e|] eqn:Hvalid; [done|].
  case_bool_decide as Hfake; [by left|]. right. unfold validate in Hvalid.
  rewrite (bool_decide_eq_false_2 _ Hfake) in Hvalid.
  destruct (decide (cfg_ProviderType c = VpcProviderTypeGen2)) as [H|H]; [done|].
  rewrite (bool_decide_eq_true_2 _ H) in Hvalid. by case_bool_decide.
Qed.

(** Resolving the resource group asks the resource manager once and succeeds
    exactly if one group has the name; only the ID of the configuration
    changes. *)
Theorem convertResourceGroupNameToID_spec {W Patch} `{!Gen2Clients W Patch}
    (c : ConfigVpc) (w : W) :
  let '(r, w') := convertResourceGroupNameToID c w in
  match rm_NewResourceManagerV2 (resourceManagerURL c) (cfg_APIKeySecret c)
          (cfg_tokenExchangeURL c) w with
  | (Ok client, w1) =>
      w' = (rm_ListResourceGroups client (cfg_AccountID c) (cfg_ResourceGroupName c) w1).2 ∧
      match (rm_ListResourceGroups client (cfg_AccountID c) (cfg_ResourceGroupName c) w1).1 with
      | Ok groups =>
          (is_Ok r ↔ length groups = 1) ∧
          match r with
          | Ok c' => ∃ id, groups = [id] ∧
              c' = set_resourceGroupID (default (cfg_resourceGroupID c) id) c
          | Err _ => length groups ≠ 1
          | Panic _ => False
          end
      | Err _ => is_Err r
      | Panic why => r = Panic why
      end
  | (Err _, w1) => is_Err r ∧ w' = w1
  | (Panic why, w1) => r = Panic why ∧ w' = w1
  end.
Proof.
  unfold convertResourceGroupNameToID, attempt, mbind, M_bind.
  destruct (rm_NewResourceManagerV2 _ _ _ w) as [[client|e|p] w1]; cbn;
    [|split; [by eexists|done]|done].
  destruct (rm_ListResourceGroups _ _ _ w1) as [[groups|e|p] w2]; cbn;
    [|split; [done|by eexists]|done].
  destruct groups as [|[id|] [|]]; cbn; split; try done; split; try done;
    try (split; [by intros []|done]); try (split; [done|by eexists]).
  - by eexists.
  - exists None. split; [done|]. by destruct c.
Qed.

Lemma NewCloudVpc_run {W} `{!MockHeap W} (provider : ConfigVpc → M W (ConfigVpc * CloudVpcSdk W))
    config recorder (p : Process W) :
  let '(r, p') := NewCloudVpc provider config recorder p in
  ps_chan p' = ps_chan p ∧ env_events (ps_env p') = env_events (ps_env p) ∧
  match r with
  | Ok c =>
      ps_vpc p' = Some c ∧ cv_Recorder c = recorder ∧
      ∃ given initialized, config = Some given ∧ config_initialize given = Ok initialized ∧
        if bool_decide (cfg_ProviderType given = VpcProviderTypeFake)
        then cv_Config c = given ∧
             NewVpcSdkFake (env_world (ps_env p)) = (Ok (cv_Sdk c), env_world (ps_env p'))
        else cfg_ProviderType given = VpcProviderTypeGen2 ∧
             provider initialized (env_world (ps_env p))
               = (Ok (cv_Config c, cv_Sdk c), env_world (ps_env p'))
  | Err e =>
      ps_vpc p' = ps_vpc p ∧
      match config with
      | None => p' = p
      | Some given =>
          (is_Err (config_initialize given) ∧ p' = p) ∨
          (∃ initialized, config_initialize given = Ok initialized ∧
             provider initialized (env_world (ps_env p)) = (Err e, env_world (ps_env p')))
      end
  | Panic why => ps_vpc p' = ps_vpc p ∧
      ∃ initialized, (provider initialized (env_world (ps_env p))).1 = Panic why
  end.
Proof.
  unfold NewCloudVpc, CloudVpc_initialize. destruct config as [given|]; [|done].
  unfold mbind, M_bind, lift. pose proof (config_cases given) as Hcases.
  destruct (config_initialize given) as [initialized|e|w] eqn:Hinit; [| |done].
  2:{ cbn. split_and!; [done..|]. left. split; [by eexists|done]. }
  unfold in_env, sdk, NewCloudVpcSdk.
  destruct Hcases as [[Hfake ->]|[Hgen2 Htype]].
  - rewrite bool_decide_eq_false_2 by (rewrite Hfake; discriminate).
    rewrite bool_decide_eq_true_2 by done. cbn. split_and!; try done.
    exists given, given. rewrite bool_decide_eq_true_2 by done. split_and!; try done.
  - rewrite bool_decide_eq_true_2 by congruence.
    destruct (provider initialized _) as [[[c' s]|e|w] world] eqn:Hprov; cbn.
    + split_and!; try done. exists given, initialized.
      rewrite bool_decide_eq_false_2 by (rewrite Hgen2; discriminate). done.
    + split_and!; try done. right. by exists initialized.
    + split_and!; try done. exists initialized. by rewrite Hprov.
Qed.

(** C31: [NewCloudVpc] validates the configuration before it asks for anything; on
    success the process-wide object is the one returned, with the SDK of the
    provider type and the configuration that SDK was built from; on any failure
    the process-wide object stays what it was.  The branch for an unknown
    provider type is never taken. *)
Theorem NewCloudVpc_spec {W} `{!MockHeap W} (provider : ConfigVpc → M W (ConfigVpc * CloudVpcSdk W))
    config recorder (p : Process W) :
  let '(r, p') := NewCloudVpc provider config recorder p in
  ps_chan p' = ps_chan p ∧ env_events (ps_env p') = env_events (ps_env p) ∧
  match r with
  | Ok c =>
      ps_vpc p' = Some c ∧ cv_Recorder c = recorder ∧
      ∃ given initialized, config = Some given ∧ config_initialize given = Ok initialized ∧
        if bool_decide (cfg_ProviderType given = VpcProviderTypeFake)
        then cv_Config c = given ∧
             NewVpcSdkFake (env_world (ps_env p)) = (Ok (cv_Sdk c), env_world (ps_env p'))
        else cfg_ProviderType given = VpcProviderTypeGen2 ∧
             provider initialized (env_world (ps_env p))
               = (Ok (cv_Config c, cv_Sdk c), env_world (ps_env p'))
  | Err e =>
      ps_vpc p' = ps_vpc p ∧
      match config with
      | None => p' = p
      | Some given =>
          (is_Err (config_initialize given) ∧ p' = p) ∨
          (∃ initialized, config_initialize given = Ok initialized ∧
             provider initialized (env_world (ps_env p)) = (Err e, env_world (ps_env p')))
      end
  | Panic why => ps_vpc p' = ps_vpc p ∧
      ∃ initialized, (provider initialized (env_world (ps_env p))).1 = Panic why
  end.
Proof. exact (NewCloudVpc_run provider config recorder p). Qed.
