(* ===== verification/CloudConfig.v ===== *)
(** * CloudConfig: the configuration of the cloud provider (ibm/ibm.go,
    NewConfigVpc of ibm/ibm_vpc_cloud.go, readCredential of
    ibm/ibm_vpc_client.go)

    The parser of the configuration file, [gcfg], is not part of the
    repository: it is the argument [gcfg_read], the file's text being given.
    The environment and the file system are the class [Os]. *)
From S2P Require Import Prelude GoStrings Kube VpcTypes VpcConfig.

(** The calls of package os. *)
Class Os (W : Type) := {
  os_Getenv : string → W → string;
  os_ReadFile : string → M W string;
}.

Record LoadBalancerDeployment := {
  dep_Image : string;
  dep_Application : string;
  dep_VlanIPConfigMap : string;
}.

Record Provider := {
  prov_ProviderID : string;
  prov_InternalIP : string;
  prov_ExternalIP : string;
  prov_Region : string;
  prov_Zone : string;
  prov_InstanceType : string;
  prov_ClusterID : string;
  prov_AccountID : string;
  prov_ProviderType : string;
  prov_G2WorkerServiceAccountID : string;
  prov_G2VpcName : string;
  prov_G2Credentials : string;
  prov_G2ResourceGroupName : string;
  prov_G2VpcSubnetNames : string;
  prov_G2EndpointOverride : string;
  prov_IamEndpointOverride : string;
  prov_RmEndpointOverride : string;
  prov_IKSPrivateEndpointHostname : string;
  prov_CloudCredentials : string;
}.

Record CloudConfig := {
  cc_Version : string;
  cc_ConfigFilePaths : list string;
  cc_CalicoDatastore : string;
  cc_SetNetworkUnavailable : bool;
  cc_CniProvider : string;
  cc_LBDeployment : LoadBalancerDeployment;
  cc_Prov : Provider;
}.

(** ** Reading the configuration *)

(** [config] is [None] for a nil reader; otherwise the text it yields. *)
Definition getCloudConfig (gcfg_read : string → outcome CloudConfig) (config : option string)
    : outcome CloudConfig :=
  match config with
  | None => Err (ErrorString "Cloud config required but none specified")
  | Some text =>
      match gcfg_read text with
      | Err err => Err (ErrorString ("Failed to read cloud config: " +:+ error_string err))
      | Panic w => Panic w
      | Ok cloudConfig =>
          if bool_decide ("1.0.0" ≠ cc_Version cloudConfig)
             && bool_decide ("1.1.0" ≠ cc_Version cloudConfig)
          then Err (ErrorString ("Cloud config version not valid: " +:+ cc_Version cloudConfig))
          else Ok cloudConfig
      end
  end.

(** The first Kubernetes config file that loads; [build] is
    [clientcmd.BuildConfigFromFlags], [None] when it fails. *)
Definition getK8SConfig {R} (build : string → option R) (k8sConfigFilePaths : list string)
    : outcome R :=
  match omap build k8sConfigFilePaths with
  | config :: _ => Ok config
  | [] => Err (ErrorString "Failed to build Kubernetes cloud configuration")
  end.

(** ** The provider type *)

Definition lbVpcNextGenProvider := "g2".
Definition isProviderVpc (provider : string) : bool :=
  bool_decide (provider = lbVpcNextGenProvider).

(** The method of the same name, which compares with the constant of vpcctl. *)
Definition Cloud_isProviderVpc (config : CloudConfig) : bool :=
  bool_decide (prov_ProviderType (cc_Prov config) = VpcProviderTypeGen2).

(** ** Credentials and the VPC configuration *)

Section os.
Context {W : Type} `{!Os W}.

Definition envVarPublicEndPoint := "ENABLE_VPC_PUBLIC_ENDPOINT".
Definition shouldPrivateEndpointBeEnabled (w : W) : bool :=
  bool_decide (toLower (os_Getenv envVarPublicEndPoint w) ≠ "true").

Definition readCredential (provider : Provider) : M W string :=
  if bool_decide (prov_G2Credentials provider = "") then
    fail (ErrorString "VPC credentials file not provided")
  else
    data ← os_ReadFile (prov_G2Credentials provider);
    mret (trimSpace data).

(** The fields [NewConfigVpc] copies, with the API key it has read. *)
Definition configVpcOf (prov : Provider) (enablePrivateEndpoint : bool) (apiKeySecret : string)
    : ConfigVpc :=
  {| cfg_AccountID := prov_AccountID prov;
     cfg_APIKeySecret := apiKeySecret;
     cfg_ClusterID := prov_ClusterID prov;
     cfg_EnablePrivate := enablePrivateEndpoint;
     cfg_IamEndpointOverride := prov_IamEndpointOverride prov;
     cfg_IKSPrivateEndpointHostname := prov_IKSPrivateEndpointHostname prov;
     cfg_ProviderType := prov_ProviderType prov;
     cfg_Region := prov_Region prov;
     cfg_ResourceGroupName := prov_G2ResourceGroupName prov;
     cfg_RmEndpointOverride := prov_RmEndpointOverride prov;
     cfg_SubnetNames := prov_G2VpcSubnetNames prov;
     cfg_WorkerAccountID := prov_G2WorkerServiceAccountID prov;
     cfg_VpcName := prov_G2VpcName prov;
     cfg_VpcEndpointOverride := prov_G2EndpointOverride prov;
     cfg_endpointURL := "";
     cfg_resourceGroupID := "";
     cfg_tokenExchangeURL := "" |}.

(** [config] is [None] for a nil [c.Config]. *)
Definition NewConfigVpc (config : option CloudConfig) (enablePrivateEndpoint : bool)
    : M W ConfigVpc :=
  match config with
  | None => fail (ErrorString "Cloud config not initialized")
  | Some config =>
      let prov := cc_Prov config in
      if bool_decide (prov_G2Credentials prov ≠ "") then
        r ← attempt (os_ReadFile (prov_G2Credentials prov));
        match r with
        | inr err =>
            fail (ErrorString ("Failed to read credentials from " +:+ prov_G2Credentials prov
                               +:+ ": " +:+ error_string err))
        | inl fileData =>
            let apiKeySecret := trimSpace fileData in
            mret (configVpcOf prov enablePrivateEndpoint
                    (if contains apiKeySecret " " then "" else apiKeySecret))
        end
      else mret (configVpcOf prov enablePrivateEndpoint "")
  end.
End os.
