(* ===== verification/NodeMetadata.v ===== *)
(** * NodeMetadata: node data from labels or from the VPC, and its cache
    (ibm/ibm_metadata_service.go, ibm_vpc_client.go, ibm_instances.go,
    ibm_zones.go, ibm_node_watch.go)

    The Kubernetes client is the class [KubeNodes], the VPC client the class
    [VpcInstances] - both unspecified.  A method that holds [nodeMapMux] for
    its whole body is one action on the state; [getCachedNode],
    [putCachedNode] and [deleteCachedNode] are the only ones that touch the
    map, so a concurrent run is a sequence of these actions. *)
From S2P Require Import Prelude GoStrings Kube VpcTypes VpcConfig VpcSdk CloudConfig.

(** Dereferencing a Go pointer. *)
Definition deref {A} (p : option A) : outcome A :=
  match p with
  | Some a => Ok a
  | None => Panic "invalid memory address or nil pointer dereference"
  end.

Record NodeMetadata := {
  nm_InternalIP : string;
  nm_ExternalIP : string;
  nm_WorkerID : string;
  nm_InstanceType : string;
  nm_FailureDomain : string;
  nm_Region : string;
  nm_ProviderID : string;
}.
#[export] Instance NodeMetadata_eq_dec : EqDecision NodeMetadata.
Proof. solve_decision. Defined.

(** The zero value. *)
Definition nm_zero : NodeMetadata :=
  {| nm_InternalIP := ""; nm_ExternalIP := ""; nm_WorkerID := ""; nm_InstanceType := "";
     nm_FailureDomain := ""; nm_Region := ""; nm_ProviderID := "" |}.

Definition internalIPLabel := "ibm-cloud.kubernetes.io/internal-ip".
Definition externalIPLabel := "ibm-cloud.kubernetes.io/external-ip".
Definition failureDomainLabel := "ibm-cloud.kubernetes.io/zone".
Definition regionLabel := "ibm-cloud.kubernetes.io/region".
Definition workerIDLabel := "ibm-cloud.kubernetes.io/worker-id".
Definition machineTypeLabel := "ibm-cloud.kubernetes.io/machine-type".

Definition errLabelsMissing : error := ErrorString "node is missing labels".
(** 300 seconds, in nanoseconds. *)
Definition cacheTTL : Z := 300 * 1000000000.

(** Constants of the Kubernetes API. *)
Definition TaintExternalCloudProvider := "node.cloudprovider.kubernetes.io/uninitialized".
Definition NodeNetworkUnavailable := "NetworkUnavailable".
Definition ConditionTrue := "True".

(** ** The VPC client *)

(** [inst_PrimaryNetworkInterface] is the pointer, the pointer to its primary
    IP, and the pointer to the address; a profile and a zone have a name. *)
Record VpcInstance := {
  inst_PrimaryNetworkInterface : option (option (option string));
  inst_ID : option string;
  inst_Profile : option (option string);
  inst_Zone : option (option string);
}.

(** The operations of [vpcv1.VpcV1] the source calls; [Sdk] is the client. *)
Class VpcInstances (W Sdk : Type) := {
  vpcv1_NewVpcV1 (apiKey iamURL : string) : M W Sdk;
  vpcv1_SetServiceURL : string → Sdk → outcome Sdk;
  vpcv1_GetServiceURL : Sdk → string;
  vpcv1_GetRegion : Sdk → string → M W (option string);
  vpcv1_ListInstances (sdk : Sdk) (name vpcName : string) : M W (option (list VpcInstance));
}.

Record vpcClient (Sdk : Type) := {
  vc_provider : Provider;
  vc_sdk : Sdk;
}.
Arguments vc_provider {Sdk} v : rename.
Arguments vc_sdk {Sdk} v : rename.

Section vpcClient.
Context {W Sdk : Type} `{!Os W} `{!VpcInstances W Sdk}.

Definition newVpcSdkClient (provider : Provider) : M W Sdk :=
  if bool_decide (prov_AccountID provider ≠ prov_G2WorkerServiceAccountID provider) then
    fail (ErrorString "Cluster nodes allocated under different account")
  else
    credential ← readCredential provider;
    sdk ← vpcv1_NewVpcV1 credential (prov_IamEndpointOverride provider);
    if bool_decide (prov_G2EndpointOverride provider ≠ "") then
      lift (vpcv1_SetServiceURL (prov_G2EndpointOverride provider +:+ "/v1") sdk)
    else
      endpoint ← vpcv1_GetRegion sdk (prov_Region provider);
      endpoint ← lift (deref endpoint);
      lift (vpcv1_SetServiceURL (endpoint +:+ "/v1") sdk).

Definition newVpcClient (provider : Provider) : M W (vpcClient Sdk) :=
  sdk ← newVpcSdkClient provider;
  mret {| vc_provider := provider; vc_sdk := sdk |}.

Definition instance_error (what nodeName : string) (vpc : vpcClient Sdk) : error :=
  ErrorString (what +:+ ": name=" +:+ nodeName +:+ " url=" +:+
               vpcv1_GetServiceURL (vc_sdk vpc)).

(** [node] with what the one instance found says; the source writes through a
    pointer, after the last error. *)
Definition populateFrom (region : string) (inst : VpcInstance) (node : NodeMetadata)
    : outcome NodeMetadata :=
  nic ← deref (inst_PrimaryNetworkInterface inst);
  ip ← deref nic;
  address ← deref ip;
  id ← deref (inst_ID inst);
  profile ← deref (inst_Profile inst);
  profileName ← deref profile;
  zone ← deref (inst_Zone inst);
  zoneName ← deref zone;
  Ok {| nm_InternalIP := address; nm_ExternalIP := nm_ExternalIP node; nm_WorkerID := id;
        nm_InstanceType := profileName; nm_FailureDomain := zoneName; nm_Region := region;
        nm_ProviderID := nm_ProviderID node |}.

Definition populateNodeMetadata (vpc : vpcClient Sdk) (nodeName : string) (node : NodeMetadata)
    : M W NodeMetadata :=
  instances ← vpcv1_ListInstances (vc_sdk vpc) nodeName (prov_G2VpcName (vc_provider vpc));
  match instances with
  | None => fail (instance_error "Could not retrieve a list of instances" nodeName vpc)
  | Some [inst] => lift (populateFrom (prov_Region (vc_provider vpc)) inst node)
  | Some [] => fail (instance_error "Instance not found" nodeName vpc)
  | Some _ => fail (instance_error "More than one instance entry returned" nodeName vpc)
  end.
End vpcClient.

(** ** The metadata service *)

Record MetadataService (Sdk : Type) := {
  ms_provider : Provider;
  ms_vpcClient : option (vpcClient Sdk);
  ms_nodeMap : gmap string NodeMetadata;
  ms_nodeCacheStart : Z;
}.
Arguments ms_provider {Sdk} m : rename.
Arguments ms_vpcClient {Sdk} m : rename.
Arguments ms_nodeMap {Sdk} m : rename.
Arguments ms_nodeCacheStart {Sdk} m : rename.
Arguments Build_MetadataService {Sdk}.

(** The service and the world it runs in. *)
Record Meta (W Sdk : Type) := {
  mt_ms : MetadataService Sdk;
  mt_world : W;
}.
Arguments mt_ms {W Sdk} m : rename.
Arguments mt_world {W Sdk} m : rename.
Arguments Build_Meta {W Sdk}.

Section service.
Context {W Sdk : Type} `{!Clock W} `{!Os W} `{!KubeNodes W} `{!VpcInstances W Sdk}.
Implicit Types (m : Meta W Sdk) (name : string).

Definition with_nodeMap (nodeMap : gmap string NodeMetadata) (start : Z)
    (ms : MetadataService Sdk) : MetadataService Sdk :=
  {| ms_provider := ms_provider ms; ms_vpcClient := ms_vpcClient ms; ms_nodeMap := nodeMap;
     ms_nodeCacheStart := start |}.
Definition with_vpcClient (c : vpcClient Sdk) (ms : MetadataService Sdk) : MetadataService Sdk :=
  {| ms_provider := ms_provider ms; ms_vpcClient := Some c; ms_nodeMap := ms_nodeMap ms;
     ms_nodeCacheStart := ms_nodeCacheStart ms |}.

Definition world {A} (p : M W A) : M (Meta W Sdk) A := λ m,
  let '(r, w) := p (mt_world m) in (r, {| mt_ms := mt_ms m; mt_world := w |}).
Definition set_ms (f : MetadataService Sdk → MetadataService Sdk) : M (Meta W Sdk) unit :=
  modify (λ m, {| mt_ms := f (mt_ms m); mt_world := mt_world m |}).
Definition time_now : M (Meta W Sdk) Z :=
  world (λ w, let '(t, w) := time_Now w in (Ok t, w)).

Definition NewMetadataService (provider : option Provider) (zero : Provider) (start : Z)
    : MetadataService Sdk :=
  {| ms_provider := default zero provider; ms_vpcClient := None; ms_nodeMap := ∅;
     ms_nodeCacheStart := start |}.

Definition deleteCachedNode (name : string) : M (Meta W Sdk) unit :=
  set_ms (λ ms, with_nodeMap (delete name (ms_nodeMap ms)) (ms_nodeCacheStart ms) ms).

(** The entry and whether there is one; the zero value otherwise. *)
Definition getCachedNode (name : string) : M (Meta W Sdk) (NodeMetadata * bool) :=
  now ← time_now;
  ms ← gets mt_ms;
  if (now - ms_nodeCacheStart ms <? cacheTTL)%Z then
    mret (match ms_nodeMap ms !! name with
          | Some node => (node, true)
          | None => (nm_zero, false)
          end)
  else
    start ← time_now;
    _ ← set_ms (with_nodeMap ∅ start);
    mret (nm_zero, false).

Definition putCachedNode (name : string) (node : NodeMetadata) : M (Meta W Sdk) unit :=
  set_ms (λ ms, with_nodeMap (<[name := node]> (ms_nodeMap ms)) (ms_nodeCacheStart ms) ms).

(** The node condition set when the node is being initialized and no CNI is
    running on it; every attempt reads the clock. *)
Definition setNetworkUnavailable (name : string) : M (Meta W Sdk) unit :=
  world (kube_RetryOnConflict 20 (λ w,
    let '(now, w) := time_Now w in
    kube_SetNodeCondition name
      {| nc_Type := NodeNetworkUnavailable; nc_Status := ConditionTrue;
         nc_Reason := "No CNI present";
         nc_Message := "There is no active CNI present on the node";
         nc_LastTransitionTime := now |} w)).

Definition needsNetworkUnavailable (applyNetworkUnavailable : bool) (cni : string)
    (k8sNode : Node) : bool :=
  applyNetworkUnavailable && bool_decide (cni ≠ "OVNKubernetes")
  && bool_decide (TaintExternalCloudProvider ∈ node_Taints k8sNode)
  && negb (bool_decide (NodeNetworkUnavailable ∈ node_Conditions k8sNode)).

(** What the labels say, and whether all required labels are there. *)
Definition labelMetadata (k8sNode : Node) : NodeMetadata * bool :=
  let labels := node_Labels k8sNode in
  let has label := bool_decide (is_Some (labels !! label)) in
  ({| nm_InternalIP := map_get labels internalIPLabel;
      nm_ExternalIP := map_get labels externalIPLabel;
      nm_WorkerID := map_get labels workerIDLabel;
      nm_InstanceType := map_get labels machineTypeLabel;
      nm_FailureDomain := map_get labels failureDomainLabel;
      nm_Region := map_get labels regionLabel;
      nm_ProviderID := node_ProviderID k8sNode |},
   has internalIPLabel && has workerIDLabel && has machineTypeLabel
   && has failureDomainLabel && has regionLabel).

(** [ms.vpcClient], created at the first use. *)
Definition getVpcClient : M (Meta W Sdk) (vpcClient Sdk) :=
  ms ← gets mt_ms;
  match ms_vpcClient ms with
  | Some c => mret c
  | None =>
      c ← world (newVpcClient (ms_provider ms));
      _ ← set_ms (with_vpcClient c);
      mret c
  end.

(** The last part of [GetNodeMetadata]: [newNode] is what the labels of the
    node read say, [ok] whether they were complete, [node] what the cache
    returned. *)
Definition nodeFromLabels (name : string) (node newNode : NodeMetadata) (ok : bool)
    : M (Meta W Sdk) NodeMetadata :=
  _ ← (if bool_decide (nm_ProviderID newNode ≠ "")
          && bool_decide (nm_ProviderID newNode ≠ nm_ProviderID node)
       then deleteCachedNode name else mret tt);
  ms ← gets mt_ms;
  if ok then
    _ ← putCachedNode name newNode;
    mret newNode
  else if isProviderVpc (prov_ProviderType (ms_provider ms)) then
    vpc ← getVpcClient;
    newNode ← world (populateNodeMetadata vpc name newNode);
    _ ← putCachedNode name newNode;
    mret newNode
  else fail errLabelsMissing.

Definition GetNodeMetadata (name : string) (applyNetworkUnavailable : bool) (cni : string)
    : M (Meta W Sdk) NodeMetadata :=
  '(node, ok) ← getCachedNode name;
  if ok : bool then mret node
  else
    k8sNode ← world (kube_GetNode name);
    _ ← (if needsNetworkUnavailable applyNetworkUnavailable cni k8sNode
         then setNetworkUnavailable name else mret tt);
    let '(newNode, ok) := labelMetadata k8sNode in
    nodeFromLabels name node newNode ok.

(** ** The cloud provider interfaces on nodes *)

Record InstanceMetadata := {
  im_ProviderID : string;
  im_InstanceType : string;
  im_NodeAddresses : list NodeAddress;
  im_Zone : string;
  im_Region : string;
}.
Record Zone := {
  zone_FailureDomain : string;
  zone_Region : string;
}.

Definition providerIDV2 (config : CloudConfig) (nodeMD : NodeMetadata) : string :=
  if bool_decide (nm_ProviderID nodeMD ≠ "") then nm_ProviderID nodeMD
  else "ibm://" +:+ prov_AccountID (cc_Prov config) +:+ "///" +:+
       prov_ClusterID (cc_Prov config) +:+ "/" +:+ nm_WorkerID nodeMD.

Definition instanceTypeV2 (nodeMD : NodeMetadata) : string := nm_InstanceType nodeMD.

Definition nodeAddressesV2 (nodeMD : NodeMetadata) : list NodeAddress :=
  let externalIP := if (String.length (nm_ExternalIP nodeMD) =? 0)%nat
                    then nm_InternalIP nodeMD else nm_ExternalIP nodeMD in
  let internal := if (0 <? String.length (nm_InternalIP nodeMD))%nat
    then [{| addr_Type := NodeInternalIP; addr_Address := nm_InternalIP nodeMD |}] else [] in
  if (0 <? String.length externalIP)%nat
  then internal ++ [{| addr_Type := NodeExternalIP; addr_Address := externalIP |}]
  else internal.

(** [c.Metadata] is a pointer: [present] says that it is not nil.  The methods
    of the service lock a field of it first. *)
Definition with_metadata {A} (present : bool) (p : M (Meta W Sdk) A) : M (Meta W Sdk) A :=
  if present then p else lift (deref None).

Definition Cloud_InstanceMetadata (config : CloudConfig) (present : bool) (node : Node)
    : M (Meta W Sdk) InstanceMetadata :=
  nodeMD ← with_metadata present
    (GetNodeMetadata (node_Name node) (cc_SetNetworkUnavailable config)
       (cc_CniProvider config));
  mret {| im_ProviderID := providerIDV2 config nodeMD;
          im_InstanceType := instanceTypeV2 nodeMD;
          im_NodeAddresses := nodeAddressesV2 nodeMD;
          im_Zone := nm_FailureDomain nodeMD;
          im_Region := nm_Region nodeMD |}.

Definition Cloud_GetZone (config : CloudConfig) : Zone :=
  {| zone_FailureDomain := prov_Zone (cc_Prov config);
     zone_Region := prov_Region (cc_Prov config) |}.

Definition Cloud_GetZoneByNodeName (config : CloudConfig) (present : bool) (nodeName : string)
    : M (Meta W Sdk) Zone :=
  if negb present then mret {| zone_FailureDomain := ""; zone_Region := "" |}
  else
    nodeMd ← GetNodeMetadata nodeName false (cc_CniProvider config);
    mret {| zone_FailureDomain := nm_FailureDomain nodeMd; zone_Region := nm_Region nodeMd |}.

(** What a node informer hands to its delete handler. *)
Inductive DeletedObject :=
  | DeletedNode (node : Node)
  | DeletedFinalStateUnknown (node : option Node)
  | UnexpectedObject.

(** The object that is dropped from the cache; [None] when the handler only
    logs. *)
Definition deletedNode (obj : DeletedObject) : option Node :=
  match obj with
  | DeletedNode node => Some node
  | DeletedFinalStateUnknown node => node
  | UnexpectedObject => None
  end.

(** [handleNodeWatchCrash]: a panic is recovered after ten seconds. *)
Definition handleNodeWatchCrash (p : M (Meta W Sdk) unit) : M (Meta W Sdk) unit := λ m,
  match p m with
  | (Panic _, m') =>
      (Ok tt, {| mt_ms := mt_ms m';
                 mt_world := time_Sleep (1000000000 * 10) (mt_world m') |})
  | r => r
  end.

Definition handleNodeDelete (present : bool) (obj : DeletedObject) : M (Meta W Sdk) unit :=
  handleNodeWatchCrash
    (match deletedNode obj with
     | Some node => with_metadata present (deleteCachedNode (node_Name node))
     | None => mret tt
     end).
End service.
