(* ===== verification/NodeCache.v ===== *)
(** * NodeCache: what the metadata service promises

    First the cache under concurrency: every sequence of the three locked
    actions on the map, by any threads, with anything else between them.  Then
    the functional behaviour of [GetNodeMetadata] and of the interfaces built
    on it. *)
From S2P Require Import Prelude GoStrings Kube VpcTypes VpcConfig VpcSdk StaticVpc CloudConfig.
From S2P Require Import NodeMetadata.

(** The documented behaviour of the monotonic clock: [clock_of w] is its reading
    in the world [w], and no call takes it back. *)
Class MonotonicClock {W} `{!Clock W} (clock_of : W → Z) : Prop :=
  clock_monotonic : ∀ w t w', time_Now w = (t, w') → (clock_of w ≤ t ≤ clock_of w')%Z.

(** ** Runs of the cache *)

(** A read at time [t] with its answer, a write at time [t], a removal. *)
Inductive CacheEvent :=
  | CGet (name : string) (t : Z) (node : NodeMetadata) (ok : bool)
  | CPut (name : string) (t : Z) (node : NodeMetadata)
  | CDelete (name : string).

(** The event changes the entry of [name]. *)
Definition touches (name : string) (e : CacheEvent) : Prop :=
  match e with
  | CGet _ _ _ _ => False
  | CPut name' _ _ | CDelete name' => name' = name
  end.

Section runs.
Context {W Sdk : Type} `{!Clock W} (clock_of : W → Z).
Implicit Types (m : Meta W Sdk) (tr : list CacheEvent).

Inductive cache_run : list CacheEvent → Meta W Sdk → Prop :=
  | run_new provider zero w t w' :
      time_Now w = (t, w') →
      cache_run [] {| mt_ms := NewMetadataService provider zero t; mt_world := w' |}
  | run_get tr m name t w node ok m' :
      cache_run tr m →
      time_Now (mt_world m) = (t, w) →
      getCachedNode name m = (Ok (node, ok), m') →
      cache_run (tr ++ [CGet name t node ok]) m'
  | run_put tr m name node r m' :
      cache_run tr m →
      putCachedNode name node m = (r, m') →
      cache_run (tr ++ [CPut name (clock_of (mt_world m)) node]) m'
  | run_delete tr m name r m' :
      cache_run tr m →
      deleteCachedNode name m = (r, m') →
      cache_run (tr ++ [CDelete name]) m'
  | run_other tr m client w :
      cache_run tr m →
      (clock_of (mt_world m) ≤ clock_of w)%Z →
      cache_run tr {| mt_ms := {| ms_provider := ms_provider (mt_ms m); ms_vpcClient := client;
                                  ms_nodeMap := ms_nodeMap (mt_ms m);
                                  ms_nodeCacheStart := ms_nodeCacheStart (mt_ms m) |};
                      mt_world := w |}.

(** [node] was put under [name] at time [p], and the entry has not been
    touched since. *)
Definition last_put (tr : list CacheEvent) (name : string) (p : Z) (node : NodeMetadata)
    : Prop :=
  ∃ before after, tr = before ++ CPut name p node :: after ∧
    Forall (λ e, ¬ touches name e) after.

Lemma last_put_snoc tr name p node e :
  last_put tr name p node → ¬ touches name e → last_put (tr ++ [e]) name p node.
Proof.
  intros (before & after & -> & Hafter) He. exists before, (after ++ [e]).
  split; [by rewrite <- (assoc_L (++))|]. apply Forall_app. auto.
Qed.

(** The invariant: the cache was started in the past, and every entry was put
    since then. *)
Definition cache_ok (tr : list CacheEvent) (m : Meta W Sdk) : Prop :=
  (ms_nodeCacheStart (mt_ms m) ≤ clock_of (mt_world m))%Z ∧
  ∀ name node, ms_nodeMap (mt_ms m) !! name = Some node →
    ∃ p, last_put tr name p node ∧
         (ms_nodeCacheStart (mt_ms m) ≤ p ≤ clock_of (mt_world m))%Z.

Context `{!MonotonicClock clock_of}.

(** One read: what it returns and where it leaves the cache. *)
Lemma getCachedNode_cases name m node ok m' t w :
  time_Now (mt_world m) = (t, w) →
  getCachedNode name m = (Ok (node, ok), m') →
  (clock_of (mt_world m) ≤ t)%Z ∧ (t ≤ clock_of (mt_world m'))%Z ∧
  ((t - ms_nodeCacheStart (mt_ms m) < cacheTTL)%Z ∧ mt_ms m' = mt_ms m ∧
   (if ok then ms_nodeMap (mt_ms m) !! name = Some node
    else ms_nodeMap (mt_ms m) !! name = None ∧ node = nm_zero) ∨
   (cacheTTL ≤ t - ms_nodeCacheStart (mt_ms m))%Z ∧ ok = false ∧ node = nm_zero ∧
   ms_nodeMap (mt_ms m') = ∅ ∧
   (ms_nodeCacheStart (mt_ms m') ≤ clock_of (mt_world m'))%Z).
Proof.
  intros Hnow Hget.
  pose proof (clock_monotonic _ _ _ Hnow) as [Ht1 Ht2].
  unfold getCachedNode, time_now, world, gets, set_ms, modify, mbind, M_bind, mret, M_ret in Hget.
  rewrite Hnow in Hget. cbn in Hget.
  destruct (Z.ltb_spec (t - ms_nodeCacheStart (mt_ms m)) cacheTTL) as [Hfresh|Hold].
  - cbn in Hget. injection Hget as Hentry <-. cbn. split_and!; [done..|]. left. split_and!; [done..|].
    destruct (ms_nodeMap (mt_ms m) !! name); by injection Hentry as <- <-.
  - cbn in Hget. destruct (time_Now w) as [t2 w2] eqn:Hnow2. cbn in Hget.
    pose proof (clock_monotonic _ _ _ Hnow2) as [??].
    injection Hget as <- <- <-. cbn. split_and!; [lia..|]. right. by split_and!.
Qed.

Lemma cache_run_ok tr m : cache_run tr m → cache_ok tr m.
Proof.
  induction 1 as [provider zero w t w' Hnow|tr m name t w node ok m' Hrun [Hstart IH] Hnow Hget
                 |tr m name node r m' Hrun [Hstart IH] Hput
                 |tr m name r m' Hrun [Hstart IH] Hdel|tr m client w Hrun [Hstart IH] Hw].
  - destruct (clock_monotonic _ _ _ Hnow). split; cbn; [done|].
    intros name node. by rewrite lookup_empty.
  - destruct (getCachedNode_cases _ _ _ _ _ _ _ Hnow Hget)
      as (Ht1 & Ht2 & [(_ & Hms & _)|(_ & _ & _ & Hmap & Hnew)]).
    + split; rewrite Hms; [lia|].
      intros name' node' [p [Hp ?]]%IH. exists p. split; [|lia].
      apply last_put_snoc; [done|by intros []].
    + split; [done|]. rewrite Hmap. intros ??. by rewrite lookup_empty.
  - injection Hput as <- <-. split; [done|]. cbn.
    intros name' node' [[<- <-]|[Hne [p [Hp ?]]%IH]]%lookup_insert_Some.
    + exists (clock_of (mt_world m)). split; [|lia]. by exists tr, [].
    + exists p. split; [|done]. by apply last_put_snoc.
  - injection Hdel as <- <-. split; [done|]. cbn.
    intros name' node' [Hne [p [Hp ?]]%IH]%lookup_delete_Some.
    exists p. split; [|done]. by apply last_put_snoc.
  - split; cbn; [lia|]. intros name' node' [p [Hp ?]]%IH. exists p. split; [done|]. lia.
Qed.

(** In any run, a read that finds an entry finds what was put there last, with
    no removal since, less than the time to live before. *)
Lemma cache_hit tr m tr1 tr2 name t node :
  cache_run tr m → tr = tr1 ++ CGet name t node true :: tr2 →
  ∃ p, last_put tr1 name p node ∧ (p ≤ t < p + cacheTTL)%Z.
Proof.
  intros Hrun. revert tr1 tr2.
  induction Hrun as [provider zero w t' w' Hnow|tr m name' t' w node' ok m' Hrun IH Hnow Hget
                    |tr m name' node' r m' Hrun IH Hput
                    |tr m name' r m' Hrun IH Hdel|tr m client w Hrun IH Hw];
    intros tr1 tr2 Htr; [by destruct tr1| | | |by eapply IH];
    apply snoc_middle in Htr as [(-> & He & ->)|(tr2' & -> & ->)]; try done; try by eapply IH.
  injection He as -> -> -> ->.
  pose proof (cache_run_ok _ _ Hrun) as [Hstart Hmap].
  destruct (getCachedNode_cases _ _ _ _ _ _ _ Hnow Hget)
    as (Ht1 & _ & [(Hfresh & _ & Hentry)|(_ & ? & _)]); [|done].
  destruct (Hmap _ _ Hentry) as (p & Hp & ?). exists p. split; [done|]. lia.
Qed.
End runs.

(** ** GetNodeMetadata *)

Section get.
Context {W Sdk : Type} `{!Clock W} `{!Os W} `{!KubeNodes W} `{!VpcInstances W Sdk}.
Implicit Types (m : Meta W Sdk) (name : string).

Definition fresh (m : Meta W Sdk) : bool :=
  ((time_Now (mt_world m)).1 - ms_nodeCacheStart (mt_ms m) <? cacheTTL)%Z.

(** The entries that are still alive at a read. *)
Definition kept (m : Meta W Sdk) : gmap string NodeMetadata :=
  if fresh m then ms_nodeMap (mt_ms m) else ∅.

(** The state a read leaves. *)
Definition after_read (m : Meta W Sdk) : Meta W Sdk :=
  let '(_, w) := time_Now (mt_world m) in
  if fresh m then {| mt_ms := mt_ms m; mt_world := w |}
  else let '(start, w) := time_Now w in
       {| mt_ms := with_nodeMap ∅ start (mt_ms m); mt_world := w |}.

Lemma getCachedNode_run name m :
  getCachedNode name m =
  (Ok (match kept m !! name with Some node => (node, true) | None => (nm_zero, false) end),
   after_read m).
Proof.
  unfold getCachedNode, after_read, kept, fresh, time_now, world, gets, set_ms, modify.
  unfold mbind, M_bind, mret, M_ret.
  destruct (time_Now (mt_world m)) as [t w]. cbn.
  destruct (_ <? _)%Z; [done|]. rewrite lookup_empty. cbn. by destruct (time_Now w).
Qed.

Lemma after_read_map m : ms_nodeMap (mt_ms (after_read m)) = kept m.
Proof.
  unfold after_read, kept. destruct (time_Now _) as [t w]. destruct (fresh m); [done|].
  by destruct (time_Now w).
Qed.
Lemma after_read_provider m :
  ms_provider (mt_ms (after_read m)) = ms_provider (mt_ms m).
Proof.
  unfold after_read. destruct (time_Now _) as [t w]. destruct (fresh m); [done|].
  by destruct (time_Now w).
Qed.

(** How a lookup that missed the cache may end, the entries kept being
    [entries]. *)
Definition looked_up (name : string) (m : Meta W Sdk) (r : outcome NodeMetadata)
    (m' : Meta W Sdk) : Prop :=
  let provider := ms_provider (mt_ms m) in
  ms_provider (mt_ms m') = provider ∧
  match r with
  | Ok node =>
      ms_nodeMap (mt_ms m') = <[name := node]> (kept m) ∧
      ∃ k8sNode w, kube_GetNode name (mt_world (after_read m)) = (Ok k8sNode, w) ∧
        let '(labels, complete) := labelMetadata k8sNode in
        if complete : bool then node = labels
        else isProviderVpc (prov_ProviderType provider) = true ∧
             ∃ vpc inst w1 w2,
               vpcv1_ListInstances (vc_sdk vpc) name (prov_G2VpcName (vc_provider vpc)) w1
                 = (Ok (Some [inst]), w2) ∧
               populateFrom (prov_Region (vc_provider vpc)) inst labels = Ok node
  | _ => ms_nodeMap (mt_ms m') = kept m
  end.

Lemma populate_Ok vpc name node node' w w' :
  populateNodeMetadata vpc name node w = (Ok node', w') →
  ∃ inst,
    vpcv1_ListInstances (vc_sdk vpc) name (prov_G2VpcName (vc_provider vpc)) w
      = (Ok (Some [inst]), w') ∧
    populateFrom (prov_Region (vc_provider vpc)) inst node = Ok node'.
Proof.
  unfold populateNodeMetadata, mbind, M_bind, lift, fail.
  destruct (vpcv1_ListInstances _ _ _ w) as [[[[|inst [|]]|]|e|p] w1]; intros; simplify_eq.
  by exists inst.
Qed.

(** Anything done in the world leaves the cache alone. *)
Lemma world_ms {A} (p : M W A) m : mt_ms (world p m).2 = mt_ms m.
Proof. unfold world. by destruct (p (mt_world m)). Qed.

Lemma getVpcClient_ms m :
  ms_nodeMap (mt_ms (getVpcClient m).2) = ms_nodeMap (mt_ms m) ∧
  ms_provider (mt_ms (getVpcClient m).2) = ms_provider (mt_ms m).
Proof.
  unfold getVpcClient, gets, mbind, M_bind, mret, M_ret. cbn.
  destruct (ms_vpcClient (mt_ms m)); [done|]. unfold world.
  by destruct (newVpcClient _ _) as [[] ?].
Qed.

Lemma nodeFromLabels_run name labels complete m :
  ms_nodeMap (mt_ms m) !! name = None →
  let '(r, m') := nodeFromLabels name nm_zero labels complete m in
  ms_provider (mt_ms m') = ms_provider (mt_ms m) ∧
  match r with
  | Ok node =>
      ms_nodeMap (mt_ms m') = <[name := node]> (ms_nodeMap (mt_ms m)) ∧
      if complete then node = labels
      else isProviderVpc (prov_ProviderType (ms_provider (mt_ms m))) = true ∧
           ∃ vpc inst w1 w2,
             vpcv1_ListInstances (vc_sdk vpc) name (prov_G2VpcName (vc_provider vpc)) w1
               = (Ok (Some [inst]), w2) ∧
             populateFrom (prov_Region (vc_provider vpc)) inst labels = Ok node
  | _ => ms_nodeMap (mt_ms m') = ms_nodeMap (mt_ms m)
  end.
Proof.
  intros Hname. unfold nodeFromLabels. set (dropped := if _ : bool then _ else _).
  assert (dropped m = (Ok tt, m)) as Hdrop.
  { unfold dropped. destruct (_ && _); [|done].
    unfold deleteCachedNode, set_ms, modify. rewrite delete_id by done. by destruct m as [[]]. }
  unfold mbind at 1, M_bind. rewrite Hdrop. unfold gets, mbind at 1, M_bind.
  destruct complete; [done|].
  destruct (isProviderVpc _) eqn:Hvpc; [|done].
  unfold mbind at 1, M_bind. pose proof (getVpcClient_ms m) as [Hmap Hprov].
  destruct (getVpcClient m) as [[vpc|e|p] m1]; cbn in *; [|done..].
  unfold mbind at 1, M_bind.
  pose proof (world_ms (populateNodeMetadata vpc name labels) m1) as Hms.
  unfold world in *. destruct (populateNodeMetadata _ _ _ _) as [[node|e|p] w] eqn:Hpop;
    cbn in *; [|by split..].
  rewrite <- Hmap, <- Hprov. split_and!; [done..|].
  apply populate_Ok in Hpop as (inst & ? & ?). by exists vpc, inst, (mt_world m1), w.
Qed.

Local Arguments labelMetadata : simpl never.
Lemma GetNodeMetadata_run name apply cni m :
  let '(r, m') := GetNodeMetadata name apply cni m in
  match kept m !! name with
  | Some node => r = Ok node ∧ m' = after_read m
  | None => looked_up name m r m'
  end.
Proof.
  unfold GetNodeMetadata. unfold mbind at 1, M_bind. rewrite getCachedNode_run.
  destruct (kept m !! name) as [node|] eqn:Hkept; [done|].
  pose proof (after_read_map m) as Hmap. pose proof (after_read_provider m) as Hprov.
  unfold looked_up.
  unfold mbind at 1, M_bind. unfold world at 1.
  destruct (kube_GetNode name _) as [[k8sNode|e|p] w] eqn:Hget; cbn; [|done..].
  set (m1 := {| mt_ms := mt_ms (after_read m); mt_world := w |}).
  set (condition := if needsNetworkUnavailable apply cni k8sNode then _ else _).
  assert (mt_ms (condition m1).2 = mt_ms (after_read m)) as Hcond.
  { unfold condition. destruct (needsNetworkUnavailable _ _ _); [|done].
    unfold setNetworkUnavailable. by rewrite world_ms. }
  unfold mbind at 1, M_bind.
  destruct (condition m1) as [[[]|e|p] m2]; cbn in Hcond; [|by rewrite Hcond..].
  destruct (labelMetadata k8sNode) as [labels complete] eqn:Hlabels.
  pose proof (nodeFromLabels_run name labels complete m2) as H.
  rewrite Hcond, Hmap, Hprov in H. specialize (H Hkept).
  destruct (nodeFromLabels name nm_zero labels complete m2) as [[node|e|p] m'];
    destruct H as [H1 H2]; split; try done.
  destruct H2 as [H2 H3]. split; [done|]. exists k8sNode, w. by rewrite Hlabels.
Qed.
End get.

(** ** The properties *)

(** C23: Whatever the interleaving of reads, writes and removals: a read that
    finds an entry for a node returns what was last put under that name, with no
    removal of the name since (a deleted node is not served from the cache),
    and less than 300 seconds before. *)
Theorem cached_node_fresh {W Sdk} `{!Clock W} (clock_of : W → Z)
    `{!MonotonicClock clock_of} (m : Meta W Sdk) tr1 tr2 name t node :
  cache_run clock_of (tr1 ++ CGet name t node true :: tr2) m →
  ∃ p before after,
    tr1 = before ++ CPut name p node :: after ∧
    Forall (λ e, ¬ touches name e) after ∧
    (p ≤ t < p + cacheTTL)%Z.
Proof.
  intros Hrun. destruct (cache_hit _ _ _ _ _ _ _ _ Hrun eq_refl)
    as (p & (before & after & H) & Ht).
  destruct H. by exists p, before, after.
Qed.

(** The labels a node must have to be described without the VPC. *)
Definition required_labels : list string :=
  [internalIPLabel; workerIDLabel; machineTypeLabel; failureDomainLabel; regionLabel].
Definition labels_complete (k8sNode : Node) : Prop :=
  Forall (λ label, is_Some (node_Labels k8sNode !! label)) required_labels.
#[export] Instance labels_complete_dec k8sNode : Decision (labels_complete k8sNode).
Proof. unfold labels_complete. apply _. Defined.

(** What complete labels say. *)
Definition described_by_labels (k8sNode : Node) (node : NodeMetadata) : Prop :=
  let labels := node_Labels k8sNode in
  labels !! internalIPLabel = Some (nm_InternalIP node) ∧
  labels !! workerIDLabel = Some (nm_WorkerID node) ∧
  labels !! machineTypeLabel = Some (nm_InstanceType node) ∧
  labels !! failureDomainLabel = Some (nm_FailureDomain node) ∧
  labels !! regionLabel = Some (nm_Region node).

(** What an instance of the VPC says. *)
Definition described_by_instance (inst : VpcInstance) (node : NodeMetadata) : Prop :=
  inst_PrimaryNetworkInterface inst = Some (Some (Some (nm_InternalIP node))) ∧
  inst_ID inst = Some (nm_WorkerID node) ∧
  inst_Profile inst = Some (Some (nm_InstanceType node)) ∧
  inst_Zone inst = Some (Some (nm_FailureDomain node)).

Lemma labelMetadata_complete k8sNode :
  (labelMetadata k8sNode).2 = bool_decide (labels_complete k8sNode).
Proof.
  apply eq_bool_prop_intro. rewrite bool_decide_spec.
  unfold labelMetadata, labels_complete, required_labels. cbn.
  rewrite !andb_True, !bool_decide_spec, !Forall_cons. naive_solver.
Qed.

Lemma labelMetadata_fields k8sNode :
  let md := (labelMetadata k8sNode).1 in
  nm_ExternalIP md = map_get (node_Labels k8sNode) externalIPLabel ∧
  nm_ProviderID md = node_ProviderID k8sNode ∧
  (labels_complete k8sNode → described_by_labels k8sNode md).
Proof.
  split_and!; [done..|]. unfold labels_complete, required_labels.
  rewrite !Forall_cons. intros ([? H1] & [? H2] & [? H3] & [? H4] & [? H5] & _).
  unfold described_by_labels, labelMetadata, map_get. cbn [fst nm_InternalIP nm_WorkerID
    nm_InstanceType nm_FailureDomain nm_Region]. by rewrite H1, H2, H3, H4, H5.
Qed.

Lemma populateFrom_fields region inst node node' :
  populateFrom region inst node = Ok node' →
  described_by_instance inst node' ∧ nm_Region node' = region ∧
  nm_ExternalIP node' = nm_ExternalIP node ∧ nm_ProviderID node' = nm_ProviderID node.
Proof.
  unfold populateFrom, deref, described_by_instance.
  destruct (inst_PrimaryNetworkInterface inst) as [[[address|]|]|]; cbn; try done.
  destruct (inst_ID inst); cbn; try done.
  destruct (inst_Profile inst) as [[profile|]|]; cbn; try done.
  destruct (inst_Zone inst) as [[zone|]|]; cbn; try done.
  by intros [= <-].
Qed.

(** C24: [GetNodeMetadata] answers a live cache entry without any call.  A miss reads
    the node once; the answer is what the labels say if the five required ones
    are there, and otherwise - in a VPC only - what the one instance of that name
    says; external address and provider ID are always those of the node.
    Exactly this answer is cached; on an error nothing is cached.  Entries of
    other nodes survive unless all expired. *)
Theorem GetNodeMetadata_spec {W Sdk} `{!Clock W} `{!Os W} `{!KubeNodes W}
    `{!VpcInstances W Sdk} name apply cni (m : Meta W Sdk) :
  let '(r, m') := GetNodeMetadata name apply cni m in
  let provider := ms_provider (mt_ms m) in
  match kept m !! name with
  | Some node => r = Ok node ∧ m' = after_read m
  | None =>
      ms_provider (mt_ms m') = provider ∧
      match r with
      | Ok node =>
          ms_nodeMap (mt_ms m') = <[name := node]> (kept m) ∧
          ∃ k8sNode w, kube_GetNode name (mt_world (after_read m)) = (Ok k8sNode, w) ∧
            nm_ExternalIP node = map_get (node_Labels k8sNode) externalIPLabel ∧
            nm_ProviderID node = node_ProviderID k8sNode ∧
            if decide (labels_complete k8sNode) then described_by_labels k8sNode node
            else isProviderVpc (prov_ProviderType provider) = true ∧
                 ∃ vpc inst w1 w2,
                   vpcv1_ListInstances (vc_sdk vpc) name (prov_G2VpcName (vc_provider vpc)) w1
                     = (Ok (Some [inst]), w2) ∧
                   described_by_instance inst node ∧
                   nm_Region node = prov_Region (vc_provider vpc)
      | _ => ms_nodeMap (mt_ms m') = kept m
      end
  end.
Proof.
  pose proof (GetNodeMetadata_run name apply cni m) as Hrun.
  destruct (GetNodeMetadata name apply cni m) as [r m'].
  destruct (kept m !! name); [done|]. destruct Hrun as [Hprov Hr]. split; [done|].
  destruct r as [node|e|why]; [|done..].
  destruct Hr as (Hmap & k8sNode & w & Hget & Hnode). split; [done|]. exists k8sNode, w.
  pose proof (labelMetadata_complete k8sNode) as Hc.
  destruct (labelMetadata_fields k8sNode) as (Hext & Hid & Hlabels).
  destruct (labelMetadata k8sNode) as [labels complete]. cbn in *. subst complete.
  destruct (decide (labels_complete k8sNode)) as [Hall|Hall].
  - rewrite bool_decide_eq_true_2 in Hnode by done. subst. auto.
  - rewrite bool_decide_eq_false_2 in Hnode by done.
    destruct Hnode as (Hvpc & vpc & inst & w1 & w2 & Hlist & Hpop).
    apply populateFrom_fields in Hpop as (Hinst & Hreg & Hext' & Hid').
    split_and!; [done|congruence..|done|]. by exists vpc, inst, w1, w2.
Qed.

(** C33: The metadata of an instance: the provider ID of the node, or the one built
    from account, cluster and worker, which determines the worker; the internal
    address first, and an external address - the internal one if there is no
    other; never an empty address. *)
Theorem InstanceMetadata_spec {W Sdk} `{!Clock W} `{!Os W} `{!KubeNodes W}
    `{!VpcInstances W Sdk} config node (m : Meta W Sdk) :
  (Cloud_InstanceMetadata config true node m).2 =
    (GetNodeMetadata (node_Name node) (cc_SetNetworkUnavailable config)
       (cc_CniProvider config) m).2 ∧
  match (GetNodeMetadata (node_Name node) (cc_SetNetworkUnavailable config)
           (cc_CniProvider config) m).1 with
  | Err e => (Cloud_InstanceMetadata config true node m).1 = Err e
  | Panic w => (Cloud_InstanceMetadata config true node m).1 = Panic w
  | Ok md =>
      ∃ im, (Cloud_InstanceMetadata config true node m).1 = Ok im ∧
        im_InstanceType im = nm_InstanceType md ∧ im_Zone im = nm_FailureDomain md ∧
        im_Region im = nm_Region md ∧
        (nm_ProviderID md ≠ "" → im_ProviderID im = nm_ProviderID md) ∧
        (nm_ProviderID md = "" → ∀ md', nm_ProviderID md' = "" →
           im_ProviderID im = providerIDV2 config md' ↔ nm_WorkerID md = nm_WorkerID md') ∧
        ((addr_Type <$> im_NodeAddresses im) =
           if bool_decide (nm_InternalIP md ≠ "") then [NodeInternalIP; NodeExternalIP]
           else if bool_decide (nm_ExternalIP md ≠ "") then [NodeExternalIP] else []) ∧
        (∀ a, a ∈ im_NodeAddresses im →
           addr_Address a ≠ "" ∧
           addr_Address a =
             if bool_decide (addr_Type a = NodeExternalIP) && bool_decide (nm_ExternalIP md ≠ "")
             then nm_ExternalIP md else nm_InternalIP md)
  end.
Proof.
  unfold Cloud_InstanceMetadata, with_metadata, mbind, M_bind.
  destruct (GetNodeMetadata _ _ _ m) as [[md|e|w] m']; [|done..]. cbn.
  split; [done|]. eexists. split_and!; [done..| | | |]; cbn.
  - intros Hid. unfold providerIDV2. by rewrite (bool_decide_eq_true_2 (_ ≠ _)).
  - intros Hid md' Hid'. unfold providerIDV2. rewrite Hid, Hid'.
    rewrite !bool_decide_eq_false_2 by (intros []; done).
    split; [|by intros ->]. intros H. by repeat apply (inj (String.append _)) in H.
  - unfold nodeAddressesV2. destruct (nm_InternalIP md), (nm_ExternalIP md); done.
  - intros a. unfold nodeAddressesV2.
    destruct (nm_InternalIP md), (nm_ExternalIP md); cbn; intros Ha;
      repeat (apply elem_of_cons in Ha as [->|Ha]; [by split|]); by apply elem_of_nil in Ha.
Qed.

(** The node informer's delete handler never panics; it removes the entry of the
    node it was given - also inside a [DeletedFinalStateUnknown] - and no other
    entry, and does nothing for any other object. *)
Theorem handleNodeDelete_spec {W Sdk} `{!Clock W} present obj (m : Meta W Sdk) :
  let '(r, m') := handleNodeDelete present obj m in
  r = Ok tt ∧ ms_nodeCacheStart (mt_ms m') = ms_nodeCacheStart (mt_ms m) ∧
  ms_nodeMap (mt_ms m') =
    match deletedNode obj with
    | Some node => if present : bool then delete (node_Name node) (ms_nodeMap (mt_ms m))
                   else ms_nodeMap (mt_ms m)
    | None => ms_nodeMap (mt_ms m)
    end.
Proof.
  unfold handleNodeDelete, handleNodeWatchCrash.
  destruct (deletedNode obj); [|done]. by destruct present.
Qed.

(** ** Witnesses *)

#[export] Instance StaticClock_monotonic : MonotonicClock st_time.
Proof. intros w t w' [= <- <-]. cbn. lia. Qed.

Definition empty_provider : Provider :=
  {| prov_ProviderID := ""; prov_InternalIP := ""; prov_ExternalIP := ""; prov_Region := "";
     prov_Zone := ""; prov_InstanceType := ""; prov_ClusterID := ""; prov_AccountID := "";
     prov_ProviderType := ""; prov_G2WorkerServiceAccountID := ""; prov_G2VpcName := "";
     prov_G2Credentials := ""; prov_G2ResourceGroupName := ""; prov_G2VpcSubnetNames := "";
     prov_G2EndpointOverride := ""; prov_IamEndpointOverride := ""; prov_RmEndpointOverride := "";
     prov_IKSPrivateEndpointHostname := ""; prov_CloudCredentials := "" |}.

Definition clock_at (t : Z) : StaticVpc :=
  {| st_subnets := []; st_lbs := []; st_listeners := []; st_pools := []; st_time := t |}.

(** A new service at time 0, and its state at time [t] with the entries [l]. *)
Definition service_at (t : Z) (entries : gmap string NodeMetadata) : Meta StaticVpc unit :=
  {| mt_ms := {| ms_provider := empty_provider; ms_vpcClient := None; ms_nodeMap := entries;
                 ms_nodeCacheStart := 0 |};
     mt_world := clock_at t |}.

Definition example_md : NodeMetadata :=
  {| nm_InternalIP := "10.0.0.1"; nm_ExternalIP := ""; nm_WorkerID := "w1";
     nm_InstanceType := "b3c"; nm_FailureDomain := "dal10"; nm_Region := "us-south";
     nm_ProviderID := "" |}.

(** Put at 1 ms, read at 1 ms. *)
Lemma cached_node_fresh_witness :
  ∃ m : Meta StaticVpc unit,
    cache_run st_time ([CPut "n1" 1000000 example_md] ++ CGet "n1" 1000000 example_md true :: []) m ∧
    ∃ p before after,
      [CPut "n1" 1000000 example_md] = before ++ CPut "n1" p example_md :: after ∧
      Forall (λ e, ¬ touches "n1" e) after ∧ (p ≤ 1000000 < p + cacheTTL)%Z.
Proof.
  assert (cache_run st_time ([CPut "n1" 1000000 example_md] ++
            CGet "n1" 1000000 example_md true :: [])
          (service_at 2000000 {["n1" := example_md]})) as Hrun.
  { apply (run_get st_time [CPut "n1" 1000000 example_md]
             (service_at 1000000 {["n1" := example_md]}) "n1" _ (clock_at 2000000)); [|done..].
    apply (run_put st_time [] (service_at 1000000 ∅) "n1" example_md (Ok tt)); [|done].
    apply (run_new st_time (Some empty_provider) empty_provider (clock_at 0) 0
             (clock_at 1000000)). done. }
  eexists. split; [exact Hrun|].
  exact (cached_node_fresh st_time _ _ _ _ _ _ Hrun).
Defined.
