(* ===== verification/WakeUp.v ===== *)
(** * WakeUp: releasing the calls that wait for nodes
    (ibm/ibm_vpc_cloud.go: CreateUpdateMutex, CreateUpdateChan, the waiting loop
    of VpcEnsureLoadBalancer and the locked part of VpcUpdateLoadBalancer)

    Kubernetes calls the cloud provider from several goroutines.  Each atomic
    action of the two code fragments is a step of a thread; the threads
    interleave in any order, and new calls may arrive at any time.  The
    variable [CreateUpdateChan] is read without the mutex in both fragments. *)
From S2P Require Import Prelude.

(** Where a call is: an update with nodes ([U]), or an ensure without nodes
    ([W]). *)
Inductive Pc :=
  | UTest        (* if CreateUpdateChan != nil *)
  | ULock        (* CreateUpdateMutex.Lock() *)
  | URead        (* syncChan := CreateUpdateChan; if syncChan != nil *)
  | UClose       (* close(syncChan) *)
  | UClear       (* CreateUpdateChan = nil *)
  | UUnlock      (* CreateUpdateMutex.Unlock() *)
  | UDone
  | WTest        (* syncChan := CreateUpdateChan; if syncChan == nil *)
  | WWait (i : nat)   (* the select, [i] rounds left *)
  | WDone.
#[export] Instance Pc_eq_dec : EqDecision Pc.
Proof. solve_decision. Defined.

(** [sh_var]: the variable holds the channel, not nil; [sh_closed]: the channel
    is closed; [sh_mutex]: the holder; [sh_panic]: a goroutine has closed a
    closed channel or unlocked an unlocked mutex, which ends the process. *)
Record Shared := {
  sh_var : bool;
  sh_closed : bool;
  sh_mutex : option nat;
  sh_panic : bool;
}.

Definition set_var (b : bool) (s : Shared) : Shared :=
  {| sh_var := b; sh_closed := sh_closed s; sh_mutex := sh_mutex s; sh_panic := sh_panic s |}.
Definition set_closed (b : bool) (s : Shared) : Shared :=
  {| sh_var := sh_var s; sh_closed := b; sh_mutex := sh_mutex s; sh_panic := sh_panic s |}.
Definition set_mutex (o : option nat) (s : Shared) : Shared :=
  {| sh_var := sh_var s; sh_closed := sh_closed s; sh_mutex := o; sh_panic := sh_panic s |}.
Definition set_panic (s : Shared) : Shared :=
  {| sh_var := sh_var s; sh_closed := sh_closed s; sh_mutex := sh_mutex s; sh_panic := true |}.

Definition maxWait : nat := 10.

(** One action of thread [t]. *)
Inductive tstep (t : nat) (s : Shared) : Pc → Shared → Pc → Prop :=
  | test_nil : sh_var s = false → tstep t s UTest s UDone
  | test_chan : sh_var s = true → tstep t s UTest s ULock
  | lock : sh_mutex s = None → tstep t s ULock (set_mutex (Some t) s) URead
  | read_nil : sh_var s = false → tstep t s URead s UUnlock
  | read_chan : sh_var s = true → tstep t s URead s UClose
  | close_open : sh_closed s = false → tstep t s UClose (set_closed true s) UClear
  | close_closed : sh_closed s = true → tstep t s UClose (set_panic s) UDone
  | clear : tstep t s UClear (set_var false s) UUnlock
  | unlock : sh_mutex s ≠ None → tstep t s UUnlock (set_mutex None s) UDone
  | unlock_free : sh_mutex s = None → tstep t s UUnlock (set_panic s) UDone
  | wait_nil : sh_var s = false → tstep t s WTest s WDone
  | wait_chan : sh_var s = true → tstep t s WTest s (WWait maxWait)
  | woken i : sh_closed s = true → tstep t s (WWait (S i)) s WDone
  | minute i : tstep t s (WWait (S i)) s (WWait i)
  | wait_over : tstep t s (WWait 0) s WDone.

Definition final (pc : Pc) : bool :=
  match pc with UDone | WDone => true | _ => false end.

(** The threads started so far. *)
Definition System : Type := Shared * gmap nat Pc.

(** A step of a thread that is running. *)
Inductive run_step : System → System → Prop :=
  | run t s s' pc pc' threads :
      threads !! t = Some pc → tstep t s pc s' pc' →
      run_step (s, threads) (s', <[t := pc']> threads).

(** A running thread steps, or a call arrives. *)
Inductive step : System → System → Prop :=
  | step_run a b : run_step a b → step a b
  | step_update t s threads :
      threads !! t = None → step (s, threads) (s, <[t := UTest]> threads)
  | step_ensure t s threads :
      threads !! t = None → step (s, threads) (s, <[t := WTest]> threads).

Definition initial : System :=
  ({| sh_var := true; sh_closed := false; sh_mutex := None; sh_panic := false |}, ∅).

Inductive reachable : System → Prop :=
  | reach_initial : reachable initial
  | reach_step a b : reachable a → step a b → reachable b.

(** ** The invariant *)

(** The mutex is held from [ULock] to [UUnlock]. *)
Definition critical (pc : Pc) : bool :=
  match pc with URead | UClose | UClear | UUnlock => true | _ => false end.

(** What a thread knows of the shared state at each place. *)
Definition knows (s : Shared) (pc : Pc) : Prop :=
  match pc with
  | UClose => sh_var s = true ∧ sh_closed s = false
  | UClear => sh_var s = true ∧ sh_closed s = true
  | UUnlock | UDone => sh_var s = false ∧ sh_closed s = true
  | WWait i => i ≤ maxWait
  | _ => True
  end.

Record invariant (x : System) : Prop := {
  inv_panic : sh_panic x.1 = false;
  inv_mutex : ∀ t pc, x.2 !! t = Some pc → critical pc = true ↔ sh_mutex x.1 = Some t;
  inv_holder : ∀ t, sh_mutex x.1 = Some t → is_Some (x.2 !! t);
  inv_var : sh_var x.1 = false → sh_closed x.1 = true;
  inv_closed : sh_closed x.1 = true →
    sh_var x.1 = false ∨ ∃ t, x.2 !! t = Some UClear;
  inv_knows : ∀ t pc, x.2 !! t = Some pc → knows x.1 pc;
}.

Lemma invariant_exclusive x t t' pc pc' :
  invariant x → x.2 !! t = Some pc → x.2 !! t' = Some pc' →
  critical pc = true → critical pc' = true → t = t'.
Proof.
  intros Hinv Ht Ht' Hc Hc'.
  apply (inv_mutex _ Hinv t) in Hc; [|done]. apply (inv_mutex _ Hinv t') in Hc'; [|done].
  congruence.
Qed.

(** Nobody else is in the critical section of [t]. *)
Lemma others_outside x t pc t' pc' :
  invariant x → x.2 !! t = Some pc → critical pc = true → t' ≠ t → x.2 !! t' = Some pc' →
  critical pc' = false.
Proof.
  intros Hinv Ht Hc Hne Ht'. destruct (critical pc') eqn:Hc'; [|done].
  by destruct Hne; eapply invariant_exclusive.
Qed.

(** What a thread outside the critical section knows stays true when the
    channel is closed and the variable cleared. *)
Lemma knows_mono s s' pc :
  critical pc = false → (sh_var s = false → sh_var s' = false) →
  (sh_closed s = true → sh_closed s' = true) → knows s pc → knows s' pc.
Proof. destruct pc; cbn; try done; naive_solver. Qed.

Lemma inv_new t s threads pc :
  threads !! t = None → critical pc = false → knows s pc →
  invariant (s, threads) → invariant (s, <[t := pc]> threads).
Proof.
  intros Hnone Hc Hk [Hpanic Hmutex Hholder Hvar Hclosed Hknows]. cbn in *. split; cbn; try done.
  - intros t' pc' [[<- <-]|[Hne Ht']]%lookup_insert_Some; [|by apply Hmutex].
    rewrite Hc. split; [done|]. intros [pc' Ht']%Hholder. congruence.
  - intros t' Ht'. destruct (decide (t = t')) as [->|]; [by rewrite lookup_insert_eq|].
    rewrite lookup_insert_ne by done. auto.
  - intros [|[t' Ht']]%Hclosed; [by left|]. right. exists t'.
    rewrite lookup_insert_ne; congruence.
  - intros t' pc' [[<- <-]|[Hne Ht']]%lookup_insert_Some; [done|]. by eapply Hknows.
Qed.

(** A step that leaves the shared state alone. *)
Lemma inv_local t s threads pc pc' :
  threads !! t = Some pc → critical pc' = critical pc → pc ≠ UClear → knows s pc' →
  invariant (s, threads) → invariant (s, <[t := pc']> threads).
Proof.
  intros Ht Hc Hclear Hk [Hpanic Hmutex Hholder Hvar Hclosed Hknows]. cbn in *.
  split; cbn; try done.
  - intros t' pc'' [[<- <-]|[Hne Ht']]%lookup_insert_Some; [|by apply Hmutex].
    rewrite Hc. by apply Hmutex.
  - intros t' Ht'. destruct (decide (t = t')) as [->|]; [by rewrite lookup_insert_eq|].
    rewrite lookup_insert_ne by done. auto.
  - intros [|[t' Ht']]%Hclosed; [by left|]. right. exists t'.
    rewrite lookup_insert_ne; congruence.
  - intros t' pc'' [[<- <-]|[Hne Ht']]%lookup_insert_Some; [done|]. by eapply Hknows.
Qed.

(** A step of the holder of the mutex that keeps it. *)
Lemma inv_held t s s' threads pc pc' :
  threads !! t = Some pc → critical pc = true → critical pc' = true →
  sh_panic s' = sh_panic s → sh_mutex s' = sh_mutex s →
  (sh_var s = false → sh_var s' = false) → (sh_closed s = true → sh_closed s' = true) →
  (sh_var s' = false → sh_closed s' = true) →
  (sh_closed s' = true → sh_var s' = false ∨ pc' = UClear) → knows s' pc' →
  invariant (s, threads) → invariant (s', <[t := pc']> threads).
Proof.
  intros Ht Hc Hc' Hp Hm Hv1 Hcl1 Hvar' Hclosed' Hk Hinv.
  pose proof Hinv as [Hpanic Hmutex Hholder Hvar Hclosed Hknows]. cbn in *.
  split; cbn; rewrite ?Hp, ?Hm; try done.
  - intros t' pc'' [[<- <-]|[Hne Ht']]%lookup_insert_Some; [|by apply Hmutex].
    split; [intros _; by apply (Hmutex t pc)|done].
  - intros t' Ht'. destruct (decide (t = t')) as [->|]; [by rewrite lookup_insert_eq|].
    rewrite lookup_insert_ne by done. auto.
  - intros [?| ->]%Hclosed'; [by left|]. right. exists t. by rewrite lookup_insert_eq.
  - intros t' pc'' [[<- <-]|[Hne Ht']]%lookup_insert_Some; [done|].
    eapply knows_mono; [|done..|by eapply Hknows].
    by eapply (others_outside (s, threads) t pc t').
Qed.

Lemma invariant_tstep t s s' pc pc' threads :
  threads !! t = Some pc → tstep t s pc s' pc' →
  invariant (s, threads) → invariant (s', <[t := pc']> threads).
Proof.
  intros Ht Hstep Hinv.
  pose proof (inv_knows _ Hinv t pc Ht) as Hk. pose proof (inv_var _ Hinv) as Hvar.
  pose proof (inv_mutex _ Hinv t pc Ht) as Hm. cbn in Hvar, Hm.
  destruct Hstep as [Hv|Hv|Hfree|Hv|Hv|Hc|Hc| |Hheld|Hfree|Hv|Hv|i Hc|i|]; cbn in Hk.
  - eapply inv_local; try done. by split; [|apply Hvar].
  - by eapply inv_local.
  - (* lock *)
    destruct Hinv as [Hpanic Hmutex Hholder _ Hclosed Hknows]. cbn in *. split; cbn; try done.
    + intros t' pc'' [[<- <-]|[Hne Ht']]%lookup_insert_Some; [done|].
      rewrite (Hmutex t' pc'' Ht'), Hfree. split; [done|congruence].
    + intros t' [= <-]. by rewrite lookup_insert_eq.
    + intros [|[t' Ht']]%Hclosed; [by left|]. right. exists t'.
      rewrite lookup_insert_ne; congruence.
    + intros t' pc'' [[<- <-]|[Hne Ht']]%lookup_insert_Some; [done|]. by eapply Hknows.
  - (* read nil *)
    eapply inv_held; try done; [by left|]. by split; [|apply Hvar].
  - (* read the channel *)
    eapply inv_held; try done; [intros Hcl|split; [done|]].
    + apply (inv_closed _ Hinv) in Hcl as [?|[t' Ht']]; [by left|]. cbn in Ht'.
      assert (t = t') as -> by (by eapply (invariant_exclusive (s, threads))). congruence.
    + destruct (sh_closed s) eqn:Hcl; [|done].
      apply (inv_closed _ Hinv) in Hcl as [?|[t' Ht']]; cbn in *; [congruence|].
      assert (t = t') as -> by (by eapply (invariant_exclusive (s, threads))). congruence.
  - (* close *)
    destruct Hk as [Hv _]. eapply (inv_held t s); try done; cbn; by right.
  - destruct Hk. congruence.
  - (* clear *)
    destruct Hk as [_ Hcl]. eapply (inv_held t s); try done; cbn; by left.
  - (* unlock *)
    destruct Hinv as [Hpanic Hmutex Hholder _ Hclosed Hknows]. cbn in *. split; cbn; try done.
    + intros t' pc'' [[<- <-]|[Hne Ht']]%lookup_insert_Some; [done|].
      split; [|done]. intros Hc. apply (Hmutex t' pc'' Ht') in Hc.
      destruct Hm as [Hm _]. specialize (Hm eq_refl). congruence.
    + intros _. left. apply Hk.
    + intros t' pc'' [[<- <-]|[Hne Ht']]%lookup_insert_Some; [done|]. by eapply Hknows.
  - destruct Hm as [Hm _]. specialize (Hm eq_refl). congruence.
  - by eapply inv_local.
  - eapply inv_local; try done. cbn. lia.
  - by eapply inv_local.
  - eapply inv_local; try done. cbn. lia.
  - by eapply inv_local.
Qed.

Lemma reachable_invariant x : reachable x → invariant x.
Proof.
  induction 1 as [|a b Hreach Hinv Hstep].
  - by split; cbn; intros *; rewrite ?lookup_empty; try done; left.
  - destruct Hstep as [a b [t s s' pc pc' threads Ht Hts]|t s threads Hnone|t s threads Hnone].
    + by eapply invariant_tstep.
    + by apply inv_new.
    + by apply inv_new.
Qed.

(** ** Progress *)

(** The steps a thread has left at most. *)
Definition rank (pc : Pc) : nat :=
  match pc with
  | UTest => 6 | ULock => 5 | URead => 4 | UClose => 3 | UClear => 2 | UUnlock => 1
  | WTest => maxWait + 2
  | WWait i => S i
  | UDone | WDone => 0
  end.
Definition total (threads : gmap nat Pc) : nat :=
  sum_list (rank <$> (map_to_list threads).*2).

Lemma rank_tstep t s pc s' pc' : tstep t s pc s' pc' → rank pc' < rank pc.
Proof. destruct 1; cbn; unfold maxWait; lia. Qed.

Lemma total_insert t pc threads :
  threads !! t = None → total (<[t := pc]> threads) = rank pc + total threads.
Proof. intros Ht. unfold total. by rewrite map_to_list_insert. Qed.

Lemma total_update t pc pc' threads :
  threads !! t = Some pc → total (<[t := pc']> threads) + rank pc = total threads + rank pc'.
Proof.
  intros Ht.
  assert (total threads = rank pc + total (delete t threads)) as Hold.
  { rewrite <- (total_insert t) by apply lookup_delete_eq. by rewrite insert_delete_id. }
  assert (total (<[t := pc']> threads) = rank pc' + total (delete t threads)) as Hnew.
  { rewrite <- (total_insert t) by apply lookup_delete_eq. by rewrite insert_delete_eq. }
  lia.
Qed.

Lemma run_step_total a b : run_step a b → total b.2 < total a.2.
Proof.
  intros [t s s' pc pc' threads Ht Hstep]. cbn.
  pose proof (total_update t pc pc' threads Ht). pose proof (rank_tstep _ _ _ _ _ Hstep). lia.
Qed.

Lemma run_steps_total n a b : nsteps run_step n a b → n + total b.2 ≤ total a.2.
Proof.
  induction 1 as [|n a b c Hab Hbc IH]; [lia|]. pose proof (run_step_total a b Hab). lia.
Qed.

Lemma total_bound s threads :
  invariant (s, threads) → total threads ≤ (maxWait + 2) * size threads.
Proof.
  intros Hinv. pose proof (inv_knows _ Hinv) as Hk. cbn in Hk. clear Hinv.
  revert Hk. induction threads as [|t pc threads Ht IH] using map_ind; intros Hk; [done|].
  rewrite total_insert, map_size_insert_None by done.
  specialize (IH ltac:(intros t' pc' Ht'; apply (Hk t'); rewrite lookup_insert_ne; congruence)).
  specialize (Hk t pc (lookup_insert_eq _ _ _)).
  assert (rank pc ≤ maxWait + 2) by (destruct pc; cbn in *; unfold maxWait in *; lia). lia.
Qed.

(** A thread that has not finished can step, or waits for the mutex. *)
Lemma tstep_or_locked t s pc :
  final pc = false → (∃ s' pc', tstep t s pc s' pc') ∨ (pc = ULock ∧ sh_mutex s ≠ None).
Proof.
  intros Hf. destruct pc; try done.
  - left. destruct (sh_var s) eqn:?; eauto using tstep.
  - destruct (sh_mutex s) eqn:?; [by right|left; eauto using tstep].
  - left. destruct (sh_var s) eqn:?; eauto using tstep.
  - left. destruct (sh_closed s) eqn:?; eauto using tstep.
  - left. eauto using tstep.
  - left. destruct (sh_mutex s) eqn:?; do 2 eexists;
      [by eapply unlock; rewrite Heqo|by apply unlock_free].
  - left. destruct (sh_var s) eqn:?; eauto using tstep.
  - left. destruct i; eauto using tstep.
Qed.

Lemma stuck_final x t pc :
  invariant x → (∀ y, ¬ run_step x y) → x.2 !! t = Some pc → final pc = true.
Proof.
  destruct x as [s threads]. cbn. intros Hinv Hstuck Ht.
  destruct (final pc) eqn:Hf; [done|]. exfalso.
  destruct (tstep_or_locked t s pc Hf) as [(s' & pc' & Hs)|[-> Hheld]].
  { by eapply Hstuck, run. }
  destruct (sh_mutex s) as [h|] eqn:Hm; [|done].
  destruct (inv_holder _ Hinv h Hm) as [pc' Hh]. cbn in Hh.
  assert (critical pc' = true) as Hc by (by apply (inv_mutex _ Hinv h)).
  destruct (tstep_or_locked h s pc') as [(s' & pc'' & Hs)|[-> _]]; [by destruct pc'| |done].
  by eapply Hstuck, run.
Qed.

(** ** Properties *)

(** C19: However the calls interleave: no goroutine ever closes a closed channel or
    unlocks a free mutex, at most one is in the critical section, a closed
    channel is never about to be closed again - and as soon as one update with
    nodes has returned, a call that waits for nodes can return at once, and a
    call that arrives without nodes does not wait. *)
Theorem wake_up_safe s threads :
  reachable (s, threads) →
  sh_panic s = false ∧
  (∀ t t' pc pc', threads !! t = Some pc → threads !! t' = Some pc' →
     critical pc = true → critical pc' = true → t = t') ∧
  (sh_closed s = true → ∀ t, threads !! t ≠ Some UClose) ∧
  ((∃ t, threads !! t = Some UDone) →
     (∀ t i, threads !! t = Some (WWait (S i)) → tstep t s (WWait (S i)) s WDone) ∧
     (∀ t s' pc', threads !! t = Some WTest → tstep t s WTest s' pc' → pc' = WDone)).
Proof.
  intros Hinv%reachable_invariant. split_and!.
  - by apply (inv_panic _ Hinv).
  - intros t t' pc pc'. by apply (invariant_exclusive (s, threads)).
  - intros Hc t Ht. apply (inv_knows _ Hinv) in Ht as [_ Ht]. cbn in Ht. congruence.
  - intros [t Ht]. apply (inv_knows _ Hinv) in Ht as [Hv Hc]. cbn in Hv, Hc. split.
    + intros t' i Ht'. by apply woken.
    + intros t' s' pc' Ht' Hstep. inversion Hstep; [done|congruence].
Qed.

(** C20: Every call returns: from any reachable state the running calls take at most
    twelve steps each, whatever the scheduling, and they can only stop when all
    of them have returned - no call waits for ever on the mutex or on the
    channel. *)
Theorem wake_up_terminates x :
  reachable x →
  (∀ n y, nsteps run_step n x y → n ≤ 12 * size x.2) ∧
  (∀ n y, nsteps run_step n x y → (∀ z, ¬ run_step y z) →
     ∀ t pc, y.2 !! t = Some pc → final pc = true).
Proof.
  intros Hreach. pose proof (reachable_invariant x Hreach) as Hinv. split.
  - intros n y Hrun. destruct x as [s threads]. apply run_steps_total in Hrun.
    pose proof (total_bound s threads Hinv). unfold maxWait in *. cbn in *. lia.
  - intros n y Hrun Hstuck t pc Ht. eapply stuck_final; [|done..].
    apply reachable_invariant. clear Hstuck Ht Hinv.
    induction Hrun as [x|n x y z Hxy Hyz IH]; [done|].
    apply IH. eapply reach_step; [done|by apply step_run].
Qed.

(** ** Witnesses: one update with nodes that has returned, and one waiting call *)

Definition woken_up : System :=
  ({| sh_var := false; sh_closed := true; sh_mutex := None; sh_panic := false |},
   {[1 := WWait 10; 0 := UDone]}).

Lemma woken_up_reachable : reachable woken_up.
Proof.
  assert (∀ (a : System) t s' pc pc' m, reachable a → a.2 !! t = Some pc →
    tstep t a.1 pc s' pc' → <[t := pc']> a.2 = m → reachable (s', m)) as Hrun.
  { intros [s th] t s' pc pc' m Ha Ht Hs <-. eapply reach_step; [exact Ha|].
    apply step_run. by eapply run. }
  set (s0 := {| sh_var := true; sh_closed := false; sh_mutex := None; sh_panic := false |}).
  assert (reachable (s0, {[0 := UTest]})) as H1.
  { eapply reach_step; [apply reach_initial|]. by apply (step_update 0 s0 ∅). }
  assert (reachable (s0, {[1 := WTest; 0 := UTest]})) as H2.
  { eapply reach_step; [exact H1|]. by apply (step_ensure 1). }
  assert (reachable (s0, {[1 := WWait 10; 0 := UTest]})) as H3.
  { eapply (Hrun _ 1); [exact H2|done|by apply wait_chan|by vm_compute]. }
  assert (reachable (s0, {[1 := WWait 10; 0 := ULock]})) as H4.
  { eapply (Hrun _ 0); [exact H3|done|by apply test_chan|by vm_compute]. }
  assert (reachable (set_mutex (Some 0) s0, {[1 := WWait 10; 0 := URead]})) as H5.
  { eapply (Hrun _ 0); [exact H4|done|by apply lock|by vm_compute]. }
  assert (reachable (set_mutex (Some 0) s0, {[1 := WWait 10; 0 := UClose]})) as H6.
  { eapply (Hrun _ 0); [exact H5|done|by apply read_chan|by vm_compute]. }
  assert (reachable (set_closed true (set_mutex (Some 0) s0), {[1 := WWait 10; 0 := UClear]})) as H7.
  { eapply (Hrun _ 0); [exact H6|done|by apply close_open|by vm_compute]. }
  assert (reachable (set_var false (set_closed true (set_mutex (Some 0) s0)),
                     {[1 := WWait 10; 0 := UUnlock]})) as H8.
  { eapply (Hrun _ 0); [exact H7|done|by apply clear|by vm_compute]. }
  eapply (Hrun _ 0); [exact H8|done|by apply unlock|by vm_compute].
Qed.

Lemma wake_up_safe_witness :
  tstep 1 woken_up.1 (WWait 10) woken_up.1 WDone.
Proof.
  destruct (wake_up_safe _ _ woken_up_reachable) as (_ & _ & _ & H).
  destruct H as [Hwake _]; [by exists 0|]. by apply Hwake.
Defined.

Lemma wake_up_terminates_witness :
  reachable woken_up ∧ ∀ n y, nsteps run_step n woken_up y → n ≤ 24.
Proof.
  split; [exact woken_up_reachable|]. exact (proj1 (wake_up_terminates _ woken_up_reachable)).
Defined.
