(* ===== verification/Cloud.v ===== *)
(** * Cloud: the cloud provider Kubernetes talks to (ibm/ibm.go,
    ibm/ibm_loadbalancer.go, ibm/ibm_vpc_cloud.go, ibm/ibm_eventrecorder.go and
    the stubs of pkg/classic)

    [Cloud] is the receiver after [NewCloud], which always sets its
    configuration and its recorder.  All methods act on a [Process]. *)
From S2P Require Import Prelude GoStrings Kube VpcTypes VpcConfig VpcSdk VpcLbaas VpcProvider.
From S2P Require Import VpcSdkFake VpcSdkGen2 VpcCloud CloudConfig NodeMetadata.

(** ** The classic provider of this repository: every operation is refused *)

(** classic.CloudConfig *)
Record Classic_CloudConfig := {
  clc_APIKeySecretPath : string;
  clc_Application : string;
  clc_CalicoDatastore : string;
  clc_ConfigFilePath : string;
  clc_ClusterID : string;
  clc_Region : string;
  clc_IKSPrivateEndpointHostname : string;
  clc_Image : string;
  clc_VlanIPConfigMap : string;
}.

(** classic.NewCloud: the classic cloud is its configuration. *)
Definition Classic_NewCloud (config : Classic_CloudConfig) : Classic_CloudConfig := config.

Definition Classic_unsupported (what : string) : error :=
  ErrorString ("cloud provider does not support " +:+ what +:+ " interface").

Definition Classic_GetCloudProviderLoadBalancerName (service : Service) : string :=
  let ret := removeAll "-" ("a" +:+ svc_UID service) in
  if (32 <? String.length ret)%nat then take_bytes 32 ret else ret.

Definition Classic_GetLoadBalancer : outcome (option LoadBalancerStatus * bool) :=
  Err (Classic_unsupported "GetLoadBalancer").
Definition Classic_EnsureLoadBalancer : outcome LoadBalancerStatus :=
  Err (Classic_unsupported "EnsureLoadBalancer").
Definition Classic_UpdateLoadBalancer : outcome unit := Err (Classic_unsupported "UpdateLoadBalancer").
Definition Classic_EnsureLoadBalancerDeleted : outcome unit :=
  Err (Classic_unsupported "EnsureLoadBalancerDeleted").
Definition Classic_MonitorLoadBalancers (data : gmap string string) : gmap string string := data.

(** A select on the wake-up channel and a timer of [ns] nanoseconds: whether
    the channel was closed. *)
Class NodeWait (W : Type) := wait_nodes (ns : Z) : W → bool * W.

Record Cloud := {
  cl_Config : CloudConfig;
  cl_ClassicCloud : option Classic_CloudConfig;
}.

(** The copy of the classic name in package ibm. *)
Definition GetCloudProviderLoadBalancerName (service : Service) : string :=
  let ret := removeAll "-" ("a" +:+ svc_UID service) in
  if (32 <? String.length ret)%nat then take_bytes 32 ret else ret.

(** ** Supported services *)

Definition isServiceConfigurationSupported (config : CloudConfig) (service : Service)
    : option error :=
  if Cloud_isProviderVpc config
     && bool_decide (spec_AllocateLoadBalancerNodePorts (svc_Spec service) = Some false)
  then Some (ErrorString "NodePort allocation is required")
  else
    match List.find (λ port, negb (bool_decide (sp_Protocol port = ProtocolTCP)
                                   || bool_decide (sp_Protocol port = ProtocolUDP)))
                    (spec_Ports (svc_Spec service)) with
    | Some port => Some (ErrorString (sp_Protocol port +:+ " protocol"))
    | None => None
    end.

Definition filterLoadBalancersFromServiceList (config : CloudConfig) (services : list Service)
    : list Service :=
  filter (λ service,
    spec_Type (svc_Spec service) = ServiceTypeLoadBalancer ∧
    spec_LoadBalancerClass (svc_Spec service) = None ∧
    isServiceConfigurationSupported config service = None) services.

(** The event reasons of package ibm, which has its own. *)
Definition CreatingCloudLoadBalancerFailed := "CreatingCloudLoadBalancerFailed".
Definition UpdatingCloudLoadBalancerFailed := "UpdatingCloudLoadBalancerFailed".
Definition DeletingCloudLoadBalancerFailed := "DeletingCloudLoadBalancerFailed".
Definition GettingCloudLoadBalancerFailed := "GettingCloudLoadBalancerFailed".
Definition VerifyingCloudLoadBalancerFailed := "VerifyingCloudLoadBalancerFailed".

Section cloud.
Context {W : Type} `{!Clock W} `{!MapIteration} `{!Os W} `{!MockHeap W} `{!KubeServices W} `{!NodeWait W}.
Context (NewVpcSdkProvider : ConfigVpc → M W (ConfigVpc * CloudVpcSdk W)).
Implicit Types (c : Cloud).

Definition in_world {A} (m : M W A) : M (Process W) A := in_env (sdk m).

(** ** Events *)

(** Both record a warning and return the error that represents it. *)
Definition VpcLoadBalancerServiceWarningEvent (lbService : Service)
    (reason lbName errorMessage : string) : M (Process W) error :=
  _ ← in_env (record_event (warning_event lbService reason lbName errorMessage));
  mret (ErrorString (event_text "Error" lbName lbService errorMessage)).

Definition LoadBalancerServiceWarningEvent (lbService : Service)
    (reason errorMessage : string) : M (Process W) error :=
  let lbName := GetCloudProviderLoadBalancerName lbService in
  _ ← in_env (record_event (warning_event lbService reason lbName errorMessage));
  mret (ErrorString (event_text "Error" lbName lbService errorMessage)).

(** ** The VPC object *)

Definition vpcGetLoadBalancerName (config : CloudConfig) (service : Service) : string :=
  GenerateLoadBalancerName service (prov_ClusterID (cc_Prov config)).

Definition InitCloudVpc (config : CloudConfig) (enablePrivateEndpoint : bool)
    : M (Process W) (CloudVpc W) :=
  cloudVpc ← GetCloudVpc;
  match cloudVpc with
  | Some vpc => mret vpc
  | None =>
      config ← in_world (NewConfigVpc (Some config) enablePrivateEndpoint);
      NewCloudVpc NewVpcSdkProvider (Some config) true
  end.

Definition shouldPrivate : M (Process W) bool :=
  gets (λ p, shouldPrivateEndpointBeEnabled (env_world (ps_env p))).

(** The common start of the VPC operations: the VPC object, or an event. *)
Definition with_vpc {A} (config : CloudConfig) (service : Service) (reason : string)
    (k : CloudVpc W → M (Env W) A) : M (Process W) A :=
  private ← shouldPrivate;
  r ← attempt (InitCloudVpc config private);
  match r with
  | inr err =>
      err ← VpcLoadBalancerServiceWarningEvent service reason
              (vpcGetLoadBalancerName config service)
              ("Failed initializing VPC: " +:+ error_string err);
      fail err
  | inl vpc => in_env (k vpc)
  end.

(** ** The VPC operations *)

Definition no_nodes : error := ErrorString "There are no available nodes for LoadBalancer".

(** [i] minutes of waiting for nodes. *)
Fixpoint waitForNodes (i : nat) : M (Process W) unit :=
  match i with
  | O => mret tt
  | S i =>
      woken ← in_world (λ w, let '(b, w) := wait_nodes (60 * 1000000000) w in (Ok b, w));
      if woken : bool then mret tt else waitForNodes i
  end.

Definition VpcEnsureLoadBalancer c (service : Service) (nodes : option (list Node))
    : M (Process W) LoadBalancerStatus :=
  let lbName := vpcGetLoadBalancerName (cl_Config c) service in
  if (length (default [] nodes) =? 0)%nat then
    syncChan ← gets ps_chan;
    _ ← (if syncChan : bool then waitForNodes 10 else mret tt);
    fail no_nodes
  else
    with_vpc (cl_Config c) service CreatingCloudLoadBalancerFailed
      (λ vpc, EnsureLoadBalancer vpc lbName service nodes).

Definition VpcEnsureLoadBalancerDeleted c (service : Service) : M (Process W) unit :=
  let lbName := vpcGetLoadBalancerName (cl_Config c) service in
  with_vpc (cl_Config c) service DeletingCloudLoadBalancerFailed
    (λ vpc, EnsureLoadBalancerDeleted vpc lbName service).

Definition VpcGetLoadBalancer c (service : Service)
    : M (Process W) (option LoadBalancerStatus * bool) :=
  let lbName := vpcGetLoadBalancerName (cl_Config c) service in
  with_vpc (cl_Config c) service GettingCloudLoadBalancerFailed
    (λ vpc, GetLoadBalancer vpc lbName service).

(** Closes the wake-up channel and sets the variable to nil. *)
Definition wakeUp : M (Process W) unit :=
  modify (λ p, {| ps_env := ps_env p; ps_vpc := ps_vpc p; ps_chan := false |}).

Definition VpcUpdateLoadBalancer c (service : Service) (nodes : option (list Node))
    : M (Process W) unit :=
  let lbName := vpcGetLoadBalancerName (cl_Config c) service in
  if (length (default [] nodes) =? 0)%nat then fail no_nodes
  else
    chan ← gets ps_chan;
    _ ← (if chan : bool then wakeUp else mret tt);
    with_vpc (cl_Config c) service UpdatingCloudLoadBalancerFailed
      (λ vpc, EnsureLoadBalancerUpdated vpc lbName service nodes).

(** [services] is [None] for a nil list; returns the data as the call leaves
    it. *)
Definition VpcMonitorLoadBalancers c (services : option (list Service))
    (status : gmap string string) : M (Process W) (gmap string string) :=
  match services with
  | None | Some [] => mret status
  | Some _ =>
      private ← shouldPrivate;
      r ← attempt (InitCloudVpc (cl_Config c) private);
      match r with
      | inr _ => mret status
      | inl vpc => in_env (MonitorLoadBalancers vpc services status)
      end
  end.

(** ** The load balancer interface *)

Definition Cloud_GetLoadBalancerName c (service : Service) : string :=
  if Cloud_isProviderVpc (cl_Config c) then vpcGetLoadBalancerName (cl_Config c) service
  else Classic_GetCloudProviderLoadBalancerName service.

Definition Cloud_GetLoadBalancer c (service : Service)
    : M (Process W) (option LoadBalancerStatus * bool) :=
  if Cloud_isProviderVpc (cl_Config c) then VpcGetLoadBalancer c service
  else lift Classic_GetLoadBalancer.

Definition Cloud_EnsureLoadBalancer c (service : Service) (nodes : option (list Node))
    : M (Process W) LoadBalancerStatus :=
  match isServiceConfigurationSupported (cl_Config c) service with
  | Some err =>
      err ← LoadBalancerServiceWarningEvent service CreatingCloudLoadBalancerFailed
              ("Service configuration is not supported: " +:+ error_string err);
      fail err
  | None =>
      if Cloud_isProviderVpc (cl_Config c) then VpcEnsureLoadBalancer c service nodes
      else lift Classic_EnsureLoadBalancer
  end.

Definition Cloud_UpdateLoadBalancer c (service : Service) (nodes : option (list Node))
    : M (Process W) unit :=
  if Cloud_isProviderVpc (cl_Config c) then VpcUpdateLoadBalancer c service nodes
  else lift Classic_UpdateLoadBalancer.

Definition Cloud_EnsureLoadBalancerDeleted c (service : Service) : M (Process W) unit :=
  if Cloud_isProviderVpc (cl_Config c) then VpcEnsureLoadBalancerDeleted c service
  else lift Classic_EnsureLoadBalancerDeleted.

(** One run of the monitor task. *)
Definition Cloud_MonitorLoadBalancers c (data : gmap string string)
    : M (Process W) (gmap string string) :=
  r ← attempt (in_world kube_ListServices);
  match r with
  | inr _ => mret data
  | inl services =>
      let services := filterLoadBalancersFromServiceList (cl_Config c) services in
      if Cloud_isProviderVpc (cl_Config c) then VpcMonitorLoadBalancers c (Some services) data
      else mret (Classic_MonitorLoadBalancers data)
  end.

(** ** NewCloud *)

Definition classicConfig (config : CloudConfig) (configFilePath : string)
    : Classic_CloudConfig :=
  {| clc_APIKeySecretPath := prov_CloudCredentials (cc_Prov config);
     clc_Application := dep_Application (cc_LBDeployment config);
     clc_CalicoDatastore := cc_CalicoDatastore config;
     clc_ConfigFilePath := configFilePath;
     clc_ClusterID := prov_ClusterID (cc_Prov config);
     clc_Region := prov_Region (cc_Prov config);
     clc_IKSPrivateEndpointHostname := prov_IKSPrivateEndpointHostname (cc_Prov config);
     clc_Image := dep_Image (cc_LBDeployment config);
     clc_VlanIPConfigMap := dep_VlanIPConfigMap (cc_LBDeployment config) |}.

Definition set_ConfigFilePaths (paths : list string) (config : CloudConfig) : CloudConfig :=
  {| cc_Version := cc_Version config; cc_ConfigFilePaths := paths;
     cc_CalicoDatastore := cc_CalicoDatastore config;
     cc_SetNetworkUnavailable := cc_SetNetworkUnavailable config;
     cc_CniProvider := cc_CniProvider config; cc_LBDeployment := cc_LBDeployment config;
     cc_Prov := cc_Prov config |}.

(** [build] and [newForConfig] are the constructors of client-go; the metadata
    service is [None] without an account ID. *)
Definition NewCloud {R Sdk} (gcfg_read : string → outcome CloudConfig)
    (build : string → option R) (newForConfig : R → outcome unit) (config : option string)
    : M (Process W) (Cloud * option (MetadataService Sdk)) :=
  cloudConfig ← lift (getCloudConfig gcfg_read config);
  let cloudConfig :=
    if (length (cc_ConfigFilePaths cloudConfig) =? 0)%nat
    then set_ConfigFilePaths [""] cloudConfig else cloudConfig in
  k8sConfig ← lift (getK8SConfig build (cc_ConfigFilePaths cloudConfig));
  r ← attempt (lift (newForConfig k8sConfig));
  match r with
  | inr err =>
      fail (ErrorString ("Failed to create Kubernetes client: " +:+ error_string err))
  | inl _ =>
      metadata ←
        (if bool_decide (prov_AccountID (cc_Prov cloudConfig) ≠ "") then
           start ← in_env now;
           mret (Some (NewMetadataService (Some (cc_Prov cloudConfig)) (cc_Prov cloudConfig)
                         start))
         else mret None);
      if Cloud_isProviderVpc cloudConfig then
        private ← shouldPrivate;
        _ ← attempt (InitCloudVpc cloudConfig private);
        mret ({| cl_Config := cloudConfig; cl_ClassicCloud := None |}, metadata)
      else
        path ← lift (index (cc_ConfigFilePaths cloudConfig) 0);
        mret ({| cl_Config := cloudConfig;
                 cl_ClassicCloud := Some (Classic_NewCloud (classicConfig cloudConfig path)) |}, metadata)
  end.
End cloud.
