(* ===== verification/CredentialWatch.v ===== *)
(** * CredentialWatch: reacting to a new cloud credential
    (ibm/ibm_vpc_cloud.go: WatchCloudCredential, InitCloudVpc; ibm/ibm.go:
    SetInformers; pkg/vpcctl/vpc_provider.go: ResetCloudVpc)

    The watching goroutine receives events of the file system and, when the
    credential file was written, drops the cloud object and the VPC client of
    the metadata service, so that the next call builds them anew.
    [handleWatchEvent] is one round of its loop, on the process and the metadata
    service.  fsnotify and the informers are not part of the repository: they
    are the class [FileWatch] and an argument.  The second half interleaves
    the goroutine, whose reads of the file may fail, with calls of InitCloudVpc,
    one atomic access at a time. *)
From S2P Require Import Prelude GoStrings Kube VpcTypes VpcConfig VpcSdk VpcSdkFake VpcCloud CloudConfig.
From S2P Require Import NodeMetadata Cloud.

(** A watcher of files; [fsnotify_Write] is the bit of a write event. *)
Class FileWatch (W : Type) := {
  fsnotify_Write : Z;
  fsnotify_NewWatcher : M W unit;
  fsnotify_Add : string → M W unit;
}.

(** What the goroutine's select receives. *)
Inductive WatchEvent :=
  | FileEvent (Op : Z)
  | WatchError (err : error).

(** The process and [c.Metadata]. *)
Record Watched (W Sdk : Type) := {
  wt_process : Process W;
  wt_metadata : option (MetadataService Sdk);
}.
Arguments wt_process {W Sdk} w : rename.
Arguments wt_metadata {W Sdk} w : rename.
Arguments Build_Watched {W Sdk}.

Section watch.
Context {W Sdk : Type} `{!Clock W} `{!Os W} `{!MockHeap W} `{!FileWatch W}.
Implicit Types (config : CloudConfig).

Definition in_process {A} (m : M (Process W) A) : M (Watched W Sdk) A := λ x,
  let '(r, p) := m (wt_process x) in (r, {| wt_process := p; wt_metadata := wt_metadata x |}).

Definition clear_vpcClient (ms : MetadataService Sdk) : MetadataService Sdk :=
  {| ms_provider := ms_provider ms; ms_vpcClient := None; ms_nodeMap := ms_nodeMap ms;
     ms_nodeCacheStart := ms_nodeCacheStart ms |}.

(** [if c.Metadata != nil && c.Metadata.vpcClient != nil]. *)
Definition resetVpcClient : M (Watched W Sdk) unit :=
  modify (λ x, {| wt_process := wt_process x;
                  wt_metadata :=
                    match wt_metadata x with
                    | Some ms => Some (if bool_decide (is_Some (ms_vpcClient ms))
                                       then clear_vpcClient ms else ms)
                    | None => None
                    end |}).

Definition handleWatchEvent config (event : WatchEvent) : M (Watched W Sdk) unit :=
  match event with
  | WatchError _ => mret tt
  | FileEvent op =>
      if bool_decide (Z.land op fsnotify_Write = fsnotify_Write) then
        r ← attempt (in_process (in_world (os_ReadFile (prov_G2Credentials (cc_Prov config)))));
        match r with
        | inr _ => mret tt
        | inl fileData =>
            if contains (trimSpace fileData) " " then mret tt
            else _ ← in_process ResetCloudVpc; resetVpcClient
        end
      else mret tt
  end.

(** The goroutine on the events it receives. *)
Definition watchLoop config (events : list WatchEvent) : M (Watched W Sdk) unit :=
  forM (λ _ event, handleWatchEvent config event) tt events.

(** Starting the watch; the goroutine runs from the creation of the watcher. *)
Definition WatchCloudCredential config : M (Watched W Sdk) unit :=
  if bool_decide (prov_G2Credentials (cc_Prov config) = "") then
    fail (ErrorString "No cloud credential file to watch")
  else
    r ← attempt (in_process (in_world fsnotify_NewWatcher));
    match r with
    | inr err => fail (ErrorString ("Failed to create watcher for cloud credential file: " +:+
                                    error_string err))
    | inl _ =>
        r ← attempt (in_process (in_world (fsnotify_Add (prov_G2Credentials (cc_Prov config)))));
        match r with
        | inr err => fail (ErrorString ("Failed to add credential file to watch: " +:+
                                        error_string err))
        | inl _ => mret tt
        end
    end.

(** The SetInformers of the two provider packages. *)
Definition Classic_SetInformers : M (Watched W Sdk) unit := mret tt.
Definition Vpc_SetInformers : M (Watched W Sdk) unit := mret tt.

(** [addDeleteHandler] registers [handleNodeDelete] with the node informer. *)
Definition SetInformers config (addDeleteHandler : M W unit) : M (Watched W Sdk) unit :=
  _ ← (if negb (Cloud_isProviderVpc config) then Classic_SetInformers else mret tt);
  _ ← attempt (in_process (in_world addDeleteHandler));
  if Cloud_isProviderVpc config then
    _ ← Vpc_SetInformers;
    if bool_decide (prov_G2Credentials (cc_Prov config) ≠ "") then
      _ ← attempt (WatchCloudCredential config); mret tt
    else mret tt
  else mret tt.
End watch.

(** ** The goroutine among the calls *)

(** The credential in a file's text, as both sides read it. *)
Definition key_of (text : string) : string :=
  if contains (trimSpace text) " " then "" else trimSpace text.

(** Where a call of InitCloudVpc is. *)
Inductive CallPc :=
  | CGet                 (* cloudVpc := c.GetCloudVpc() *)
  | CRead                (* os.ReadFile, in NewConfigVpc *)
  | CSet (key : string)  (* SetCloudVpc at the end of NewCloudVpc *)
  | CDone.
(** Where the goroutine is. *)
Inductive WatchPc :=
  | WSelect              (* the select *)
  | WRead                (* os.ReadFile after a write event *)
  | WReset.              (* vpcctl.ResetCloudVpc() *)

(** The text of the file, the write events not received yet, the credential
    of [persistentCloudVpc], the goroutine and the calls.  [cr_missed] records
    that the goroutine could not read the file after a write event and has not
    reset the object since; no code reads it. *)
Record CredSystem := {
  cr_file : string;
  cr_events : nat;
  cr_object : option string;
  cr_missed : bool;
  cr_watch : WatchPc;
  cr_calls : gmap nat CallPc;
}.

Definition set_call (t : nat) (pc : CallPc) (object : option string) (s : CredSystem) : CredSystem :=
  {| cr_file := cr_file s; cr_events := cr_events s; cr_object := object;
     cr_missed := cr_missed s; cr_watch := cr_watch s; cr_calls := <[t := pc]> (cr_calls s) |}.
Definition set_watch (pc : WatchPc) (events : nat) (object : option string) (missed : bool)
    (s : CredSystem) : CredSystem :=
  {| cr_file := cr_file s; cr_events := events; cr_object := object; cr_missed := missed;
     cr_watch := pc; cr_calls := cr_calls s |}.

(** No call is between reading the file and storing its object. *)
Definition no_call_between (s : CredSystem) : Prop :=
  ∀ t key, cr_calls s !! t ≠ Some (CSet key).

(** The steps; under [serial] the goroutine resets only when no call is
    between its read and its store. *)
Inductive cred_step (serial : bool) (s : CredSystem) : CredSystem → Prop :=
  | file_written text :
      cred_step serial s {| cr_file := text; cr_events := S (cr_events s);
                            cr_object := cr_object s; cr_missed := cr_missed s;
                            cr_watch := cr_watch s; cr_calls := cr_calls s |}
  | watch_receive n : cr_watch s = WSelect → cr_events s = S n →
      cred_step serial s (set_watch WRead n (cr_object s) (cr_missed s) s)
  | watch_read_fails : cr_watch s = WRead →
      cred_step serial s (set_watch WSelect (cr_events s) (cr_object s) true s)
  | watch_ignore : cr_watch s = WRead → contains (trimSpace (cr_file s)) " " = true →
      cred_step serial s (set_watch WSelect (cr_events s) (cr_object s) (cr_missed s) s)
  | watch_accept : cr_watch s = WRead → contains (trimSpace (cr_file s)) " " = false →
      cred_step serial s (set_watch WReset (cr_events s) (cr_object s) (cr_missed s) s)
  | watch_reset : cr_watch s = WReset → (serial = true → no_call_between s) →
      cred_step serial s (set_watch WSelect (cr_events s) None false s)
  | call_start t : cr_calls s !! t = None →
      cred_step serial s (set_call t CGet (cr_object s) s)
  | call_cached t key : cr_calls s !! t = Some CGet → cr_object s = Some key →
      cred_step serial s (set_call t CDone (cr_object s) s)
  | call_missing t : cr_calls s !! t = Some CGet → cr_object s = None →
      cred_step serial s (set_call t CRead (cr_object s) s)
  | call_read t : cr_calls s !! t = Some CRead →
      cred_step serial s (set_call t (CSet (key_of (cr_file s))) (cr_object s) s)
  | call_read_fails t : cr_calls s !! t = Some CRead →
      cred_step serial s (set_call t CDone (cr_object s) s)
  | call_store t key : cr_calls s !! t = Some (CSet key) →
      cred_step serial s (set_call t CDone (Some key) s)
  | call_fails t key : cr_calls s !! t = Some (CSet key) →
      cred_step serial s (set_call t CDone (cr_object s) s).

Definition cred_initial (text : string) : CredSystem :=
  {| cr_file := text; cr_events := 0; cr_object := None; cr_missed := false;
     cr_watch := WSelect; cr_calls := ∅ |}.

Inductive cred_reachable (serial : bool) (text : string) : CredSystem → Prop :=
  | cred_start : cred_reachable serial text (cred_initial text)
  | cred_next a b : cred_reachable serial text a → cred_step serial a b →
      cred_reachable serial text b.

(** Every write event has been dealt with. *)
Definition quiescent (s : CredSystem) : Prop := cr_events s = 0 ∧ cr_watch s = WSelect.
Definition file_valid (s : CredSystem) : Prop := contains (trimSpace (cr_file s)) " " = false.

(** A credential that is in use, or about to be. *)
Definition in_use (s : CredSystem) (key : string) : Prop :=
  cr_object s = Some key ∨ ∃ t, cr_calls s !! t = Some (CSet key).

Definition cred_inv (s : CredSystem) : Prop :=
  quiescent s → file_valid s → cr_missed s = false → ∀ key, in_use s key → key = key_of (cr_file s).

(** A call's step introduces no credential but the one in the file. *)
Lemma set_call_inv t pc object s :
  cred_inv s →
  (∀ key, object = Some key ∨ pc = CSet key → in_use s key ∨ key = key_of (cr_file s)) →
  cred_inv (set_call t pc object s).
Proof.
  intros Hinv Hnew Hq Hf Hm key [Ho|(t' & Ht)]; cbn in *.
  - destruct (Hnew key) as [?|?]; [by left|by apply Hinv|done].
  - apply lookup_insert_Some in Ht as [[<- ->]|[_ Ht]].
    + destruct (Hnew key) as [?|?]; [by right|by apply Hinv|done].
    + apply Hinv; [done..|]. right. eauto.
Qed.

Lemma cred_step_inv s s' : cred_inv s → cred_step true s s' → cred_inv s'.
Proof.
  intros Hinv Hstep. destruct Hstep as [text|n Hw He|Hw|Hw Hv|Hw Hv|Hw Hno|t Ht|t key Ht Ho|t Ht Ho
    |t Ht|t Ht|t key Ht|t key Ht].
  - by intros [? _].
  - by intros [_ ?].
  - by intros _ _ [=].
  - intros _ Hf. change (file_valid s) in Hf. unfold file_valid in Hf. congruence.
  - by intros [_ ?].
  - intros _ _ _ key [?|(t & Ht)]; [done|]. exfalso. by eapply Hno.
  - apply set_call_inv; [done|]. intros key [?|?]; [left; by left|done].
  - apply set_call_inv; [done|]. intros key' [?|?]; [left; by left|done].
  - apply set_call_inv; [done|]. intros key' [?|?]; [left; by left|done].
  - apply set_call_inv; [done|]. intros key' [?|[= <-]]; [left; by left|by right].
  - apply set_call_inv; [done|]. intros key' [?|?]; [left; by left|done].
  - apply set_call_inv; [done|]. intros key' [[= <-]|?]; [left; right; eauto|done].
  - apply set_call_inv; [done|]. intros key' [?|?]; [left; by left|done].
Qed.

Lemma cred_reachable_inv text s : cred_reachable true text s → cred_inv s.
Proof.
  induction 1 as [|a b _ IH Hstep]; [|by eapply cred_step_inv].
  intros _ _ _ key [?|(t & Ht)]; [done|]. cbn in Ht. by rewrite lookup_empty in Ht.
Qed.

(** ** Properties *)

(** C21: once every write event has been dealt with, the cloud object in use was
    built from the credential the file holds now, provided that the file holds
    a valid credential (a text without inner blanks; others are ignored), that
    the goroutine could read the file each time since it last reset the object,
    and that no reset falls between a call's read of the file and its
    SetCloudVpc ([serial]).  Without the second proviso [credential_missed],
    without the third [credential_watch_race] leave an old credential in
    use. *)
Theorem credential_watch_safe text s key :
  cred_reachable true text s → quiescent s → file_valid s → cr_missed s = false →
  cr_object s = Some key → key = key_of (cr_file s).
Proof. intros Hr Hq Hf Hm Ho. by apply (cred_reachable_inv text s Hr Hq Hf Hm); left. Qed.

(** A call that finds no object and has read the file. *)
Definition call_has_read (t : nat) (text : string) (s : CredSystem) : CredSystem :=
  set_call t (CSet (key_of text)) None (set_call t CRead None (set_call t CGet None s)).

Lemma cred_call_reads serial t s :
  cr_calls s !! t = None → cr_object s = None →
  rtc (cred_step serial) s (call_has_read t (cr_file s) s).
Proof.
  intros Ht Ho. unfold call_has_read.
  eapply rtc_l; [apply (call_start _ _ t), Ht|]. rewrite Ho.
  eapply rtc_l; [eapply (call_missing _ _ t); cbn; [apply lookup_insert_eq|done]|].
  apply rtc_once, (call_read _ (set_call t CRead None (set_call t CGet None s)) t).
  cbn. apply lookup_insert_eq.
Qed.

Lemma cred_reachable_steps serial text s s' :
  cred_reachable serial text s → rtc (cred_step serial) s s' → cred_reachable serial text s'.
Proof. intros Hr. induction 1; [done|]. eauto using cred_next. Qed.

(** A call stores the object it has built. *)
Lemma cred_call_stores serial t s :
  cr_calls s !! t = None → cr_object s = None →
  rtc (cred_step serial) s
    (set_call t CDone (Some (key_of (cr_file s))) (call_has_read t (cr_file s) s)).
Proof.
  intros Ht Ho. etrans; [by apply cred_call_reads|].
  apply rtc_once, (call_store _ _ t (key_of (cr_file s))). cbn. apply lookup_insert_eq.
Qed.

(** The file is rewritten, and the goroutine told. *)
Definition rewritten (text : string) (s : CredSystem) : CredSystem :=
  {| cr_file := text; cr_events := 0; cr_object := cr_object s; cr_missed := cr_missed s;
     cr_watch := WRead; cr_calls := cr_calls s |}.

Lemma cred_rewritten serial text s :
  quiescent s → rtc (cred_step serial) s (rewritten text s).
Proof.
  intros [He Hw]. eapply rtc_l; [apply (file_written _ _ text)|]. rewrite He.
  set (s1 := {| cr_file := text; cr_events := 1 |}).
  apply rtc_once, (watch_receive _ s1 0); [exact Hw|reflexivity].
Qed.

(** A call builds an object, the file is rewritten and cannot be read, rewritten
    and read, and the next call builds an object anew. *)
Lemma credential_watch_safe_witness : ∃ s, cred_reachable true "old" s ∧ cr_file s = "new" ∧
  cr_object s = Some "new" ∧ "new" = key_of (cr_file s).
Proof.
  set (s1 := set_call 0 CDone (Some (key_of "old")) (call_has_read 0 "old" (cred_initial "old"))).
  set (s2 := set_watch WSelect 0 (Some "old") true (rewritten "newer" s1)).
  set (s3 := set_watch WSelect 0 None false
               (set_watch WReset 0 (Some "old") true (rewritten "new" s2))).
  set (s4 := set_call 1 CDone (Some (key_of "new")) (call_has_read 1 "new" s3)).
  assert (cred_reachable true "old" s4) as Hr.
  { eapply cred_reachable_steps; [apply cred_start|].
    transitivity s1.
    { exact (cred_call_stores true 0 (cred_initial "old") eq_refl eq_refl). }
    transitivity (rewritten "newer" s1).
    { apply cred_rewritten. split; reflexivity. }
    transitivity s2; [apply rtc_once; exact (watch_read_fails true (rewritten "newer" s1) eq_refl)|].
    transitivity (rewritten "new" s2).
    { apply cred_rewritten. split; reflexivity. }
    transitivity s3.
    { eapply rtc_l; [exact (watch_accept true (rewritten "new" s2) eq_refl eq_refl)|].
      apply rtc_once, (watch_reset true (set_watch WReset 0 (Some "old") true (rewritten "new" s2)));
        [reflexivity|].
      intros _ t key. destruct t as [|t]; cbn; [discriminate|].
      unfold s2, s1, call_has_read. cbn. rewrite !lookup_insert_ne by done.
      rewrite lookup_empty. discriminate. }
    exact (cred_call_stores true 1 s3 eq_refl eq_refl). }
  exists s4. split; [exact Hr|]. split; [reflexivity|]. split; [reflexivity|].
  apply (credential_watch_safe "old" s4 "new" Hr); [split; reflexivity|reflexivity..].
Defined.

(** The steps in which the file is not written. *)
Definition quiet_step (s s' : CredSystem) : Prop :=
  cred_step false s s' ∧ cr_file s' = cr_file s ∧ (cr_events s' ≤ cr_events s)%nat.

(** A state that has an object, no event to deal with and no call past its
    look at the object. *)
Definition settled (s : CredSystem) : Prop :=
  is_Some (cr_object s) ∧ quiescent s ∧
  ∀ t, cr_calls s !! t ≠ Some CRead ∧ ∀ key, cr_calls s !! t ≠ Some (CSet key).

Lemma set_call_settled t pc s :
  pc = CGet ∨ pc = CDone → settled s → settled (set_call t pc (cr_object s) s).
Proof.
  intros Hpc (Ho & Hq & Hc). split; [done|]. split; [done|]. intros t'. cbn.
  destruct (decide (t = t')) as [<-|Hne].
  - rewrite lookup_insert_eq. by destruct Hpc as [->| ->].
  - rewrite (lookup_insert_ne _ _ _ _ Hne). apply Hc.
Qed.

Lemma settled_quiet s s' :
  settled s → quiet_step s s' → settled s' ∧ cr_object s' = cr_object s.
Proof.
  intros Hs (Hstep & _ & He). pose proof Hs as ([key0 Hk] & [Hq0 Hq] & Hc).
  destruct Hstep as [text|n Hw Hn|Hw|Hw Hv|Hw Hv|Hw Hno|t Ht|t key Ht Ho|t Ht Ho
    |t Ht|t Ht|t key Ht|t key Ht]; cbn in He; try congruence; try lia;
    try (by destruct (Hc t) as [??]); try (by destruct (Hc t) as [_ []%(λ H, H key)]);
    (split; [apply set_call_settled; [tauto|done]|done]).
Qed.

Lemma settled_quiet_rtc s s' :
  settled s → rtc quiet_step s s' → cr_object s' = cr_object s.
Proof.
  intros Hs Hsteps. revert Hs. induction Hsteps as [|a b d Hab _ IH]; [done|].
  intros Hs. destruct (settled_quiet _ _ Hs Hab) as [Hb Ho]. rewrite (IH Hb). done.
Qed.

(** What the file holds after it was rewritten and the goroutine reacted, with
    the call that had read the old credential storing its object last. *)
Definition raced (old new : string) : CredSystem :=
  {| cr_file := new; cr_events := 0; cr_object := Some (key_of old); cr_missed := false;
     cr_watch := WSelect; cr_calls := {[ 0 := CDone ]} |}.

Lemma raced_settled old new : settled (raced old new).
Proof.
  split; [done|]. split; [done|]. intros t. cbn.
  destruct (decide (t = 0)) as [->|Hne].
  - by rewrite lookup_singleton_eq.
  - by rewrite lookup_singleton_ne.
Qed.

Lemma raced_reachable old new :
  contains (trimSpace new) " " = false → cred_reachable false old (raced old new).
Proof.
  intros Hnew.
  eassert (Hr : rtc (cred_step false) (cred_initial old) _).
  { etrans; [by apply (cred_call_reads false 0)|].
    eapply rtc_l; [apply (file_written _ _ new)|].
    eapply rtc_l; [by apply watch_receive|].
    eapply rtc_l; [by apply watch_accept|].
    eapply rtc_l; [by apply watch_reset|].
    apply rtc_once, (call_store _ _ 0 (key_of old)). cbn. apply lookup_insert_eq. }
  apply (cred_reachable_steps _ _ _ _ (cred_start _ _)) in Hr.
  unfold call_has_read, set_call, set_watch in Hr; cbn in Hr.
  by rewrite !insert_insert_eq in Hr.
Qed.

(** A state where the goroutine could not read the new text of the file. *)
Definition missed (old new : string) : CredSystem :=
  {| cr_file := new; cr_events := 0; cr_object := Some (key_of old); cr_missed := true;
     cr_watch := WSelect; cr_calls := {[ 0 := CDone ]} |}.

Lemma missed_reachable old new : cred_reachable true old (missed old new).
Proof.
  eassert (Hr : rtc (cred_step true) (cred_initial old) _).
  { etrans; [by apply (cred_call_stores true 0)|].
    etrans; [by apply (cred_rewritten _ new)|].
    by apply rtc_once, watch_read_fails. }
  apply (cred_reachable_steps _ _ _ _ (cred_start _ _)) in Hr.
  unfold call_has_read, set_call, set_watch, rewritten in Hr; cbn in Hr.
  by rewrite !insert_insert_eq in Hr.
Qed.

(** If the goroutine cannot read the file after the write event, the old
    credential stays in use, through every further call until the file is
    written again. *)
Theorem credential_missed old new :
  contains (trimSpace new) " " = false →
  ∃ s, cred_reachable true old s ∧ cr_file s = new ∧ quiescent s ∧ file_valid s ∧
    ∀ s', rtc quiet_step s s' → cr_object s' = Some (key_of old).
Proof.
  intros Hnew. exists (missed old new). split; [apply missed_reachable|].
  repeat (split; [done|]). intros s' Hs.
  rewrite (settled_quiet_rtc (missed old new) s'); [done| |done].
  pose proof (raced_settled old new) as (Ho & Hq & Hc). by split_and!.
Qed.

(** And without the proviso on resets the old credential can stay in use: for every
    two contents of the file, the second one valid, there is a run in which
    the file is rewritten, the goroutine has reacted to it, and the object
    still has the old credential, and keeps it through every further call
    until the file is written again. *)
Theorem credential_watch_race old new :
  contains (trimSpace new) " " = false →
  ∃ s, cred_reachable false old s ∧ cr_file s = new ∧ quiescent s ∧ file_valid s ∧
    cr_object s = Some (key_of old) ∧
    ∀ s', rtc quiet_step s s' → cr_object s' = Some (key_of old).
Proof.
  intros Hnew. exists (raced old new). split; [by apply raced_reachable|].
  repeat (split; [done|]). intros s' Hs.
  by rewrite (settled_quiet_rtc _ _ (raced_settled old new) Hs).
Qed.

Lemma credential_watch_race_witness :
  ∃ s, cr_file s = "new" ∧ quiescent s ∧ file_valid s ∧ cr_object s = Some "old".
Proof.
  destruct (credential_watch_race "old" "new") as (s & _ & H); [reflexivity|].
  exists s. destruct H as (Hf & Hq & Hv & Ho & _). repeat split; try done; apply Hq.
Defined.

(** ** One round of the goroutine, and the next call *)

Section rotation.
Context {W Sdk : Type} `{!Os W} `{!MockHeap W} `{!FileWatch W}.
Context (NewVpcSdkProvider : ConfigVpc → M W (ConfigVpc * CloudVpcSdk W)).
Implicit Types (config : CloudConfig) (x : Watched W Sdk).

Definition world_of x : W := env_world (ps_env (wt_process x)).
Definition in_new_world (w : W) (p : Process W) : Process W :=
  {| ps_env := set_world w (ps_env p); ps_vpc := ps_vpc p; ps_chan := ps_chan p |}.
Definition forget_objects x : Watched W Sdk :=
  {| wt_process := {| ps_env := ps_env (wt_process x); ps_vpc := None;
                      ps_chan := ps_chan (wt_process x) |};
     wt_metadata := clear_vpcClient <$> wt_metadata x |}.
Definition with_world (w : W) x : Watched W Sdk :=
  {| wt_process := in_new_world w (wt_process x); wt_metadata := wt_metadata x |}.

(** An event is followed by a rotation exactly if it reports a write and the
    file then holds a text without inner blanks. *)
Definition rotates config (event : WatchEvent) (w : W) : bool :=
  match event with
  | WatchError _ => false
  | FileEvent op =>
      bool_decide (Z.land op fsnotify_Write = fsnotify_Write) &&
      match os_ReadFile (prov_G2Credentials (cc_Prov config)) w with
      | (Ok data, _) => negb (contains (trimSpace data) " ")
      | _ => false
      end
  end.

Lemma reset_clears (metadata : option (MetadataService Sdk)) :
  match metadata with
  | Some ms => Some (if bool_decide (is_Some (ms_vpcClient ms)) then clear_vpcClient ms else ms)
  | None => None
  end = clear_vpcClient <$> metadata.
Proof. destruct metadata as [[prov [c|] nodes start]|]; done. Qed.

(** C22: a round of the goroutine drops the cloud object and the VPC client of
    the metadata service exactly when the event reports a write and the file
    holds a text without inner blanks, and changes nothing else of the
    process; the next InitCloudVpc then reads the file anew and builds an
    object with that credential, whatever object there was. *)
Theorem credential_rotation config event x r w private :
  prov_G2Credentials (cc_Prov config) ≠ "" →
  os_ReadFile (prov_G2Credentials (cc_Prov config)) (world_of x) = (r, w) → no_panic r →
  let x' := (handleWatchEvent config event x).2 in
  (handleWatchEvent config event x).1 = Ok tt ∧
  if rotates config event (world_of x) then
    x' = forget_objects (with_world w x) ∧ ∃ data, r = Ok data ∧
      ∀ w', os_ReadFile (prov_G2Credentials (cc_Prov config)) w = (Ok data, w') →
      InitCloudVpc NewVpcSdkProvider config private (wt_process x') =
        NewCloudVpc NewVpcSdkProvider
          (Some (configVpcOf (cc_Prov config) private (trimSpace data))) true
          (in_new_world w' (wt_process x'))
  else x' = x ∨ x' = with_world w x.
Proof.
  intros Hpath Hread Hr x'. subst x'. unfold rotates. rewrite Hread.
  destruct event as [op|err]; cbn; [|by split; [|left]].
  case_bool_decide; cbn; [|by split; [|left]].
  unfold world_of in Hread.
  unfold mbind, M_bind, attempt, in_process, in_world, in_env, sdk. rewrite Hread. cbn.
  destruct r as [data|e|why]; cbn; [|by split; [|right]|done].
  destruct (contains (trimSpace data) " ") eqn:Hvalid; cbn; [by split; [|right]|].
  rewrite reset_clears. split; [done|]. split; [done|].
  exists data. split; [done|]. intros w' Hagain.
  unfold InitCloudVpc, GetCloudVpc, gets, mbind, M_bind, in_world, in_env, sdk, NewConfigVpc. cbn.
  rewrite bool_decide_eq_true_2; [|done].
  unfold attempt, mbind, M_bind. cbn. rewrite Hagain. cbn. by rewrite Hvalid.
Qed.
End rotation.

(** A world that is the text of the credential file. *)
#[local] Instance text_os : Os string := {|
  os_Getenv _ _ := "";
  os_ReadFile _ := λ text, (Ok text, text);
|}.
#[local] Instance text_watch : FileWatch string := {|
  fsnotify_Write := 2;
  fsnotify_NewWatcher := mret tt;
  fsnotify_Add _ := mret tt;
|}.
#[local] Instance text_mocks : MockHeap string := no_mocks.
Definition text_provider (c : ConfigVpc) : M string (ConfigVpc * CloudVpcSdk string) :=
  mret (c, FakeSdk 0).
Definition text_config : CloudConfig :=
  {| cc_Version := "1.1.0"; cc_ConfigFilePaths := [""]; cc_CalicoDatastore := "";
     cc_SetNetworkUnavailable := false; cc_CniProvider := "Calico";
     cc_LBDeployment := {| dep_Image := ""; dep_Application := ""; dep_VlanIPConfigMap := "" |};
     cc_Prov :=
       {| prov_ProviderID := ""; prov_InternalIP := ""; prov_ExternalIP := "";
          prov_Region := "us-south"; prov_Zone := ""; prov_InstanceType := "";
          prov_ClusterID := "c1"; prov_AccountID := "a1"; prov_ProviderType := "fake";
          prov_G2WorkerServiceAccountID := "a1"; prov_G2VpcName := "vpc";
          prov_G2Credentials := "/key"; prov_G2ResourceGroupName := "";
          prov_G2VpcSubnetNames := ""; prov_G2EndpointOverride := "";
          prov_IamEndpointOverride := ""; prov_RmEndpointOverride := "";
          prov_IKSPrivateEndpointHostname := ""; prov_CloudCredentials := "" |} |}.
Definition text_watched (text key : string) : Watched string unit :=
  {| wt_process :=
       {| ps_env := {| env_world := text; env_events := []; env_draws := 0 |};
          ps_vpc := Some {| cv_Config := configVpcOf (cc_Prov text_config) true key;
                            cv_Sdk := FakeSdk 0; cv_Recorder := true |};
          ps_chan := false |};
     wt_metadata := None |}.

Lemma credential_rotation_witness :
  let x' := (handleWatchEvent text_config (FileEvent 2) (text_watched "new-key" "old-key")).2 in
  ps_vpc (wt_process x') = None ∧
  match (InitCloudVpc text_provider text_config true (wt_process x')).1 with
  | Ok vpc => cfg_APIKeySecret (cv_Config vpc) = "new-key"
  | _ => False
  end.
Proof.
  cbv zeta.
  assert (prov_G2Credentials (cc_Prov text_config) ≠ "") as Hpath by by_decision.
  assert (os_ReadFile (prov_G2Credentials (cc_Prov text_config))
    (world_of (text_watched "new-key" "old-key")) = (Ok "new-key", "new-key")) as Hread
    by reflexivity.
  destruct (credential_rotation text_provider text_config (FileEvent 2)
    (text_watched "new-key" "old-key") (Ok "new-key") "new-key" true Hpath Hread I)
    as (_ & -> & data & [= <-] & Hinit).
  split; [reflexivity|].
  rewrite (Hinit "new-key"); [vm_compute; reflexivity|reflexivity].
Defined.

(** ** The client of the metadata service under concurrent lookups *)

(** Where a lookup of [GetNodeMetadata] that needs the VPC is. *)
Inductive LookupPc :=
  | LCheck    (* if ms.vpcClient == nil *)
  | LCreate   (* ms.vpcClient, err = newVpcClient(ms.provider) *)
  | LUse      (* ms.vpcClient.populateNodeMetadata(name, &newNode) *)
  | LDone
  | LPanic.   (* a nil receiver was dereferenced *)

(** Whether [ms.vpcClient] is set, and the lookups. *)
Record ClientSystem := {
  cs_client : bool;
  cs_lookups : gmap nat LookupPc;
}.
Definition look (t : nat) (pc : LookupPc) (client : bool) (s : ClientSystem) : ClientSystem :=
  {| cs_client := client; cs_lookups := <[t := pc]> (cs_lookups s) |}.

Definition looking (pc : LookupPc) : bool :=
  match pc with LDone | LPanic => false | _ => true end.
Definition no_lookup (s : ClientSystem) : Prop :=
  ∀ t pc, cs_lookups s !! t = Some pc → looking pc = false.

(** The accesses to [ms.vpcClient].  Under [locked] lookups and resets exclude
    one another; the code takes no lock. *)
Inductive client_step (locked : bool) (s : ClientSystem) : ClientSystem → Prop :=
  | look_start t : cs_lookups s !! t = None → (locked = true → no_lookup s) →
      client_step locked s (look t LCheck (cs_client s) s)
  | look_present t : cs_lookups s !! t = Some LCheck → cs_client s = true →
      client_step locked s (look t LUse true s)
  | look_absent t : cs_lookups s !! t = Some LCheck → cs_client s = false →
      client_step locked s (look t LCreate false s)
  | look_created t : cs_lookups s !! t = Some LCreate →
      client_step locked s (look t LUse true s)
  | look_create_fails t : cs_lookups s !! t = Some LCreate →
      client_step locked s (look t LDone false s)
  | look_use t : cs_lookups s !! t = Some LUse → cs_client s = true →
      client_step locked s (look t LDone true s)
  | look_nil t : cs_lookups s !! t = Some LUse → cs_client s = false →
      client_step locked s (look t LPanic false s)
  | client_reset : (locked = true → no_lookup s) →
      client_step locked s {| cs_client := false; cs_lookups := cs_lookups s |}.

Definition client_reachable (locked : bool) : ClientSystem → Prop :=
  rtc (client_step locked) {| cs_client := false; cs_lookups := ∅ |}.

(** At most one lookup is under way, and it has the client it uses. *)
Definition client_inv (s : ClientSystem) : Prop :=
  ∀ t pc, cs_lookups s !! t = Some pc →
    pc ≠ LPanic ∧ (pc = LUse → cs_client s = true) ∧
    (looking pc = true → ∀ t' pc', cs_lookups s !! t' = Some pc' → looking pc' = true → t' = t).

Lemma look_inv t pc client s :
  client_inv s → pc ≠ LPanic → (pc = LUse → client = true) →
  (∀ t' pc', t' ≠ t → cs_lookups s !! t' = Some pc' → looking pc' = false) →
  client_inv (look t pc client s).
Proof.
  intros Hinv Hpanic Huse Halone t1 pc1. cbn.
  rewrite lookup_insert_Some. intros [[<- <-]|[Hne H1]].
  - split_and!; [done..|]. intros _ t2 pc2.
    rewrite lookup_insert_Some. intros [[<- _]|[Hne2 H2]] Hl; [done|].
    by rewrite (Halone t2 pc2) in Hl.
  - pose proof (Halone t1 pc1 (not_eq_sym Hne) H1) as Hdone.
    destruct (Hinv t1 pc1 H1) as (Hp & _ & _).
    split_and!; [done|by intros ->|by rewrite Hdone].
Qed.

Lemma client_step_inv s s' : client_inv s → client_step true s s' → client_inv s'.
Proof.
  intros Hinv Hstep.
  assert (∀ t pc, cs_lookups s !! t = Some pc → looking pc = true →
    ∀ t' pc', t' ≠ t → cs_lookups s !! t' = Some pc' → looking pc' = false) as Halone.
  { intros t pc Ht Hl t' pc' Hne Ht'. destruct (Hinv t pc Ht) as (_ & _ & Hone).
    destruct (looking pc') eqn:Hl'; [|done]. by destruct Hne; eapply Hone. }
  destruct Hstep as [t Ht Hno|t Ht Hc|t Ht Hc|t Ht|t Ht|t Ht Hc|t Ht Hc|Hno].
  1: apply look_inv; [done..|]; intros t' pc' _; by apply Hno.
  1-5: apply look_inv; [done..|by eapply Halone].
  - destruct (Hinv t LUse Ht) as (_ & Huse & _). by rewrite Huse in Hc.
  - intros t pc Ht. cbn in *. pose proof (Hno eq_refl t pc Ht) as Hl.
    destruct (Hinv t pc Ht) as (? & _ & ?). split_and!; [done|by intros ->|by rewrite Hl].
Qed.

Lemma lookups_panic :
  ∃ s, client_reachable false s ∧ cs_lookups s !! 0 = Some LPanic.
Proof.
  eexists. split.
  - eapply rtc_l; [by apply (look_start _ _ 0)|].
    eapply rtc_l; [by apply (look_absent _ _ 0); [apply lookup_insert_eq|]|].
    eapply rtc_l; [by apply (look_created _ _ 0), lookup_insert_eq|].
    eapply rtc_l; [by apply client_reset|].
    apply rtc_once, (look_nil _ _ 0); [apply lookup_insert_eq|done].
  - apply lookup_insert_eq.
Qed.

(** A node lookup dereferences a nil VPC client in some interleaving with
    resets of the client and other lookups exactly because nothing keeps them
    from running between its check and its use of the client: under a lock it
    never does. *)
Theorem node_lookup_panics_iff locked :
  (∃ s t, client_reachable locked s ∧ cs_lookups s !! t = Some LPanic) ↔ locked = false.
Proof.
  split.
  - intros (s & t & Hr & Ht). destruct locked; [|done]. exfalso.
    assert (client_inv s) as Hinv.
    { eapply (rtc_ind_r client_inv); [|intros; by eapply client_step_inv|exact Hr].
      intros t' pc. cbn. by rewrite lookup_empty. }
    by destruct (Hinv t _ Ht) as [].
  - intros ->. destruct lookups_panic as (s & Hr & Ht). by exists s, 0.
Qed.
