(* ===== verification/CloudProps.v ===== *)
(** * CloudProps: what the cloud provider promises

    The entry points over an observed process: the SDKs the process creates are
    observed ([traced]), so the calls to the VPC service are a list.  The SDK
    provider is any one that keeps the laws of [SdkProvider]; [NewVpcSdkGen2]
    does. *)
From S2P Require Import Prelude GoStrings Kube VpcTypes VpcConfig VpcUpdates UpdateSpec.
From S2P Require Import UpdatePlan VpcSdk StaticVpc VpcLbaas LbaasProps VpcProvider ProviderProps.
From S2P Require Import VpcSdkFake VpcSdkGen2 Gen2Props VpcCloud CloudConfig NodeMetadata Cloud.

(** ** Supported services *)

(** The services the cloud provider takes on. *)
Definition supported (config : CloudConfig) (service : Service) : Prop :=
  (Cloud_isProviderVpc config = true →
   spec_AllocateLoadBalancerNodePorts (svc_Spec service) ≠ Some false) ∧
  Forall (λ port, sp_Protocol port = ProtocolTCP ∨ sp_Protocol port = ProtocolUDP)
    (spec_Ports (svc_Spec service)).
#[export] Instance supported_dec config service : Decision (supported config service).
Proof. unfold supported. apply _. Defined.

Lemma isServiceConfigurationSupported_iff config service :
  isServiceConfigurationSupported config service = None ↔ supported config service.
Proof.
  unfold isServiceConfigurationSupported, supported.
  set (ok := λ port, negb _).
  assert (List.find ok (spec_Ports (svc_Spec service)) = None ↔
    Forall (λ port, sp_Protocol port = ProtocolTCP ∨ sp_Protocol port = ProtocolUDP)
      (spec_Ports (svc_Spec service))) as Hfind.
  { induction (spec_Ports (svc_Spec service)) as [|port l IH]; cbn; [done|].
    rewrite Forall_cons. unfold ok at 1. repeat case_bool_decide; cbn; naive_solver. }
  destruct (Cloud_isProviderVpc config); cbn.
  - case_bool_decide; [naive_solver|].
    rewrite <- Hfind. destruct (List.find _ _); naive_solver.
  - rewrite <- Hfind. destruct (List.find _ _); naive_solver.
Qed.

(** The load balancer services the monitor looks after. *)
Definition monitorable (config : CloudConfig) (service : Service) : Prop :=
  spec_Type (svc_Spec service) = ServiceTypeLoadBalancer ∧
  spec_LoadBalancerClass (svc_Spec service) = None ∧ supported config service.
#[export] Instance monitorable_dec config service : Decision (monitorable config service).
Proof. unfold monitorable. apply _. Defined.

Lemma filterLoadBalancersFromServiceList_filter config services :
  filterLoadBalancersFromServiceList config services = filter (monitorable config) services.
Proof.
  apply list_filter_iff. intros service. unfold monitorable.
  by rewrite isServiceConfigurationSupported_iff.
Qed.

(** ** SDK providers *)

(** What the cloud provider relies on when it creates an SDK. *)
Class SdkProvider {W} (provider : ConfigVpc → M W (ConfigVpc * CloudVpcSdk W)) : Prop :=
  provider_laws : ∀ c w c' s w', provider c w = (Ok (c', s), w') →
    SdkIdentity s ∧ SdkWords s ∧ cfg_ClusterID c' = cfg_ClusterID c.

(** The Gen2 provider keeps them, if its clients answer as documented. *)
Lemma gen2_provider {W Patch} `{!Gen2Clients W Patch} url_start fuel :
  (∀ key token_url url w client w',
     sdk_NewVpcV1 key token_url url w = (Ok client, w') →
     VpcV1Laws (sdk_SetTimeout (1000000000 * 90) client)) →
  SdkProvider (NewVpcSdkGen2 (W := W) (Patch := Patch) url_start fuel).
Proof.
  intros Hlaws c w c' s w' Hrun. unfold NewVpcSdkGen2 in Hrun.
  unfold attempt, mbind, M_bind in Hrun.
  destruct (sdk_NewVpcV1 _ _ _ w) as [[client|e|why] w1] eqn:Hclient; [|done..].
  set (resolve := if _ : bool then _ else _) in Hrun.
  assert (∀ c1 w2, resolve w1 = (Ok c1, w2) → cfg_ClusterID c1 = cfg_ClusterID c) as Hid.
  { intros c1 w2 Hc. unfold resolve in Hc.
    destruct (_ && _); [|by injection Hc as -> _].
    unfold convertResourceGroupNameToID, attempt, mbind, M_bind in Hc.
    destruct (rm_NewResourceManagerV2 _ _ _ w1) as [[rm|e|why] w3]; [|done..].
    destruct (rm_ListResourceGroups _ _ _ w3) as [[[|[id|] [|]]|e|why] w4];
      unfold mret, M_ret, fail in Hc; by simplify_eq. }
  destruct (resolve w1) as [[c1|e|why] w2] eqn:Hc; [|done..].
  injection Hrun as <- <- <-. split_and!; [| |by eapply Hid].
  - apply @gen2_identity. by eapply Hlaws.
  - apply @gen2_words. by eapply Hlaws.
Qed.

(** ** The cloud object of a process *)

Section object.
Context {W : Type} `{!Os W} `{!MockHeap W}.
Context (provider : ConfigVpc → M W (ConfigVpc * CloudVpcSdk W)) (config : CloudConfig).

(** The API key that is in the credential file, blanks around it cut off; none
    without a file, and none if there are blanks within. *)
Definition key_read (w : W) (key : string) (w' : W) : Prop :=
  let path := prov_G2Credentials (cc_Prov config) in
  (path = "" ∧ key = "" ∧ w' = w) ∨
  (path ≠ "" ∧ ∃ text, os_ReadFile path w = (Ok text, w') ∧
     key = if contains (trimSpace text) " " then "" else trimSpace text).

(** An object can be built: the key can be read, the configuration with it is
    valid, and the provider makes an SDK for it. *)
Definition builds (private : bool) (w : W) (vpc : CloudVpc W) (w' : W) : Prop :=
  ∃ key w1 initialized c' s, key_read w key w1 ∧
    config_initialize (configVpcOf (cc_Prov config) private key) = Ok initialized ∧
    provider initialized w1 = (Ok (c', s), w') ∧
    vpc = {| cv_Config := c'; cv_Sdk := s; cv_Recorder := true |}.

(** The object a call gets: the one there is, or a new one. *)
Definition obtains (private : bool) (existing : option (CloudVpc W)) (w : W) (vpc : CloudVpc W)
    : Prop :=
  existing = Some vpc ∨ existing = None ∧ ∃ w', builds private w vpc w'.

(** The file system or the provider panics. *)
Definition crashes (why : string) : Prop :=
  (∃ path (w : W), (os_ReadFile path w).1 = Panic why) ∨ (∃ given w, (provider given w).1 = Panic why).

Lemma key_read_unique w key1 w1 key2 w2 :
  key_read w key1 w1 → key_read w key2 w2 → key1 = key2 ∧ w1 = w2.
Proof.
  intros [(Hp & -> & ->)|(Hp & t1 & H1 & ->)] [(Hp' & -> & ->)|(Hp' & t2 & H2 & ->)]; try done.
  rewrite H1 in H2. by injection H2 as -> ->.
Qed.

Lemma obtains_unique private existing w v1 v2 :
  obtains private existing w v1 → obtains private existing w v2 → v1 = v2.
Proof.
  intros [->|(-> & w1 & key1 & u1 & i1 & c1 & s1 & Hk1 & Hi1 & Hp1 & ->)]
    [Heq|(Heq & w2 & key2 & u2 & i2 & c2 & s2 & Hk2 & Hi2 & Hp2 & ->)]; try congruence.
  destruct (key_read_unique _ _ _ _ _ Hk1 Hk2) as [-> ->]. rewrite Hi1 in Hi2.
  injection Hi2 as ->. rewrite Hp1 in Hp2. by injection Hp2 as -> -> _.
Qed.

Lemma NewConfigVpc_cases private w :
  let '(r, w') := NewConfigVpc (Some config) private w in
  match r with
  | Ok given => ∃ key, key_read w key w' ∧ given = configVpcOf (cc_Prov config) private key
  | Err _ => ∀ key w1, ¬ key_read w key w1
  | Panic why => crashes why ∧ ∀ key w1, ¬ key_read w key w1
  end.
Proof.
  unfold NewConfigVpc, key_read. case_bool_decide as Hpath; cycle 1.
  { cbn. exists "". split; [by left|done]. }
  unfold attempt, mbind, M_bind.
  destruct (os_ReadFile _ w) as [[text|e|why] w'] eqn:Hread; cbn.
  - eexists. split; [|done]. right. split; [done|]. by exists text.
  - by intros key w1 [[? _]|(_ & text & [=] & _)].
  - split; [left; eexists _, w; by rewrite Hread|].
    by intros key w1 [[? _]|(_ & text & [=] & _)].
Qed.

(** InitCloudVpc answers the object a call gets, stores it, and fails exactly if
    there is none. *)
Lemma InitCloudVpc_obtains private (p : Process W) :
  Cloud_isProviderVpc config = true →
  let '(r, p') := InitCloudVpc provider config private p in
  env_events (ps_env p') = env_events (ps_env p) ∧
  match r with
  | Ok vpc => obtains private (ps_vpc p) (env_world (ps_env p)) vpc ∧ ps_vpc p' = Some vpc
  | Err _ => (∀ vpc, ¬ obtains private (ps_vpc p) (env_world (ps_env p)) vpc) ∧ ps_vpc p' = ps_vpc p
  | Panic why => crashes why ∧ ps_vpc p' = ps_vpc p ∧
                 ∀ vpc, ¬ obtains private (ps_vpc p) (env_world (ps_env p)) vpc
  end.
Proof.
  intros Hvpc%bool_decide_eq_true_1. unfold InitCloudVpc, GetCloudVpc, gets, mbind at 1, M_bind at 1.
  unfold obtains. destruct (ps_vpc p) as [vpc|] eqn:Hp; [split_and!; [done|by left|done]|].
  unfold mbind, M_bind, in_world, in_env, sdk.
  pose proof (NewConfigVpc_cases private (env_world (ps_env p))) as Hgiven.
  destruct (NewConfigVpc (Some config) private (env_world (ps_env p))) as [[given|e|why] w1].
  2: { split; [done|]. split; [|done]. intros vpc [?|(_ & w' & key & u & _ & _ & _ & Hk & _)]; [done|].
       by apply Hgiven in Hk. }
  2: { destruct Hgiven as [Hcrash Hno]. split; [done|]. split_and!; [done..|].
       intros vpc [?|(_ & w' & key & u & _ & _ & _ & Hk & _)]; [done|]. by apply Hno in Hk. }
  destruct Hgiven as (key & Hkey & ->).
  set (given := configVpcOf _ _ _).
  assert (cfg_ProviderType given = VpcProviderTypeGen2) as Htype by exact Hvpc.
  assert (∀ vpc w', builds private (env_world (ps_env p)) vpc w' →
    ∃ initialized, config_initialize given = Ok initialized ∧
      provider initialized w1 = (Ok (cv_Config vpc, cv_Sdk vpc), w')) as Hbuilt.
  { intros vpc w' (key' & u & i & c' & s & Hk & Hi & Hprov & ->).
    destruct (key_read_unique _ _ _ _ _ Hkey Hk) as [<- <-]. by exists i. }
  unfold NewCloudVpc, CloudVpc_initialize, lift, mbind, M_bind.
  pose proof (config_cases given) as Hcases.
  destruct (config_initialize given) as [initialized|e|why] eqn:Hinit; [| |done].
  2: { split; [done|]. split; [|done]. by intros vpc [?|(_ & w' & (i & [=] & _)%Hbuilt)]. }
  destruct Hcases as [[Hfake _]|[_ Hgen2]]; [by rewrite Hfake in Htype|].
  unfold in_env, sdk, NewCloudVpcSdk. cbn. rewrite bool_decide_eq_true_2 by done.
  destruct (provider initialized w1) as [[[c' s]|e|why] w2] eqn:Hprov; (split; [done|]).
  - split; [|done]. right. split; [done|]. by eexists _, key, w1, initialized, _, _.
  - split; [|done]. intros vpc [?|(_ & w' & (i & [= <-] & Hok)%Hbuilt)]; [done|].
    by rewrite Hprov in Hok.
  - split; [right; exists initialized, w1; by rewrite Hprov|]. split; [done|].
    intros vpc [?|(_ & w' & (i & [= <-] & Hok)%Hbuilt)]; [done|]. by rewrite Hprov in Hok.
Qed.
End object.

(** ** The observed process *)

(** An action of the world that the observer does not list. *)
Definition quiet {W A} (m : M W A) : M (W * list Call) A :=
  λ '(w, tr), let '(r, w') := m w in (r, (w', tr)).

#[export] Instance traced_os {W} `{!Os W} : Os (W * list Call) := {|
  os_Getenv name := λ '(w, _), os_Getenv name w;
  os_ReadFile path := quiet (os_ReadFile path);
|}.
#[export] Instance traced_kube {W} `{!KubeServices W} : KubeServices (W * list Call) :=
  quiet kube_ListServices.
#[export] Instance traced_wait {W} `{!NodeWait W} : NodeWait (W * list Call) :=
  λ ns '(w, tr), let '(b, w') := wait_nodes ns w in (b, (w', tr)).

Definition traced_provider {W} (provider : ConfigVpc → M W (ConfigVpc * CloudVpcSdk W))
    (c : ConfigVpc) : M (W * list Call) (ConfigVpc * CloudVpcSdk (W * list Call)) :=
  '(c', s) ← quiet (provider c);
  mret (c', traced s).

Section runs.
Context {W : Type} (config : CloudConfig).
Local Abbreviation prog := (M (Process (W * list Call))).

(** A cloud object of this process: a lawful SDK, and the cluster of the
    configuration. *)
Definition own (cv : CloudVpc W) : Prop :=
  SdkIdentity (cv_Sdk cv) ∧ SdkWords (cv_Sdk cv) ∧ cv_Recorder cv = true ∧
  cfg_ClusterID (cv_Config cv) = prov_ClusterID (cc_Prov config).
Definition observed (p : Process (W * list Call)) : Prop :=
  ∀ v, ps_vpc p = Some v → ∃ cv, v = trace_cloud cv ∧ own cv.

(** From the process [p], [m] leaves an observed process and adds calls and
    events that satisfy [P]. *)
Definition runs_from {A} (p : Process (W * list Call)) (m : prog A)
    (P : outcome A → list Call → list Event → Prop) : Prop :=
  observed (m p).2 ∧ ∃ calls events,
    trace (ps_env (m p).2) = trace (ps_env p) ++ calls ∧
    env_events (ps_env (m p).2) = env_events (ps_env p) ++ events ∧
    P (m p).1 calls events.
(** It does so from any observed process. *)
Definition runs {A} (m : prog A) (P : outcome A → list Call → list Event → Prop) : Prop :=
  ∀ p, observed p → runs_from p m P.

Lemma runs_mono {A} (m : prog A) P Q :
  runs m P → (∀ r l v, P r l v → Q r l v) → runs m Q.
Proof.
  intros Hm HPQ p Hp. destruct (Hm p Hp) as (Ho & l & v & ? & ? & ?).
  split; [done|]. exists l, v. auto.
Qed.

Lemma runs_lift {A} (o : outcome A) (P : outcome A → list Call → list Event → Prop) :
  P o [] [] → runs (lift o) P.
Proof. intros HP p Hp. split; [done|]. exists [], []. by rewrite !app_nil_r. Qed.

Lemma runs_gets {A} (f : Process (W * list Call) → A)
    (P : outcome A → list Call → list Event → Prop) :
  (∀ a, P (Ok a) [] []) → runs (gets f) P.
Proof.
  intros HP p Hp. split; [done|]. exists [], [].
  split_and!; [by rewrite app_nil_r..|apply HP].
Qed.

Lemma runs_in_env {A} (m : M (Env (W * list Call)) A) P : emits m P → runs (in_env m) P.
Proof.
  intros Hm p Hp. unfold runs_from. destruct (Hm (ps_env p)) as (l & v & ? & ? & ?).
  unfold in_env. destruct (m (ps_env p)) as [r e]. split; [done|]. by exists l, v.
Qed.

Lemma runs_bind {A B} (m : prog A) (f : A → prog B) Q P :
  runs m Q →
  (∀ r l v, Q r l v →
     match r with
     | Ok a => runs (f a) (λ r' l' v', P r' (l ++ l') (v ++ v'))
     | Err err => P (Err err) l v
     | Panic w => P (Panic w) l v
     end) →
  runs (m ≫= f) P.
Proof.
  intros Hm Hf p Hp. unfold runs_from. destruct (Hm p Hp) as (Ho & l & v & Hl & Hv & HQ).
  specialize (Hf _ _ _ HQ). unfold mbind, M_bind.
  destruct (m p) as [[a|err|w] p1]; cbn in *; [|split; [done|by exists l, v]..].
  destruct (Hf p1 Ho) as (Ho' & l' & v' & Hl' & Hv' & HP). split; [done|].
  exists (l ++ l'), (v ++ v'). by rewrite Hl', Hv', Hl, Hv, !(assoc_L (++)).
Qed.

Lemma runs_attempt {A} (m : prog A) (P : outcome (A + error) → _) :
  runs m (λ r l v, match r with
                   | Ok a => P (Ok (inl a)) l v
                   | Err err => P (Ok (inr err)) l v
                   | Panic w => P (Panic w) l v
                   end) →
  runs (attempt m) P.
Proof.
  intros Hm p Hp. unfold runs_from. destruct (Hm p Hp) as (Ho & l & v & Hl & Hv & HQ).
  unfold attempt. destruct (m p) as [[a|err|w] p1]; (split; [done|by exists l, v]).
Qed.

(** An unlisted action of the world. *)
Lemma runs_quiet {A} (m : M W A) (P : outcome A → list Call → list Event → Prop) :
  (∀ r, P r [] []) → runs (in_world (quiet m)) P.
Proof.
  intros HP p Hp. unfold runs_from. unfold in_world, in_env, sdk, quiet.
  destruct (env_world (ps_env p)) as [w tr] eqn:Hw. destruct (m w) as [r w'].
  split; [done|]. exists [], []. rewrite !app_nil_r. unfold trace. rewrite Hw. cbn. auto.
Qed.
End runs.

(** ** The entry points *)

Section entry.
Context {W : Type} `{!Clock W} `{!MapIteration} `{!Os W} `{!MockHeap W} `{!KubeServices W} `{!NodeWait W}.
Context (provider : ConfigVpc → M W (ConfigVpc * CloudVpcSdk W)) `{!SdkProvider provider}.
Context (c : Cloud).
Let config := cl_Config c.
Let tp := traced_provider provider.

Lemma NewConfigVpc_runs private :
  runs config (in_world (NewConfigVpc (Some config) private)) (λ r calls events,
    calls = [] ∧ events = [] ∧
    ∀ given, r = Ok given → cfg_ProviderType given = prov_ProviderType (cc_Prov config) ∧
      cfg_ClusterID given = prov_ClusterID (cc_Prov config)).
Proof.
  unfold NewConfigVpc. case_bool_decide as Hcred; cycle 1.
  { apply runs_in_env. intros e. exists [], []. unfold sdk, mret, M_ret. cbn.
    rewrite !app_nil_r. split_and!; try done. by intros given [= <-]. }
  intros p1 Hp1. unfold runs_from. unfold in_world, in_env, sdk, attempt, mbind, M_bind, quiet. cbn.
  unfold quiet. destruct (env_world (ps_env p1)) as [w tr] eqn:Hw.
  destruct (os_ReadFile _ w) as [[data|e|why] w'];
    (split; [done|]; exists [], []; cbn; unfold trace; rewrite Hw, !app_nil_r;
     split_and!; try done).
  by intros given [= <-].
Qed.

Lemma config_ClusterID given initialized :
  config_initialize given = Ok initialized → cfg_ClusterID initialized = cfg_ClusterID given.
Proof.
  unfold config_initialize. destruct (validate given); [done|].
  case_bool_decide; by intros [= <-].
Qed.

Lemma traced_provider_Ok given e c' s e' :
  tp given e = (Ok (c', s), e') →
  ∃ s0 w', provider given e.1 = (Ok (c', s0), w') ∧ s = traced s0 ∧ e' = (w', e.2).
Proof.
  destruct e as [w tr]. unfold tp, traced_provider, quiet, mbind, M_bind.
  destruct (provider given w) as [[[c1 s0]|e|why] w'] eqn:Hp; [|done..].
  intros [= <- <- <-]. by exists s0, w'.
Qed.

Lemma traced_provider_trace given e : (tp given e).2.2 = e.2.
Proof.
  destruct e as [w tr]. unfold tp, traced_provider, quiet, mbind, M_bind.
  by destruct (provider given w) as [[[c1 s0]|e|why] w'].
Qed.

(** The cloud object a call got: none of the calls, and one of this process. *)
Definition got_vpc (r : outcome (CloudVpc (W * list Call))) (calls : list Call)
    (events : list Event) : Prop :=
  calls = [] ∧ events = [] ∧ ∀ v, r = Ok v → ∃ cv, v = trace_cloud cv ∧ own config cv.

(** Building the cloud object calls nothing and records nothing. *)
Lemma NewCloudVpc_runs given :
  cfg_ProviderType given = VpcProviderTypeGen2 →
  cfg_ClusterID given = prov_ClusterID (cc_Prov config) →
  runs config (NewCloudVpc tp (Some given) true) got_vpc.
Proof.
  unfold got_vpc. intros Htype Hcluster p Hp. unfold runs_from.
  pose proof (NewCloudVpc_run tp (Some given) true p) as Hrun.
  assert (trace (ps_env (NewCloudVpc tp (Some given) true p).2) = trace (ps_env p)) as Htrace.
  { unfold NewCloudVpc, CloudVpc_initialize, mbind, M_bind, lift.
    destruct (config_initialize given) as [ini|e|why] eqn:Hini; [|done..].
    unfold in_env, sdk, NewCloudVpcSdk, trace.
    pose proof (config_cases given) as Hcases. rewrite Hini in Hcases.
    destruct Hcases as [[Hfake _]|[_ Hgen2]]; [by rewrite Hfake in Htype|].
    rewrite bool_decide_eq_true_2 by done.
    pose proof (traced_provider_trace ini (env_world (ps_env p))) as Ht.
    by destruct (tp ini (env_world (ps_env p))) as [[[]|e|why] e']. }
  destruct (NewCloudVpc tp (Some given) true p) as [r p'] eqn:Hnew. cbn in *.
  destruct Hrun as (_ & Hev & Hr).
  destruct r as [v|e|why]; cycle 1.
  { destruct Hr as [Hvpc _]. split; [intros v; rewrite Hvpc; by apply Hp|].
    exists [], []. by rewrite !app_nil_r. }
  { destruct Hr as [Hvpc _]. split; [intros v; rewrite Hvpc; by apply Hp|].
    exists [], []. by rewrite !app_nil_r. }
  destruct Hr as (Hvpc & Hrec & given' & ini & [= <-] & Hini & Hprov).
  rewrite bool_decide_eq_false_2 in Hprov by (rewrite Htype; discriminate).
  destruct Hprov as [_ Hprov].
  apply traced_provider_Ok in Hprov as (s0 & w' & Hprov & Hs & _).
  assert (∃ cv, v = trace_cloud cv ∧ own config cv) as Hown.
  { exists {| cv_Config := cv_Config v; cv_Sdk := s0; cv_Recorder := true |}.
    destruct (provider_laws _ _ _ _ _ Hprov) as (Hid & Hwords & Hcl). split.
    - unfold trace_cloud. cbn. rewrite <- Hs, <- Hrec. by destruct v.
    - split_and!; [done..|]. cbn. rewrite Hcl, <- Hcluster. by apply config_ClusterID. }
  split; [intros v'; rewrite Hvpc; by intros [= <-]|]. exists [], []. rewrite !app_nil_r.
  split_and!; try done. by intros v' [= <-].
Qed.

Lemma InitCloudVpc_runs private :
  Cloud_isProviderVpc config = true → runs config (InitCloudVpc tp config private) got_vpc.
Proof.
  intros Hvpc%bool_decide_eq_true_1.
  assert (runs config (in_world (NewConfigVpc (Some config) private) ≫= λ given,
            NewCloudVpc tp (Some given) true) got_vpc) as Hnew.
  { eapply runs_bind; [apply NewConfigVpc_runs|].
    intros r l v (-> & -> & Hgiven). destruct r as [given|e|why]; [|done..].
    destruct (Hgiven given eq_refl) as [Htype Hcluster].
    apply NewCloudVpc_runs; congruence. }
  intros p Hp. unfold runs_from.
  assert (InitCloudVpc tp config private p = match ps_vpc p with
    | Some v => (Ok v, p)
    | None => (in_world (NewConfigVpc (Some config) private) ≫= λ given,
                 NewCloudVpc tp (Some given) true) p
    end) as Hstep.
  { unfold InitCloudVpc, GetCloudVpc, gets, mbind at 1, M_bind at 1. by destruct (ps_vpc p). }
  rewrite Hstep. destruct (ps_vpc p) as [v|] eqn:Hv; [|exact (Hnew p Hp)].
  split; [done|]. exists [], []. rewrite !app_nil_r. unfold got_vpc. split_and!; try done.
  intros v' [= <-]. by apply Hp.
Qed.

(** How an operation fails when the cloud object cannot be built: by one
    warning event, without a call to the VPC service, or by the panic of the
    file system or the provider. *)
Definition not_initialized {A} (service : Service) (reason : string) (r : outcome A)
    (calls : list Call) (events : list Event) : Prop :=
  calls = [] ∧
  match r with
  | Ok _ => False
  | Err e => ∃ why,
      let lbName := vpcGetLoadBalancerName config service in
      let text := "Failed initializing VPC: " +:+ error_string why in
      e = ErrorString (event_text "Error" lbName service text) ∧
      events = [warning_event service reason lbName text]
  | Panic why => events = [] ∧ crashes tp why
  end.

(** The object that a call in the process [p] gets. *)
Definition object_for (p : Process (W * list Call)) (vpc : CloudVpc (W * list Call)) : Prop :=
  let w := env_world (ps_env p) in
  obtains tp config (shouldPrivateEndpointBeEnabled w) (ps_vpc p) w vpc.

(** With an object [k] runs on it, and only without one the call is refused. *)
Definition with_object {A} (p : Process (W * list Call)) (service : Service) (reason : string)
    (P : CloudVpc W → outcome A → list Call → list Event → Prop)
    (r : outcome A) (calls : list Call) (events : list Event) : Prop :=
  (∀ vpc, object_for p vpc → ∃ cv, vpc = trace_cloud cv ∧ own config cv ∧ P cv r calls events) ∧
  ((¬ ∃ vpc, object_for p vpc) → not_initialized service reason r calls events).

Lemma event_runs service reason lbName text :
  runs (W := W) config (VpcLoadBalancerServiceWarningEvent service reason lbName text)
    (λ r calls events, calls = [] ∧
       r = Ok (ErrorString (event_text "Error" lbName service text)) ∧
       events = [warning_event service reason lbName text]).
Proof.
  unfold VpcLoadBalancerServiceWarningEvent.
  eapply runs_bind with (Q := λ r calls events, calls = [] ∧ r = Ok tt ∧
    events = [warning_event service reason lbName text]).
  - by apply runs_in_env, emits_event.
  - intros r l v (-> & -> & ->). by apply runs_lift.
Qed.

Lemma refusal_runs {A} service reason text :
  let lbName := vpcGetLoadBalancerName config service in
  runs (W := W) config
    (err ← VpcLoadBalancerServiceWarningEvent service reason lbName text; fail (A := A) err)
    (λ r calls events, calls = [] ∧
       r = Err (ErrorString (event_text "Error" lbName service text)) ∧
       events = [warning_event service reason lbName text]).
Proof.
  eapply runs_bind; [apply event_runs|]. intros r l v (-> & -> & ->). by apply runs_lift.
Qed.

Lemma with_vpc_runs {A} service reason (k : CloudVpc (W * list Call) → M _ A)
    (P : CloudVpc W → outcome A → list Call → list Event → Prop) p :
  Cloud_isProviderVpc config = true → observed config p →
  (∀ cv, own config cv → emits (k (trace_cloud cv)) (P cv)) →
  runs_from config p (with_vpc tp config service reason k) (with_object p service reason P).
Proof.
  intros Hvpc Hp Hk.
  set (private := shouldPrivateEndpointBeEnabled (env_world (ps_env p))).
  assert (with_vpc tp config service reason k p = match InitCloudVpc tp config private p with
    | (Ok v, p1) => in_env (k v) p1
    | (Err e, p1) => (err ← VpcLoadBalancerServiceWarningEvent service reason
        (vpcGetLoadBalancerName config service) ("Failed initializing VPC: " +:+ error_string e);
        fail (A := A) err) p1
    | (Panic why, p1) => (Panic why, p1)
    end) as Hstep.
  { unfold with_vpc, shouldPrivate, gets, attempt, mbind at 1 2, M_bind at 1 2. fold private.
    by destruct (InitCloudVpc tp config private p) as [[v|e|why] p1]. }
  pose proof (InitCloudVpc_obtains tp config private p Hvpc) as Hob.
  destruct (InitCloudVpc_runs private Hvpc p Hp) as (Ho & calls & events & Htr & Hev & -> & -> & Hgot).
  rewrite app_nil_r in Htr, Hev. unfold runs_from. rewrite Hstep.
  destruct (InitCloudVpc tp config private p) as [[v|e|why] p1]; cbn [fst snd] in *;
    destruct Hob as [_ Hob].
  - destruct (Hgot v eq_refl) as (cv & -> & Hown).
    destruct (runs_in_env config _ _ (Hk cv Hown) p1 Ho) as (Ho' & l & ev & Hl & He & HP).
    split; [exact Ho'|]. exists l, ev. rewrite Hl, He, Htr, Hev. split_and!; [done..|]. split.
    + intros vpc Hvpc'. rewrite (obtains_unique _ _ _ _ _ _ _ Hvpc' (proj1 Hob)). by exists cv.
    + intros []. exists (trace_cloud cv). apply Hob.
  - destruct (refusal_runs (A := A) service reason ("Failed initializing VPC: " +:+ error_string e) p1 Ho)
      as (Ho' & l & ev & Hl & He & -> & Hr & ->).
    split; [exact Ho'|]. eexists [], _. rewrite Hl, He, Htr, Hev, Hr. split_and!; [done..|]. split.
    + intros vpc Hvpc'. exfalso. by eapply (proj1 Hob).
    + intros _. split; [done|]. by exists e.
  - split; [exact Ho|]. exists [], []. rewrite !app_nil_r. destruct Hob as (Hcrash & _ & Hno).
    split_and!; [done..|]. split.
    + intros vpc Hvpc'. exfalso. by eapply Hno.
    + intros _. by split.
Qed.

Lemma waitForNodes_runs i :
  runs (W := W) config (waitForNodes i) (λ r calls events, r = Ok tt ∧ calls = [] ∧ events = []).
Proof.
  induction i as [|i IH]; cbn; [by apply runs_lift|].
  eapply runs_bind with (Q := λ r calls events, is_Ok r ∧ calls = [] ∧ events = []).
  - intros p Hp. unfold runs_from, in_world, in_env, sdk. destruct (env_world (ps_env p)) as [w tr] eqn:Hw.
    change (wait_nodes (W := W * list Call)) with (traced_wait (W := W)). unfold traced_wait.
    destruct (wait_nodes (60 * 1000000000) w) as [b w'].
    split; [done|]. exists [], []. unfold trace. cbn. rewrite Hw, !app_nil_r.
    split_and!; [done..|by eexists|done|done].
  - intros r l v ([woken ->] & -> & ->). destruct woken; [by apply runs_lift|done].
Qed.

(** What [EnsureLoadBalancer] of the VPC logic does for a load balancer that is
    found or not. *)
Definition ensured (cv : CloudVpc W) (service : Service) (nodes : list Node)
    (r : outcome LoadBalancerStatus) (calls : list Call) (events : list Event) : Prop :=
  let lbName := vpcGetLoadBalancerName config service in
  reported cv service creatingCloudLoadBalancerFailed lbName r events ∧
  finds lbName r calls (λ lb rest,
    match lb with
    | Some lb => existing_run lb service nodes r rest
    | None =>
        ∃ r', create_outcome cv lbName service nodes r' rest [] ∧
          match r' with
          | Ok lb => if IsReady lb || negb (IsNLB lb)
                     then r = Ok (GetLoadBalancerStatus service lb) else ¬ is_Ok r
          | _ => ¬ is_Ok r
          end
    end).

Lemma VpcEnsureLoadBalancer_runs service nodes p :
  Cloud_isProviderVpc config = true → regular service nodes → observed config p →
  runs_from config p (VpcEnsureLoadBalancer tp c service (Some nodes)) (λ r calls events,
    match nodes with
    | [] => calls = [] ∧ events = [] ∧ r = Err no_nodes
    | _ => with_object p service creatingCloudLoadBalancerFailed
             (λ cv, ensured cv service nodes) r calls events
    end).
Proof.
  intros Hvpc Hreg Hp. unfold VpcEnsureLoadBalancer. destruct nodes as [|node nodes]; cbn.
  - revert p Hp. eapply runs_bind with (Q := λ r calls events, is_Ok r ∧ calls = [] ∧ events = []).
    { apply runs_gets. intros a. split_and!; [by eexists|done..]. }
    intros r l v ([chan ->] & -> & ->).
    eapply runs_bind with (Q := λ r calls events, r = Ok tt ∧ calls = [] ∧ events = []).
    { destruct chan; [exact (waitForNodes_runs 10)|by apply runs_lift]. }
    intros r l v (-> & -> & ->). by apply runs_lift.
  - apply with_vpc_runs; [done..|]. intros cv (Hid & Hwords & _).
    by apply EnsureLoadBalancer_emits.
Qed.

Lemma unsupported_runs service text :
  runs (W := W) config
    (err ← LoadBalancerServiceWarningEvent service creatingCloudLoadBalancerFailed text;
     fail (A := LoadBalancerStatus) err)
    (λ r calls events, calls = [] ∧
       let lbName := GetCloudProviderLoadBalancerName service in
       r = Err (ErrorString (event_text "Error" lbName service text)) ∧
       events = [warning_event service creatingCloudLoadBalancerFailed lbName text]).
Proof.
  set (lbName := GetCloudProviderLoadBalancerName service).
  eapply runs_bind; [exact (event_runs service creatingCloudLoadBalancerFailed lbName text)|].
  intros r l v (-> & -> & ->). by apply runs_lift.
Qed.

Lemma Cloud_EnsureLoadBalancer_runs service nodes p :
  regular service nodes → observed config p →
  runs_from config p (Cloud_EnsureLoadBalancer tp c service (Some nodes)) (λ r calls events,
    match isServiceConfigurationSupported config service with
    | Some err => calls = [] ∧
        let lbName := GetCloudProviderLoadBalancerName service in
        let text := "Service configuration is not supported: " +:+ error_string err in
        r = Err (ErrorString (event_text "Error" lbName service text)) ∧
        events = [warning_event service creatingCloudLoadBalancerFailed lbName text]
    | None =>
        if Cloud_isProviderVpc config then
          match nodes with
          | [] => calls = [] ∧ events = [] ∧ r = Err no_nodes
          | _ => with_object p service creatingCloudLoadBalancerFailed
                   (λ cv, ensured cv service nodes) r calls events
          end
        else calls = [] ∧ events = [] ∧ is_Err r
    end).
Proof.
  intros Hreg Hp. unfold Cloud_EnsureLoadBalancer. change (cl_Config c) with config.
  destruct (isServiceConfigurationSupported config service); [by apply unsupported_runs|].
  destruct (Cloud_isProviderVpc config) eqn:Hvpc; [by apply VpcEnsureLoadBalancer_runs|].
  apply runs_lift; [|done]. split_and!; [done..|by eexists].
Qed.

(** ** The monitor task *)

(** Kubernetes gives every object its own UID. *)
Context (unique_uids : ∀ w l w', kube_ListServices w = (Ok l, w') → NoDup (svc_UID <$> l)).

(** One run of the monitor task: nothing at all, or one round over the
    services that pass the filter. *)
Definition monitored_run (data : gmap string string) (r : outcome (gmap string string))
    (calls : list Call) (events : list Event) : Prop :=
  (calls = [] ∧ events = [] ∧ ¬ is_Err r ∧ ∀ data', r = Ok data' → data' = data) ∨
  ∃ (cv : CloudVpc W) services (w w' : W), own config cv ∧ Cloud_isProviderVpc config = true ∧
    kube_ListServices w = (Ok services, w') ∧
    filterLoadBalancersFromServiceList config services ≠ [] ∧
    monitor_result cv (filterLoadBalancersFromServiceList config services) data r calls events.

Lemma monitor_nothing data : monitored_run data (Ok data) [] [].
Proof. left. split_and!; [done..|by intros []|by intros ? [= ->]]. Qed.

Lemma VpcMonitor_runs services data w w' :
  Cloud_isProviderVpc config = true → kube_ListServices w = (Ok services, w') →
  runs config
    (VpcMonitorLoadBalancers tp c (Some (filterLoadBalancersFromServiceList config services)) data)
    (monitored_run data).
Proof.
  intros Hvpc Hlist. unfold VpcMonitorLoadBalancers.
  destruct (filterLoadBalancersFromServiceList config services) as [|s l] eqn:Hfilter.
  { apply runs_lift, monitor_nothing. }
  eapply runs_bind with (Q := λ r calls events, calls = [] ∧ events = [] ∧ is_Ok r).
  { apply runs_gets. intros b. split_and!; [done..|by eexists]. }
  intros r l1 v1 (-> & -> & [private ->]).
  eapply runs_bind with (Q := λ r calls events, calls = [] ∧ events = [] ∧
      match r with
      | Ok (inl v) => ∃ cv, v = trace_cloud cv ∧ own config cv
      | Ok (inr _) | Panic _ => True
      | Err _ => False
      end).
  { apply runs_attempt. eapply runs_mono; [by apply InitCloudVpc_runs|].
    intros r l2 v2 (-> & -> & Hv). destruct r; split_and!; try done. by apply Hv. }
  intros r l2 v2 (-> & -> & Hr). destruct r as [[v|e]|e|why]; [| |done|].
  - destruct Hr as (cv & -> & Hown). apply runs_in_env.
    eapply emits_mono.
    { apply MonitorLoadBalancers_emits. rewrite <- Hfilter.
      unfold filterLoadBalancersFromServiceList.
      eapply sublist_NoDup; [by eapply unique_uids|].
      apply fmap_sublist, sublist_filter. }
    intros r l3 v3 Hmon. right. exists cv, services, w, w'. by rewrite Hfilter.
  - apply runs_lift, monitor_nothing.
  - left. split_and!; [done..|by intros []|done].
Qed.

Lemma Cloud_MonitorLoadBalancers_runs data :
  runs config (Cloud_MonitorLoadBalancers tp c data) (monitored_run data).
Proof.
  unfold Cloud_MonitorLoadBalancers.
  eapply runs_bind with (Q := λ r calls events, calls = [] ∧ events = [] ∧
      match r with
      | Ok (inl services) => ∃ w w', kube_ListServices (W := W) w = (Ok services, w')
      | Ok (inr _) | Panic _ => True
      | Err _ => False
      end).
  { apply runs_attempt. intros p Hp. unfold runs_from, in_world, in_env, sdk.
    change (kube_ListServices (W := W * list Call)) with (quiet (W := W) kube_ListServices).
    unfold quiet. destruct (env_world (ps_env p)) as [w tr] eqn:Hw.
    destruct (kube_ListServices w) as [r w'] eqn:Hlist. split; [done|]. exists [], [].
    unfold trace. cbn. rewrite Hw, !app_nil_r. destruct r; split_and!; try done.
    by exists w, w'. }
  intros r l v (-> & -> & Hr). destruct r as [[services|e]|e|why]; [| |done|].
  - destruct Hr as (w & w' & Hlist). change (cl_Config c) with config.
    destruct (Cloud_isProviderVpc config) eqn:Hvpc; [by eapply VpcMonitor_runs|].
    apply runs_lift, monitor_nothing.
  - apply runs_lift, monitor_nothing.
  - left. split_and!; [done..|by intros []|done].
Qed.
End entry.

(** ** The properties *)

(** C18: EnsureLoadBalancer of the cloud provider, from any process.  An
    unsupported service is refused with one warning event under the classic
    name; on classic infrastructure every service is refused; without nodes the
    call fails, after at most ten minutes of waiting, without an event.  In the
    other cases it depends on whether there is a cloud object for the call: the
    process has one, or one can be built - the credential can be read, the
    configuration with it is valid, and the provider makes an SDK for it.  With
    an object the VPC logic runs over it, for the cluster of the configuration,
    under the generated name, and ends as the VPC logic ends; without one the
    call is refused by one warning event, or panics if the file system or the
    provider did.  A call that is refused does not call the VPC service. *)
Theorem Cloud_EnsureLoadBalancer_spec {W} `{!Clock W} `{!MapIteration} `{!Os W} `{!MockHeap W}
    `{!NodeWait W} (provider : ConfigVpc → M W (ConfigVpc * CloudVpcSdk W))
    `{!SdkProvider provider} (c : Cloud) service nodes p :
  regular service nodes → observed (cl_Config c) p →
  runs_from (cl_Config c) p
    (Cloud_EnsureLoadBalancer (traced_provider provider) c service (Some nodes))
    (λ r calls events,
       if decide (supported (cl_Config c) service) then
         if Cloud_isProviderVpc (cl_Config c) then
           match nodes with
           | [] => calls = [] ∧ events = [] ∧ r = Err no_nodes
           | _ =>
               (∀ vpc, object_for provider c p vpc → ∃ cv : CloudVpc W, vpc = trace_cloud cv ∧
                  own (cl_Config c) cv ∧ ensured c cv service nodes r calls events) ∧
               ((¬ ∃ vpc, object_for provider c p vpc) →
                not_initialized provider c service creatingCloudLoadBalancerFailed r calls events)
           end
         else calls = [] ∧ events = [] ∧ is_Err r
       else
         calls = [] ∧ ∃ text,
           let lbName := GetCloudProviderLoadBalancerName service in
           r = Err (ErrorString (event_text "Error" lbName service text)) ∧
           events = [warning_event service creatingCloudLoadBalancerFailed lbName text]).
Proof.
  intros Hreg Hp.
  destruct (Cloud_EnsureLoadBalancer_runs provider c service nodes p Hreg Hp)
    as (Ho & calls & events & Hl & He & HP).
  split; [exact Ho|]. exists calls, events. split; [exact Hl|]. split; [exact He|].
  pose proof (isServiceConfigurationSupported_iff (cl_Config c) service).
  destruct (decide (supported _ _)), (isServiceConfigurationSupported _ _) as [err|]; [naive_solver| | |naive_solver].
  - destruct (Cloud_isProviderVpc _); [|exact HP]. by destruct nodes.
  - destruct HP as (-> & -> & ->). by eauto.
Qed.

(** One run of the monitor task, over any list of services Kubernetes may
    answer.  Either nothing happens - the services cannot be listed, none is left
    by the filter, the infrastructure is classic, or the cloud object cannot be
    built - and the stored statuses stay; or there is one monitor round over
    exactly the supported load balancer services without a class, for
    the cluster of the configuration. *)
Theorem Cloud_MonitorLoadBalancers_spec {W} `{!Clock W} `{!MapIteration} `{!Os W} `{!MockHeap W}
    `{!KubeServices W} (provider : ConfigVpc → M W (ConfigVpc * CloudVpcSdk W))
    `{!SdkProvider provider} (c : Cloud) data :
  (∀ w l w', kube_ListServices (W := W) w = (Ok l, w') → NoDup (svc_UID <$> l)) →
  runs (cl_Config c) (Cloud_MonitorLoadBalancers (traced_provider provider) c data)
    (λ r calls events,
       (calls = [] ∧ events = [] ∧ ¬ is_Err r ∧ ∀ data', r = Ok data' → data' = data) ∨
       ∃ (cv : CloudVpc W) services (w w' : W),
         own (cl_Config c) cv ∧ Cloud_isProviderVpc (cl_Config c) = true ∧
         kube_ListServices w = (Ok services, w') ∧
         filter (monitorable (cl_Config c)) services ≠ [] ∧
         monitor_result cv (filter (monitorable (cl_Config c)) services) data r calls events).
Proof.
  intros Huids. eapply runs_mono; [by apply Cloud_MonitorLoadBalancers_runs|].
  intros r calls events [?|(cv & services & w & w' & ?)]; [by left|right].
  exists cv, services, w, w'. by rewrite <- filterLoadBalancersFromServiceList_filter.
Qed.

(** ** Witnesses *)

(** The static world as a whole process: a readable API key, the services
    [services], nobody waiting. *)
#[local] Instance static_os : Os StaticVpc := {|
  os_Getenv _ := λ _, "";
  os_ReadFile _ := mret "key";
|}.
#[local] Instance static_mocks : MockHeap StaticVpc := no_mocks.
#[local] Instance static_wait : NodeWait StaticVpc := λ _ w, (false, w).
Definition static_services (services : list Service) : KubeServices StaticVpc := mret services.

Definition static_provider (c : ConfigVpc) : M StaticVpc (ConfigVpc * CloudVpcSdk StaticVpc) :=
  mret (c, StaticSdk).
#[export] Instance static_provider_laws : SdkProvider static_provider.
Proof. intros c w c' s w' [= <- <- _]. split_and!; [apply _..|done]. Qed.

Definition example_provider : Provider :=
  {| prov_ProviderID := ""; prov_InternalIP := ""; prov_ExternalIP := "";
     prov_Region := "us-south"; prov_Zone := ""; prov_InstanceType := "";
     prov_ClusterID := "cluster"; prov_AccountID := "account"; prov_ProviderType := "g2";
     prov_G2WorkerServiceAccountID := ""; prov_G2VpcName := "v"; prov_G2Credentials := "file";
     prov_G2ResourceGroupName := "default"; prov_G2VpcSubnetNames := "net-a";
     prov_G2EndpointOverride := ""; prov_IamEndpointOverride := ""; prov_RmEndpointOverride := "";
     prov_IKSPrivateEndpointHostname := ""; prov_CloudCredentials := "" |}.
Definition example_Cloud : Cloud :=
  {| cl_Config :=
       {| cc_Version := "1.1.0"; cc_ConfigFilePaths := [""]; cc_CalicoDatastore := "";
          cc_SetNetworkUnavailable := false; cc_CniProvider := "Calico";
          cc_LBDeployment :=
            {| dep_Image := ""; dep_Application := ""; dep_VlanIPConfigMap := "" |};
          cc_Prov := example_provider |};
     cl_ClassicCloud := None |}.

(** A process that has not built its cloud object yet. *)
Definition fresh_process (w : StaticVpc) : Process (StaticVpc * list Call) :=
  {| ps_env := start w; ps_vpc := None; ps_chan := true |}.

Lemma fresh_observed config w : observed config (fresh_process w).
Proof. by intros v. Qed.

(** The object is built, and the VPC logic runs over it. *)
Lemma Cloud_EnsureLoadBalancer_spec_witness :
  let service := example_service "u" [(80, 30303)]%Z ∅ in
  let nodes := [example_node "n1" "10.0.0.1" "z1"] in
  let run := Cloud_EnsureLoadBalancer (H := key_order) (traced_provider static_provider)
    example_Cloud service (Some nodes) (fresh_process example_world) in
  ∃ cv : CloudVpc StaticVpc, own (cl_Config example_Cloud) cv ∧
    ∃ events, ensured (H := key_order) example_Cloud cv service nodes run.1 (trace (ps_env run.2)) events.
Proof.
  intros service nodes run.
  assert (regular service nodes) as Hreg by by_decision.
  destruct (Cloud_EnsureLoadBalancer_spec (H := key_order) static_provider example_Cloud
    service nodes (fresh_process example_world) Hreg
    (fresh_observed _ _)) as (_ & calls & events & Htrace & _ & H).
  assert (supported (cl_Config example_Cloud) service) as Hs by by_decision.
  destruct (decide (supported _ _)) as [_|Hno]; [|by destruct (Hno Hs)].
  change (Cloud_isProviderVpc (cl_Config example_Cloud)) with true in H.
  set (initialized := match config_initialize (configVpcOf example_provider true "key") with
                      | Ok given => given | _ => configVpcOf example_provider true "" end).
  destruct (proj1 H {| cv_Config := initialized; cv_Sdk := traced StaticSdk; cv_Recorder := true |})
    as (cv & _ & Hown & Hens).
  - right. split; [reflexivity|]. exists (example_world, []), "key", (example_world, []), initialized.
    exists initialized, (traced StaticSdk). split.
    + right. split; [discriminate|]. exists "key". split; reflexivity.
    + split; [reflexivity|]. split; reflexivity.
  - exists cv. split; [exact Hown|]. exists events. unfold run. rewrite Htrace. exact Hens.
Defined.

Lemma Cloud_MonitorLoadBalancers_spec_witness :
  let service := example_service "u" [(80, 30303)]%Z ∅ in
  ∃ calls,
    trace (ps_env (Cloud_MonitorLoadBalancers (KubeServices0 := traced_kube
        (KubeServices0 := static_services [service])) (H := key_order)
      (traced_provider static_provider) example_Cloud ∅ (fresh_process example_world)).2) = calls ∧
    (calls = [] ∨ ∃ (o : outcome (list VpcLoadBalancer)) rest,
       calls = (RListLoadBalancers ⇒ o) :: rest).
Proof.
  cbv zeta.
  assert (∀ w l w', static_services [example_service "u" [(80, 30303)]%Z ∅] w = (Ok l, w') →
    NoDup (svc_UID <$> l)) as Huids.
  { intros w l w' [= <- _]. by_decision. }
  destruct (Cloud_MonitorLoadBalancers_spec (H := key_order)
    (KubeServices0 := static_services [example_service "u" [(80, 30303)]%Z ∅]) static_provider
    example_Cloud ∅ Huids (fresh_process example_world) (fresh_observed _ _))
    as (_ & calls & events & Htrace & _ & H).
  exists calls. split; [exact Htrace|].
  destruct H as [(-> & _)|(cv & services & w & w' & _ & _ & _ & _ & o & rest & -> & _)].
  - by left.
  - right. by exists o, rest.
Defined.

(** ** A service turned into a node port service *)

Definition node_port_service : Service :=
  let s := example_service "u2" [(80, 30304)]%Z ∅ in
  {| svc_Name := svc_Name s; svc_Namespace := svc_Namespace s; svc_UID := svc_UID s;
     svc_Annotations := svc_Annotations s;
     svc_Spec :=
       {| spec_Ports := spec_Ports (svc_Spec s); spec_Type := ServiceTypeNodePort;
          spec_ExternalTrafficPolicy := spec_ExternalTrafficPolicy (svc_Spec s);
          spec_HealthCheckNodePort := 0; spec_AllocateLoadBalancerNodePorts := None;
          spec_LoadBalancerClass := None |};
     svc_LoadBalancer := svc_LoadBalancer s |}.

Definition two_load_balancers : StaticVpc :=
  {| st_subnets := []; st_listeners := []; st_pools := []; st_time := 0;
     st_lbs := [example_lb "lb1" "kube-cluster-u1" "online" "active" [] [];
                example_lb "lb2" "kube-cluster-u2" "online" "active" [] []] |}.

(** The monitor task deletes the load balancer of a node port service: the
    filter hides the service from the gathering, which keeps the load balancers
    of the node port services it is given. *)
Lemma monitor_deletes_node_port_load_balancer :
  let services := [example_service "u1" [(80, 30303)]%Z ∅; node_port_service] in
  let run services := Cloud_MonitorLoadBalancers
    (KubeServices0 := traced_kube (KubeServices0 := static_services services))
    (H := key_order) (traced_provider static_provider) example_Cloud ∅
    (fresh_process two_load_balancers) in
  writes (trace (ps_env (run services).2)) = [RDeleteLoadBalancer "lb2"] ∧
  writes (trace (MonitorLoadBalancers (H := key_order) (trace_cloud example_cloud)
    (Some services) ∅ (start two_load_balancers)).2) = [].
Proof. by vm_compute. Qed.
