(* ===== verification/CloudConvergence.v ===== *)
(** * CloudConvergence: what the calls of the service controller amount to

    The service controller calls the cloud provider for one service again and
    again: EnsureLoadBalancer, UpdateLoadBalancer and GetLoadBalancer in any
    order.  Through the dispatch of Cloud and the process-wide VPC object these
    calls reach the operations of VpcProvider, whose convergence ([EnsureProps])
    is lifted to every sequence of successful calls of a process that has its
    VPC object. *)
From S2P Require Import Prelude GoStrings Kube VpcTypes VpcConfig VpcUpdates UpdateSpec UpdatePlan.
From S2P Require Import VpcSdk StaticVpc VpcLbaas LbaasProps VpcProvider VpcSdkGen2 Gen2Props.
From S2P Require Import LbEffects Gen2Effects Serving StoreVpc Convergence Progress EnsureProps.
From S2P Require Import VpcSdkFake VpcCloud CloudConfig NodeMetadata Cloud CloudProps.

Open Scope go_scope.

Section calls.
Context {W : Type} `{!Clock W} `{!MapIteration} `{!Os W} `{!MockHeap W} `{!NodeWait W}.
Context (NewVpcSdkProvider : ConfigVpc → M W (ConfigVpc * CloudVpcSdk W)).
Context (c : Cloud) (service : Service) (nodes : list Node).

(** A successful call of the service controller. *)
Inductive controller_call (p p' : Process W) : Prop :=
  | call_ensure status :
      Cloud_EnsureLoadBalancer NewVpcSdkProvider c service (Some nodes) p = (Ok status, p') →
      controller_call p p'
  | call_update :
      Cloud_UpdateLoadBalancer NewVpcSdkProvider c service (Some nodes) p = (Ok tt, p') →
      controller_call p p'
  | call_get r :
      Cloud_GetLoadBalancer NewVpcSdkProvider c service p = (Ok r, p') → controller_call p p'.

(** A call that brings the load balancer up to date. *)
Definition reconciled (p p' : Process W) : Prop :=
  (∃ status, Cloud_EnsureLoadBalancer NewVpcSdkProvider c service (Some nodes) p
             = (Ok status, p')) ∨
  Cloud_UpdateLoadBalancer NewVpcSdkProvider c service (Some nodes) p = (Ok tt, p').

Context (Hvpc : Cloud_isProviderVpc (cl_Config c) = true)
  (Hsupported : supported (cl_Config c) service) (Hnodes : nodes ≠ []).
Let lbName := Cloud_GetLoadBalancerName c service.

Lemma in_env_Ok {A} (m : M (Env W) A) p a p' :
  in_env m p = (Ok a, p') → m (ps_env p) = (Ok a, ps_env p') ∧ ps_vpc p' = ps_vpc p.
Proof. unfold in_env. destruct (m (ps_env p)) as [r e]. by intros [= -> <-]. Qed.

(** With a VPC object the operation runs on it. *)
Lemma with_vpc_object {A} vpc reason (k : CloudVpc W → M (Env W) A) p :
  ps_vpc p = Some vpc →
  with_vpc NewVpcSdkProvider (cl_Config c) service reason k p = in_env (k vpc) p.
Proof.
  intros Hp. assert (∀ b, attempt (InitCloudVpc NewVpcSdkProvider (cl_Config c) b) p
    = (Ok (inl vpc), p)) as Hi.
  { intros b. unfold attempt, InitCloudVpc. by rewrite (run_Ok _ _ p (Some vpc) p)
      by by unfold GetCloudVpc, gets; rewrite Hp. }
  unfold with_vpc. erewrite (run_Ok shouldPrivate) by done. by rewrite (run_Ok _ _ _ _ _ (Hi _)).
Qed.

Lemma has_nodes : (length (default [] (Some nodes)) =? 0)%nat = false.
Proof. by destruct nodes. Qed.

Lemma reconciled_ensured vpc p p' :
  ps_vpc p = Some vpc → reconciled p p' →
  EnsureProps.ensured vpc lbName service nodes (ps_env p) (ps_env p') ∧ ps_vpc p' = Some vpc.
Proof.
  intros Hp [[status Hrun]|Hrun].
  - unfold Cloud_EnsureLoadBalancer in Hrun.
    rewrite (proj2 (isServiceConfigurationSupported_iff _ _) Hsupported), Hvpc in Hrun.
    unfold VpcEnsureLoadBalancer in Hrun. rewrite has_nodes, (with_vpc_object vpc) in Hrun by done.
    apply in_env_Ok in Hrun as [Hrun Hp']. split; [|congruence]. left. exists status.
    unfold lbName, Cloud_GetLoadBalancerName. by rewrite Hvpc.
  - unfold Cloud_UpdateLoadBalancer in Hrun. rewrite Hvpc in Hrun.
    unfold VpcUpdateLoadBalancer in Hrun. rewrite has_nodes in Hrun.
    apply bind_Ok in Hrun as (chan & p1 & [= <- <-] & Hrun).
    apply bind_Ok in Hrun as ([] & p2 & Hwake & Hrun).
    assert (ps_env p2 = ps_env p ∧ ps_vpc p2 = Some vpc) as [He Hp2].
    { destruct (ps_chan p); by injection Hwake as <-. }
    rewrite (with_vpc_object vpc) in Hrun by done.
    apply in_env_Ok in Hrun as [Hrun Hp']. split; [|congruence]. right.
    unfold lbName, Cloud_GetLoadBalancerName. by rewrite Hvpc, <- He.
Qed.

Lemma get_finds vpc p r p' :
  ps_vpc p = Some vpc → Cloud_GetLoadBalancer NewVpcSdkProvider c service p = (Ok r, p') →
  (∃ found, FindLoadBalancer vpc lbName (Some service) (ps_env p) = (Ok found, ps_env p')) ∧
  ps_vpc p' = Some vpc.
Proof.
  intros Hp Hrun. unfold Cloud_GetLoadBalancer in Hrun. rewrite Hvpc in Hrun.
  unfold VpcGetLoadBalancer in Hrun. rewrite (with_vpc_object vpc) in Hrun by done.
  apply in_env_Ok in Hrun as [Hrun Hp']. split; [|congruence].
  unfold lbName, Cloud_GetLoadBalancerName. rewrite Hvpc. unfold GetLoadBalancer in Hrun.
  apply bind_Ok in Hrun as ([found|err] & e1 & Hfind & Hrun);
    [|by apply fail_with_event_fails in Hrun].
  unfold attempt in Hfind. destruct (FindLoadBalancer _ _ _ _) as [[x|x|x] e2]; try done.
  injection Hfind as -> ->. exists found. destruct found as [lb|]; [|by injection Hrun as _ <-].
  destruct (negb (IsReady lb)); by injection Hrun as _ <-.
Qed.

(** The load balancer [lbID] is found as long as it has pools. *)
Definition listed vpc lbID (state : W → LbState) : Prop := ∀ e found e',
  FindLoadBalancer vpc lbName (Some service) e = (Ok found, e') →
  ls_pools (state (env_world e)) ≠ [] → ∃ lb, found = Some lb ∧ lb_ID lb = lbID.

(** Every port has a pool, and the process its VPC object. *)
Definition served vpc (state : W → LbState) (p : Process W) : Prop :=
  ps_vpc p = Some vpc ∧ ∀ port, port ∈ spec_Ports (svc_Spec service) →
    port_has_pool (ls_pools (state (env_world (ps_env p)))) port.

Section converge.
Context vpc (lb : VpcLoadBalancer) (state : W → LbState) `{!SdkEffects (cv_Sdk vpc) (lb_ID lb) state}
  `{!SdkIdentity (cv_Sdk vpc)}.
Let nodeList := getNodeIDs (selectNodes service (getServiceOptions (Some service)) nodes).
Let state_of (p : Process W) : LbState := state (env_world (ps_env p)).
Context (Hlist : listed vpc (lb_ID lb) state) (Hports : spec_Ports (svc_Spec service) ≠ [])
  (Hvalid : Forall valid_port (spec_Ports (svc_Spec service))) (Hunique : unique_ports service)
  (Htoken : Forall token nodeList).

Lemma served_pools p : served vpc state p → ls_pools (state_of p) ≠ [].
Proof.
  intros [_ Hall] Hnil. destruct (spec_Ports (svc_Spec service)) as [|q qs]; [done|].
  destruct (Hall q) as (pool & f & Hin & _); [left|].
  unfold state_of in Hnil. rewrite Hnil in Hin. by apply elem_of_nil in Hin.
Qed.

(** A call that brings the load balancer up to date, when it is found. *)
Lemma reconciled_found p p' lb1 e1 :
  ps_vpc p = Some vpc → reconciled p p' →
  FindLoadBalancer vpc lbName (Some service) (ps_env p) = (Ok (Some lb1), e1) →
  lb_ID lb1 = lb_ID lb →
  caught_up service nodeList (state_of p) (state_of p') ∧ served vpc state p' ∧
  (up_to_date service nodeList (state_of p) → state_of p' = state_of p).
Proof.
  intros Hp [Hens Hp']%(reconciled_ensured vpc) Hfind Hid; [|done].
  assert (caught_up service nodeList (state_of p) (state_of p')) as Hcaught
    by by eapply (ensured_caught_up vpc lb state lbName service nodes).
  split; [done|]. split.
  - split; [done|]. intros port Hport. by eapply caught_up_has_pools.
  - intros (views & Hviews & Hsync). by eapply (ensured_kept vpc lb state lbName service nodes).
Qed.

Lemma reconciled_served p p' :
  served vpc state p → reconciled p p' →
  caught_up service nodeList (state_of p) (state_of p') ∧ served vpc state p' ∧
  (up_to_date service nodeList (state_of p) → state_of p' = state_of p).
Proof.
  intros Hs Hrec. pose proof (served_pools p Hs) as Hpools. destruct Hs as [Hp _].
  pose proof (reconciled_ensured vpc p p' Hp Hrec) as [Hens _].
  destruct (ensured_finds vpc lbName service nodes _ _ Hens) as (found & e1 & Hfind).
  destruct (Hlist _ _ _ Hfind Hpools) as (lb' & -> & Hid). by eapply reconciled_found.
Qed.

Lemma call_served p p' :
  served vpc state p → controller_call p p' →
  served vpc state p' ∧ (up_to_date service nodeList (state_of p) → state_of p' = state_of p).
Proof.
  intros Hs [status Hrun|Hrun|r Hrun].
  1-2: apply (reconciled_served p p'); [done|].
  - left. by exists status.
  - by right.
  - destruct Hs as [Hp Hall]. apply (get_finds vpc) in Hrun as [[found Hfind] Hp']; [|done].
    pose proof (find_keeps vpc lb state lbName service _ _ _ Hfind) as Hkeep. unfold state_of.
    split; [|done]. split; [done|]. by rewrite Hkeep.
Qed.

Lemma calls_served p p' :
  served vpc state p → rtc controller_call p p' →
  served vpc state p' ∧ (up_to_date service nodeList (state_of p) → state_of p' = state_of p).
Proof.
  intros Hs Hcalls. revert Hs. induction Hcalls as [p|p p1 p' Hcall _ IH]; [done|].
  intros [Hs1 Hk1]%(call_served p p1); [|done]. destruct (IH Hs1) as [Hs' Hk']. split; [done|].
  intros Hdate. pose proof (Hk1 Hdate) as Heq. rewrite Heq in Hk'. by apply Hk'.
Qed.
End converge.
End calls.

(** ** Properties *)

(** C8: the calls of the service controller converge.  Take a process that has
    its VPC object already, a supported service with ports and at least one
    node, and a load balancer that exists: it is found under the name of the
    service, and is found as long as it has pools.  After one successful
    EnsureLoadBalancer or UpdateLoadBalancer of the cloud provider the load
    balancer is in sync with the service and the selected nodes, up to the
    proxy protocol of pools the call created - so fully in sync unless the
    service asks for the proxy protocol and had a port without a pool
    ([no_new_proxy_pool]; the Gen2 SDK creates pools without it).  If it is in
    sync, whatever sequence of successful calls of EnsureLoadBalancer,
    UpdateLoadBalancer and GetLoadBalancer follows leaves it as it is; and in
    any case the next successful EnsureLoadBalancer or UpdateLoadBalancer in
    the sequence leaves it in sync.  The VPC object stays the same. *)
Theorem Cloud_reconciles {W} `{!Clock W} `{!MapIteration} `{!Os W} `{!MockHeap W} `{!NodeWait W}
    NewVpcSdkProvider (c : Cloud) (vpc : CloudVpc W) state lb service nodes p e1 p1 p2 :
  let lbName := Cloud_GetLoadBalancerName c service in
  let nodeList := getNodeIDs (selectNodes service (getServiceOptions (Some service)) nodes) in
  SdkEffects (cv_Sdk vpc) (lb_ID lb) state → SdkIdentity (cv_Sdk vpc) →
  listed c service vpc (lb_ID lb) state →
  Cloud_isProviderVpc (cl_Config c) = true → supported (cl_Config c) service → nodes ≠ [] →
  spec_Ports (svc_Spec service) ≠ [] → Forall valid_port (spec_Ports (svc_Spec service)) →
  unique_ports service → Forall token nodeList → ps_vpc p = Some vpc →
  FindLoadBalancer vpc lbName (Some service) (ps_env p) = (Ok (Some lb), e1) →
  reconciled NewVpcSdkProvider c service nodes p p1 →
  rtc (controller_call NewVpcSdkProvider c service nodes) p1 p2 →
  let state_of (p : Process W) := state (env_world (ps_env p)) in
  caught_up service nodeList (state_of p) (state_of p1) ∧
  (no_new_proxy_pool service (ls_pools (state_of p)) → up_to_date service nodeList (state_of p1)) ∧
  (up_to_date service nodeList (state_of p1) → state_of p2 = state_of p1) ∧
  ps_vpc p2 = Some vpc ∧
  ∀ p3, reconciled NewVpcSdkProvider c service nodes p2 p3 →
    up_to_date service nodeList (state_of p3).
Proof.
  intros lbName nodeList Heff Hident Hlist Hvpc Hsup Hnodes Hports Hvalid Hunique Htoken Hp
    Hfind Hrec Hcalls state_of.
  destruct (reconciled_found _ c service nodes Hvpc Hsup Hnodes vpc lb state Hvalid Hunique Htoken
    p p1 lb e1 Hp Hrec Hfind eq_refl) as (Hcaught & Hserved & _).
  destruct (calls_served _ c service nodes Hvpc Hsup Hnodes vpc lb state Hlist Hports Hvalid Hunique
    Htoken p1 p2 Hserved Hcalls) as [Hserved2 Hkept].
  split; [done|]. split; [by apply caught_up_synced|]. split; [done|]. split; [apply Hserved2|].
  intros p3 Hrec3.
  destruct (reconciled_served _ c service nodes Hvpc Hsup Hnodes vpc lb state Hlist Hports Hvalid
    Hunique Htoken p2 p3 Hserved2 Hrec3) as (Hcaught3 & _).
  eapply caught_up_synced; [exact Hcaught3|]. right. apply Hserved2.
Qed.

#[local] Instance store_os : Os StoreVpc := {|
  os_Getenv _ := λ _, "";
  os_ReadFile _ := mret "key";
|}.
#[local] Instance store_mocks : MockHeap StoreVpc := no_mocks.
#[local] Instance store_wait : NodeWait StoreVpc := λ _ w, (false, w).
Definition store_provider (c : ConfigVpc) : M StoreVpc (ConfigVpc * CloudVpcSdk StoreVpc) :=
  mret (c, StoreSdk).
Definition store_cloud : CloudVpc StoreVpc :=
  {| cv_Config := example_config; cv_Sdk := StoreSdk; cv_Recorder := true |}.
Definition store_process : Process StoreVpc :=
  {| ps_env := {| env_world := example_store; env_events := []; env_draws := 0 |};
     ps_vpc := Some store_cloud; ps_chan := true |}.
(** Its UID makes the name of the load balancer in the store. *)
Definition store_service : Service := example_service "1" [(80, 30500); (81, 30304)]%Z ∅.

Lemma store_lists w :
  present (store_state w) = true →
  sdk_call StoreSdk RListLoadBalancers w = (Ok [mapLoadBalancer (show_lb (store_state w))], w).
Proof.
  intros Hp. cbn. unfold Gen2_ListLoadBalancers. cbn [listPages].
  unfold mbind, M_bind. cbn [StoreClient cl_ListLoadBalancers]. unfold query.
  rewrite decide_True by done. by rewrite Hp.
Qed.

Lemma store_listed :
  listed example_Cloud store_service store_cloud store_id (λ w, map_state (store_state w)).
Proof.
  intros e found e' Hfind Hpools. exists (mapLoadBalancer (show_lb (store_state (env_world e)))).
  split; [|done]. assert (present (store_state (env_world e)) = true) as Hpr%store_lists.
  { unfold present. destruct (cs_pools _) as [|x l] eqn:Hp; [|by destruct (cs_listeners _)].
    exfalso. apply Hpools. cbn [map_state ls_pools]. by rewrite Hp. }
  unfold FindLoadBalancer in Hfind. rewrite bool_decide_eq_false_2 in Hfind by by vm_compute.
  apply bind_Ok in Hfind as (lbs & e1 & Hlbs & Hfind). unfold sdk in Hlbs.
  change (sdk_ListLoadBalancers (env_world e)) with
    (sdk_call StoreSdk RListLoadBalancers (env_world e)) in Hlbs.
  rewrite Hpr in Hlbs. injection Hlbs as <- _. by injection Hfind as <- _.
Qed.

(** EnsureLoadBalancer of the cloud provider, and UpdateLoadBalancer after it. *)
Lemma Cloud_reconciles_witness :
  let nodes := [example_node "n1" "10.0.0.1" "z1"; example_node "n2" "10.0.0.2" "z2"] in
  let ensure := Cloud_EnsureLoadBalancer (H := key_order) store_provider example_Cloud
                  store_service (Some nodes) in
  let update := Cloud_UpdateLoadBalancer (H := key_order) store_provider example_Cloud
                  store_service (Some nodes) in
  let p1 := (ensure store_process).2 in
  let p2 := (update p1).2 in
  let s1 := map_state (store_state (env_world (ps_env p1))) in
  (∃ views, parse_pools (ls_pools s1) = Ok views ∧
     in_sync store_service ["10.0.0.1"; "10.0.0.2"] (ls_listeners s1) views) ∧
  map_state (store_state (env_world (ps_env p2))) = s1.
Proof.
  intros nodes ensure update p1 p2 s1.
  destruct (ensure store_process).1 as [status| |] eqn:Hensure.
  2-3: exfalso; vm_compute in Hensure; discriminate Hensure.
  assert (ensure store_process = (Ok status, p1)) as H1
    by by rewrite (surjective_pairing (ensure store_process)), Hensure.
  destruct (update p1).1 as [[]| |] eqn:Hupdate.
  2-3: exfalso; vm_compute in Hupdate; discriminate Hupdate.
  assert (update p1 = (Ok tt, p2)) as H2
    by by rewrite (surjective_pairing (update p1)), Hupdate.
  destruct (Cloud_reconciles (H := key_order) store_provider example_Cloud store_cloud
    (λ w, map_state (store_state w)) (mapLoadBalancer (show_lb example_store_state)) store_service
    nodes store_process (ps_env store_process) p1 p2 StoreSdk_effects StoreSdk_identity store_listed)
    as (_ & Hsync & Hkeep & _).
  - reflexivity.
  - by_decision.
  - discriminate.
  - discriminate.
  - by_decision.
  - by_decision.
  - by_decision.
  - reflexivity.
  - reflexivity.
  - left. exists status. exact H1.
  - apply rtc_once, call_update. exact H2.
  - pose proof (Hsync (or_introl eq_refl)) as Hdate. split; [exact Hdate|exact (Hkeep Hdate)].
Defined.
