(* ===== verification/CloudStart.v ===== *)
(** * CloudStart: building the cloud provider (NewCloud of ibm/ibm.go)

    The theorem says when NewCloud succeeds and what it leaves: only the
    configuration file and the Kubernetes client can make it fail; a VPC that
    cannot be initialized cannot.  Whether the process has its VPC object
    afterwards is said exactly. *)
From S2P Require Import Prelude GoStrings Kube VpcTypes VpcConfig VpcUpdates UpdatePlan VpcSdk.
From S2P Require Import StaticVpc VpcLbaas LbaasProps VpcProvider VpcSdkFake VpcCloud CloudConfig NodeMetadata.
From S2P Require Import Cloud CloudProps.

Open Scope go_scope.

(** What the configuration parser, the constructors of client-go and the file
    system may do: answer or fail, not panic. *)
Record calm {W R} `{!Os W} (provider : ConfigVpc → M W (ConfigVpc * CloudVpcSdk W))
    (gcfg_read : string → outcome CloudConfig) (newForConfig : R → outcome unit) : Prop := {
  calm_provider : ∀ c w, no_panic (provider c w).1;
  calm_read : ∀ path (w : W), no_panic (os_ReadFile path w).1;
  calm_gcfg : ∀ text, no_panic (gcfg_read text);
  calm_client : ∀ k8s, no_panic (newForConfig k8s);
}.

Definition with_paths (config : CloudConfig) : CloudConfig :=
  if decide (cc_ConfigFilePaths config = []) then set_ConfigFilePaths [""] config else config.

(** The configuration file is given, readable and of a supported version, and
    a Kubernetes client can be made from the first of the files it names that
    loads. *)
Definition startable {R} (gcfg_read : string → outcome CloudConfig) (build : string → option R)
    (newForConfig : R → outcome unit) (config : option string) (given : CloudConfig) : Prop :=
  ∃ text k8s rest, config = Some text ∧ gcfg_read text = Ok given ∧
    (cc_Version given = "1.0.0" ∨ cc_Version given = "1.1.0") ∧
    omap build (cc_ConfigFilePaths (with_paths given)) = k8s :: rest ∧ is_Ok (newForConfig k8s).

Lemma getCloudConfig_Ok gcfg_read config given :
  getCloudConfig gcfg_read config = Ok given ↔
  ∃ text, config = Some text ∧ gcfg_read text = Ok given ∧
          (cc_Version given = "1.0.0" ∨ cc_Version given = "1.1.0").
Proof.
  unfold getCloudConfig. destruct config as [text|]; [|by split; [|intros (? & ? & _)]].
  destruct (gcfg_read text) as [c|e|w] eqn:Hread.
  2-3: split; [done|]; by intros (? & [= <-] & H & _); rewrite Hread in H.
  rewrite <- bool_decide_and. case_bool_decide as Hv.
  - split; [done|]. intros (? & [= <-] & H & Hver). rewrite Hread in H. injection H as ->.
    destruct Hv, Hver; congruence.
  - split.
    + intros [= ->]. exists text. split_and!; [done..|].
      destruct (decide (cc_Version given = "1.0.0")); [by left|right].
      destruct (decide (cc_Version given = "1.1.0")); [done|]. exfalso. apply Hv. split; congruence.
    + intros (? & [= <-] & H & _). congruence.
Qed.

Section start.
Context {W R Sdk : Type} `{!Clock W} `{!Os W} `{!MockHeap W}
  (provider : ConfigVpc → M W (ConfigVpc * CloudVpcSdk W))
  (gcfg_read : string → outcome CloudConfig) (build : string → option R)
  (newForConfig : R → outcome unit).
Context (Hcalm : calm provider gcfg_read newForConfig).

Lemma NewConfigVpc_no_panic config private (w : W) : no_panic (NewConfigVpc (Some config) private w).1.
Proof.
  unfold NewConfigVpc. case_bool_decide; [|done]. unfold attempt, mbind, M_bind.
  pose proof (calm_read _ _ _ Hcalm (prov_G2Credentials (cc_Prov config)) w) as Hread.
  by destruct (os_ReadFile _ w) as [[data|e|why] w'].
Qed.

(** Building the VPC object, or failing to, leaves the events alone and never
    panics; the object in use afterwards is the one answered. *)
Lemma InitCloudVpc_run config private (p : Process W) :
  let '(r, p') := InitCloudVpc provider config private p in
  no_panic r ∧ env_events (ps_env p') = env_events (ps_env p) ∧
  ps_vpc p' = match r with Ok vpc => Some vpc | _ => ps_vpc p end.
Proof.
  unfold InitCloudVpc, GetCloudVpc. unfold mbind at 1, M_bind at 1. cbn [gets].
  destruct (ps_vpc p) as [vpc|] eqn:Hvpc; [by cbn|].
  unfold mbind at 1, M_bind at 1, in_world, in_env, sdk.
  pose proof (NewConfigVpc_no_panic config private (env_world (ps_env p))) as Hnp.
  destruct (NewConfigVpc (Some config) private (env_world (ps_env p))) as [[cfg|e|why] w];
    [|by cbn|done].
  set (p1 := {| ps_env := set_world w (ps_env p); ps_vpc := ps_vpc p; ps_chan := ps_chan p |}).
  pose proof (NewCloudVpc_run provider (Some cfg) true p1) as Hrun.
  destruct (NewCloudVpc provider (Some cfg) true p1) as [r p'].
  destruct Hrun as (_ & Hev & Hr). destruct r as [vpc|e|why].
  - by destruct Hr as (-> & _).
  - destruct Hr as [-> _]. by cbn.
  - destruct Hr as (_ & initialized & Hpanic).
    pose proof (calm_provider _ _ _ Hcalm initialized (env_world (ps_env p1))) as Hno.
    by rewrite Hpanic in Hno.
Qed.

(** What NewCloud builds from a configuration. *)
Definition cloud_of (given : CloudConfig) (c : Cloud) (metadata : option (MetadataService Sdk))
    : Prop :=
  cl_Config c = with_paths given ∧
  (is_Some (cl_ClassicCloud c) ↔ Cloud_isProviderVpc given = false) ∧
  match metadata with
  | Some ms => prov_AccountID (cc_Prov given) ≠ "" ∧ ms_provider ms = cc_Prov given ∧
               ms_vpcClient ms = None ∧ ms_nodeMap ms = ∅
  | None => prov_AccountID (cc_Prov given) = ""
  end.

Lemma with_paths_provider given : cc_Prov (with_paths given) = cc_Prov given.
Proof. unfold with_paths. by case_decide. Qed.
Lemma with_paths_vpc given : Cloud_isProviderVpc (with_paths given) = Cloud_isProviderVpc given.
Proof. unfold Cloud_isProviderVpc. by rewrite with_paths_provider. Qed.

Lemma getK8SConfig_cases paths :
  (∃ k8s rest, omap build paths = k8s :: rest ∧ getK8SConfig build paths = Ok k8s) ∨
  (omap build paths = [] ∧ is_Err (getK8SConfig build paths)).
Proof.
  unfold getK8SConfig. destruct (omap build paths) as [|k8s rest]; [right|left]; [|by eauto].
  split; [done|by eexists].
Qed.

(** The world in which the VPC is initialized: the time was read if there is a
    metadata service. *)
Definition init_world given (w : W) : W :=
  if decide (prov_AccountID (cc_Prov given) = "") then w else (time_Now w).2.

(** The VPC object after NewCloud: the one there was, or the one that could be
    built; none is built for classic infrastructure. *)
Definition vpc_after given (p p' : Process W) : Prop :=
  let w := init_world given (env_world (ps_env p)) in
  let obtained := obtains provider (with_paths given) (shouldPrivateEndpointBeEnabled w) (ps_vpc p) w in
  if Cloud_isProviderVpc given then
    (∀ vpc, obtained vpc → ps_vpc p' = Some vpc) ∧ ((¬ ∃ vpc, obtained vpc) → ps_vpc p' = None)
  else ps_vpc p' = ps_vpc p.

(** The last part of NewCloud, once there is a Kubernetes client. *)
Lemma NewCloud_rest given (p : Process W) :
  let '(r, p') :=
    (metadata ←
       (if bool_decide (prov_AccountID (cc_Prov (with_paths given)) ≠ "") then
          start ← in_env now;
          mret (Some (NewMetadataService (Some (cc_Prov (with_paths given)))
                        (cc_Prov (with_paths given)) start))
        else mret None);
     if Cloud_isProviderVpc (with_paths given) then
       private ← shouldPrivate;
       _ ← attempt (InitCloudVpc provider (with_paths given) private);
       mret ({| cl_Config := with_paths given; cl_ClassicCloud := None |}, metadata)
     else
       path ← lift (index (cc_ConfigFilePaths (with_paths given)) 0);
       mret ({| cl_Config := with_paths given;
                cl_ClassicCloud :=
                  Some (Classic_NewCloud (classicConfig (with_paths given) path)) |}, metadata)) p in
  (∃ c metadata, r = Ok (c, metadata) ∧ cloud_of given c metadata) ∧
  env_events (ps_env p') = env_events (ps_env p) ∧ vpc_after given p p'.
Proof.
  set (start := if bool_decide _ then _ else _).
  assert (∃ metadata p1, start p = (Ok metadata, p1) ∧ ps_vpc p1 = ps_vpc p ∧
    env_events (ps_env p1) = env_events (ps_env p) ∧
    env_world (ps_env p1) = init_world given (env_world (ps_env p)) ∧
    match metadata with
    | Some ms => prov_AccountID (cc_Prov given) ≠ "" ∧ ms_provider ms = cc_Prov given ∧
                 ms_vpcClient ms = None ∧ ms_nodeMap ms = ∅
    | None => prov_AccountID (cc_Prov given) = ""
    end) as (metadata & p1 & Hstart & Hvpc1 & Hev1 & Hw1 & Hmeta).
  { unfold start, init_world. rewrite with_paths_provider. case_bool_decide as Hacc.
    - rewrite decide_False by done. unfold mbind, M_bind, in_env, now.
      destruct (time_Now _) as [t w]. cbn. do 2 eexists. split_and!; done.
    - rewrite decide_True by done. exists None, p. split_and!; try done. }
  rewrite (run_Ok _ _ _ _ _ Hstart). rewrite with_paths_vpc. unfold vpc_after.
  destruct (Cloud_isProviderVpc given) eqn:Hvpc.
  - unfold mbind at 1, M_bind at 1, shouldPrivate. cbn [gets].
    unfold mbind, M_bind, attempt.
    rewrite <- Hw1, <- Hvpc1. set (private := shouldPrivateEndpointBeEnabled (env_world (ps_env p1))).
    pose proof (InitCloudVpc_run (with_paths given) private p1) as Hinit.
    pose proof (InitCloudVpc_obtains provider (with_paths given) private p1) as Hob.
    rewrite with_paths_vpc in Hob. specialize (Hob Hvpc).
    destruct (InitCloudVpc _ _ _ p1) as [r p2]. destruct Hinit as [Hnp _]. destruct Hob as [Hev Hob].
    assert (∀ (p' : Process W), p' = p2 →
      (∃ c m, Ok ({| cl_Config := with_paths given; cl_ClassicCloud := None |}, metadata) = Ok (c, m) ∧
         cloud_of given c m) ∧ env_events (ps_env p') = env_events (ps_env p)) as Hdone.
    { intros p' ->. split; [|congruence]. do 2 eexists. split; [done|]. split_and!; [done| |done].
      cbn. rewrite Hvpc. split; [by intros []|done]. }
    destruct r as [vpc|e|why]; [| |done]; destruct Hob as [Hob Hset].
    + destruct (Hdone p2 eq_refl) as [H1 H2]. split; [exact H1|]. split; [exact H2|]. split.
      * intros vpc' Hv. by rewrite Hset, (obtains_unique _ _ _ _ _ _ _ Hv Hob).
      * intros []. by exists vpc.
    + destruct (Hdone p2 eq_refl) as [H1 H2]. split; [exact H1|]. split; [exact H2|]. split.
      * intros vpc Hv. by destruct (Hob vpc).
      * intros _. rewrite Hset. destruct (ps_vpc p1) as [vpc|] eqn:Hp1; [|done].
        destruct (Hob vpc). by left.
  - assert (∃ path rest, cc_ConfigFilePaths (with_paths given) = path :: rest) as (path & rest & Hpath).
    { unfold with_paths. case_decide as Hnil; [by exists "", []|].
      destruct (cc_ConfigFilePaths given) as [|path rest]; [done|by exists path, rest]. }
    unfold index. rewrite Hpath. cbn. split_and!; [|done|done].
    do 2 eexists. split; [done|]. split_and!; [done| |done]. cbn. rewrite Hvpc.
    split; [done|intros _; by eexists].
Qed.

(** C30: NewCloud succeeds exactly if its configuration is given, can be read
    and has a supported version, and a Kubernetes client can be made from the
    first Kubernetes configuration that loads; whether the VPC can be
    initialized plays no part.  Then the provider has that configuration, a
    metadata service exactly if there is an account, a classic cloud exactly if
    it is not for VPC, and no event was recorded.  For VPC the process then has
    its VPC object if one could be built - the credential can be read, the
    configuration with it is valid, and the SDK provider makes an SDK for it -
    or if there was one already, and none otherwise.  A failure changes
    nothing. *)
Theorem NewCloud_spec (config : option string) (p : Process W) :
  let '(r, p') := NewCloud (Sdk := Sdk) provider gcfg_read build newForConfig config p in
  (is_Ok r ↔ ∃ given, startable gcfg_read build newForConfig config given) ∧
  match r with
  | Ok (c, metadata) => ∃ given, startable gcfg_read build newForConfig config given ∧
      cloud_of given c metadata ∧ env_events (ps_env p') = env_events (ps_env p) ∧
      vpc_after given p p'
  | Err _ => p' = p
  | Panic _ => False
  end.
Proof.
  unfold NewCloud.
  assert (∀ (P : Prop), (∀ given, startable gcfg_read build newForConfig config given → False) → P →
    ∀ e : error, (is_Ok (Err e : outcome (Cloud * option (MetadataService Sdk))) ↔
      ∃ given, startable gcfg_read build newForConfig config given) ∧ P) as Hfail.
  { intros P Hno HP e. split; [|done]. split; [by intros []|]. intros (given & H). by apply Hno in H. }
  destruct (getCloudConfig gcfg_read config) as [given|e|why] eqn:Hconfig.
  2: { apply Hfail; [|done]. intros given (text & k8s & rest & ? & ? & ? & _).
       assert (getCloudConfig gcfg_read config = Ok given) by (apply getCloudConfig_Ok; eauto).
       congruence. }
  2: { exfalso. unfold getCloudConfig in Hconfig. destruct config as [text|]; [|done].
       pose proof (calm_gcfg _ _ _ Hcalm text) as Hnp.
       destruct (gcfg_read text); [by case_match|done|done]. }
  assert (∀ given', startable gcfg_read build newForConfig config given' → given' = given) as Hsame.
  { intros given' (text & k8s & rest & ? & ? & ? & _).
    assert (getCloudConfig gcfg_read config = Ok given') by (apply getCloudConfig_Ok; eauto).
    congruence. }
  pose proof (proj1 (getCloudConfig_Ok _ _ _) Hconfig) as (text & -> & Hread & Hver).
  unfold mbind at 1, M_bind at 1. cbn [lift].
  assert ((if length (cc_ConfigFilePaths given) =? 0 then set_ConfigFilePaths [""] given else given)
    = with_paths given) as ->.
  { unfold with_paths. destruct (cc_ConfigFilePaths given) eqn:H; cbn; [by rewrite decide_True|].
    by rewrite decide_False. }
  unfold mbind at 1, M_bind at 1.
  destruct (getK8SConfig_cases (cc_ConfigFilePaths (with_paths given)))
    as [(k8s & rest & Hload & Hk)|[Hload [e Hk]]]; unfold lift at 1; rewrite Hk.
  2: { apply Hfail; [|done]. intros given' Hs. pose proof (Hsame _ Hs) as ->.
       destruct Hs as (? & k8s & rest & _ & _ & _ & H & _). congruence. }
  pose proof (calm_client _ _ _ Hcalm k8s) as Hnp.
  destruct (newForConfig k8s) as [[]|e|why] eqn:Hclient; [| |done].
  2: { rewrite (run_Ok _ _ p (inr e) p) by done. apply Hfail; [|done]. intros given' Hs. pose proof (Hsame _ Hs) as ->.
       destruct Hs as (? & k8s' & rest' & _ & _ & _ & H & [? Hok]). congruence. }
  assert (startable gcfg_read build newForConfig (Some text) given) as Hs.
  { exists text, k8s, rest. split_and!; try done. rewrite Hclient; by eexists. }
  rewrite (run_Ok _ _ p (inl tt) p) by done. pose proof (NewCloud_rest given p) as Hrest.
  match type of Hrest with match ?run with _ => _ end => destruct run as [r p'] end.
  destruct Hrest as ((c & metadata & -> & Hof) & Hev & Hvpc).
  split; [split; intros _; [by exists given|by eexists]|]. by exists given.
Qed.
End start.

(** The provider starts with a VPC object when the credential file can be read,
    and without one when it cannot. *)
Definition unreadable_os : Os StaticVpc := {|
  os_Getenv _ _ := "";
  os_ReadFile path := fail (ErrorString ("open " +:+ path +:+ ": no such file or directory"));
|}.
Definition readable_os : Os StaticVpc := {|
  os_Getenv _ _ := "";
  os_ReadFile _ := mret "key";
|}.
#[local] Instance start_mocks : MockHeap StaticVpc := no_mocks.

Definition example_gcfg (text : string) : outcome CloudConfig :=
  if bool_decide (text = "config") then Ok (cl_Config example_Cloud)
  else Err (ErrorString "missing section").
Definition example_build (path : string) : option string :=
  if bool_decide (path = "") then Some "in-cluster" else None.

Lemma static_calm (os : Os StaticVpc) :
  (∀ path w, no_panic (@os_ReadFile _ os path w).1) →
  calm (Os0 := os) (R := string) static_provider example_gcfg (λ _, Ok tt).
Proof.
  intros Hread. split; [done|done| |done]. intros text. unfold example_gcfg. by case_bool_decide.
Qed.

Lemma NewCloud_spec_witness :
  let p := {| ps_env := {| env_world := example_world; env_events := []; env_draws := 0 |};
              ps_vpc := None; ps_chan := true |} in
  let run os config := NewCloud (Os0 := os) (Sdk := unit) static_provider example_gcfg example_build
                         (λ _, Ok tt) config p in
  is_Ok (run readable_os (Some "config")).1 ∧
  is_Some (ps_vpc (run readable_os (Some "config")).2) ∧
  is_Ok (run unreadable_os (Some "config")).1 ∧ ps_vpc (run unreadable_os (Some "config")).2 = None ∧
  run readable_os None = (Err (ErrorString "Cloud config required but none specified"), p).
Proof.
  intros p run.
  assert (startable example_gcfg example_build (λ _, Ok tt) (Some "config")
    (cl_Config example_Cloud)) as Hs.
  { exists "config", "in-cluster", []. split_and!; try done; [by right|by eexists]. }
  set (spec os calm := NewCloud_spec (Os0 := os) (Sdk := unit) static_provider example_gcfg
    example_build (λ _, Ok tt) calm (Some "config") p).
  pose proof (spec readable_os (static_calm readable_os ltac:(done))) as H1.
  pose proof (spec unreadable_os (static_calm unreadable_os ltac:(done))) as H2.
  fold (run readable_os (Some "config")) in H1. fold (run unreadable_os (Some "config")) in H2.
  assert (ps_vpc (run unreadable_os (Some "config")).2 = None) as Hnone by by vm_compute.
  destruct (run readable_os (Some "config")) as [r1 p1], (run unreadable_os (Some "config")) as [r2 p2].
  split; [exact (proj2 (proj1 H1) (ex_intro _ _ Hs))|]. split.
  - destruct H1 as [[_ Hok] H1]. destruct (Hok (ex_intro _ _ Hs)) as [[c metadata] ->].
    destruct H1 as (given & (text & k8s & rest & [= <-] & [= <-] & _) & _ & _ & Hafter).
    set (initialized := match config_initialize (configVpcOf example_provider true "key") with
                        | Ok given => given | _ => configVpcOf example_provider true "" end).
    destruct Hafter as [Hset _]. eexists. apply Hset. right. split; [reflexivity|].
    exists (init_world (cl_Config example_Cloud) example_world), "key".
    exists (init_world (cl_Config example_Cloud) example_world), initialized, initialized, StaticSdk.
    split; [|split_and!; reflexivity]. right. split; [discriminate|]. exists "key". split; reflexivity.
  - split; [exact (proj2 (proj1 H2) (ex_intro _ _ Hs))|]. split; [exact Hnone|reflexivity].
Defined.
