(* ===== verification/CloudTasks.v ===== *)
(** * CloudTasks: the periodic tasks of the cloud provider (ibm/ibm_task.go)

    A task is a heap object that the registry [CloudTasks] and the goroutine
    that runs it share; tasks are numbered in the order they are allocated.
    [StartTask] and [StopTask] are called from one goroutine; the goroutines of
    the tasks interleave with them.  Receiving a tick and starting the task
    function are two steps: StopTask, which does not wait for the goroutine, may
    come between.  The task function is any relation on its data.  A ticker that has been stopped delivers no tick (Go 1.23). *)
From S2P Require Import Prelude.

Section tasks.
Context {Data : Type} (no_data : Data).

(** Where the goroutine of a task is. *)
Inductive TaskState :=
  | Selecting    (* select on Stopper and Ticker.C *)
  | Ticked       (* a tick was received, TaskFunc is not called yet *)
  | Running      (* inside TaskFunc *)
  | Sleeping     (* time.Sleep(ct.Interval) after a long run *)
  | Exited.
#[export] Instance TaskState_eq_dec : EqDecision TaskState.
Proof. solve_decision. Defined.

Record CloudTask := {
  ct_Name : string;
  ct_Interval : Z;
  ct_Ticking : bool;          (* Ticker, running *)
  ct_StopperClosed : bool;    (* Stopper *)
  ct_FuncData : Data;
  ct_State : TaskState;
}.

(** The registry and the heap; [tk_panic]: a closed Stopper has been closed. *)
Record Tasks := {
  tk_CloudTasks : gmap string nat;
  tk_heap : gmap nat CloudTask;
  tk_next : nat;
  tk_panic : bool;
}.

Definition set_heap (heap : gmap nat CloudTask) (x : Tasks) : Tasks :=
  {| tk_CloudTasks := tk_CloudTasks x; tk_heap := heap; tk_next := tk_next x;
     tk_panic := tk_panic x |}.
Definition set_State (st : TaskState) (ct : CloudTask) : CloudTask :=
  {| ct_Name := ct_Name ct; ct_Interval := ct_Interval ct; ct_Ticking := ct_Ticking ct;
     ct_StopperClosed := ct_StopperClosed ct; ct_FuncData := ct_FuncData ct; ct_State := st |}.
Definition set_FuncData (d : Data) (ct : CloudTask) : CloudTask :=
  {| ct_Name := ct_Name ct; ct_Interval := ct_Interval ct; ct_Ticking := ct_Ticking ct;
     ct_StopperClosed := ct_StopperClosed ct; ct_FuncData := d; ct_State := ct_State ct |}.

Definition StartTask (taskName : string) (interval : Z) (x : Tasks) : Tasks :=
  match tk_CloudTasks x !! taskName with
  | Some _ => x
  | None =>
      let ct := {| ct_Name := taskName; ct_Interval := interval; ct_Ticking := true;
                   ct_StopperClosed := false; ct_FuncData := no_data;
                   ct_State := Selecting |} in
      {| tk_CloudTasks := <[taskName := tk_next x]> (tk_CloudTasks x);
         tk_heap := <[tk_next x := ct]> (tk_heap x);
         tk_next := S (tk_next x);
         tk_panic := tk_panic x |}
  end.

(** [ct.stop()]; the receive from the closed Stopper returns at once. *)
Definition stop (id : nat) (ct : CloudTask) (x : Tasks) : Tasks :=
  {| tk_CloudTasks := tk_CloudTasks x;
     tk_heap := <[id := {| ct_Name := ct_Name ct; ct_Interval := ct_Interval ct;
                           ct_Ticking := false; ct_StopperClosed := true;
                           ct_FuncData := ct_FuncData ct; ct_State := ct_State ct |}]>
                  (tk_heap x);
     tk_next := tk_next x;
     tk_panic := tk_panic x || ct_StopperClosed ct |}.

Definition StopTask (taskName : string) (x : Tasks) : Tasks :=
  match tk_CloudTasks x !! taskName with
  | None => x
  | Some id =>
      let x := match tk_heap x !! id with Some ct => stop id ct x | None => x end in
      {| tk_CloudTasks := delete taskName (tk_CloudTasks x); tk_heap := tk_heap x;
         tk_next := tk_next x; tk_panic := tk_panic x |}
  end.

(** [TaskFunc] of the task named [taskName], on its data. *)
Context (TaskFunc : string → Data → Data → Prop).

(** [maxTaskRunDuration] *)
Definition maxTaskRunDuration (ct : CloudTask) : Z := Z.quot (ct_Interval ct) 2.

(** One step of the goroutine of a task, [run]. *)
Inductive run_task (ct : CloudTask) : CloudTask → Prop :=
  | run_stopper :
      ct_State ct = Selecting → ct_StopperClosed ct = true →
      run_task ct (set_State Exited ct)
  | run_tick :
      ct_State ct = Selecting → ct_Ticking ct = true →
      run_task ct (set_State Ticked ct)
  | run_start :
      ct_State ct = Ticked → run_task ct (set_State Running ct)
  | run_func data taskRunDuration :
      ct_State ct = Running → TaskFunc (ct_Name ct) (ct_FuncData ct) data →
      run_task ct
        (set_State (if (maxTaskRunDuration ct <? taskRunDuration)%Z then Sleeping else Selecting)
           (set_FuncData data ct))
  | run_slept :
      ct_State ct = Sleeping → run_task ct (set_State Selecting ct).

(** Steps of the goroutine, one after the other. *)
Fixpoint task_path (ct : CloudTask) (steps : list CloudTask) : Prop :=
  match steps with
  | [] => True
  | ct' :: steps => run_task ct ct' ∧ task_path ct' steps
  end.
(** The steps that start [TaskFunc]. *)
Definition starts (steps : list CloudTask) : nat :=
  length (filter (λ ct, ct_State ct = Running) steps).

Inductive task_step : Tasks → Tasks → Prop :=
  | step_start name interval x : task_step x (StartTask name interval x)
  | step_stop name x : task_step x (StopTask name x)
  | step_task id ct ct' x :
      tk_heap x !! id = Some ct → run_task ct ct' →
      task_step x (set_heap (<[id := ct']> (tk_heap x)) x).

Definition no_tasks : Tasks :=
  {| tk_CloudTasks := ∅; tk_heap := ∅; tk_next := 0; tk_panic := false |}.

Inductive tasks_reachable : Tasks → Prop :=
  | tasks_initial : tasks_reachable no_tasks
  | tasks_step x y : tasks_reachable x → task_step x y → tasks_reachable y.

(** ** The invariant *)

(** A goroutine lives until its Stopper is closed, which also stops its
    ticker. *)
Definition task_ok (ct : CloudTask) : Prop :=
  ct_Ticking ct = negb (ct_StopperClosed ct) ∧
  (ct_State ct = Exited → ct_StopperClosed ct = true).

Record tasks_ok (x : Tasks) : Prop := {
  ok_panic : tk_panic x = false;
  ok_next : ∀ id, is_Some (tk_heap x !! id) → id < tk_next x;
  ok_task : ∀ id ct, tk_heap x !! id = Some ct → task_ok ct;
  ok_registered : ∀ name id, tk_CloudTasks x !! name = Some id →
    ∃ ct, tk_heap x !! id = Some ct ∧ ct_Name ct = name ∧ ct_StopperClosed ct = false;
  ok_live : ∀ id ct, tk_heap x !! id = Some ct → ct_StopperClosed ct = false →
    tk_CloudTasks x !! ct_Name ct = Some id;
}.

Lemma run_task_same ct ct' :
  run_task ct ct' →
  ct_Name ct' = ct_Name ct ∧ ct_StopperClosed ct' = ct_StopperClosed ct ∧
  (task_ok ct → task_ok ct').
Proof. unfold task_ok. destruct 1; cbn; try destruct (_ <? _)%Z; cbn; naive_solver. Qed.

(** A goroutine whose task was stopped starts the function only if it has
    received a tick already. *)
Lemma stopped_starts ct steps :
  task_ok ct → ct_StopperClosed ct = true → task_path ct steps →
  starts steps ≤ if decide (ct_State ct = Ticked) then 1 else 0.
Proof.
  revert ct. induction steps as [|ct' steps IH]; intros ct Hok Hclosed; [cbn; lia|].
  intros [Hrun Hpath]. destruct (run_task_same ct ct' Hrun) as (_ & Hclosed' & Hok').
  specialize (IH ct' (Hok' Hok) ltac:(congruence) Hpath). unfold starts in *. rewrite filter_cons.
  destruct Hok as [Htick _]. rewrite Hclosed in Htick. cbn in Htick.
  destruct Hrun as [Hs|Hs Ht|Hs|data d Hs|Hs]; [| congruence | | |]; cbn [ct_State set_State set_FuncData] in *;
    rewrite Hs; try destruct (_ <? _)%Z; repeat case_decide; cbn in *; try done; lia.
Qed.

Lemma start_ok name interval x : tasks_ok x → tasks_ok (StartTask name interval x).
Proof.
  intros Hok. unfold StartTask. destruct (tk_CloudTasks x !! name) as [id|] eqn:Hname; [done|].
  destruct Hok as [Hpanic Hnext Htask Hreg Hlive].
  assert (tk_heap x !! tk_next x = None) as Hfree.
  { destruct (tk_heap x !! tk_next x) eqn:H; [|done].
    specialize (Hnext _ ltac:(by eexists)). lia. }
  split; cbn; [done| | | |].
  - intros id [ct [[<- _]|[_ Hid]]%lookup_insert_Some]; [lia|].
    specialize (Hnext id ltac:(by eexists)). lia.
  - intros id ct [[_ <-]|[_ Hid]]%lookup_insert_Some; [by split|by eapply Htask].
  - intros name' id [[<- <-]|[Hne (ct & Hct & H)%Hreg]]%lookup_insert_Some.
    + eexists. by rewrite lookup_insert_eq.
    + exists ct. rewrite lookup_insert_ne; [done|congruence].
  - intros id ct [[<- <-]|[Hne Hid]]%lookup_insert_Some Hopen; cbn.
    + by rewrite lookup_insert_eq.
    + pose proof (Hlive id ct Hid Hopen). rewrite lookup_insert_ne; [done|congruence].
Qed.

Lemma stop_ok name x : tasks_ok x → tasks_ok (StopTask name x).
Proof.
  intros Hok. unfold StopTask. destruct (tk_CloudTasks x !! name) as [id|] eqn:Hname; [|done].
  destruct Hok as [Hpanic Hnext Htask Hreg Hlive].
  destruct (Hreg name id Hname) as (ct & Hct & Hn & Hopen). rewrite Hct. cbn.
  split; cbn.
  - by rewrite Hpanic, Hopen.
  - intros id' [ct' [[<- _]|[_ Hid]]%lookup_insert_Some]; apply Hnext; by eexists.
  - intros id' ct' [[_ <-]|[_ Hid]]%lookup_insert_Some; [by split|by eapply Htask].
  - intros name' id' [Hne (ct' & Hct' & Hn' & Hopen')%Hreg]%lookup_delete_Some.
    exists ct'. rewrite lookup_insert_ne; [done|]. intros <-. congruence.
  - intros id' ct' [[<- <-]|[Hne Hid]]%lookup_insert_Some Hopen'; [done|].
    pose proof (Hlive id' ct' Hid Hopen'). rewrite lookup_delete_ne; [done|].
    intros Hn'. congruence.
Qed.

Lemma run_ok id ct ct' x :
  tk_heap x !! id = Some ct → run_task ct ct' → tasks_ok x →
  tasks_ok (set_heap (<[id := ct']> (tk_heap x)) x).
Proof.
  intros Hct Hrun [Hpanic Hnext Htask Hreg Hlive].
  destruct (run_task_same ct ct' Hrun) as (Hname & Hclosed & Hok). split; cbn; [done| | | |].
  - intros id' [ct1 [[<- _]|[_ Hid]]%lookup_insert_Some]; apply Hnext; by eexists.
  - intros id' ct1 [[<- <-]|[_ Hid]]%lookup_insert_Some; [|by eapply Htask].
    apply Hok. by eapply Htask.
  - intros name id' (ct1 & Hct1 & Hn & Hopen)%Hreg. destruct (decide (id = id')) as [<-|Hne].
    + exists ct'. rewrite lookup_insert_eq. split_and!; [done|congruence..].
    + exists ct1. by rewrite lookup_insert_ne.
  - intros id' ct1 [[<- <-]|[_ Hid]]%lookup_insert_Some Hopen; [|by apply Hlive].
    rewrite Hname. apply Hlive; congruence.
Qed.

Lemma tasks_reachable_ok x : tasks_reachable x → tasks_ok x.
Proof.
  induction 1 as [|x y _ Hok Hstep].
  { split; cbn; [done| | | |]; intros *; rewrite lookup_empty; [by intros []|done..]. }
  destruct Hstep; [by apply start_ok|by apply stop_ok|by eapply run_ok].
Qed.
End tasks.

(** C32: However starts, stops and the goroutines interleave: no Stopper is closed
    twice; a task function has at most one goroutine that has not been stopped,
    and it is the registered one; a goroutine only exits when it was stopped;
    and one that was stopped starts the task function at most once more, and
    only if it had received a tick before ([stopped_task_starts]: StopTask does
    not wait for it). *)
Theorem tasks_safe {Data} (no_data : Data) TaskFunc (x : @Tasks Data) :
  tasks_reachable no_data TaskFunc x →
  tk_panic x = false ∧
  (∀ id id' ct ct', tk_heap x !! id = Some ct → tk_heap x !! id' = Some ct' →
     ct_StopperClosed ct = false → ct_StopperClosed ct' = false →
     ct_Name ct = ct_Name ct' → id = id') ∧
  (∀ name id, tk_CloudTasks x !! name = Some id ↔
     ∃ ct, tk_heap x !! id = Some ct ∧ ct_Name ct = name ∧ ct_StopperClosed ct = false) ∧
  (∀ id ct, tk_heap x !! id = Some ct → ct_State ct = Exited → ct_StopperClosed ct = true) ∧
  (∀ id ct steps, tk_heap x !! id = Some ct → ct_StopperClosed ct = true →
     task_path TaskFunc ct steps →
     starts steps ≤ if decide (ct_State ct = Ticked) then 1 else 0).
Proof.
  intros Hok%tasks_reachable_ok. split_and!.
  - by apply ok_panic.
  - intros id id' ct ct' Hct Hct' Ho Ho' Hn.
    pose proof (ok_live _ Hok _ _ Hct Ho). pose proof (ok_live _ Hok _ _ Hct' Ho'). congruence.
  - intros name id. split; [by apply ok_registered|].
    intros (ct & Hct & <- & Ho). by apply ok_live.
  - intros id ct Hct. by apply (ok_task _ Hok id ct).
  - intros id ct steps Hct Hc. apply stopped_starts; [by apply (ok_task _ Hok id ct)|done].
Qed.

(** The function is started after StopTask has returned: the goroutine had
    received a tick. *)
Lemma stopped_task_starts :
  ∃ x ct ct', tasks_reachable 0 (λ _ _ _, True) x ∧ tk_CloudTasks x = ∅ ∧
    tk_heap x !! 0 = Some ct ∧ ct_StopperClosed ct = true ∧
    run_task (λ _ _ _, True) ct ct' ∧ ct_State ct' = Running.
Proof.
  set (x0 := StartTask 0 "monitor" 300 no_tasks). set (ct0 := default (Build_CloudTask "" 0 true false 0 Exited) (tk_heap x0 !! 0)).
  set (x1 := set_heap (<[0 := set_State Ticked ct0]> (tk_heap x0)) x0).
  exists (StopTask "monitor" x1). do 2 eexists. split_and!.
  - eapply tasks_step; [|apply step_stop]. eapply tasks_step; [|apply (step_task _ _ 0 ct0)].
    + eapply tasks_step; [apply tasks_initial|apply step_start].
    + by vm_compute.
    + by apply run_tick.
  - by vm_compute.
  - by vm_compute.
  - by vm_compute.
  - by apply run_start.
  - done.
Qed.

(** Started, stopped and started again. *)
Lemma tasks_safe_witness :
  let x := StartTask 0 "monitor" 300 (StopTask "monitor" (StartTask 0 "monitor" 300 no_tasks)) in
  tk_panic x = false ∧ tk_CloudTasks x !! "monitor" = Some 1.
Proof.
  cbv zeta.
  assert (tasks_reachable 0 (λ _ _ _, True) (StartTask 0 "monitor" 300 (StopTask "monitor"
      (StartTask 0 "monitor" 300 no_tasks)))) as Hreach.
  { repeat (eapply tasks_step; [|first [apply step_start|apply step_stop]]).
    apply tasks_initial. }
  destruct (tasks_safe _ _ _ Hreach) as (Hpanic & _ & Hreg & _).
  split; [exact Hpanic|]. apply Hreg. eexists. split; [by vm_compute|by split].
Defined.
