(* ===== verification/MonitorRace.v ===== *)
(** * MonitorRace: the monitor task among the other controllers
    (MonitorLoadBalancers of ibm/ibm_loadbalancer.go, GatherLoadBalancers of
    pkg/vpcctl/vpc_provider.go)

    A run of the monitor task lists the services, then lists the load
    balancers, then deletes the ready ones that no listed service claims.
    Between any two of its calls users and the service controller act: they
    create, change and delete services and load balancers, and time passes.
    The code is the one of [Cloud] and [VpcProvider], run over a [World] whose
    schedule says what happens before each call and whether the call is answered,
    refused, or carried out with its answer lost;
    every schedule is an interleaving, and every interleaving is a schedule.
    A service claims a load balancer name here if it is of the kind the task
    monitors: of type LoadBalancer, without a class, and supported. *)
From S2P Require Import Prelude GoStrings Kube VpcTypes VpcConfig VpcUpdates UpdatePlan VpcSdk.
From S2P Require Import StaticVpc VpcLbaas VpcProvider ProviderProps VpcSdkFake VpcCloud CloudConfig.
From S2P Require Import NodeMetadata Cloud CloudProps.

Open Scope go_scope.

(** The services and load balancers there are, each load balancer with the
    time it was created; when the name of each load balancer was first claimed
    by a service, the IDs given out so far, and what the monitor has deleted,
    with the services there were at that time. *)
Record Cluster := {
  k_time : Z;
  k_services : list Service;
  k_lbs : list (VpcLoadBalancer * Z);
  k_claimed : gmap string Z;
  k_ids : gset string;
  k_deleted : list (VpcLoadBalancer * list Service);
}.

Definition empty_cluster : Cluster :=
  {| k_time := 0; k_services := []; k_lbs := []; k_claimed := ∅; k_ids := ∅; k_deleted := [] |}.

(** What users and controllers do.  A service is created or replaced under its
    UID. *)
Inductive ClusterAct :=
  | Pass (ns : nat)
  | PutService (service : Service)
  | DeleteService (uid : string)
  | PutLoadBalancer (lb : VpcLoadBalancer)
  | ChangeLoadBalancer (lb : VpcLoadBalancer)
  | RemoveLoadBalancer (id : string).

(** How a call of the task is answered: carried out or not, and then also
    carried out with the answer lost. *)
Inductive Answer := Answered | Refused | Lost.
#[export] Instance Answer_eq_dec : EqDecision Answer.
Proof. solve_decision. Defined.
Record Turn := {
  turn_acts : list ClusterAct;
  turn_answer : Answer;
}.

Definition elapsed (acts : list ClusterAct) : Z :=
  foldr (λ a t, match a with Pass ns => Z.of_nat ns + t | _ => t end)%Z 0%Z acts.

Section cluster.
(** A load balancer takes [delay] to get ready. *)
Context (delay : Z) (config : CloudConfig).

Definition clusterID : string := prov_ClusterID (cc_Prov config).
Definition name_of (service : Service) : string := GenerateLoadBalancerName service clusterID.
Definition claims (name : string) (service : Service) : Prop :=
  monitorable config service ∧ name_of service = name.
#[local] Instance claims_dec name service : Decision (claims name service).
Proof. unfold claims. apply _. Defined.
Definition claimed (name : string) (services : list Service) : Prop :=
  Exists (claims name) services.
#[local] Instance claimed_dec name services : Decision (claimed name services).
Proof. unfold claimed. apply _. Defined.

(** A service may claim any name, also one that was claimed before. *)
Definition put_service (service : Service) (k : Cluster) : Cluster :=
  let name := name_of service in
  {| k_time := k_time k;
     k_services := service :: filter (λ s, svc_UID s ≠ svc_UID service) (k_services k);
     k_lbs := k_lbs k;
     k_claimed :=
       if decide (monitorable config service ∧ k_claimed k !! name = None)
       then <[name := k_time k]> (k_claimed k) else k_claimed k;
     k_ids := k_ids k; k_deleted := k_deleted k |}.

Definition set_lbs (lbs : list (VpcLoadBalancer * Z)) (ids : gset string)
    (deleted : list (VpcLoadBalancer * list Service)) (k : Cluster) : Cluster :=
  {| k_time := k_time k; k_services := k_services k; k_lbs := lbs; k_claimed := k_claimed k;
     k_ids := ids; k_deleted := deleted |}.

(** A load balancer of this cluster is created for a service there is or was,
    with a new ID and a name that none has, and is not ready before [delay] has
    passed.  An act that is not possible does not happen. *)
Definition put_lb (lb : VpcLoadBalancer) (k : Cluster) : Cluster :=
  if decide (IsReady lb = false ∧ (lb_ID lb ∉ k_ids k) ∧
             Forall (λ x, lb_Name x.1 ≠ lb_Name lb) (k_lbs k) ∧
             (in_cluster clusterID lb → is_Some (k_claimed k !! lb_Name lb)))
  then set_lbs ((lb, k_time k) :: k_lbs k) ({[lb_ID lb]} ∪ k_ids k) (k_deleted k) k
  else k.

(** A load balancer keeps its ID and its name. *)
Definition change_lb (lb : VpcLoadBalancer) (k : Cluster) : Cluster :=
  set_lbs ((λ x, if decide (lb_ID x.1 = lb_ID lb ∧ lb_Name x.1 = lb_Name lb ∧
                            (IsReady lb = true → (x.2 + delay ≤ k_time k)%Z))
                 then (lb, x.2) else x) <$> k_lbs k) (k_ids k) (k_deleted k) k.

Definition remove_lb (id : string) (k : Cluster) : Cluster :=
  set_lbs (filter (λ x, lb_ID x.1 ≠ id) (k_lbs k)) (k_ids k) (k_deleted k) k.

Definition cluster_act (k : Cluster) (a : ClusterAct) : Cluster :=
  match a with
  | Pass ns =>
      {| k_time := k_time k + Z.of_nat ns; k_services := k_services k; k_lbs := k_lbs k;
         k_claimed := k_claimed k; k_ids := k_ids k; k_deleted := k_deleted k |}
  | PutService service => put_service service k
  | DeleteService uid =>
      {| k_time := k_time k; k_services := filter (λ s, svc_UID s ≠ uid) (k_services k);
         k_lbs := k_lbs k; k_claimed := k_claimed k; k_ids := k_ids k;
         k_deleted := k_deleted k |}
  | PutLoadBalancer lb => put_lb lb k
  | ChangeLoadBalancer lb => change_lb lb k
  | RemoveLoadBalancer id => remove_lb id k
  end.
Definition cluster_acts (acts : list ClusterAct) (k : Cluster) : Cluster :=
  foldl cluster_act k acts.

(** ** The world of the monitor task *)

(** The cluster, and the calls to come. *)
Definition World : Type := Cluster * list Turn.

(** What happens before the next call, and how that one is answered. *)
Definition others : World → World := λ '(k, schedule),
  match schedule with
  | [] => (k, [])
  | turn :: schedule => (cluster_acts (turn_acts turn) k, schedule)
  end.
Definition answer (w : World) : Answer :=
  match w.2 with [] => Answered | turn :: _ => turn_answer turn end.

Definition listed {A} (f : Cluster → A) : M World A := λ w,
  (match answer w with
   | Answered => Ok (f (others w).1)
   | _ => Err (ErrorString "timeout")
   end, others w).
Definition raced_kube : KubeServices World := listed k_services.

(** The monitor's deletion is recorded with the services there are. *)
Definition raced_delete (id : string) : M World unit := λ w,
  let '(k, schedule) := others w in
  match answer w, filter (λ x, lb_ID x.1 = id) (k_lbs k) with
  | Refused, _ => (Err (ErrorString "timeout"), (k, schedule))
  | _, [] => (Err (ErrorString "not found"), (k, schedule))
  | a, (lb, _) :: _ =>
      let k' := remove_lb id k in
      (match a with Lost => Err (ErrorString "timeout") | _ => Ok tt end,
       (set_lbs (k_lbs k') (k_ids k') (k_deleted k' ++ [(lb, k_services k')]) k', schedule))
  end.

Definition refused {A} : M World A := fail (ErrorString "not called by the monitor").

Definition RacedSdk : CloudVpcSdk World := {|
  sdk_CreateLoadBalancer _ _ _ _ _ := refused;
  sdk_CreateLoadBalancerListener _ _ _ := refused;
  sdk_CreateLoadBalancerPool _ _ _ _ := refused;
  sdk_CreateLoadBalancerPoolMember _ _ _ _ := refused;
  sdk_DeleteLoadBalancer := raced_delete;
  sdk_DeleteLoadBalancerListener _ _ := refused;
  sdk_DeleteLoadBalancerPool _ _ := refused;
  sdk_DeleteLoadBalancerPoolMember _ _ _ := refused;
  sdk_GetLoadBalancer _ := refused;
  sdk_GetSubnet _ := refused;
  sdk_ListLoadBalancers := listed (λ k, (k_lbs k).*1);
  sdk_ListLoadBalancerListeners _ := refused;
  sdk_ListLoadBalancerPools _ := refused;
  sdk_ListLoadBalancerPoolMembers _ _ := refused;
  sdk_ListSubnets := refused;
  sdk_ReplaceLoadBalancerPoolMembers _ _ _ _ := refused;
  sdk_UpdateLoadBalancerPool _ _ _ _ := refused;
  sdk_written _ w := w;
|}.
(** ** What every act keeps *)

Record wf_cluster (k : Cluster) : Prop := {
  wf_services : ∀ s, s ∈ k_services k → monitorable config s → is_Some (k_claimed k !! name_of s);
  wf_claimed : ∀ n b, k_claimed k !! n = Some b → (b ≤ k_time k)%Z;
  wf_lbs : ∀ lb t, (lb, t) ∈ k_lbs k → lb_ID lb ∈ k_ids k ∧
    (in_cluster clusterID lb → ∃ b, k_claimed k !! lb_Name lb = Some b ∧ (b ≤ t)%Z) ∧
    (IsReady lb = true → (t + delay ≤ k_time k)%Z);
  wf_names : NoDup ((λ x, lb_Name x.1) <$> k_lbs k);
  wf_ids : NoDup ((λ x, lb_ID x.1) <$> k_lbs k);
}.

(** [k'] comes after [k]: a name is claimed for the first time only once, and
    IDs are not used again. *)
Record later (k k' : Cluster) : Prop := {
  later_time : (k_time k ≤ k_time k')%Z;
  later_claimed : k_claimed k ⊆ k_claimed k';
  later_new : ∀ n b, k_claimed k' !! n = Some b →
    k_claimed k !! n = Some b ∨ (k_time k ≤ b)%Z;
  later_ids : k_ids k ⊆ k_ids k';
  later_lbs : ∀ x', x' ∈ k_lbs k' → lb_ID x'.1 ∈ k_ids k →
    ∃ x, x ∈ k_lbs k ∧ lb_ID x.1 = lb_ID x'.1 ∧ lb_Name x.1 = lb_Name x'.1;
}.

#[export] Instance later_preorder : PreOrder later.
Proof.
  split.
  - intros k. split; try done; [by left|]. intros x Hx _. by exists x.
  - intros k1 k2 k3 [T12 C12 N12 I12 L12] [T23 C23 N23 I23 L23]. split.
    + lia.
    + by etrans.
    + intros n b [H|H]%N23; [by apply N12|right; lia].
    + by etrans.
    + intros x3 H3 Hid. destruct (L23 _ H3) as (x2 & H2 & Hid2 & Hn2); [set_solver|].
      destruct (L12 _ H2) as (x1 & ? & ? & ?); [by rewrite Hid2|].
      exists x1. split_and!; congruence.
Qed.

Lemma claimed_filter n (P : Service → Prop) `{!∀ s, Decision (P s)} services :
  claimed n (filter P services) → claimed n services.
Proof.
  unfold claimed. rewrite !Exists_exists. intros (s & [_ Hs]%list_elem_of_filter & Hc).
  by exists s.
Qed.

Lemma set_lbs_later lbs ids deleted k :
  k_ids k ⊆ ids →
  (∀ x', x' ∈ lbs → lb_ID x'.1 ∈ k_ids k →
    ∃ x, x ∈ k_lbs k ∧ lb_ID x.1 = lb_ID x'.1 ∧ lb_Name x.1 = lb_Name x'.1) →
  later k (set_lbs lbs ids deleted k).
Proof. intros ? ?. split; cbn; auto; done. Qed.

Lemma remove_lb_later id k : later k (remove_lb id k).
Proof.
  apply set_lbs_later; [done|]. intros x [_ Hx]%list_elem_of_filter _. by exists x.
Qed.

Lemma cluster_acts_cons a acts k :
  cluster_acts (a :: acts) k = cluster_acts acts (cluster_act k a).
Proof. done. Qed.

Lemma cluster_act_later k a : later k (cluster_act k a).
Proof.
  destruct a as [ns|s|uid|lb|lb|id]; cbn.
  - split; cbn; try done; [lia|by left|]. intros x Hx _. by exists x.
  - unfold put_service. split; cbn; try done.
    + case_decide as Hd; [|done]. apply insert_subseteq, Hd.
    + intros n b. case_decide as Hd; [|by left].
      intros [[<- <-]|[_ ?]]%lookup_insert_Some; [right; lia|by left].
    + intros x Hx _. by exists x.
  - split; cbn; try done; [by left|]. intros x Hx _. by exists x.
  - unfold put_lb. case_decide as H; [|done]. destruct H as (_ & Hid & _).
    apply set_lbs_later; [set_solver|]. intros x [->|Hx]%elem_of_cons Hin; [done|by exists x].
  - apply set_lbs_later; [done|]. intros x' (x & -> & Hx)%list_elem_of_fmap Hin. exists x.
    case_decide as H; [|done]. by destruct H as (? & ? & _).
  - apply remove_lb_later.
Qed.

(** A service claims a name again that was claimed before. *)
Definition reclaims (k : Cluster) (a : ClusterAct) : Prop :=
  match a with
  | PutService s => monitorable config s ∧ ¬ claimed (name_of s) (k_services k) ∧
                    is_Some (k_claimed k !! name_of s)
  | _ => False
  end.
Fixpoint no_reclaim (acts : list ClusterAct) (k : Cluster) : Prop :=
  match acts with
  | [] => True
  | a :: acts => ¬ reclaims k a ∧ no_reclaim acts (cluster_act k a)
  end.

(** Names get claimed only if they never were. *)
Definition claims_kept (k k' : Cluster) : Prop :=
  ∀ n, claimed n (k_services k') → claimed n (k_services k) ∨ k_claimed k !! n = None.

Lemma claims_kept_trans k1 k2 k3 :
  later k1 k2 → claims_kept k1 k2 → claims_kept k2 k3 → claims_kept k1 k3.
Proof.
  intros H12 C12 C23 n [H|H]%C23; [by apply C12|]. right.
  eapply lookup_weaken_None; [exact H|apply H12].
Qed.

Lemma cluster_act_claims k a : ¬ reclaims k a → claims_kept k (cluster_act k a).
Proof.
  intros Hno n. destruct a as [ns|s|uid|lb|lb|id]; cbn; try by left.
  - intros [[Hm Hn]|H%claimed_filter]%Exists_cons; [|by left].
    destruct (decide (claimed n (k_services k))) as [?|Hc]; [by left|right].
    apply eq_None_not_Some. intros Hs. apply Hno. subst n. by split_and!.
  - intros ?%claimed_filter. by left.
  - unfold put_lb. case_decide; by left.
Qed.

Lemma no_reclaim_app acts1 acts2 k :
  no_reclaim (acts1 ++ acts2) k ↔ no_reclaim acts1 k ∧ no_reclaim acts2 (cluster_acts acts1 k).
Proof. revert k. induction acts1 as [|a acts1 IH]; intros k; cbn; [tauto|]. rewrite IH. tauto. Qed.

(** It does not depend on the load balancers. *)
Definition same_claims (k k' : Cluster) : Prop :=
  k_services k = k_services k' ∧ k_claimed k = k_claimed k' ∧ k_time k = k_time k'.
Lemma put_lb_claims lb k : same_claims k (put_lb lb k).
Proof. unfold put_lb. by case_decide. Qed.
Lemma cluster_act_same a k k' :
  same_claims k k' → same_claims (cluster_act k a) (cluster_act k' a).
Proof.
  intros (Hs & Hc & Ht). destruct a as [ns|s|uid|lb|lb|id].
  - split_and!; cbn; congruence.
  - split_and!; cbn; by rewrite ?Hs, ?Hc, ?Ht.
  - split_and!; cbn; congruence.
  - destruct (put_lb_claims lb k) as (? & ? & ?), (put_lb_claims lb k') as (? & ? & ?).
    split_and!; cbn; congruence.
  - by split_and!.
  - by split_and!.
Qed.
Lemma no_reclaim_same acts k k' : same_claims k k' → no_reclaim acts k → no_reclaim acts k'.
Proof.
  revert k k'. induction acts as [|a acts IH]; intros k k' Hsame; cbn; [done|].
  intros [Hno Hacts]. split; [|eapply IH; [by apply cluster_act_same|done]].
  destruct Hsame as (Hs & Hc & _), a; try done. cbn in *. by rewrite <- Hs, <- Hc.
Qed.

Lemma cluster_acts_later acts k : later k (cluster_acts acts k).
Proof.
  revert k. induction acts as [|a acts IH]; intros k; cbn; [done|].
  etrans; [apply cluster_act_later|apply IH].
Qed.

Lemma cluster_acts_claims acts k : no_reclaim acts k → claims_kept k (cluster_acts acts k).
Proof.
  revert k. induction acts as [|a acts IH]; intros k; [by left|]. intros [Hno Hacts].
  rewrite cluster_acts_cons.
  eapply claims_kept_trans; [apply cluster_act_later|by apply cluster_act_claims|by apply IH].
Qed.

Lemma cluster_act_time k a :
  k_time (cluster_act k a) = (k_time k + match a with Pass ns => Z.of_nat ns | _ => 0 end)%Z.
Proof.
  destruct a as [ns|s|uid|lb|lb|id]; cbn; try lia.
  - unfold put_lb. case_decide; cbn; lia.
Qed.
Lemma cluster_acts_time acts k : k_time (cluster_acts acts k) = (k_time k + elapsed acts)%Z.
Proof.
  revert k. induction acts as [|a acts IH]; intros k; [unfold cluster_acts, elapsed; cbn; lia|].
  rewrite cluster_acts_cons, IH, cluster_act_time. unfold elapsed. cbn [foldr]. destruct a; lia.
Qed.

Lemma remove_lb_wf id k : wf_cluster k → wf_cluster (remove_lb id k).
Proof.
  intros [S C L N I]. split; cbn; try done.
  - intros lb t [_ Hx]%list_elem_of_filter. by apply L.
  - eapply sublist_NoDup; [exact N|]. apply fmap_sublist, sublist_filter.
  - eapply sublist_NoDup; [exact I|]. apply fmap_sublist, sublist_filter.
Qed.

Lemma cluster_act_wf k a : wf_cluster k → wf_cluster (cluster_act k a).
Proof.
  intros Hwf. pose proof Hwf as [S C L N I]. destruct a as [ns|s|uid|lb|lb|id]; cbn.
  - split; cbn; try done.
    + intros n b Hb%C. lia.
    + intros lb t Hx. destruct (L _ _ Hx) as (? & ? & Hr). split_and!; try done.
      intros Hready%Hr. lia.
  - unfold put_service. split; cbn; try done.
    + intros s' [->|[_ Hs']%list_elem_of_filter]%elem_of_cons Hm.
      * case_decide as Hd; [by rewrite lookup_insert_eq|].
        destruct (k_claimed k !! name_of s) eqn:Hn; [by eexists|]. by destruct Hd.
      * destruct (S _ Hs' Hm) as [b Hb]. case_decide as Hd; [|by exists b].
        exists b. rewrite lookup_insert_ne; [done|]. intros Heq. destruct Hd. congruence.
    + intros n b. case_decide as Hd; [|by apply C].
      intros [[_ <-]|[_ Hb%C]]%lookup_insert_Some; lia.
    + intros lb t Hx. destruct (L _ _ Hx) as (? & Hb & ?). split_and!; try done.
      intros Hin. destruct (Hb Hin) as (b & Hb' & ?). exists b. case_decide as Hd; [|done].
      rewrite lookup_insert_ne; [done|]. intros Heq. destruct Hd. congruence.
  - split; cbn; try done. intros s [_ Hs]%list_elem_of_filter. by apply S.
  - unfold put_lb. case_decide as H; [|done]. destruct H as (Hr & Hid & Hn & Hc). split; cbn; try done.
    + intros lb' t [[= -> ->]|Hx]%elem_of_cons.
      * split_and!; [set_solver| |by rewrite Hr]. intros [b Hb]%Hc.
        exists b. split; [done|]. by apply C in Hb.
      * destruct (L _ _ Hx) as (? & ? & ?). split_and!; try done. set_solver.
    + constructor; [|done]. intros ((lb', t') & Heq & Hx)%list_elem_of_fmap. cbn in Heq.
      rewrite Forall_forall in Hn. by apply (Hn _ Hx).
    + constructor; [|done]. intros ((lb', t') & Heq & Hx)%list_elem_of_fmap. cbn in Heq.
      apply Hid. rewrite Heq. by destruct (L _ _ Hx).
  - split; cbn; try done.
    + intros lb' t Heq%list_elem_of_fmap. destruct Heq as ([lb0 t0] & Heq & Hx).
      destruct (L _ _ Hx) as (? & Hb & ?). case_decide as Hcond; [|by injection Heq as -> ->].
      injection Heq as -> ->. destruct Hcond as (Hid & Hn & Hr). cbn in *.
      split_and!; [congruence| |done]. unfold in_cluster in *. by rewrite <- Hn.
    + rewrite <- list_fmap_compose. erewrite list_fmap_ext; [exact N|].
      intros i [lb0 t0] _. cbn. case_decide as Hcond; [|done]. by destruct Hcond as (_ & ? & _).
    + rewrite <- list_fmap_compose. erewrite list_fmap_ext; [exact I|].
      intros i [lb0 t0] _. cbn. case_decide as Hcond; [|done]. by destruct Hcond as (? & _).
  - by apply remove_lb_wf.
Qed.
Lemma cluster_acts_wf acts k : wf_cluster k → wf_cluster (cluster_acts acts k).
Proof.
  revert k. induction acts as [|a acts IH]; intros k Hwf; cbn; [done|].
  by apply IH, cluster_act_wf.
Qed.

Lemma empty_cluster_wf : wf_cluster empty_cluster.
Proof. split; cbn; try done; [by intros ? ?%not_elem_of_nil|by intros ? ? ?%not_elem_of_nil|constructor..]. Qed.

(** The heart of the matter: a load balancer that is ready at its listing
    [k2], and whose name no service claimed at the listing of the services
    [k1], less than [delay] before, is claimed by no service as long as no name
    is claimed again. *)
Lemma unclaimed_for_ever k1 acts k3 lb t :
  let k2 := cluster_acts acts k1 in
  wf_cluster k2 → (elapsed acts < delay)%Z → claims_kept k1 k3 →
  (lb, t) ∈ k_lbs k2 → IsReady lb = true → in_cluster clusterID lb →
  ¬ claimed (lb_Name lb) (k_services k1) → ¬ claimed (lb_Name lb) (k_services k3).
Proof.
  intros k2 Hwf Hshort H13 Hlb Hready Hin Hno Hyes.
  destruct (wf_lbs _ Hwf _ _ Hlb) as (_ & Hb & Hr).
  destruct (Hb Hin) as (b & Hclaimed & Hbt). specialize (Hr Hready).
  pose proof (cluster_acts_time acts k1) as Htime. fold k2 in Htime.
  pose proof (cluster_acts_later acts k1) as H12. fold k2 in H12.
  destruct (later_new _ _ H12 _ _ Hclaimed) as [Hold|Hnew]; [|lia].
  destruct (H13 _ Hyes); congruence.
Qed.

(** ** A run of the monitor *)

(** No deletion hit the load balancer of a service the monitor should list. *)
Definition spared (k : Cluster) : Prop :=
  Forall (λ x, ¬ claimed (lb_Name x.1) x.2) (k_deleted k).
Definition gone (id : string) (k : Cluster) : Prop := Forall (λ x, lb_ID x.1 ≠ id) (k_lbs k).

Lemma cluster_acts_deleted acts k : k_deleted (cluster_acts acts k) = k_deleted k.
Proof.
  revert k. induction acts as [|a acts IH]; intros k; [done|]. rewrite cluster_acts_cons, IH.
  destruct a; cbn; try done. unfold put_lb. by case_decide.
Qed.

Lemma others_later w : later w.1 (others w).1.
Proof. destruct w as [k [|acts schedule]]; cbn; [done|apply cluster_acts_later]. Qed.
Lemma others_wf w : wf_cluster w.1 → wf_cluster (others w).1.
Proof. destruct w as [k [|acts schedule]]; cbn; [done|apply cluster_acts_wf]. Qed.
Lemma others_deleted w : k_deleted (others w).1 = k_deleted w.1.
Proof. destruct w as [k [|acts schedule]]; cbn; [done|apply cluster_acts_deleted]. Qed.

(** What happens before the next call. *)
Definition next_acts (w : World) : list ClusterAct :=
  match w.2 with [] => [] | turn :: _ => turn_acts turn end.
Lemma others_next w : (others w).1 = cluster_acts (next_acts w) w.1.
Proof. by destruct w as [k [|turn schedule]]. Qed.

(** The schedule lets no name be claimed again. *)
Definition no_return (w : World) : Prop := no_reclaim (concat (turn_acts <$> w.2)) w.1.

Lemma others_no_return w : no_return w → no_return (others w) ∧ claims_kept w.1 (others w).1.
Proof.
  destruct w as [k [|turn schedule]]; unfold no_return; cbn; [split; [done|by left]|].
  intros [H1 H2]%no_reclaim_app. split; [done|by apply cluster_acts_claims].
Qed.

Lemma gone_later id k k' : id ∈ k_ids k → later k k' → gone id k → gone id k'.
Proof.
  unfold gone. rewrite !Forall_forall. intros Hid H Hgone x' Hx' <-.
  destruct (later_lbs _ _ H _ Hx' Hid) as (x & Hx & Heq & _). exact (Hgone _ Hx Heq).
Qed.

Definition delete_id (w : World) (id : string) : World := (raced_delete id w).2.

Lemma delete_id_cases w id :
  (delete_id w id = others w ∧ (answer w = Refused ∨ gone id (others w).1)) ∨
  ∃ lb t, (delete_id w id).2 = (others w).2 ∧ (lb, t) ∈ k_lbs (others w).1 ∧ lb_ID lb = id ∧
    (delete_id w id).1 =
      let k := remove_lb id (others w).1 in
      set_lbs (k_lbs k) (k_ids k) (k_deleted k ++ [(lb, k_services k)]) k.
Proof.
  unfold delete_id, raced_delete. destruct (others w) as [k schedule]. cbn.
  destruct (decide (answer w = Refused)) as [Hr|Hr]; [rewrite Hr; left; auto|].
  destruct (filter _ (k_lbs k)) as [|[lb t] rest] eqn:Hf.
  - left. split; [by destruct (answer w)|right]. apply Forall_forall. intros x Hx Hid.
    eapply (not_elem_of_nil x). rewrite <- Hf. by apply list_elem_of_filter.
  - assert ((lb, t) ∈ filter (λ x, lb_ID x.1 = id) (k_lbs k)) as Hin by (rewrite Hf; left).
    apply list_elem_of_filter in Hin as [Hid Hin]. right. exists lb, t.
    by destruct (answer w).
Qed.

Lemma delete_id_later w id : later w.1 (delete_id w id).1.
Proof.
  etrans; [apply others_later|].
  destruct (delete_id_cases w id) as [[-> _]|(lb & t & _ & _ & _ & ->)]; [done|].
  etrans; [apply (remove_lb_later id)|]. apply set_lbs_later; [done|]. intros x Hx _. by exists x.
Qed.
Lemma delete_id_gone w id : answer w ≠ Refused → gone id (delete_id w id).1.
Proof.
  intros Ha. destruct (delete_id_cases w id) as [[-> [?|?]]|(lb & t & _ & _ & _ & ->)]; [done..|].
  apply Forall_forall. by intros x [Hx _]%list_elem_of_filter.
Qed.
Lemma delete_id_schedule w id : (delete_id w id).2 = (others w).2.
Proof. by destruct (delete_id_cases w id) as [[-> _]|(lb & t & -> & _)]. Qed.
Lemma delete_id_same w id : same_claims (others w).1 (delete_id w id).1.
Proof. by destruct (delete_id_cases w id) as [[-> _]|(lb & t & _ & _ & _ & ->)]. Qed.
Lemma delete_id_no_return w id :
  no_return w → no_return (delete_id w id) ∧ claims_kept w.1 (delete_id w id).1.
Proof.
  intros [Hno Hkept]%others_no_return. pose proof (delete_id_same w id) as Hsame. split.
  - unfold no_return. rewrite delete_id_schedule. by eapply no_reclaim_same.
  - intros n. unfold claimed. destruct Hsame as (<- & _). apply Hkept.
Qed.

Lemma deletes_later l w : later w.1 (foldl delete_id w l).1.
Proof.
  revert w. induction l as [|id l IH]; intros w; cbn; [done|].
  etrans; [apply delete_id_later|apply IH].
Qed.

(** No call is refused from now on. *)
Definition heard (w : World) : Prop := Forall (λ turn, turn_answer turn ≠ Refused) w.2.
Lemma heard_answer w : heard w → answer w ≠ Refused.
Proof. unfold heard, answer. destruct w as [k [|turn schedule]]; cbn; [done|]. by intros [? _]%Forall_cons. Qed.
Lemma others_heard w : heard w → heard (others w).
Proof. unfold heard. destruct w as [k [|turn schedule]]; cbn; [done|]. by intros [_ ?]%Forall_cons. Qed.

Lemma deletes_gone k l w id :
  id ∈ k_ids k → later k w.1 → heard w → id ∈ l → gone id (foldl delete_id w l).1.
Proof.
  intros Hid. revert w. induction l as [|id' l IH]; intros w Hk Hw; [by intros ?%not_elem_of_nil|].
  intros [<-|Hin]%elem_of_cons; cbn.
  - eapply gone_later; [|apply deletes_later|by apply delete_id_gone, heard_answer].
    pose proof (delete_id_later w id) as Hl. apply later_ids in Hl, Hk. set_solver.
  - apply IH; [|unfold heard; rewrite delete_id_schedule; by apply others_heard|done].
    etrans; [done|apply delete_id_later].
Qed.

(** Deleting load balancers whose names no service claims, until one is claimed
    again. *)
Lemma deletes_spare k1 k2 (lbs : list VpcLoadBalancer) w :
  wf_cluster k2 → later k1 w.1 → claims_kept k1 w.1 → no_return w →
  (∀ lb, lb ∈ lbs → ∃ t, (lb, t) ∈ k_lbs k2) →
  (∀ lb k, lb ∈ lbs → claims_kept k1 k → ¬ claimed (lb_Name lb) (k_services k)) →
  later k2 w.1 → spared w.1 → spared (foldl delete_id w (lb_ID <$> lbs)).1.
Proof.
  intros Hwf Hl1 Hkept Hret Hin Hno. revert w Hl1 Hkept Hret.
  induction lbs as [|lb lbs IH]; intros w Hl1 Hkept Hret Hlater Hspared; cbn; [done|].
  destruct (delete_id_no_return w (lb_ID lb) Hret) as [Hret' Hk'].
  destruct (others_no_return w Hret) as [_ Ho'].
  apply IH.
  - intros lb' Hlb'. apply Hin. by right.
  - intros lb' k Hlb'. apply Hno. by right.
  - etrans; [done|apply delete_id_later].
  - by eapply claims_kept_trans.
  - done.
  - etrans; [done|apply delete_id_later].
  - destruct (Hin lb (list_elem_of_here _ _)) as [t Hlb].
    assert (later k2 (others w).1) as Ho by (etrans; [done|apply others_later]).
    destruct (delete_id_cases w (lb_ID lb)) as [[-> _]|(lb' & t' & _ & Hlb' & Hid & ->)].
    { unfold spared. by rewrite others_deleted. }
    unfold spared. cbn. rewrite others_deleted. apply Forall_app. split; [done|].
    constructor; [|constructor]. cbn.
    destruct (later_lbs _ _ Ho (lb', t') Hlb') as ([lb0 t0] & Hlb0 & Hid0 & Hn0).
    { cbn. rewrite Hid. by destruct (wf_lbs _ Hwf _ _ Hlb). }
    assert ((lb0, t0) = (lb, t)) as Heq.
    { apply (NoDup_key (λ x, lb_ID x.1) (k_lbs k2)); [apply Hwf|done..|]. cbn in *. congruence. }
    injection Heq as -> ->. cbn in Hn0. rewrite <- Hn0.
    apply (Hno lb (others w).1); [left|by eapply claims_kept_trans].
Qed.

Section run.
Context `{!MapIteration} (vpc : CloudVpc World) (Hsdk : cv_Sdk vpc = RacedSdk).

Lemma deletes_run lbMap npMap (l : list (string * VpcLoadBalancer)) e :
  let '(r, e') := forM (λ _ '(_, lb), deleteStale vpc lbMap npMap lb) tt l e in
  r = Ok tt ∧ env_world e' =
    foldl delete_id (env_world e) (lb_ID <$> filter (unclaimed lbMap npMap) l.*2).
Proof.
  revert e. induction l as [|[n lb] l IH]; intros e; cbn [forM]; [done|].
  assert (deleteStale vpc lbMap npMap lb e =
    (Ok tt, if decide (unclaimed lbMap npMap lb)
            then set_world (delete_id (env_world e) (lb_ID lb)) e else e)) as Hone.
  { unfold deleteStale, DeleteLoadBalancer. rewrite Hsdk.
    destruct (IsReady lb) eqn:Hr; cbn [negb].
    2: { rewrite decide_False; [done|intros [? _]; congruence]. }
    rewrite <- bool_decide_and. destruct (decide (unclaimed lbMap npMap lb)) as [(_ & Hno)|Hno].
    - rewrite bool_decide_eq_true_2 by done. unfold attempt, sdk, mbind, M_bind, delete_id. cbn.
      unfold raced_delete. destruct (others (env_world e)) as [k s].
      destruct (filter (λ x : VpcLoadBalancer * Z, lb_ID x.1 = lb_ID lb) (k_lbs k)) as [|[lb' t] rest];
        by destruct (answer (env_world e)).
    - rewrite bool_decide_eq_false_2; [done|]. intros ?. by apply Hno. }
  rewrite (run_Ok _ _ _ _ _ Hone). cbn [fmap list_fmap snd]. rewrite filter_cons.
  case_decide; cbn [fmap list_fmap foldl]; apply IH.
Qed.

Lemma record_world ev : keeps (@env_world World) (if cv_Recorder vpc then record_event ev else mret tt).
Proof. destruct (cv_Recorder vpc); by intros e r e' [= _ <-]. Qed.
Lemma monitorService_world vpcMap status entry :
  keeps (@env_world World) (monitorService vpc vpcMap status entry).
Proof.
  destruct entry as [lbName service]. unfold monitorService, recordServiceWarningEvent.
  unfold recordServiceNormalEvent.
  repeat first [ apply record_world | apply keeps_ret
               | apply keeps_bind; [|intros ?] | case_match | progress cbv zeta ].
Qed.

(** What a run of the monitor leaves of the world: others act, the load
    balancers are listed, the stale ones are deleted in the order of the map. *)
Lemma monitor_run services status e :
  env_world (MonitorLoadBalancers vpc (Some services) status e).2 =
    let w := others (env_world e) in
    let vpcMap := makeVpcMap (cfg_ClusterID (cv_Config vpc)) (k_lbs w.1).*1 in
    if decide (answer (env_world e) = Answered) then
      foldl delete_id w (lb_ID <$> filter (stale vpc services) (range_map (env_draws e) vpcMap).*2)
    else w.
Proof.
  unfold MonitorLoadBalancers, GatherLoadBalancers. cbv zeta. rewrite Hsdk.
  case_decide as Hanswer; cycle 1.
  { unfold attempt, sdk, mbind, M_bind. cbn. unfold listed.
    by destruct (answer (env_world e)) eqn:Ha; [done|..]. }
  set (vpcMap := makeVpcMap _ _). set (lbMap := makeServiceMap _ ServiceTypeLoadBalancer services).
  set (npMap := makeServiceMap _ ServiceTypeNodePort services).
  set (e1 := set_world (others (env_world e)) e).
  set (e2 := {| env_world := env_world e1; env_events := env_events e1;
                env_draws := S (env_draws e1) |}).
  pose proof (deletes_run lbMap npMap (range_map (env_draws e) vpcMap) e2) as Hdel.
  destruct (forM _ tt _ e2) as [r e3] eqn:Hrun. destruct Hdel as [-> Hdel].
  assert (attempt (lbs ← sdk (@sdk_ListLoadBalancers _ RacedSdk);
      let clusterID := cfg_ClusterID (cv_Config vpc) in
      let vpcMap := makeVpcMap clusterID lbs in
      let lbMap := makeServiceMap clusterID ServiceTypeLoadBalancer services in
      let npMap := makeServiceMap clusterID ServiceTypeNodePort services in
      d ← draw;
      _ ← forM (λ _ '(_, lb), deleteStale vpc lbMap npMap lb) tt (range_map d vpcMap);
      mret (lbMap, vpcMap)) e = (Ok (inl (lbMap, vpcMap)), e3)) as Hgather.
  { unfold attempt. unfold mbind at 1, M_bind at 1. unfold sdk. cbn. unfold listed. rewrite Hanswer.
    change (makeVpcMap _ _) with vpcMap. unfold mbind at 1, M_bind at 1. cbn.
    unfold mbind at 1, M_bind at 1. fold lbMap npMap.
    change ({| env_world := _; env_events := _; env_draws := S _ |}) with e2.
    by rewrite Hrun. }
  rewrite (run_Ok _ _ _ _ _ Hgather). transitivity (env_world e3); [|exact Hdel].
  destruct ((draw ≫= _) e3) as [r e4] eqn:Hloop. cbn.
  eapply (keeps_bind (@env_world World) draw); [|intros d; apply keeps_forM|exact Hloop].
  - by intros ? ? ? [= _ <-].
  - intros. apply monitorService_world.
Qed.
End run.

(** What the code takes as stale, among the services the filter keeps. *)
Lemma stale_iff (vpc : CloudVpc World) services lb :
  cfg_ClusterID (cv_Config vpc) = clusterID →
  stale vpc (filterLoadBalancersFromServiceList config services) lb ↔
  IsReady lb = true ∧ ¬ claimed (lb_Name lb) services.
Proof.
  intros Hid. unfold stale, unclaimed. rewrite Hid, filterLoadBalancersFromServiceList_filter.
  rewrite !makeServiceMap_lookup, !last_filter_None. unfold claimed. rewrite Exists_exists. split.
  - intros (Hr & Hlb & _). split; [done|]. intros (s & Hs & Hm & Hn).
    eapply (Hlb s); [by apply list_elem_of_filter|]. split; [apply Hm|done].
  - intros [Hr Hno]. split_and!; [done|..]; intros s [Hm Hs]%list_elem_of_filter [Hk Hn].
    + apply Hno. by exists s.
    + destruct Hm as (Hm & _). rewrite Hm in Hk. done.
Qed.

(** The load balancers of the cluster, as the code gathers them. *)
Lemma vpcMap_elem `{!MapIteration} k d lb :
  wf_cluster k →
  lb ∈ (range_map d (makeVpcMap clusterID (k_lbs k).*1)).*2 ↔
  in_cluster clusterID lb ∧ ∃ t, (lb, t) ∈ k_lbs k.
Proof.
  intros Hwf. rewrite list_elem_of_fmap. split.
  - intros ([n lb'] & -> & Hin%elem_of_range_map). rewrite makeVpcMap_lookup in Hin.
    apply last_filter_Some in Hin as [[Hc _] Hin]. split; [done|].
    apply list_elem_of_fmap in Hin as ([? t] & -> & Hx). by exists t.
  - intros (Hc & t & Hx). exists (lb_Name lb, lb). split; [done|].
    apply elem_of_range_map. rewrite makeVpcMap_lookup.
    destruct (last (filter _ _)) as [lb'|] eqn:Hlast.
    + apply last_filter_Some in Hlast as [[_ Hn] Hin]. f_equal.
      apply list_elem_of_fmap in Hin as ([lb0 t0] & -> & Hx0). cbn in *.
      assert ((lb0, t0) = (lb, t)) as Heq; [|congruence].
      by apply (NoDup_key (λ x, lb_Name x.1) (k_lbs k)); [apply Hwf|..].
    + apply last_filter_None with (x := lb) in Hlast; [by destruct Hlast|].
      by apply (list_elem_of_fmap_2 fst _ (lb, t)).
Qed.

Section task.
Context `{!MapIteration} `{!Os World} `{!MockHeap World} (provider : ConfigVpc → M World (ConfigVpc * CloudVpcSdk World)).

(** The world after a run of the monitor task. *)
Lemma task_run c vpc data (p : Process World) :
  cl_Config c = config → Cloud_isProviderVpc config = true → ps_vpc p = Some vpc →
  cv_Sdk vpc = RacedSdk →
  let w := others (env_world (ps_env p)) in
  let services := filterLoadBalancersFromServiceList config (k_services w.1) in
  env_world (ps_env (Cloud_MonitorLoadBalancers (KubeServices0 := raced_kube) provider c data p).2) =
    if decide (answer (env_world (ps_env p)) ≠ Answered ∨ services = []) then w
    else
      let w2 := others w in
      let vpcMap := makeVpcMap (cfg_ClusterID (cv_Config vpc)) (k_lbs w2.1).*1 in
      if decide (answer w = Answered) then
        foldl delete_id w2
          (lb_ID <$> filter (stale vpc services) (range_map (env_draws (ps_env p)) vpcMap).*2)
      else w2.
Proof.
  intros <- Hvpc Hps Hsdk w services. unfold Cloud_MonitorLoadBalancers.
  set (p1 := {| ps_env := set_world w (ps_env p); ps_vpc := ps_vpc p; ps_chan := ps_chan p |}).
  destruct (decide (answer (env_world (ps_env p)) = Answered)) as [Ha|Ha]; cycle 1.
  { rewrite decide_True by by left. unfold attempt, in_world, in_env, sdk, mbind, M_bind.
    unfold kube_ListServices, raced_kube, listed.
    by destruct (answer (env_world (ps_env p))). }
  assert (attempt (in_world (kube_ListServices (KubeServices := raced_kube))) p =
    (Ok (inl (k_services w.1)), p1)) as Hlist.
  { unfold attempt, in_world, in_env, sdk, kube_ListServices, raced_kube, listed. by rewrite Ha. }
  rewrite (run_Ok _ _ _ _ _ Hlist), Hvpc. fold services. unfold VpcMonitorLoadBalancers.
  destruct services as [|s l] eqn:Hs; [rewrite decide_True by auto; done|].
  rewrite decide_False by (intros [?|?]; done). unfold shouldPrivate.
  assert (∀ private, attempt (InitCloudVpc provider (cl_Config c) private) p1 = (Ok (inl vpc), p1))
    as Hinit.
  { intros private. unfold attempt, InitCloudVpc.
    assert (GetCloudVpc p1 = (Ok (Some vpc), p1)) as Hget by (unfold GetCloudVpc, gets; cbn; by rewrite Hps).
    by rewrite (run_Ok _ _ _ _ _ Hget). }
  unfold mbind at 1, M_bind at 1. cbn [gets]. unfold mbind at 1, M_bind at 1. rewrite Hinit.
  unfold in_env. pose proof (monitor_run vpc Hsdk (s :: l) data (ps_env p1)) as Hrun.
  destruct (MonitorLoadBalancers vpc (Some (s :: l)) data (ps_env p1)) as [r e]. exact Hrun.
Qed.
End task.
End cluster.

(** C17: what the monitor task may delete while users and controllers act
    between its calls, and its listings and deletions may fail or lose their
    answers.  It deletes no load balancer whose name is, at that time, claimed
    by a service of the kind it monitors - of type LoadBalancer, without a
    class, supported; the load balancer of any other service, such as a
    NodePort service, it does delete - if two things hold: a load balancer takes
    longer to get ready than passes between the task's two listings; and, once
    it has listed the services, no service claims a name that was claimed
    before and is claimed no longer, as one does that is turned into another
    type and back ([monitor_race] and [monitor_return] show what happens
    otherwise).  And it deletes what is stale: if both listings are answered,
    no deletion is refused and it lists any service, each load balancer of this
    cluster that was listed as ready and had no such service when the services
    were listed is gone when the task ends.  This holds from every state that
    the cluster can reach. *)
Theorem monitor_race_free `{!MapIteration} `{!Os World} `{!MockHeap World} provider (delay : Z) (c : Cloud)
    (vpc : CloudVpc World) data (p : Process World) history schedule :
  let config := cl_Config c in
  Cloud_isProviderVpc config = true → ps_vpc p = Some vpc →
  cv_Sdk vpc = RacedSdk delay config → cfg_ClusterID (cv_Config vpc) = clusterID config →
  env_world (ps_env p) = (cluster_acts delay config history empty_cluster, schedule) →
  let w := env_world (ps_env p) in
  let w1 := others delay config w in
  let w2 := others delay config w1 in
  (elapsed (next_acts w1) < delay)%Z → no_return delay config w1 →
  let w' := env_world (ps_env (Cloud_MonitorLoadBalancers
              (KubeServices0 := raced_kube delay config) provider c data p).2) in
  spared config w'.1 ∧
  (answer w = Answered → answer w1 = Answered → heard w2 →
   Exists (monitorable config) (k_services w1.1) → ∀ lb t,
     (lb, t) ∈ k_lbs w2.1 → IsReady lb = true → in_cluster (clusterID config) lb →
     ¬ claimed config (lb_Name lb) (k_services w1.1) → gone (lb_ID lb) w'.1).
Proof.
  intros config Hvpc Hps Hsdk Hid Hworld w w1 w2 Hshort Hret w'.
  pose proof (task_run delay config provider c vpc data p eq_refl Hvpc Hps Hsdk) as Hrun.
  fold w' in Hrun. cbv zeta in Hrun. fold w in Hrun. fold w1 in Hrun. fold w2 in Hrun.
  assert (wf_cluster delay config w.1) as Hwf0.
  { unfold w. rewrite Hworld. apply cluster_acts_wf, empty_cluster_wf. }
  assert (wf_cluster delay config w1.1) as Hwf1 by by apply others_wf.
  assert (wf_cluster delay config w2.1) as Hwf2 by by apply others_wf.
  assert (k_deleted w.1 = []) as Hnone.
  { unfold w. rewrite Hworld. cbn. by rewrite cluster_acts_deleted. }
  assert (spared config w1.1 ∧ spared config w2.1) as [Hspared1 Hspared2].
  { unfold spared, w2, w1. rewrite !others_deleted, Hnone. split; constructor. }
  destruct (others_no_return delay config w1 Hret) as [Hret2 Hkept2]. fold w2 in Hret2, Hkept2.
  assert (∀ lb, lb ∈ filter (stale vpc (filterLoadBalancersFromServiceList config (k_services w1.1)))
      (range_map (env_draws (ps_env p))
         (makeVpcMap (cfg_ClusterID (cv_Config vpc)) (k_lbs w2.1).*1)).*2 ↔
    (IsReady lb = true ∧ ¬ claimed config (lb_Name lb) (k_services w1.1)) ∧
    in_cluster (clusterID config) lb ∧ ∃ t, (lb, t) ∈ k_lbs w2.1) as Hstale.
  { intros lb. rewrite list_elem_of_filter, (stale_iff config) by done.
    rewrite Hid. by rewrite vpcMap_elem by done. }
  rewrite Hrun. split.
  - case_decide; [done|]. case_decide; [|done].
    apply deletes_spare with (delay := delay) (k1 := w1.1) (k2 := w2.1); try done.
    + apply others_later.
    + intros lb (_ & _ & ?)%Hstale. done.
    + intros lb k ((Hr & Hno) & Hc & t & Hin)%Hstale Hkept. unfold w2 in Hin, Hwf2.
      rewrite others_next in Hin, Hwf2.
      by eapply (unclaimed_for_ever delay config w1.1).
  - intros Ha Ha1 Hheard (s & Hs & Hm)%Exists_exists lb t Hin Hr Hc Hno.
    rewrite decide_False; cycle 1.
    { intros [?|Hnil]; [done|]. apply (not_elem_of_nil s). rewrite <- Hnil.
      rewrite filterLoadBalancersFromServiceList_filter. by apply list_elem_of_filter. }
    rewrite decide_True by done. eapply deletes_gone; [| |done|].
    + by destruct (wf_lbs _ _ _ Hwf2 _ _ Hin).
    + done.
    + apply list_elem_of_fmap_2, Hstale. split_and!; [done..|by exists t].
Qed.

(** ** Examples *)

#[local] Instance world_os : Os World := {|
  os_Getenv _ := λ _, "";
  os_ReadFile _ := mret "key";
|}.
#[local] Instance world_mocks : MockHeap World := no_mocks.
Definition no_provider (c : ConfigVpc) : M World (ConfigVpc * CloudVpcSdk World) := refused.

Definition example_delay : Z := 60.
Definition busy_lb (id name : string) : VpcLoadBalancer :=
  example_lb id name "offline" "create_pending" [] [].
Definition ready_lb (id name : string) : VpcLoadBalancer :=
  example_lb id name "online" "active" [] [].
Definition service_u1 := example_service "u1" [(80, 30303)]%Z ∅.
Definition service_u2 := example_service "u2" [(80, 30304)]%Z ∅.

Definition turn (acts : list ClusterAct) : Turn := {| turn_acts := acts; turn_answer := Answered |}.

(** Two services with their load balancers, the second deleted without its
    load balancer. *)
Definition example_history : list ClusterAct :=
  [PutService service_u1; PutLoadBalancer (busy_lb "lb1" "kube-cluster-u1");
   PutService service_u2; PutLoadBalancer (busy_lb "lb2" "kube-cluster-u2"); Pass 60;
   ChangeLoadBalancer (ready_lb "lb1" "kube-cluster-u1");
   ChangeLoadBalancer (ready_lb "lb2" "kube-cluster-u2"); DeleteService "u2"].
(** Between the listings a third service appears, with its load balancer. *)
Definition example_between (ns : nat) : list ClusterAct :=
  [PutService (example_service "u3" [(80, 30305)]%Z ∅);
   PutLoadBalancer (busy_lb "lb3" "kube-cluster-u3"); Pass ns;
   ChangeLoadBalancer (ready_lb "lb3" "kube-cluster-u3")].

Definition example_vpc : CloudVpc World :=
  {| cv_Config := example_config; cv_Sdk := RacedSdk example_delay (cl_Config example_Cloud);
     cv_Recorder := true |}.
Definition example_start (history : list ClusterAct) (schedule : list Turn)
    : Process World :=
  {| ps_env :=
       {| env_world :=
            (cluster_acts example_delay (cl_Config example_Cloud) history empty_cluster, schedule);
          env_events := []; env_draws := 0 |};
     ps_vpc := Some example_vpc; ps_chan := false |}.
Definition example_run (history : list ClusterAct) (schedule : list Turn) : Cluster :=
  (env_world (ps_env (Cloud_MonitorLoadBalancers (H := key_order)
     (KubeServices0 := raced_kube example_delay (cl_Config example_Cloud)) no_provider
     example_Cloud ∅ (example_start history schedule)).2)).1.

(** The last deletion loses its answer. *)
Lemma monitor_race_free_witness :
  let schedule := [turn []; turn (example_between 59);
                   {| turn_acts := [DeleteService "u1"]; turn_answer := Lost |}] in
  let k := example_run example_history schedule in
  spared (cl_Config example_Cloud) k ∧ gone "lb2" k ∧ (lb_ID ∘ fst) <$> k_deleted k = ["lb2"].
Proof.
  intros schedule k.
  assert (no_return example_delay (cl_Config example_Cloud)
    (others example_delay (cl_Config example_Cloud)
       (env_world (ps_env (example_start example_history schedule))))) as Hret.
  { repeat (split; [first [by intros (_ & _ & [? Hx]); vm_compute in Hx; discriminate Hx
                          |intros []]|]).
    exact I. }
  destruct (monitor_race_free (H := key_order) no_provider example_delay example_Cloud example_vpc ∅
    (example_start example_history schedule) example_history schedule
    eq_refl eq_refl eq_refl eq_refl eq_refl eq_refl Hret) as [H1 H2].
  split; [exact H1|]. split; [|by vm_compute].
  apply (H2 eq_refl eq_refl) with (lb := ready_lb "lb2" "kube-cluster-u2") (t := 0%Z).
  - constructor; [discriminate|constructor].
  - by_decision.
  - by_decision.
  - reflexivity.
  - by_decision.
  - by_decision.
Defined.

(** If it gets ready before the second listing, the load balancer of a service
    created between the two listings is deleted. *)
Lemma monitor_race :
  let k := example_run example_history [turn []; turn (example_between 60)] in
  (∃ services, (ready_lb "lb3" "kube-cluster-u3", services) ∈ k_deleted k ∧
     claimed (cl_Config example_Cloud) "kube-cluster-u3" services) ∧
  claimed (cl_Config example_Cloud) "kube-cluster-u3" (k_services k) ∧ gone "lb3" k.
Proof.
  cbv zeta. split_and!; [|by_decision..].
  exists [example_service "u3" [(80, 30305)]%Z ∅; service_u1]. by_decision.
Qed.

(** So is the load balancer of a service that is turned into a NodePort service
    when the services are listed, and back before the deletion. *)
Lemma monitor_return :
  let k := example_run (firstn 7 example_history)
             [turn [PutService node_port_service]; turn []; turn [PutService service_u2]] in
  ∃ services, (ready_lb "lb2" "kube-cluster-u2", services) ∈ k_deleted k ∧
    claimed (cl_Config example_Cloud) "kube-cluster-u2" services.
Proof. exists [service_u2; service_u1]. split; by_decision. Qed.

(** And once no service is left to monitor, a stale load balancer stays: the
    task does not get to its gathering. *)
Lemma monitor_leaves_last_stale :
  let k := example_run (example_history ++ [DeleteService "u1"]) [] in
  k_services k = [] ∧ (lb_ID ∘ fst) <$> k_lbs k = ["lb2"; "lb1"] ∧ k_deleted k = [].
Proof. by vm_compute. Qed.
