(* ===== verification/CloudInterface.v ===== *)
(** * CloudInterface: what the framework asks the cloud provider
    (ibm/ibm_instances.go, ibm_zones.go, ibm_clusters.go, ibm_routes.go,
    LoadBalancer of ibm_loadbalancer.go, the constructor of the event recorder,
    vpcGetServiceDetails of ibm_vpc_cloud.go)

    An accessor of cloudprovider.Interface returns an implementation, or nil,
    and whether the interface is supported.  [cloudprovider.NotImplemented] is
    an error of the framework and an argument here.  The interfaces with a
    behaviour of their own are in NodeMetadata, Cloud and CloudTasks. *)
From S2P Require Import Prelude GoStrings Kube VpcTypes VpcConfig CloudConfig NodeMetadata.
From S2P Require Import Cloud CloudTasks.

Open Scope go_scope.

Definition ProviderName := "ibm".

Section interface.
Context (NotImplemented : error).
Implicit Types (c : Cloud).

Definition Cloud_ProviderName c : string := ProviderName.
Definition Cloud_HasClusterID c : bool := true.
Definition Cloud_Initialize c : Cloud := c.

(** ** Which interfaces there are *)

Definition Cloud_Instances c : option Cloud * bool := (None, false).
Definition Cloud_InstancesV2 c : option Cloud * bool := (Some c, true).
Definition Cloud_Zones c : option Cloud * bool := (Some c, true).
Definition Cloud_Clusters c : option Cloud * bool := (None, false).
Definition Cloud_Routes c : option Cloud * bool := (None, false).

(** The name the runtime gives to [MonitorLoadBalancers]. *)
Definition monitorTaskName := "cloud.ibm.com/cloud-provider-ibm/ibm.MonitorLoadBalancers".

(** Answers the interface and makes sure that the monitor task runs, every
    five minutes. *)
Definition Cloud_LoadBalancer {Data} (no_data : Data) c (tasks : @Tasks Data)
    : (option Cloud * bool) * @Tasks Data :=
  ((Some c, true), StartTask no_data monitorTaskName (60 * 1000000000 * 5) tasks).

(** ** Instances: nothing but the InstancesV2 methods is implemented *)

Definition Cloud_NodeAddresses c (name : string) : outcome (list NodeAddress) :=
  Err NotImplemented.
Definition Cloud_NodeAddressesByProviderID c (providerID : string) : outcome (list NodeAddress) :=
  Err NotImplemented.
Definition Cloud_InstanceID c (nodeName : string) : outcome string := Err NotImplemented.
Definition Cloud_InstanceType c (name : string) : outcome string := Err NotImplemented.
Definition Cloud_InstanceTypeByProviderID c (providerID : string) : outcome string :=
  Err NotImplemented.
Definition Cloud_AddSSHKeyToAllInstances c (user keyData : string) : outcome unit :=
  Err NotImplemented.
Definition Cloud_CurrentNodeName c (hostname : string) : outcome string := Err NotImplemented.
Definition Cloud_InstanceExistsByProviderID c (providerID : string) : outcome bool :=
  Err NotImplemented.
Definition Cloud_InstanceShutdownByProviderID c (providerID : string) : outcome bool :=
  Err NotImplemented.

(** An instance is taken to exist, and to run. *)
Definition Cloud_InstanceExists c (node : Node) : outcome bool := Ok true.
Definition Cloud_InstanceShutdown c (node : Node) : outcome bool := Ok false.

(** ** Zones *)

(** Fails, so that the caller goes on with [GetZoneByNodeName]. *)
Definition Cloud_GetZoneByProviderID c (providerID : string) : outcome Zone := Err NotImplemented.
End interface.

(** ** The event recorder *)

(** The event machinery of client-go: a broadcaster copies the events its
    recorders are given to the log and to a sink. *)
Class Broadcasting (W Client Sink Broadcaster EventRecorder : Type) := {
  v1core_Events (client : Client) (namespace : string) : Sink;
  record_NewBroadcaster : W → Broadcaster * W;
  record_StartLogging : Broadcaster → W → W;
  record_StartRecordingToSink : Broadcaster → Sink → W → W;
  record_NewRecorder (broadcaster : Broadcaster) (component : string) : EventRecorder;
}.

Record CloudEventRecorder (EventRecorder : Type) := {
  cer_Name : string;
  cer_Recorder : EventRecorder;
}.
Arguments cer_Name {EventRecorder} c : rename.
Arguments cer_Recorder {EventRecorder} c : rename.
Arguments Build_CloudEventRecorder {EventRecorder}.

Section recorder.
Context {W Client Sink Broadcaster EventRecorder : Type}
  `{!Broadcasting W Client Sink Broadcaster EventRecorder}.

Definition NewCloudEventRecorderV1 (providerName : string) (eventInterface : Sink) (w : W)
    : CloudEventRecorder EventRecorder * W :=
  let name := providerName +:+ "-cloud-provider" in
  let '(broadcaster, w) := record_NewBroadcaster w in
  let w := record_StartLogging broadcaster w in
  let w := record_StartRecordingToSink broadcaster eventInterface w in
  ({| cer_Name := name; cer_Recorder := record_NewRecorder broadcaster name |}, w).

Definition NewCloudEventRecorder (providerName : string) (kubeClient : Client) (w : W)
    : CloudEventRecorder EventRecorder * W :=
  NewCloudEventRecorderV1 providerName (v1core_Events kubeClient "") w.

(** The recorder is one of a broadcaster that was started on the log and on
    the events of all namespaces before, and its events bear its name. *)
Lemma NewCloudEventRecorder_spec providerName kubeClient (w : W) :
  let b := (record_NewBroadcaster w).1 in
  let '(r, w') := NewCloudEventRecorder providerName kubeClient w in
  cer_Name r = providerName +:+ "-cloud-provider" ∧
  cer_Recorder r = record_NewRecorder b (cer_Name r) ∧
  w' = record_StartRecordingToSink b (v1core_Events kubeClient "")
         (record_StartLogging b (record_NewBroadcaster w).2).
Proof.
  unfold NewCloudEventRecorder, NewCloudEventRecorderV1.
  by destruct (record_NewBroadcaster w).
Qed.
End recorder.

(** ** The text of a service in the log *)

(** [%v] of a map of strings: the keys in order. *)
Definition format_map (m : gmap string string) : string :=
  let keys := merge_sort (λ k1 k2, String.leb k1 k2) (elements (dom m)) in
  "map[" +:+ join " " ((λ k, k +:+ ":" +:+ map_get m k) <$> keys) +:+ "]".

Definition vpcGetServiceDetails (service : option Service) : string :=
  match service with
  | None => "<nil>"
  | Some service =>
      let annotations :=
        filter (λ kv, contains kv.1 "ibm-load-balancer-cloud-provider" = true)
          (svc_Annotations service) in
      let ports :=
        (λ port, toLower (sp_Protocol port +:+ "-" +:+ itoa (sp_Port port) +:+ "-" +:+
                          itoa (sp_NodePort port))) <$> spec_Ports (svc_Spec service) in
      let status :=
        (λ ingress, "{Hostname:" +:+ ing_Hostname ingress +:+ " IP:" +:+ ing_IP ingress +:+ "}")
          <$> default [] (lbs_Ingress (svc_LoadBalancer service)) in
      "Name:" +:+ svc_Name service +:+ " NameSpace:" +:+ svc_Namespace service +:+
      " UID:" +:+ svc_UID service +:+ " Annotations:" +:+ format_map annotations +:+
      " Ports:[" +:+ join " " ports +:+ "] ExternalTrafficPolicy:" +:+
      spec_ExternalTrafficPolicy (svc_Spec service) +:+ " HealthCheckNodePort:" +:+
      itoa (spec_HealthCheckNodePort (svc_Spec service)) +:+
      " Status:[" +:+ join " " status +:+ "]"
  end.

Example vpcGetServiceDetails_example :
  vpcGetServiceDetails (Some
    {| svc_Name := "echo"; svc_Namespace := "default"; svc_UID := "u1";
       svc_Annotations :=
         <["service.kubernetes.io/ibm-load-balancer-cloud-provider-zone" := "z1"]>
           (<["owner" := "me"]>
             {["service.kubernetes.io/ibm-load-balancer-cloud-provider-ip-type" := "private"]});
       svc_Spec :=
         {| spec_Ports := [{| sp_Protocol := "TCP"; sp_Port := 80; sp_NodePort := 30303 |}];
            spec_Type := "LoadBalancer"; spec_ExternalTrafficPolicy := "Cluster";
            spec_HealthCheckNodePort := 0; spec_AllocateLoadBalancerNodePorts := None;
            spec_LoadBalancerClass := None |};
       svc_LoadBalancer :=
         {| lbs_Ingress := Some [{| ing_IP := ""; ing_Hostname := "lb.example" |}] |} |}) =
  "Name:echo NameSpace:default UID:u1 Annotations:map[service.kubernetes.io/ibm-load-balancer-cloud-provider-ip-type:private service.kubernetes.io/ibm-load-balancer-cloud-provider-zone:z1] Ports:[tcp-80-30303] ExternalTrafficPolicy:Cluster HealthCheckNodePort:0 Status:[{Hostname:lb.example IP:}]".
Proof. vm_compute. reflexivity. Qed.

(** ** The monitor task *)

(** Asking for the interface again changes nothing, and at any time there is at
    most one goroutine that has not been told to stop and runs the monitor. *)
Lemma Cloud_LoadBalancer_once {Data} (no_data : Data) c tasks :
  let ask x := (Cloud_LoadBalancer no_data c x).2 in
  is_Some (tk_CloudTasks (ask tasks) !! monitorTaskName) ∧ ask (ask tasks) = ask tasks.
Proof.
  cbv zeta. unfold Cloud_LoadBalancer. cbn.
  destruct (tk_CloudTasks tasks !! monitorTaskName) as [id|] eqn:Hid;
    unfold StartTask; rewrite Hid; cbn.
  - by rewrite Hid.
  - by rewrite lookup_insert_eq.
Qed.
