(* ===== verification/Command.v ===== *)
(** * Command: the controller manager command (main.go, ibm/ibm_version.go and
    the registration in init of ibm/ibm.go)

    The framework - its options, configuration, controllers and the command
    line library - is the class [Framework]; so are sets of flags and their
    text.  What the command line library documents is a hypothesis per kind of
    command line ([CommandLine]): flags that cannot be parsed, a request for
    help, or arguments to run with.  A part of the program returns, fails or ends
    the process;
    [klog.Fatalf] ends it with code 255. *)
From S2P Require Import Prelude GoStrings Kube VpcTypes VpcConfig CloudConfig CloudInterface.

Open Scope go_scope.

(** How a part of the program ends. *)
Inductive Ended (A : Type) :=
  | Returns (a : A)
  | Fails (err : error)
  | Exits (code : Z) (message : string).
Arguments Returns {A} a.
Arguments Fails {A} err.
Arguments Exits {A} code message.

(** The world, and the lines written to standard output and error. *)
Record Terminal (W : Type) := {
  tm_world : W;
  tm_stdout : list string;
  tm_stderr : list string;
}.
Arguments tm_world {W} t : rename.
Arguments tm_stdout {W} t : rename.
Arguments tm_stderr {W} t : rename.
Arguments Build_Terminal {W}.

Definition Prog (W A : Type) : Type := Terminal W → Ended A * Terminal W.
#[export] Instance Prog_ret {W} : MRet (Prog W) := λ A a t, (Returns a, t).
#[export] Instance Prog_bind {W} : MBind (Prog W) := λ A B f m t,
  match m t with
  | (Returns a, t') => f a t'
  | (Fails err, t') => (Fails err, t')
  | (Exits code message, t') => (Exits code message, t')
  end.

Record Command (W FlagSet : Type) := {
  cmd_Use : string;
  cmd_Long : string;
  cmd_RunE : list string → Prog W unit;
  cmd_Args : list string → outcome unit;
  cmd_Flags : FlagSet;
  cmd_UsageFunc : Prog W unit;
  cmd_HelpFunc : Prog W unit;
}.
Arguments cmd_Use {W FlagSet} c : rename.
Arguments cmd_Long {W FlagSet} c : rename.
Arguments cmd_RunE {W FlagSet} c args : rename.
Arguments cmd_Args {W FlagSet} c args : rename.
Arguments cmd_Flags {W FlagSet} c : rename.
Arguments cmd_UsageFunc {W FlagSet} c : rename.
Arguments cmd_HelpFunc {W FlagSet} c : rename.

(** k8s.io/cloud-provider, component-base, cobra and pflag.  [Provider] is
    cloudprovider.Interface, [Ctor] a constructor of a controller's init
    function.  [named_FlagSet name f fss]: [f] is done to the set
    [fss.FlagSet(name)], which is there after that. *)
Class Framework (W Options Config Completed Provider Ctor Ctrls FlagSet NamedFlagSets : Type) := {
  options_New : W → outcome Options * W;
  options_setProviderName : string → Options → Options;
  options_Config : Options → list string → list string → gmap string string →
    list string → list string → W → outcome Config * W;
  config_Complete : Config → Completed;
  config_CloudProvider : Completed → string * string;
  app_DefaultInitFuncConstructors : gmap string Ctor;
  app_ControllerNames : gmap string Ctor → list string;
  app_ControllersDisabledByDefault : list string;
  app_ControllerAliases : gmap string string;
  app_AllWebhooks : list string;
  app_DisabledByDefaultWebhooks : list string;
  app_ConstructControllerInitializers : gmap string Ctor → Completed → Provider → Ctrls;
  app_Run : Completed → Provider → Ctrls → W → outcome unit * W;
  cloudprovider_RegisterCloudProvider :
    string → (option string → W → outcome Provider * W) → W → W;
  cloudprovider_InitCloudProvider : string → string → W → outcome (option Provider) * W;
  options_Flags : Options → list string → list string → gmap string string →
    list string → list string → NamedFlagSets;
  named_none : NamedFlagSets;
  named_FlagSet : string → (FlagSet → FlagSet) → NamedFlagSets → NamedFlagSets;
  named_FlagSets : NamedFlagSets → gmap string FlagSet;
  flag_none : FlagSet;
  flag_BoolVar (name : string) (value : bool) (usage : string) : FlagSet → FlagSet;
  flag_AddFlagSet : FlagSet → FlagSet → FlagSet;
  globalflag_AddGlobalFlags (name : string) : FlagSet → FlagSet;
  cobra_UseLine (use : string) (flags : FlagSet) : string;
  term_TerminalSize : W → Z;
  cliflag_PrintSections : NamedFlagSets → Z → string;
  cli_Run : Command W FlagSet → Prog W Z;
}.

Section command.
Context {W Options Config Completed Provider Ctor Ctrls FlagSet NamedFlagSets : Type}
  `{!Framework W Options Config Completed Provider Ctor Ctrls FlagSet NamedFlagSets}
  `{!MapIteration}.
(** The package variables [versionFlag] and [Version] of package ibm. *)
Context (versionFlag : bool) (Version : string).

Definition exit {A} (code : Z) (message : string) : Prog W A := λ t, (Exits code message, t).
Definition klog_Fatalf {A} (message : string) : Prog W A := exit 255 message.
Definition stdout (line : string) : Prog W unit := λ t,
  (Returns tt, {| tm_world := tm_world t; tm_stdout := tm_stdout t ++ [line];
                  tm_stderr := tm_stderr t |}).
Definition stderr (line : string) : Prog W unit := λ t,
  (Returns tt, {| tm_world := tm_world t; tm_stdout := tm_stdout t;
                  tm_stderr := tm_stderr t ++ [line] |}).
(** A call of the framework; the caller looks at the error. *)
Definition call {A} (m : W → outcome A * W) : Prog W (A + error) := λ t,
  let '(r, w) := m (tm_world t) in
  (match r with
   | Ok a => Returns (inl a)
   | Err err => Returns (inr err)
   | Panic why => Exits 2 why
   end, {| tm_world := w; tm_stdout := tm_stdout t; tm_stderr := tm_stderr t |}).
Definition fails {A} (err : error) : Prog W A := λ t, (Fails err, t).

(** [init] of package ibm, run before main. *)
Definition ibm_init (NewCloud : option string → W → outcome Provider * W) : W → W :=
  cloudprovider_RegisterCloudProvider ProviderName (λ config, NewCloud config).

(** The flag sets [versionFlag], which starts as false. *)
Definition AddVersionFlag (fs : FlagSet) : FlagSet :=
  flag_BoolVar "version" false "Print version and exit" fs.

Definition PrintVersionAndExitIfRequested : Prog W unit :=
  if versionFlag then _ ← stdout Version; exit 0 "" else mret tt.

Definition IBMCloudInitializer (config : Completed) : Prog W Provider :=
  let '(name, file) := config_CloudProvider config in
  cloud ← call (cloudprovider_InitCloudProvider name file);
  match cloud with
  | inr err =>
      klog_Fatalf ("IBM Cloud provider could not be initialized: " +:+ error_string err)
  | inl None => klog_Fatalf "IBM Cloud provider is nil"
  | inl (Some cloud) => mret cloud
  end.

(** [RunE] of the command; the flags are printed to the log. *)
Definition command_RunE (s : Options) (cloudInitializer : Completed → Prog W Provider)
    (initFuncConstructor : gmap string Ctor) (args : list string) : Prog W unit :=
  _ ← PrintVersionAndExitIfRequested;
  c ← call (options_Config s (app_ControllerNames initFuncConstructor)
              app_ControllersDisabledByDefault app_ControllerAliases
              app_AllWebhooks app_DisabledByDefaultWebhooks);
  match c with
  | inr err => _ ← stderr (error_string err); fails err
  | inl c =>
      let completedConfig := config_Complete c in
      cloud ← cloudInitializer completedConfig;
      let controllerInitializers :=
        app_ConstructControllerInitializers initFuncConstructor completedConfig cloud in
      r ← call (app_Run completedConfig cloud controllerInitializers);
      match r with
      | inr err => _ ← stderr (error_string err); fails err
      | inl _ => mret tt
      end
  end.

(** [Args] of the command; the list is printed with [%q]. *)
Definition command_Args (commandPath : string) (args : list string) : outcome unit :=
  if existsb (λ arg, (0 <? String.length arg)%nat) args
  then Err (ErrorString (quote commandPath +:+ " does not take any arguments, got [" +:+
                         join " " (quote <$> args) +:+ "]"))
  else Ok tt.

Definition command_Long : string :=
  "The IBM Cloud controller manager is a daemon that embeds" +:+ String "010"
  "the cloud specific control loops shipped with Kubernetes.".

(** The flags of the framework, with the version flag and the global flags. *)
Definition command_namedFlagSets (s : Options) (initFuncConstructor : gmap string Ctor)
    : NamedFlagSets :=
  let namedFlagSets :=
    options_Flags s (app_ControllerNames initFuncConstructor) app_ControllersDisabledByDefault
      app_ControllerAliases app_AllWebhooks app_DisabledByDefaultWebhooks in
  let namedFlagSets := named_FlagSet "global" AddVersionFlag namedFlagSets in
  named_FlagSet "global" (globalflag_AddGlobalFlags "ibm-cloud-controller-manager") namedFlagSets.

(** [for _, f := range fss.FlagSets { fs.AddFlagSet(f) }]. *)
Definition addFlagSets (draw : nat) (fss : NamedFlagSets) (fs : FlagSet) : FlagSet :=
  foldl flag_AddFlagSet fs (range_map draw (named_FlagSets fss)).*2.

Definition usage_text (useLine : string) : string :=
  "Usage:" +:+ String "010" ("  " +:+ useLine +:+ String "010" "").

Definition command_UsageFunc (namedFlagSets : NamedFlagSets) (cols : Z) (fs : FlagSet)
    : Prog W unit :=
  _ ← stderr (usage_text (cobra_UseLine "ibm-cloud-controller-manager" fs));
  stderr (cliflag_PrintSections namedFlagSets cols).
Definition command_HelpFunc (namedFlagSets : NamedFlagSets) (cols : Z) (fs : FlagSet)
    : Prog W unit :=
  _ ← stdout (command_Long +:+ String "010" (String "010"
                (usage_text (cobra_UseLine "ibm-cloud-controller-manager" fs))));
  stdout (cliflag_PrintSections namedFlagSets cols).

Definition NewCloudControllerManagerCommand (s : Options)
    (cloudInitializer : Completed → Prog W Provider) (initFuncConstructor : gmap string Ctor)
    (additionalFlags : NamedFlagSets) : Prog W (Command W FlagSet) := λ t,
  let namedFlagSets := command_namedFlagSets s initFuncConstructor in
  let fs := addFlagSets 1 additionalFlags (addFlagSets 0 namedFlagSets flag_none) in
  let cols := term_TerminalSize (tm_world t) in
  (Returns {| cmd_Use := "ibm-cloud-controller-manager";
              cmd_Long := command_Long;
              cmd_RunE := command_RunE s cloudInitializer initFuncConstructor;
              cmd_Args := command_Args "ibm-cloud-controller-manager";
              cmd_Flags := fs;
              cmd_UsageFunc := command_UsageFunc namedFlagSets cols fs;
              cmd_HelpFunc := command_HelpFunc namedFlagSets cols fs |}, t).

(** The controllers of this command: the framework's but "route". *)
Definition controllerInitializers : gmap string Ctor :=
  delete "route" app_DefaultInitFuncConstructors.

Definition main : Prog W unit :=
  r ← call options_New;
  match r with
  | inr err =>
      klog_Fatalf ("unable to initialize IBM Cloud controller manager command options: " +:+
                   error_string err)
  | inl ccmOptions =>
      let ccmOptions := options_setProviderName ProviderName ccmOptions in
      command ← NewCloudControllerManagerCommand ccmOptions IBMCloudInitializer
                  controllerInitializers named_none;
      code ← cli_Run command;
      if bool_decide (code ≠ 0%Z) then exit code "" else mret tt
  end.

(** ** Properties *)

(** The code the process ends with; main itself returns no error. *)
Definition exit_code (r : Ended unit) : Z :=
  match r with Returns _ => 0 | Fails _ => 1 | Exits code _ => code end.

(** What the command line library makes of the arguments of the process, with
    the flags of the command: a flag that is not defined or has no valid value,
    the flag --help, or a run with the arguments that are not flags.  (The
    hidden shell completion command of cobra is left aside.) *)
Inductive CommandLine :=
  | BadFlags
  | AsksHelp
  | Runs (args : list string).

(** cli.Run with cobra, as documented: a flag error ends it with code 1; for
    --help it runs the help function only and answers 0; otherwise it checks
    the arguments, runs the command, and answers 0, or 1 after printing the
    error. *)
Definition cli_documented (line : CommandLine) : Prop := ∀ (cmd : Command W FlagSet) t,
  match line with
  | BadFlags => ∃ t', cli_Run cmd t = (Returns 1%Z, t')
  | AsksHelp =>
      match cmd_HelpFunc cmd t with
      | (Returns _, t') => cli_Run cmd t = (Returns 0%Z, t')
      | (Fails _, _) => ∃ t', cli_Run cmd t = (Returns 1%Z, t')
      | (Exits code message, t') => cli_Run cmd t = (Exits code message, t')
      end
  | Runs args =>
      match cmd_Args cmd args with
      | Ok _ =>
          match cmd_RunE cmd args t with
          | (Returns _, t') => cli_Run cmd t = (Returns 0%Z, t')
          | (Fails _, _) => ∃ t', cli_Run cmd t = (Returns 1%Z, t')
          | (Exits code message, t') => cli_Run cmd t = (Exits code message, t')
          end
      | _ => ∃ t', cli_Run cmd t = (Returns 1%Z, t')
      end
  end.

(** What the command does from the world [w] without an error: the provider
    the framework created runs under every controller but "route". *)
Definition command_serves (s : Options) (w : W) : Prop :=
  let constructors := delete "route" app_DefaultInitFuncConstructors in
  ∃ c w1 cloud w2 w3,
    options_Config s (app_ControllerNames constructors)
      app_ControllersDisabledByDefault app_ControllerAliases
      app_AllWebhooks app_DisabledByDefaultWebhooks w = (Ok c, w1) ∧
    (let '(name, file) := config_CloudProvider (config_Complete c) in
     cloudprovider_InitCloudProvider name file w1 = (Ok (Some cloud), w2)) ∧
    app_Run (config_Complete c) cloud
      (app_ConstructControllerInitializers constructors (config_Complete c) cloud) w2
      = (Ok tt, w3).

Lemma command_Args_Ok path args :
  is_Ok (command_Args path args) ↔ Forall (λ arg, arg = "") args.
Proof.
  assert (Forall (λ arg, arg = "") args ↔
    existsb (λ arg, (0 <? String.length arg)%nat) args = false) as ->.
  { rewrite existsb_false. apply Forall_iff. by intros [|c arg]. }
  unfold command_Args. destruct (existsb _ args); split; try done.
  - by intros [? ?].
  - by eexists.
Qed.

Lemma call_returns {A B} (m : W → outcome A * W) (k : A + error → Prog W B) t :
  (call m ≫= k) t =
    let '(r, w) := m (tm_world t) in
    let t' := {| tm_world := w; tm_stdout := tm_stdout t; tm_stderr := tm_stderr t |} in
    match r with
    | Ok a => k (inl a) t'
    | Err err => k (inr err) t'
    | Panic why => (Exits 2 why, t')
    end.
Proof. unfold mbind, Prog_bind, call. by destruct (m (tm_world t)) as [[] ?]. Qed.

Lemma prog_bind {A B} (m : Prog W A) (k : A → Prog W B) t :
  (m ≫= k) t = match m t with
               | (Returns a, t') => k a t'
               | (Fails err, t') => (Fails err, t')
               | (Exits code message, t') => (Exits code message, t')
               end.
Proof. done. Qed.

(** The run of the command succeeds exactly if it serves, or prints its
    version. *)
Lemma command_RunE_succeeds s args t :
  exit_code (command_RunE s IBMCloudInitializer controllerInitializers args t).1 = 0%Z ↔
  versionFlag = true ∨ command_serves s (tm_world t).
Proof.
  unfold command_serves, controllerInitializers.
  unfold command_RunE, PrintVersionAndExitIfRequested. destruct versionFlag.
  { split; [by left|done]. }
  rewrite prog_bind. cbn [mret Prog_ret]. rewrite call_returns.
  destruct (options_Config _ _ _ _ _ _ _) as [[c|e|why] w1]; cbn zeta.
  2-3: by split; [done|intros [?|(? & ? & ? & ? & ? & ? & _)]].
  unfold IBMCloudInitializer.
  destruct (config_CloudProvider (config_Complete c)) as [name file] eqn:Hname.
  rewrite prog_bind, call_returns. cbn [tm_world].
  destruct (cloudprovider_InitCloudProvider name file w1) as [[[cloud|]|e|why] w2] eqn:Hcloud;
    cbn zeta.
  2-4: split; [done|intros [?|(? & ? & ? & ? & ? & [= -> ->] & Hi & _)]; [done|]];
    rewrite Hname in Hi; by rewrite Hcloud in Hi.
  cbn [mret Prog_ret]. rewrite call_returns.
  cbn [tm_world].
  destruct (app_Run _ _ _ w2) as [[[]|e|why] w3] eqn:Hrun; cbn zeta.
  - split; [intros _; right|done]. do 5 eexists. by rewrite Hname.
  - split; [done|]. intros [?|(? & ? & ? & ? & ? & [= -> ->] & Hi & Hr)]; [done|].
    rewrite Hname, Hcloud in Hi. injection Hi as -> ->. by rewrite Hrun in Hr.
  - split; [done|]. intros [?|(? & ? & ? & ? & ? & [= -> ->] & Hi & Hr)]; [done|].
    rewrite Hname, Hcloud in Hi. injection Hi as -> ->. by rewrite Hrun in Hr.
Qed.

(** What main does once it has its options. *)
Definition run_command (s : Options) : Prog W unit :=
  command ← NewCloudControllerManagerCommand s IBMCloudInitializer controllerInitializers named_none;
  code ← cli_Run command;
  if bool_decide (code ≠ 0%Z) then exit code "" else mret tt.

(** --help prints the help on standard output and runs nothing. *)
Lemma run_command_help s t :
  cli_documented AsksHelp →
  (run_command s t).1 = Returns tt ∧ tm_world (run_command s t).2 = tm_world t ∧
  ∃ usage sections, tm_stdout (run_command s t).2
                    = tm_stdout t ++ [command_Long +:+ usage; sections].
Proof.
  intros Hcli. unfold run_command. rewrite prog_bind. unfold NewCloudControllerManagerCommand.
  set (cmd := {| cmd_Use := _ |}). cbv beta iota zeta. rewrite prog_bind.
  specialize (Hcli cmd t). cbn in Hcli. rewrite Hcli. cbn. split_and!; [done..|].
  rewrite <- (assoc_L (++)). by do 2 eexists.
Qed.

(** A run without --help succeeds exactly if its arguments are accepted and the
    command succeeds. *)
Lemma run_command_runs s args t :
  cli_documented (Runs args) →
  exit_code (run_command s t).1 = 0%Z ↔
  Forall (λ arg, arg = "") args ∧ (versionFlag = true ∨ command_serves s (tm_world t)).
Proof.
  intros Hcli. unfold run_command. rewrite prog_bind. unfold NewCloudControllerManagerCommand.
  set (cmd := {| cmd_Use := _ |}). cbv beta iota zeta. rewrite prog_bind.
  specialize (Hcli cmd t). cbv beta iota in Hcli.
  pose proof (command_Args_Ok "ibm-cloud-controller-manager" args) as Hargs.
  pose proof (command_RunE_succeeds s args t) as Hrun.
  change (cmd_Args cmd args) with (command_Args "ibm-cloud-controller-manager" args) in Hcli.
  change (cmd_RunE cmd args) with
    (command_RunE s IBMCloudInitializer controllerInitializers args) in Hcli.
  rewrite <- Hargs, <- Hrun. destruct (command_Args _ args) as [[]|e|why].
  2-3: destruct Hcli as [t' ->]; by split; [|intros [[? ?] _]].
  destruct (command_RunE _ _ _ args t) as [[[]|e|code m] t2].
  - rewrite Hcli. split; [intros _; by split; [eexists|]|done].
  - destruct Hcli as [t' ->]. split; [done|by intros [_ ?]].
  - rewrite Hcli. cbn. split; [intros ?; by split; [eexists|]|by intros [_ ?]].
Qed.

Lemma run_command_bad s t : cli_documented BadFlags → exit_code (run_command s t).1 = 1%Z.
Proof.
  intros Hcli. unfold run_command. rewrite prog_bind. unfold NewCloudControllerManagerCommand.
  set (cmd := {| cmd_Use := _ |}). cbv beta iota zeta. rewrite prog_bind.
  by destruct (Hcli cmd t) as [t' ->].
Qed.

(** C40: when the process ends with code 0.  With --help it always does: it
    prints the help on standard output, and nothing of the framework is run.
    With flags that cannot be parsed it never does.  Otherwise it does exactly
    if it was given no non-empty argument and either prints its version or the
    framework ran, without an error, the provider it created from the options
    named "ibm", with every default controller but "route". *)
Theorem main_exit_zero line t s w :
  cli_documented line → options_New (tm_world t) = (Ok s, w) →
  (exit_code (main t).1 = 0%Z ↔
   match line with
   | BadFlags => False
   | AsksHelp => True
   | Runs args => Forall (λ arg, arg = "") args ∧
       (versionFlag = true ∨ command_serves (options_setProviderName ProviderName s) w)
   end) ∧
  (line = AsksHelp → tm_world (main t).2 = w ∧
     ∃ usage sections, tm_stdout (main t).2 = tm_stdout t ++ [command_Long +:+ usage; sections]).
Proof.
  intros Hcli Hnew. unfold main. rewrite call_returns, Hnew. cbn zeta. cbv beta iota.
  set (s' := options_setProviderName ProviderName s). fold (run_command s').
  set (t1 := {| tm_world := w |}). destruct line as [| |args].
  - split; [|done]. by rewrite run_command_bad.
  - destruct (run_command_help s' t1 Hcli) as (H1 & H2 & H3). split; [|done].
    by rewrite H1.
  - split; [|done]. by apply (run_command_runs s' args t1).
Qed.
End command.

(** A framework whose world says whether its run succeeds. *)
Definition flag_framework (line : CommandLine) :
    Framework bool unit unit unit unit unit (gmap string unit) (list string)
      (gmap string (list string)) := {|
  options_New w := (Ok tt, w);
  options_setProviderName _ s := s;
  options_Config _ _ _ _ _ _ w := (Ok tt, w);
  config_Complete c := c;
  config_CloudProvider _ := ("ibm", "/cloud.conf");
  app_DefaultInitFuncConstructors := <["route" := tt]> {["service" := tt]};
  app_ControllerNames m := elements (dom m);
  app_ControllersDisabledByDefault := [];
  app_ControllerAliases := ∅;
  app_AllWebhooks := [];
  app_DisabledByDefaultWebhooks := [];
  app_ConstructControllerInitializers m _ _ := m;
  app_Run _ _ ctrls w :=
    (if w && bool_decide (dom ctrls = {["service"]}) then Ok tt
     else Err (ErrorString "no controllers"), w);
  cloudprovider_RegisterCloudProvider _ _ w := w;
  cloudprovider_InitCloudProvider _ _ w := (Ok (Some tt), w);
  options_Flags _ _ _ _ _ _ := ∅;
  named_none := ∅;
  named_FlagSet name f m := <[name := f (default [] (m !! name))]> m;
  named_FlagSets m := m;
  flag_none := [];
  flag_BoolVar name _ _ fs := fs ++ [name];
  flag_AddFlagSet fs fs' := fs ++ filter (λ x, x ∉ fs) fs';
  globalflag_AddGlobalFlags _ fs := fs ++ ["help"];
  cobra_UseLine use _ := use;
  term_TerminalSize _ := 80%Z;
  cliflag_PrintSections _ _ := "";
  cli_Run cmd t :=
    let code x :=
      match x with
      | (Returns _, t') => (Returns 0%Z, t')
      | (Fails _, t') => (Returns 1%Z, t')
      | (Exits code message, t') => (Exits code message, t')
      end in
    match line with
    | BadFlags => (Returns 1%Z, t)
    | AsksHelp => code (cmd_HelpFunc cmd t)
    | Runs args =>
        match cmd_Args cmd args with
        | Ok _ => code (cmd_RunE cmd args t)
        | _ => (Returns 1%Z, t)
        end
    end;
|}.

Lemma flag_documented line : @cli_documented _ _ _ _ _ _ _ _ _ (flag_framework line) line.
Proof.
  intros cmd t. destruct line as [| |args]; cbn [cli_Run flag_framework].
  - by eexists.
  - by destruct (cmd_HelpFunc cmd t) as [[[]|e|code m] t']; [|eexists|].
  - destruct (cmd_Args cmd args) as [[]|e|why]; [|by eexists..].
    by destruct (cmd_RunE cmd args t) as [[[]|e|code m] t']; [|eexists|].
Qed.

(** The process with a command line, from a world where its run succeeds or
    not. *)
Definition flag_main (line : CommandLine) (w : bool) : Ended unit * Terminal bool :=
  main (Framework0 := flag_framework line) (H := key_order) false "v1"
    {| tm_world := w; tm_stdout := []; tm_stderr := [] |}.

(** It serves; it prints its help, in a world where it could not serve. *)
Lemma main_exit_zero_witness :
  exit_code (flag_main (Runs []) true).1 = 0%Z ∧ exit_code (flag_main AsksHelp false).1 = 0%Z ∧
  ∃ usage sections, tm_stdout (flag_main AsksHelp false).2 = [command_Long +:+ usage; sections].
Proof.
  destruct (main_exit_zero (Framework0 := flag_framework (Runs [])) (H := key_order) false "v1" (Runs [])
    {| tm_world := true; tm_stdout := []; tm_stderr := [] |} tt true (flag_documented _) eq_refl)
    as [Hruns _].
  destruct (main_exit_zero (Framework0 := flag_framework AsksHelp) (H := key_order) false "v1" AsksHelp
    {| tm_world := false; tm_stdout := []; tm_stderr := [] |} tt false (flag_documented _) eq_refl)
    as [Hhelp Hout].
  split; [|split; [exact (proj2 Hhelp I)|exact (proj2 (Hout eq_refl))]].
  apply Hruns. split; [constructor|]. right. exists tt, true, tt, true, true. by split_and!.
Defined.
